(** * P9-ML membrane computing (ggml-p9ml.c): model and verified properties

    The C program manipulates heap-allocated membranes that point at each
    other (children, parent, namespace) and at tensors borrowed from ggml.
    The model is a typed store, one finite map per struct type, and every
    C function becomes a function in a small monad that threads the store,
    may be undefined (a dereference of a pointer that is not allocated, an
    index outside an array, a division by zero, recursion deeper than the
    fuel) and records, as a trace, the membranes on which a transformation
    pass ran its per-node body.

    Floating-point values are IEEE-754 binary32 numbers, computed with the
    parametric operations of [SpecFloat] at precision 24 and maximal
    exponent 128; every C [float] operation rounds to binary32.

    Tensors belong to ggml. The first model keeps the floats of a tensor
    inside the tensor record, as for a tensor that owns its data. The module
    [Buffers] keeps tensor structs and float buffers apart, so that two
    tensors can point into one buffer as a ggml view and its source do; the
    data-free QAT pass is embedded on both, and what the pass does to the
    floats is stated on the second. *)

From Stdlib Require Import ZArith List Bool Lia Ascii String.
From Stdlib Require Import Floats.SpecFloat.
From stdpp Require Import base gmap list option.

(** ** Machine values *)

Abbreviation addr := positive.

(** A C pointer: [None] is the null pointer. *)
Abbreviation ptr := (option positive).
Abbreviation NULL := (@None positive).

(** binary32: precision 24, maximal exponent 128. *)
Definition f32_add := SFadd 24 128.
Definition f32_sub := SFsub 24 128.
Definition f32_mul := SFmul 24 128.
Definition f32_div := SFdiv 24 128.
Definition f32_leb := SFleb.

(** [(float) n] for an integer [n]: round to nearest, ties to even. *)
Definition f32_of_Z (n : Z) : spec_float := binary_normalize 24 128 n 0 false.

(** The literals of the source. *)
Definition f32_zero : spec_float := S754_zero false.
Definition f32_half : spec_float := S754_finite false 8388608 (-24).
Definition f32_one : spec_float := S754_finite false 8388608 (-23).
Definition f32_two : spec_float := S754_finite false 8388608 (-22).
(** 2^31, the value of [(float)0x7FFFFFFF]. *)
Definition f32_2p31 : spec_float := S754_finite false 8388608 8.
(** 0.1f and 0.001f, the nearest binary32 numbers. *)
Definition f32_0_1 : spec_float := S754_finite false 13421773 (-27).
Definition f32_0_001 : spec_float := S754_finite false 8589935 (-33).

(** Internal constants *)
Definition P9ML_DEFAULT_MAX_CHILDREN : Z := 16.
Definition P9ML_DEFAULT_MAX_OBJECTS : Z := 256.
Definition P9ML_DEFAULT_MAX_RULES : Z := 64.
Definition P9ML_MEMBRANE_NAME_MAX : Z := 64.

(** ** Data model *)

(** Modelled from the spec: [enum ggml_type] is declared in ggml.h, which is
    not among the sources. The passes only distinguish F32 and F16 from
    everything else; the spec names the remaining element types
    [Quantized(kind)] and [Other]. *)
Inductive ggml_type :=
  | GGML_TYPE_F32
  | GGML_TYPE_F16
  | GGML_TYPE_QUANT (kind : Z)
  | GGML_TYPE_OTHER.

Definition ggml_type_eqb (a b : ggml_type) : bool :=
  match a, b with
  | GGML_TYPE_F32, GGML_TYPE_F32 => true
  | GGML_TYPE_F16, GGML_TYPE_F16 => true
  | GGML_TYPE_QUANT k, GGML_TYPE_QUANT k' => Z.eqb k k'
  | GGML_TYPE_OTHER, GGML_TYPE_OTHER => true
  | _, _ => false
  end.

(** Modelled from the spec: [struct ggml_tensor] and [ggml_nelements] belong
    to ggml and are not among the sources. A tensor is the Buffer capability
    of the spec: an element type, an element count (what [ggml_nelements]
    returns) and the data pointer, here the [float] array the passes view it
    as ([None] is a null data pointer). The array is held by the record: no
    two tensors of this store share their data. Tensors that do are the
    subject of the module [Buffers]. *)
Record ggml_tensor := {
  type : ggml_type;
  nelements : Z;
  data : option (list spec_float)
}.

Definition ggml_nelements (t : ggml_tensor) : Z := nelements t.

Record ggml_p9ml_qat_config := {
  target_type : ggml_type;
  noise_scale : spec_float;
  per_channel : bool;
  mixed_precision : bool;
  temperature : spec_float;
  num_steps : Z;
  learning_rate : spec_float;
  tile_size : Z;
  use_reference : bool
}.

(** [char name[64]] is a list of 64 characters; the three arrays are [None]
    while their pointer is null or not yet set. *)
Record ggml_p9ml_membrane := {
  name : list ascii;
  level : Z;
  ctx : ptr;
  ns : ptr;
  parent : ptr;
  children : option (list ptr);
  num_children : Z;
  max_children : Z;
  objects : option (list ptr);
  num_objects : Z;
  max_objects : Z;
  rules : option (list ptr);
  num_rules : Z;
  max_rules : Z;
  qat_config : ptr
}.

Record ggml_p9ml_namespace := {
  ns_name : list ascii;
  ns_root : ptr;
  ns_backend : ptr;
  ns_noise_scale : spec_float;
  ns_target_bits : Z;
  ns_mixed_precision : bool;
  total_params : Z;
  quantized_params : Z;
  compression_ratio : spec_float
}.

(** Field assignments [m->f = v]. *)
Definition set_ns (v : ptr) (m : ggml_p9ml_membrane) : ggml_p9ml_membrane :=
  {| name := name m; level := level m; ctx := ctx m; ns := v; parent := parent m;
     children := children m; num_children := num_children m; max_children := max_children m;
     objects := objects m; num_objects := num_objects m; max_objects := max_objects m;
     rules := rules m; num_rules := num_rules m; max_rules := max_rules m;
     qat_config := qat_config m |}.

Definition set_parent (v : ptr) (m : ggml_p9ml_membrane) : ggml_p9ml_membrane :=
  {| name := name m; level := level m; ctx := ctx m; ns := ns m; parent := v;
     children := children m; num_children := num_children m; max_children := max_children m;
     objects := objects m; num_objects := num_objects m; max_objects := max_objects m;
     rules := rules m; num_rules := num_rules m; max_rules := max_rules m;
     qat_config := qat_config m |}.

Definition set_children (v : option (list ptr)) (m : ggml_p9ml_membrane) : ggml_p9ml_membrane :=
  {| name := name m; level := level m; ctx := ctx m; ns := ns m; parent := parent m;
     children := v; num_children := num_children m; max_children := max_children m;
     objects := objects m; num_objects := num_objects m; max_objects := max_objects m;
     rules := rules m; num_rules := num_rules m; max_rules := max_rules m;
     qat_config := qat_config m |}.

Definition set_num_children (v : Z) (m : ggml_p9ml_membrane) : ggml_p9ml_membrane :=
  {| name := name m; level := level m; ctx := ctx m; ns := ns m; parent := parent m;
     children := children m; num_children := v; max_children := max_children m;
     objects := objects m; num_objects := num_objects m; max_objects := max_objects m;
     rules := rules m; num_rules := num_rules m; max_rules := max_rules m;
     qat_config := qat_config m |}.

Definition set_objects (v : option (list ptr)) (m : ggml_p9ml_membrane) : ggml_p9ml_membrane :=
  {| name := name m; level := level m; ctx := ctx m; ns := ns m; parent := parent m;
     children := children m; num_children := num_children m; max_children := max_children m;
     objects := v; num_objects := num_objects m; max_objects := max_objects m;
     rules := rules m; num_rules := num_rules m; max_rules := max_rules m;
     qat_config := qat_config m |}.

Definition set_num_objects (v : Z) (m : ggml_p9ml_membrane) : ggml_p9ml_membrane :=
  {| name := name m; level := level m; ctx := ctx m; ns := ns m; parent := parent m;
     children := children m; num_children := num_children m; max_children := max_children m;
     objects := objects m; num_objects := v; max_objects := max_objects m;
     rules := rules m; num_rules := num_rules m; max_rules := max_rules m;
     qat_config := qat_config m |}.

Definition set_rules (v : option (list ptr)) (m : ggml_p9ml_membrane) : ggml_p9ml_membrane :=
  {| name := name m; level := level m; ctx := ctx m; ns := ns m; parent := parent m;
     children := children m; num_children := num_children m; max_children := max_children m;
     objects := objects m; num_objects := num_objects m; max_objects := max_objects m;
     rules := v; num_rules := num_rules m; max_rules := max_rules m;
     qat_config := qat_config m |}.

Definition set_qat_config (v : ptr) (m : ggml_p9ml_membrane) : ggml_p9ml_membrane :=
  {| name := name m; level := level m; ctx := ctx m; ns := ns m; parent := parent m;
     children := children m; num_children := num_children m; max_children := max_children m;
     objects := objects m; num_objects := num_objects m; max_objects := max_objects m;
     rules := rules m; num_rules := num_rules m; max_rules := max_rules m;
     qat_config := v |}.

Definition set_ns_root (v : ptr) (n : ggml_p9ml_namespace) : ggml_p9ml_namespace :=
  {| ns_name := ns_name n; ns_root := v; ns_backend := ns_backend n;
     ns_noise_scale := ns_noise_scale n; ns_target_bits := ns_target_bits n;
     ns_mixed_precision := ns_mixed_precision n; total_params := total_params n;
     quantized_params := quantized_params n; compression_ratio := compression_ratio n |}.

Definition set_data (v : option (list spec_float)) (t : ggml_tensor) : ggml_tensor :=
  {| type := type t; nelements := nelements t; data := v |}.

(** ** The store

    [seed] is the [static unsigned int seed] of [ggml_p9ml_generate_noise].
    [malloc_plan] decides the next calls of [malloc], in order: [false] is a
    call that returns NULL; once the plan is used up every call succeeds. *)
Record heap := {
  membranes : gmap addr ggml_p9ml_membrane;
  namespaces : gmap addr ggml_p9ml_namespace;
  configs : gmap addr ggml_p9ml_qat_config;
  tensors : gmap addr ggml_tensor;
  seed : Z;
  malloc_plan : list bool
}.

Definition set_membranes (v : gmap addr ggml_p9ml_membrane) (h : heap) : heap :=
  {| membranes := v; namespaces := namespaces h; configs := configs h;
     tensors := tensors h; seed := seed h; malloc_plan := malloc_plan h |}.
Definition set_namespaces (v : gmap addr ggml_p9ml_namespace) (h : heap) : heap :=
  {| membranes := membranes h; namespaces := v; configs := configs h;
     tensors := tensors h; seed := seed h; malloc_plan := malloc_plan h |}.
Definition set_configs (v : gmap addr ggml_p9ml_qat_config) (h : heap) : heap :=
  {| membranes := membranes h; namespaces := namespaces h; configs := v;
     tensors := tensors h; seed := seed h; malloc_plan := malloc_plan h |}.
Definition set_tensors (v : gmap addr ggml_tensor) (h : heap) : heap :=
  {| membranes := membranes h; namespaces := namespaces h; configs := configs h;
     tensors := v; seed := seed h; malloc_plan := malloc_plan h |}.
Definition set_seed (v : Z) (h : heap) : heap :=
  {| membranes := membranes h; namespaces := namespaces h; configs := configs h;
     tensors := tensors h; seed := v; malloc_plan := malloc_plan h |}.
Definition set_malloc_plan (v : list bool) (h : heap) : heap :=
  {| membranes := membranes h; namespaces := namespaces h; configs := configs h;
     tensors := tensors h; seed := seed h; malloc_plan := v |}.

(** The store at program start: nothing allocated, the seed at its
    initialiser. *)
Definition initial_heap (plan : list bool) : heap :=
  {| membranes := ∅; namespaces := ∅; configs := ∅; tensors := ∅;
     seed := 12345; malloc_plan := plan |}.

(** ** The monad of C computations

    A computation maps a store to [None] (undefined behaviour, or no result
    within the fuel) or to a value, the new store and the trace of membranes
    visited. *)
Definition M (A : Type) : Type := heap → option (A * heap * list addr).

Definition ret {A} (a : A) : M A := λ h, Some (a, h, []).

Definition bind {A B} (m : M A) (f : A → M B) : M B :=
  λ h, match m h with
       | None => None
       | Some (a, h1, t1) =>
           match f a h1 with
           | None => None
           | Some (b, h2, t2) => Some (b, h2, t1 ++ t2)
           end
       end.

Definition undefined {A} : M A := λ _, None.
Definition modify (f : heap → heap) : M unit := λ h, Some (tt, f h, []).
Definition visit (a : addr) : M unit := λ h, Some (tt, h, [a]).

Notation "'let*' x ':=' m 'in' k" := (bind m (λ x, k))
  (at level 10, x name, m at level 100, k at level 200).
Notation "m ';;' k" := (bind m (λ _, k))
  (at level 100, k at level 200, right associativity).

(** Dereferences: [*p] of a pointer that is not allocated is undefined. *)
Definition load_membrane (a : addr) : M ggml_p9ml_membrane :=
  λ h, match membranes h !! a with Some m => Some (m, h, []) | None => None end.
Definition load_namespace (a : addr) : M ggml_p9ml_namespace :=
  λ h, match namespaces h !! a with Some m => Some (m, h, []) | None => None end.
Definition load_config (a : addr) : M ggml_p9ml_qat_config :=
  λ h, match configs h !! a with Some m => Some (m, h, []) | None => None end.
Definition load_tensor (a : addr) : M ggml_tensor :=
  λ h, match tensors h !! a with Some m => Some (m, h, []) | None => None end.

Definition update_membrane (a : addr) (f : ggml_p9ml_membrane → ggml_p9ml_membrane) : M unit :=
  let* m := load_membrane a in
  modify (λ h, set_membranes (<[a := f m]> (membranes h)) h).
Definition update_namespace (a : addr) (f : ggml_p9ml_namespace → ggml_p9ml_namespace) : M unit :=
  let* n := load_namespace a in
  modify (λ h, set_namespaces (<[a := f n]> (namespaces h)) h).
Definition update_tensor (a : addr) (f : ggml_tensor → ggml_tensor) : M unit :=
  let* t := load_tensor a in
  modify (λ h, set_tensors (<[a := f t]> (tensors h)) h).

(** [arr[i]] read and written; a null array or an index outside it is
    undefined. *)
Definition array_get (arr : option (list ptr)) (i : Z) : M ptr :=
  match arr with
  | Some l => if (i <? 0)%Z then undefined
              else match l !! Z.to_nat i with Some p => ret p | None => undefined end
  | None => undefined
  end.

Definition array_set (arr : option (list ptr)) (i : Z) (v : ptr) : M (option (list ptr)) :=
  match arr with
  | Some l => if (i <? 0)%Z then undefined
              else if (Z.to_nat i <? length l)%nat then ret (Some (<[Z.to_nat i := v]> l))
              else undefined
  | None => undefined
  end.

(** [for (int i = 0; i < n; i++) body(i)], with the bound read on entry
    (no loop body of this program changes its own bound). *)
Fixpoint for_from (i : Z) (n : nat) (body : Z → M unit) : M unit :=
  match n with
  | O => ret tt
  | S n' => body i;; for_from (i + 1) n' body
  end.

Definition for_loop (n : Z) (body : Z → M unit) : M unit := for_from 0 (Z.to_nat n) body.

(** [malloc]: the outcome is taken from the plan. *)
Definition malloc : M bool :=
  λ h, match malloc_plan h with
       | [] => Some (true, h, [])
       | b :: plan => Some (b, set_malloc_plan plan h, [])
       end.

(** ** Membrane creation and management *)

(** [strncpy(dest, src, n)] seen from the [n] characters it writes: the
    characters of [src] up to its terminator, then zero padding. [src] holds
    the characters before the terminator of the C string. *)
Fixpoint strncpy (src : list ascii) (n : nat) {struct n} : list ascii :=
  match n with
  | O => []
  | S n' =>
      match src with
      | [] => repeat zero (S n')
      | c :: rest => if Ascii.eqb c zero then repeat zero (S n') else c :: strncpy rest n'
      end
  end.

(** The C string held by a character array: the characters before the first
    zero. *)
Fixpoint c_string (buf : list ascii) : list ascii :=
  match buf with
  | [] => []
  | c :: rest => if Ascii.eqb c zero then [] else c :: c_string rest
  end.

(** [strncpy(name_field, name ? name : dflt, 63); name_field[63] = 0]: the
    first 63 characters are written by [strncpy], the last by the
    assignment, so the field does not depend on what [malloc] returned. *)
Definition init_name (name : option (list ascii)) (dflt : string) : list ascii :=
  let src := match name with Some s => s | None => list_ascii_of_string dflt end in
  <[Z.to_nat (P9ML_MEMBRANE_NAME_MAX - 1) := zero]>
    (strncpy src (Z.to_nat (P9ML_MEMBRANE_NAME_MAX - 1)) ++ [zero]).

(** [malloc] of an array of [n] pointers followed by the [memset] to NULL
    when the block is not null. *)
Definition calloc_array (n : Z) : M (option (list ptr)) :=
  let* ok := malloc in
  if ok then ret (Some (replicate (Z.to_nat n) NULL)) else ret None.

Definition ggml_p9ml_membrane_init_arrays (a : addr) : M unit :=
  let* m := load_membrane a in
  let* cs := calloc_array (max_children m) in
  update_membrane a (set_children cs);;
  let* m := load_membrane a in
  let* os := calloc_array (max_objects m) in
  update_membrane a (set_objects os);;
  let* m := load_membrane a in
  let* rs := calloc_array (max_rules m) in
  update_membrane a (set_rules rs).

Definition ggml_p9ml_membrane_new (name : option (list ascii)) (level : Z) (ctx : ptr) : M ptr :=
  let* ok := malloc in
  if negb ok then ret NULL
  else
    let* a := (λ h, Some (fresh (dom (membranes h)), h, [])) in
    modify (λ h, set_membranes (<[a :=
      {| name := init_name name "unnamed";
         level := level; ctx := ctx; ns := NULL; parent := NULL;
         children := None; num_children := 0; max_children := P9ML_DEFAULT_MAX_CHILDREN;
         objects := None; num_objects := 0; max_objects := P9ML_DEFAULT_MAX_OBJECTS;
         rules := None; num_rules := 0; max_rules := P9ML_DEFAULT_MAX_RULES;
         qat_config := NULL |}]> (membranes h)) h);;
    ggml_p9ml_membrane_init_arrays a;;
    ret (Some a).

Definition ggml_p9ml_membrane_add_child (parent child : ptr) : M Z :=
  match parent, child with
  | Some p, Some c =>
      let* P := load_membrane p in
      if (num_children P >=? max_children P)%Z then ret (-1)%Z
      else
        (* parent->children[parent->num_children] = child; *)
        let* arr := array_set (children P) (num_children P) (Some c) in
        update_membrane p (set_children arr);;
        (* child->parent = parent; *)
        update_membrane c (set_parent (Some p));;
        (* child->ns = parent->ns; *)
        let* P := load_membrane p in
        update_membrane c (set_ns (ns P));;
        (* parent->num_children++; *)
        let* P := load_membrane p in
        update_membrane p (set_num_children (num_children P + 1)%Z);;
        ret 0%Z
  | _, _ => ret (-1)%Z
  end.

Definition ggml_p9ml_membrane_add_object (membrane tensor : ptr) : M Z :=
  match membrane, tensor with
  | Some m, Some t =>
      let* Mb := load_membrane m in
      if (num_objects Mb >=? max_objects Mb)%Z then ret (-1)%Z
      else
        let* arr := array_set (objects Mb) (num_objects Mb) (Some t) in
        update_membrane m (set_objects arr);;
        let* Mb := load_membrane m in
        update_membrane m (set_num_objects (num_objects Mb + 1)%Z);;
        ret 0%Z
  | _, _ => ret (-1)%Z
  end.

(** ** Namespace management *)

Definition ggml_p9ml_namespace_new (name : option (list ascii)) (backend : ptr) : M ptr :=
  let* ok := malloc in
  if negb ok then ret NULL
  else
    let* a := (λ h, Some (fresh (dom (namespaces h)), h, [])) in
    modify (λ h, set_namespaces (<[a :=
      {| ns_name := init_name name "default";
         ns_root := NULL; ns_backend := backend;
         ns_noise_scale := f32_0_1; ns_target_bits := 8; ns_mixed_precision := false;
         total_params := 0; quantized_params := 0; compression_ratio := f32_one |}]>
      (namespaces h)) h);;
    ret (Some a).

Fixpoint ggml_p9ml_propagate_namespace (fuel : nat) (membrane nsp : ptr) : M unit :=
  match fuel with
  | O => undefined
  | S fuel' =>
      match membrane, nsp with
      | Some m, Some _ =>
          update_membrane m (set_ns nsp);;
          let* Mb := load_membrane m in
          for_loop (num_children Mb) (λ i,
            let* Mb := load_membrane m in
            let* c := array_get (children Mb) i in
            match c with
            | Some _ => ggml_p9ml_propagate_namespace fuel' c nsp
            | None => ret tt
            end)
      | _, _ => ret tt
      end
  end.

Definition ggml_p9ml_namespace_set_root (fuel : nat) (nsp root : ptr) : M Z :=
  match nsp, root with
  | Some n, Some _ =>
      update_namespace n (set_ns_root root);;
      ggml_p9ml_propagate_namespace fuel root nsp;;
      ret 0%Z
  | _, _ => ret (-1)%Z
  end.

(** ** Data-free QAT *)

Definition ggml_p9ml_qat_config_new (target : ggml_type) (scale : spec_float) : M ptr :=
  let* ok := malloc in
  if negb ok then ret NULL
  else
    let* a := (λ h, Some (fresh (dom (configs h)), h, [])) in
    modify (λ h, set_configs (<[a :=
      {| target_type := target; noise_scale := scale;
         per_channel := true; mixed_precision := false;
         temperature := f32_one; num_steps := 100; learning_rate := f32_0_001;
         tile_size := 3; use_reference := true |}]> (configs h)) h);;
    ret (Some a).

(** [seed = seed * 1103515245 + 12345] on [unsigned int]: modulo 2^32. *)
Definition next_seed (s : Z) : Z := ((s * 1103515245 + 12345) mod 2 ^ 32)%Z.

(** [(float)(seed & 0x7FFFFFFF) / (float)0x7FFFFFFF], then
    [(normalized - 0.5f) * 2.0f * scale]. *)
Definition noise_of_seed (s : Z) (scale : spec_float) : spec_float :=
  let normalized := f32_div (f32_of_Z (Z.land s 0x7FFFFFFF)) (f32_of_Z 0x7FFFFFFF) in
  f32_mul (f32_mul (f32_sub normalized f32_half) f32_two) scale.

Definition ggml_p9ml_generate_noise (scale : spec_float) : M spec_float :=
  λ h, let s := next_seed (seed h) in
       Some (noise_of_seed s scale, set_seed s h, []).

(** [for (j = 0; j < n; j++) data[j] += ggml_p9ml_generate_noise(scale)]:
    reading past the end of the array is undefined. *)
Fixpoint add_noise (n : nat) (d : list spec_float) (scale : spec_float) {struct n} :
  M (list spec_float) :=
  match n with
  | O => ret d
  | S n' =>
      match d with
      | [] => undefined
      | x :: rest =>
          let* nz := ggml_p9ml_generate_noise scale in
          let* rest' := add_noise n' rest scale in
          ret (f32_add x nz :: rest')
      end
  end.

(** [tensor->type != GGML_TYPE_F32 && tensor->type != GGML_TYPE_F16] *)
Definition not_quantizable (t : ggml_tensor) : bool :=
  negb (ggml_type_eqb (type t) GGML_TYPE_F32) && negb (ggml_type_eqb (type t) GGML_TYPE_F16).

(** The body of the loop over the objects of membrane [m]. *)
Definition qat_object (m : addr) (c : addr) (i : Z) : M unit :=
  let* Mb := load_membrane m in
  let* t := array_get (objects Mb) i in
  match t with
  | None => ret tt
  | Some ta =>
      let* T := load_tensor ta in
      if not_quantizable T then ret tt
      else
        match data T with
        | None => ret tt
        | Some d =>
            let* cfg := load_config c in
            let* d' := add_noise (Z.to_nat (ggml_nelements T)) d (noise_scale cfg) in
            update_tensor ta (set_data (Some d'))
        end
  end.

(** The copy of the config made for a membrane without one; the result is
    [false] when [malloc] returned NULL. *)
Definition qat_store_config (m : addr) (c : addr) : M bool :=
  let* Mb := load_membrane m in
  match qat_config Mb with
  | Some _ => ret true
  | None =>
      let* ok := malloc in
      if negb ok then ret false
      else
        let* q := (λ h, Some (fresh (dom (configs h)), h, [])) in
        update_membrane m (set_qat_config (Some q));;
        let* cfg := load_config c in
        modify (λ h, set_configs (<[q := cfg]> (configs h)) h);;
        ret true
  end.

Fixpoint ggml_p9ml_apply_data_free_qat (fuel : nat) (membrane config : ptr) : M Z :=
  match fuel with
  | O => undefined
  | S fuel' =>
      match membrane, config with
      | Some m, Some c =>
          visit m;;
          let* stored := qat_store_config m c in
          if negb stored then ret (-1)%Z
          else
            let* Mb := load_membrane m in
            for_loop (num_objects Mb) (qat_object m c);;
            let* Mb := load_membrane m in
            for_loop (num_children Mb) (λ i,
              let* Mb := load_membrane m in
              let* ch := array_get (children Mb) i in
              ggml_p9ml_apply_data_free_qat fuel' ch config;; ret tt);;
            ret 0%Z
      | _, _ => ret (-1)%Z
      end
  end.

(** Conversion to [size_t]. *)
Definition size_t (n : Z) : Z := (n mod 2 ^ 64)%Z.

Definition ggml_p9ml_forward_tiled_qat (membrane config reference : ptr) : M Z :=
  match membrane, config with
  | Some m, Some c =>
      visit m;;
      let* cfg := load_config c in
      let tile := tile_size cfg in
      let* Mb := load_membrane m in
      for_loop (num_objects Mb) (λ i,
        let* Mb := load_membrane m in
        let* t := array_get (objects Mb) i in
        match t with
        | None => ret tt
        | Some ta =>
            let* T := load_tensor ta in
            let n_elements := size_t (ggml_nelements T) in
            (* n_tiles = (n_elements + tile_size - 1) / tile_size *)
            if (size_t tile =? 0)%Z then undefined
            else
              let n_tiles := (size_t (n_elements + size_t tile - 1) / size_t tile)%Z in
              for_loop n_tiles (λ tile_index, ret tt)
        end);;
      ret 0%Z
  | _, _ => ret (-1)%Z
  end.

Definition ggml_p9ml_mixed_precision_quantize (membrane : ptr) (quality_threshold : spec_float) : M Z :=
  match membrane with
  | Some m =>
      visit m;;
      let* Mb := load_membrane m in
      for_loop (num_objects Mb) (λ i,
        let* Mb := load_membrane m in
        let* t := array_get (objects Mb) i in
        match t with
        | None => ret tt
        | Some ta =>
            let* T := load_tensor ta in
            if (size_t (ggml_nelements T) >? 1000000)%Z then ret tt else ret tt
        end);;
      ret 0%Z
  | None => ret (-1)%Z
  end.

(** ** Membrane evolution *)

Fixpoint ggml_p9ml_membrane_evolve (fuel : nat) (membrane : ptr) : M Z :=
  match fuel with
  | O => undefined
  | S fuel' =>
      match membrane with
      | Some m =>
          visit m;;
          let* Mb := load_membrane m in
          for_loop (num_children Mb) (λ i,
            let* Mb := load_membrane m in
            let* ch := array_get (children Mb) i in
            ggml_p9ml_membrane_evolve fuel' ch;; ret tt);;
          ret 0%Z
      | None => ret (-1)%Z
      end
  end.

(** ** Release

    [free (p)]: the block leaves the store. [free] of a pointer that is not
    allocated, because it was freed before or never came from [malloc], is
    undefined. *)
Definition free_membrane (a : addr) : M unit :=
  let* _ := load_membrane a in
  modify (λ h, set_membranes (delete a (membranes h)) h).
Definition free_namespace (a : addr) : M unit :=
  let* _ := load_namespace a in
  modify (λ h, set_namespaces (delete a (namespaces h)) h).
Definition free_config (a : addr) : M unit :=
  let* _ := load_config a in
  modify (λ h, set_configs (delete a (configs h)) h).

Definition ggml_p9ml_qat_config_free (config : ptr) : M unit :=
  match config with
  | Some c => free_config c
  | None => ret tt
  end.

Definition ggml_p9ml_namespace_free (nsp : ptr) : M unit :=
  match nsp with
  | Some n => free_namespace n
  | None => ret tt
  end.

(** The three arrays of a membrane are held inside its record, and no other
    membrane can point at them: they leave the store with the record. What
    is left of [free_arrays] is the reading of the three fields. *)
Definition ggml_p9ml_membrane_free_arrays (m : addr) : M unit :=
  let* _ := load_membrane m in
  ret tt.

Fixpoint ggml_p9ml_membrane_free (fuel : nat) (membrane : ptr) : M unit :=
  match fuel with
  | O => undefined
  | S fuel' =>
      match membrane with
      | None => ret tt
      | Some m =>
          let* Mb := load_membrane m in
          for_loop (num_children Mb) (λ i,
            let* Mb := load_membrane m in
            let* ch := array_get (children Mb) i in
            match ch with
            | Some _ => ggml_p9ml_membrane_free fuel' ch
            | None => ret tt
            end);;
          let* Mb := load_membrane m in
          match qat_config Mb with
          | Some _ => ggml_p9ml_qat_config_free (qat_config Mb)
          | None => ret tt
          end;;
          ggml_p9ml_membrane_free_arrays m;;
          free_membrane m
      end
  end.

(** ** Synthetic data

    [ggml_p9ml_generate_synthetic_data] calls into ggml: [ggml_new_tensor_1d]
    to [ggml_new_tensor_4d], taken together as one function of the context,
    the type and the list of dimensions. The code of ggml is not part of
    this program, so this function is a parameter of the model. *)

(** [shape[i]] *)
Definition shape_at (shape : list Z) (i : nat) : M Z :=
  match shape !! i with
  | Some v => ret v
  | None => undefined
  end.

(** [for (i = 0; i < n; i++) data[i] = ggml_p9ml_generate_noise(scale)] *)
Fixpoint fill_noise (n : nat) (d : list spec_float) (scale : spec_float) {struct n} :
  M (list spec_float) :=
  match n with
  | O => ret d
  | S n' =>
      match d with
      | [] => undefined
      | _ :: rest =>
          let* nz := ggml_p9ml_generate_noise scale in
          let* rest' := fill_noise n' rest scale in
          ret (nz :: rest')
      end
  end.

Section Ggml.
Variable ggml_new_tensor : ptr → ggml_type → list Z → M ptr.

(** The [switch] on [n_dims]; its [default] returns NULL at once, as does a
    null tensor after the [switch]. *)
Definition ggml_p9ml_generate_synthetic_data (ctx : ptr) (shape : option (list Z)) (n_dims : Z)
    (noise_scale : spec_float) : M ptr :=
  match ctx, shape with
  | Some _, Some sh =>
      if (n_dims <=? 0)%Z then ret NULL
      else
        let* tensor :=
          (if (n_dims =? 1)%Z then
             let* s0 := shape_at sh 0 in
             ggml_new_tensor ctx GGML_TYPE_F32 [s0]
           else if (n_dims =? 2)%Z then
             let* s0 := shape_at sh 0 in
             let* s1 := shape_at sh 1 in
             ggml_new_tensor ctx GGML_TYPE_F32 [s0; s1]
           else if (n_dims =? 3)%Z then
             let* s0 := shape_at sh 0 in
             let* s1 := shape_at sh 1 in
             let* s2 := shape_at sh 2 in
             ggml_new_tensor ctx GGML_TYPE_F32 [s0; s1; s2]
           else if (n_dims =? 4)%Z then
             let* s0 := shape_at sh 0 in
             let* s1 := shape_at sh 1 in
             let* s2 := shape_at sh 2 in
             let* s3 := shape_at sh 3 in
             ggml_new_tensor ctx GGML_TYPE_F32 [s0; s1; s2; s3]
           else ret NULL) in
        match tensor with
        | None => ret NULL
        | Some ta =>
            let* T := load_tensor ta in
            match data T with
            | None => ret tensor
            | Some d =>
                let* d' := fill_noise (Z.to_nat (size_t (ggml_nelements T))) d noise_scale in
                update_tensor ta (set_data (Some d'));;
                ret tensor
            end
        end
  | _, _ => ret NULL
  end.

End Ggml.

(** * Specification vocabulary *)

(** What a name field holds after construction from [given] (or from the
    default when [given] is the null pointer). *)
Definition stored_name (given : option (list ascii)) (dflt : string) (buf : list ascii) : Prop :=
  length buf = 64%nat ∧
  buf !! 63%nat = Some zero ∧
  (length (c_string buf) ≤ 63)%nat ∧
  match given with
  | None => c_string buf = list_ascii_of_string dflt
  | Some s => c_string buf = take 63 (c_string s)
  end.


(** The membrane as [ggml_p9ml_membrane_new] leaves it, with the three
    arrays as allocated. *)
Definition new_membrane (given : option (list ascii)) (lvl : Z) (cx : ptr)
    (cs os rs : option (list ptr)) : ggml_p9ml_membrane :=
  {| name := init_name given "unnamed";
     level := lvl; ctx := cx; ns := NULL; parent := NULL;
     children := cs; num_children := 0; max_children := P9ML_DEFAULT_MAX_CHILDREN;
     objects := os; num_objects := 0; max_objects := P9ML_DEFAULT_MAX_OBJECTS;
     rules := rs; num_rules := 0; max_rules := P9ML_DEFAULT_MAX_RULES;
     qat_config := NULL |}.


(** A relation between the store before and the store after that every
    terminating run of a computation maintains. *)
Definition respects (R : heap → heap → Prop) {A} (m : M A) : Prop :=
  ∀ h a h' t, m h = Some (a, h', t) → R h h'.

(** The invariant of a membrane built by [ggml_p9ml_membrane_new] with its
    arrays allocated and filled through [add_child] and [add_object]: each
    array has its capacity as length and each count lies within it. *)
Definition membrane_ok (m : ggml_p9ml_membrane) : Prop :=
  (∃ cs, children m = Some cs ∧ Z.of_nat (length cs) = max_children m) ∧
  (∃ os, objects m = Some os ∧ Z.of_nat (length os) = max_objects m) ∧
  (0 ≤ num_children m ≤ max_children m)%Z ∧
  (0 ≤ num_objects m ≤ max_objects m)%Z.

(** The effect of a successful [add_child]. *)
Record child_attached (h h' : heap) (p c : addr) (P : ggml_p9ml_membrane) (cs : list ptr) : Prop := {
  attached_child : ∃ C', membranes h' !! c = Some C' ∧ parent C' = Some p ∧ ns C' = ns P;
  attached_parent : ∃ P', membranes h' !! p = Some P' ∧
      children P' = Some (<[Z.to_nat (num_children P) := Some c]> cs) ∧
      num_children P' = (num_children P + 1)%Z ∧
      max_children P' = max_children P ∧
      objects P' = objects P ∧ num_objects P' = num_objects P ∧
      max_objects P' = max_objects P ∧
      (p ≠ c → ns P' = ns P ∧ parent P' = parent P);
  attached_others : ∀ b, b ≠ p → b ≠ c → membranes h' !! b = membranes h !! b;
  attached_rest : namespaces h' = namespaces h ∧ configs h' = configs h ∧
      tensors h' = tensors h ∧ seed h' = seed h ∧ malloc_plan h' = malloc_plan h
}.

(** The pointers read by [for (i = 0; i < n; i++) ... arr[i] ...]: [None]
    when some index falls outside the array or the array is null. *)
Definition read_ptrs (arr : option (list ptr)) (n : Z) : option (list ptr) :=
  if (n <=? 0)%Z then Some []
  else match arr with
       | Some l => if (Z.to_nat n <=? length l)%nat then Some (take (Z.to_nat n) l) else None
       | None => None
       end.

(** Well-formed membrane trees. [tree_ok chk d h a] holds when the membranes
    reached from [a] through child pointers are allocated, are at most [d]
    levels deep (so there is no cycle), have their child arrays in bounds
    and each satisfy [chk]. Null child entries are allowed. *)
Fixpoint tree_ok (chk : heap → ggml_p9ml_membrane → bool) (d : nat) (h : heap) (a : addr) : bool :=
  match d with
  | O => false
  | S d' =>
      match membranes h !! a with
      | None => false
      | Some m =>
          chk h m &&
          match read_ptrs (children m) (num_children m) with
          | None => false
          | Some cs =>
              forallb (λ c, match c with
                            | Some c' => tree_ok chk d' h c'
                            | None => true
                            end) cs
          end
      end
  end.

Definition links_only (h : heap) (m : ggml_p9ml_membrane) : bool := true.

(** A tensor on which the noise loop stays inside the data array. *)
Definition tensor_ok (T : ggml_tensor) : bool :=
  not_quantizable T ||
  match data T with
  | None => true
  | Some d => (Z.to_nat (ggml_nelements T) <=? length d)%nat
  end.

(** The object array is in bounds and its non-null entries point at
    allocated tensors that satisfy [tensor_ok]. *)
Definition objects_ok (h : heap) (m : ggml_p9ml_membrane) : bool :=
  match read_ptrs (objects m) (num_objects m) with
  | None => false
  | Some ts =>
      forallb (λ t, match t with
                    | Some ta => match tensors h !! ta with
                                 | Some T => tensor_ok T
                                 | None => false
                                 end
                    | None => true
                    end) ts
  end.

(** The membranes of the tree under [a] in preorder: a node, then the
    subtrees of its children in array order. *)
Fixpoint preorder (d : nat) (h : heap) (a : addr) : list addr :=
  match d with
  | O => []
  | S d' =>
      a :: match membranes h !! a with
           | Some m =>
               match read_ptrs (children m) (num_children m) with
               | Some cs => flat_map (λ c, match c with
                                           | Some c' => preorder d' h c'
                                           | None => []
                                           end) cs
               | None => []
               end
           | None => []
           end
  end.

(** [reachable h a b]: [b] is [a] or a descendant of [a]. *)
Inductive reachable (h : heap) : addr → addr → Prop :=
  | reachable_here a : reachable h a a
  | reachable_child a m cs i c b :
      membranes h !! a = Some m → children m = Some cs →
      (0 ≤ i < num_children m)%Z → cs !! Z.to_nat i = Some (Some c) →
      reachable h c b → reachable h a b.

(** The fields that decide which membranes and tensors a traversal reads. *)
Definition links (m : ggml_p9ml_membrane) : option (list ptr) * Z * option (list ptr) * Z :=
  (children m, num_children m, objects m, num_objects m).

Definition same_links (h h' : heap) : Prop :=
  ∀ a, links <$> membranes h' !! a = links <$> membranes h !! a.

Definition shape (T : ggml_tensor) : ggml_type * Z * option nat :=
  (type T, nelements T, length <$> data T).

Definition same_shapes (h h' : heap) : Prop :=
  ∀ t, shape <$> tensors h' !! t = shape <$> tensors h !! t.

(** Membrane [b] is allocated and refers to namespace [n]. *)
Definition has_ns (h : heap) (b : addr) (n : addr) : Prop :=
  ∃ B, membranes h !! b = Some B ∧ ns B = Some n.

(** What namespace propagation towards [n] may change: the [ns] field of
    allocated membranes, and only to [n]. *)
Definition ns_frame (n : addr) (h h' : heap) : Prop :=
  (∀ b, match membranes h !! b, membranes h' !! b with
        | Some m, Some m' => set_ns NULL m' = set_ns NULL m ∧ (ns m' = ns m ∨ ns m' = Some n)
        | None, None => True
        | _, _ => False
        end) ∧
  namespaces h' = namespaces h ∧ configs h' = configs h ∧ tensors h' = tensors h ∧
  seed h' = seed h ∧ malloc_plan h' = malloc_plan h.

(** Membrane [b] is allocated and has a stored config. *)
Definition has_config (h : heap) (b : addr) : Prop :=
  ∃ B q, membranes h !! b = Some B ∧ qat_config B = Some q.

(** What a run of the data-free QAT pass with the config [cfg] at address
    [c] may change. A membrane keeps every field but [qat_config], and keeps
    that one too unless it was null, in which case it may now point at a
    block that was not allocated before and holds a copy of [cfg]. Allocated
    configs keep their contents. A tensor keeps its type, element count and
    data length, and a tensor that is not F32 or F16 keeps its data. *)
Definition qat_frame (c : addr) (cfg : ggml_p9ml_qat_config) (h h' : heap) : Prop :=
  configs h !! c = Some cfg →
  (∀ b, match membranes h !! b, membranes h' !! b with
        | Some m, Some m' =>
            set_qat_config NULL m' = set_qat_config NULL m ∧
            (qat_config m' = qat_config m ∨
             (qat_config m = NULL ∧
              ∃ q, qat_config m' = Some q ∧ configs h !! q = None ∧ configs h' !! q = Some cfg))
        | None, None => True
        | _, _ => False
        end) ∧
  configs h ⊆ configs h' ∧
  (∀ t, match tensors h !! t, tensors h' !! t with
        | Some T, Some T' => shape T' = shape T ∧ (not_quantizable T = true → T' = T)
        | None, None => True
        | _, _ => False
        end) ∧
  namespaces h' = namespaces h ∧
  (malloc_plan h = [] → malloc_plan h' = []).

(** The first [n] values drawn by [ggml_p9ml_generate_noise] when the seed
    is [s], and the seed after [n] draws. *)
Fixpoint noises (n : nat) (s : Z) (scale : spec_float) : list spec_float :=
  match n with
  | O => []
  | S n' => noise_of_seed (next_seed s) scale :: noises n' (next_seed s) scale
  end.

Fixpoint seed_after (n : nat) (s : Z) : Z :=
  match n with
  | O => s
  | S n' => seed_after n' (next_seed s)
  end.

(** The data of a tensor after the noise loop over its first [n] elements,
    the seed being [s] when the loop starts. *)
Definition perturbed (n : nat) (d : list spec_float) (s : Z) (scale : spec_float) :
    list spec_float :=
  zip_with f32_add (take n d) (noises n s scale) ++ drop n d.

(** The store after the object loop body has perturbed tensor [ta]. *)
Definition noised (h : heap) (ta : addr) (T : ggml_tensor) (d : list spec_float)
    (scale : spec_float) : heap :=
  set_tensors
    (<[ta := set_data (Some (perturbed (Z.to_nat (ggml_nelements T)) d (seed h) scale)) T]>
       (tensors h))
    (set_seed (seed_after (Z.to_nat (ggml_nelements T)) (seed h)) h).

(** The store after [qat_store_config] has given membrane [m] a copy of
    [cfg] in a block obtained from [malloc]. *)
Definition config_stored (h : heap) (m : addr) (Mb : ggml_p9ml_membrane)
    (cfg : ggml_p9ml_qat_config) : heap :=
  let q := fresh (dom (configs h)) in
  set_configs (<[q := cfg]> (configs h))
    (set_membranes (<[m := set_qat_config (Some q) Mb]> (membranes h))
       (set_malloc_plan (tl (malloc_plan h)) h)).


(** ** Concrete stores

    A membrane as the constructor and [add_child] / [add_object] build it:
    capacities 16, 256 and 64, the given children and objects at the front
    of their arrays. *)
Definition mk_membrane (nm : string) (lvl : Z) (par nsp : ptr) (kids objs : list ptr)
    (cfgp : ptr) : ggml_p9ml_membrane :=
  {| name := init_name (Some (list_ascii_of_string nm)) "unnamed";
     level := lvl; ctx := NULL; ns := nsp; parent := par;
     children := Some (kids ++ replicate (16 - length kids) NULL);
     num_children := Z.of_nat (length kids); max_children := P9ML_DEFAULT_MAX_CHILDREN;
     objects := Some (objs ++ replicate (256 - length objs) NULL);
     num_objects := Z.of_nat (length objs); max_objects := P9ML_DEFAULT_MAX_OBJECTS;
     rules := Some (replicate 64 NULL); num_rules := 0; max_rules := P9ML_DEFAULT_MAX_RULES;
     qat_config := cfgp |}.

(** What [ggml_p9ml_qat_config_new] builds. *)
Definition mk_config (target : ggml_type) (scale : spec_float) : ggml_p9ml_qat_config :=
  {| target_type := target; noise_scale := scale;
     per_channel := true; mixed_precision := false;
     temperature := f32_one; num_steps := 100; learning_rate := f32_0_001;
     tile_size := 3; use_reference := true |}.

Definition mk_namespace (nm : string) : ggml_p9ml_namespace :=
  {| ns_name := init_name (Some (list_ascii_of_string nm)) "default";
     ns_root := NULL; ns_backend := NULL;
     ns_noise_scale := f32_0_1; ns_target_bits := 8; ns_mixed_precision := false;
     total_params := 0; quantized_params := 0; compression_ratio := f32_one |}.

Definition demo_config : ggml_p9ml_qat_config := mk_config (GGML_TYPE_QUANT 2) f32_0_1.
Definition demo_config2 : ggml_p9ml_qat_config := mk_config (GGML_TYPE_QUANT 3) f32_half.

Definition demo_f32 : ggml_tensor :=
  {| type := GGML_TYPE_F32; nelements := 3; data := Some [f32_one; f32_one; f32_one] |}.
Definition demo_quant : ggml_tensor :=
  {| type := GGML_TYPE_QUANT 2; nelements := 2; data := Some [f32_one; f32_two] |}.

(** A root (1) with children A (2) and B (3); A holds an F32 tensor (1) and
    a quantized tensor (2); two configs and one namespace are allocated; no
    membrane has a config or a namespace yet. *)
Definition demo_tree : heap :=
  {| membranes :=
       <[1%positive := mk_membrane "root" 0 NULL NULL [Some 2%positive; Some 3%positive] [] NULL]>
       (<[2%positive := mk_membrane "A" 1 (Some 1%positive) NULL []
                          [Some 1%positive; Some 2%positive] NULL]>
       (<[3%positive := mk_membrane "B" 1 (Some 1%positive) NULL [] [] NULL]> ∅));
     namespaces := {[ 1%positive := mk_namespace "workspace" ]};
     configs := <[1%positive := demo_config]> (<[2%positive := demo_config2]> ∅);
     tensors := <[1%positive := demo_f32]> (<[2%positive := demo_quant]> ∅);
     seed := 12345; malloc_plan := [] |}.

(** Three membranes not yet attached to each other; the third already
    refers to namespace 1. *)
Definition demo_loose : heap :=
  {| membranes :=
       <[1%positive := mk_membrane "parent" 0 NULL NULL [] [] NULL]>
       (<[2%positive := mk_membrane "child" 1 NULL NULL [] [] NULL]>
       (<[3%positive := mk_membrane "top" 0 NULL (Some 1%positive) [] [] NULL]> ∅));
     namespaces := {[ 1%positive := mk_namespace "workspace" ]};
     configs := ∅; tensors := ∅; seed := 12345; malloc_plan := [] |}.

(** [demo_loose] after [add_child (1, 2)], and then after [add_child (3, 1)]. *)
Definition demo_attached : heap :=
  match ggml_p9ml_membrane_add_child (Some 1%positive) (Some 2%positive) demo_loose with
  | Some (_, h, _) => h
  | None => demo_loose
  end.

Definition demo_regrafted : heap :=
  match ggml_p9ml_membrane_add_child (Some 3%positive) (Some 1%positive) demo_attached with
  | Some (_, h, _) => h
  | None => demo_attached
  end.

(** One membrane without a config, one config, and a [malloc] that will
    return NULL. *)
Definition demo_oom : heap :=
  {| membranes := {[ 1%positive := mk_membrane "root" 0 NULL NULL [] [] NULL ]};
     namespaces := ∅; configs := {[ 1%positive := demo_config ]};
     tensors := ∅; seed := 12345; malloc_plan := [false] |}.


(** One membrane to which the same F32 tensor of two elements, both 1.0, was
    added twice. *)
Definition demo_twice : heap :=
  {| membranes := {[ 1%positive := mk_membrane "root" 0 NULL NULL []
                                     [Some 1%positive; Some 1%positive] NULL ]};
     namespaces := ∅; configs := {[ 1%positive := demo_config ]};
     tensors := {[ 1%positive :=
       {| type := GGML_TYPE_F32; nelements := 2; data := Some [f32_one; f32_one] |} ]};
     seed := 12345; malloc_plan := [] |}.

(** ** binary32 numbers as integers

    The order and the value of binary32 numbers, and rounding to nearest
    even written on integers. *)

Local Open Scope Z_scope.

(** [m / 2^n] rounded to the nearest integer, ties to the even one. *)
Definition rne (m n : Z) : Z :=
  let q := m / 2 ^ n in
  let r := m mod 2 ^ n in
  if 2 * r <? 2 ^ n then q
  else if 2 ^ n <? 2 * r then q + 1
  else if Z.even q then q else q + 1.

(** The exponent of the binary32 numbers with [x] digits before the point. *)
Definition fexp32 (x : Z) : Z := Z.max (x - 24) (-149).

(** The significand of [m * 2^e] rounded at exponent [t]. *)
Definition sig_at (m e t : Z) : Z :=
  if t <=? e then m * 2 ^ (e - t) else rne m (t - e).

(** What rounding [m * 2^e] to binary32 yields, as a closed formula. *)
Definition round_spec (sx : bool) (m e : Z) : spec_float :=
  let t := fexp32 (Zdigits2 m + e) in
  let q := sig_at m e t in
  if q =? 0 then S754_zero sx
  else if q =? 2 ^ 24 then
    if t + 1 <=? 104 then S754_finite sx (Z.to_pos (2 ^ 23)) (t + 1) else S754_infinity sx
  else if t <=? 104 then S754_finite sx (Z.to_pos q) t else S754_infinity sx.

Definition sgn (s : bool) (z : Z) : Z := if s then - z else z.

(** The position of a float in the order of binary32 numbers. *)
Definition ord (x : spec_float) : Z :=
  match x with
  | S754_zero _ => 0
  | S754_nan => 0
  | S754_infinity s => sgn s (255 * 2 ^ 23)
  | S754_finite s m e => sgn s (Zpos m + (e + 149) * 2 ^ 23)
  end.

(** The value of a finite float, in units of 2^-149. *)
Definition val (x : spec_float) : Z :=
  match x with
  | S754_finite s m e => sgn s (Zpos m * 2 ^ (e + 149))
  | _ => 0
  end.

(** The position of the rounding of [m * 2^e]. *)
Definition rnd_ord (m e : Z) : Z :=
  let t := fexp32 (Zdigits2 m + e) in
  Z.min (sig_at m e t + (t + 149) * 2 ^ 23) (255 * 2 ^ 23).

Definition is_nan (x : spec_float) : bool :=
  match x with S754_nan => true | _ => false end.

(** Zero or a finite number. *)
Definition is_finite (x : spec_float) : bool :=
  match x with S754_zero _ | S754_finite _ _ _ => true | _ => false end.

(** A well-formed binary32 datum that is not NaN. *)
Definition valid32 (x : spec_float) : bool := valid_binary 24 128 x && negb (is_nan x).

(** Rounding of the value [V * 2^-K], as a position in the order. *)
Definition Rk (K V : Z) : Z :=
  if V =? 0 then 0 else if 0 <? V then rnd_ord V (- K) else - rnd_ord (- V) (- K).

(** A scale that is a binary32 number, finite and not negative. *)
Definition nonneg_finite (s : spec_float) : bool :=
  match s with
  | S754_zero _ => true
  | S754_finite false m e => bounded 24 128 m e
  | _ => false
  end.

(** A binary32 number that is finite. *)
Definition finite32 (x : spec_float) : bool := valid32 x && is_finite x.

Definition is_zero (x : spec_float) : bool :=
  match x with S754_zero _ => true | _ => false end.

(** The same number, up to the sign of zero. *)
Definition same_value (x x' : spec_float) : Prop :=
  x' = x \/ (is_zero x = true /\ is_zero x' = true).

Local Close Scope Z_scope.

(** ** Perturbations of a tensor

    The object pointers that the object loop of membrane [b] reads. *)
Definition objects_of (h : heap) (b : addr) : list ptr :=
  match membranes h !! b with
  | Some m => default [] (read_ptrs (objects m) (num_objects m))
  | None => []
  end.

(** How many entries of [l] point at tensor [ta]. *)
Fixpoint occurrences_in (ta : addr) (l : list ptr) : nat :=
  match l with
  | [] => O
  | p :: l' => ((if decide (p = Some ta) then 1 else 0) + occurrences_in ta l')%nat
  end.

(** How many times a traversal of the tree under [a] meets tensor [ta]: the
    entries of the object arrays of the membranes in preorder that point at
    it, a tensor added twice being counted twice. *)
Definition occurrences (d : nat) (h : heap) (a : addr) (ta : addr) : nat :=
  occurrences_in ta (flat_map (objects_of h) (preorder d h a)).

(** [noised_times n scale d k d']: the data [d'] is the data [d] after [k]
    runs of the noise loop over its first [n] elements, each run starting
    from some seed. *)
Inductive noised_times (n : nat) (scale : spec_float) (d : list spec_float) :
    nat → list spec_float → Prop :=
  | noised_0 : noised_times n scale d 0 d
  | noised_S k d' s : noised_times n scale d k d' →
      noised_times n scale d (S k) (perturbed n d' s scale).

(** In the store [h'] tensor [ta] has the type and element count of [T] and
    holds the data [dd] after [k] runs of the noise loop. *)
Definition noised_by (ta : addr) (T : ggml_tensor) (scale : spec_float)
    (dd : list spec_float) (k : nat) (h' : heap) : Prop :=
  ∃ T' dd', tensors h' !! ta = Some T' ∧ type T' = type T ∧ nelements T' = nelements T ∧
    data T' = Some dd' ∧ noised_times (Z.to_nat (ggml_nelements T)) scale dd k dd'.

(** The element [x'] lies between the binary32 values of [x - s] and
    [x + s], for a finite [x]. *)
Definition within_scale (s x x' : spec_float) : Prop :=
  finite32 x = true →
  f32_leb (f32_sub x s) x' = true ∧ f32_leb x' (f32_add x s) = true.

(** ** Vocabulary of the further properties *)

(** The calls [add_object (m, t)] for the tensors [ts] in order, and the
    calls [add_child (p, c)] for the membranes [cs] in order, with the list
    of their results. *)
Fixpoint add_objects (m : addr) (ts : list addr) : M (list Z) :=
  match ts with
  | [] => ret []
  | t :: rest =>
      let* r := ggml_p9ml_membrane_add_object (Some m) (Some t) in
      let* rs := add_objects m rest in
      ret (r :: rs)
  end.

Fixpoint add_children (p : addr) (cs : list addr) : M (list Z) :=
  match cs with
  | [] => ret []
  | c :: rest =>
      let* r := ggml_p9ml_membrane_add_child (Some p) (Some c) in
      let* rs := add_children p rest in
      ret (r :: rs)
  end.

(** The object array is in bounds and its non-null entries point at
    allocated tensors. *)
Definition objects_allocated (h : heap) (m : ggml_p9ml_membrane) : bool :=
  match read_ptrs (objects m) (num_objects m) with
  | None => false
  | Some ts =>
      forallb (λ t, match t with
                    | Some ta => bool_decide (is_Some (tensors h !! ta))
                    | None => true
                    end) ts
  end.

(** The stored config of a membrane, when it has one, is allocated. *)
Definition config_ok (h : heap) (m : ggml_p9ml_membrane) : bool :=
  match qat_config m with
  | Some q => bool_decide (is_Some (configs h !! q))
  | None => true
  end.

(** The configs stored at the membranes of the tree under [a], in preorder. *)
Definition owned_configs (d : nat) (h : heap) (a : addr) : list addr :=
  omap (λ b, membranes h !! b ≫= qat_config) (preorder d h a).

(** A tree that owns its blocks: it is well formed, no membrane is met twice
    on the way down (no membrane has two parents in the tree), and every
    stored config is allocated and stored at one membrane only. *)
Definition owned_tree (d : nat) (h : heap) (a : addr) : Prop :=
  tree_ok config_ok d h a = true ∧ NoDup (preorder d h a) ∧ NoDup (owned_configs d h a).

(** [without L Q h h']: the store [h'] is the store [h] with the membranes
    at [L] and the configs at [Q] released, and nothing else changed. *)
Definition without (L Q : list addr) (h h' : heap) : Prop :=
  (∀ b, membranes h' !! b = if decide (b ∈ L) then None else membranes h !! b) ∧
  (∀ q, configs h' !! q = if decide (q ∈ Q) then None else configs h !! q) ∧
  namespaces h' = namespaces h ∧ tensors h' = tensors h ∧
  seed h' = seed h ∧ malloc_plan h' = malloc_plan h.

(** No membrane and no config appears or changes: the membranes and the
    configs of [h'] are membranes and configs of [h]. *)
Definition shrinks (h h' : heap) : Prop :=
  membranes h' ⊆ membranes h ∧ configs h' ⊆ configs h.

(** The configs stored at membranes are owned by them: each is allocated,
    is stored at one membrane only and is not the block [c], which is
    allocated too. *)
Definition configs_owned (c : addr) (h : heap) : Prop :=
  is_Some (configs h !! c) ∧
  (∀ b B q, membranes h !! b = Some B → qat_config B = Some q →
     is_Some (configs h !! q) ∧ q ≠ c) ∧
  (∀ b1 b2 B1 B2 q,
     membranes h !! b1 = Some B1 → qat_config B1 = Some q →
     membranes h !! b2 = Some B2 → qat_config B2 = Some q → b1 = b2).

Definition keeps_configs_owned (c : addr) (h h' : heap) : Prop :=
  configs_owned c h → configs_owned c h'.

(** An allocator to run [ggml_p9ml_generate_synthetic_data] with: it returns
    a new tensor of the given type whose element count is the product of the
    dimensions and whose data are that many zeros. *)
Definition zeroed_new_tensor (ctx : ptr) (ty : ggml_type) (dims : list Z) : M ptr :=
  λ h, let ta := fresh (dom (tensors h)) in
       let n := foldr Z.mul 1%Z dims in
       Some (Some ta,
             set_tensors (<[ta := {| type := ty; nelements := n;
                                     data := Some (replicate (Z.to_nat n) f32_zero) |}]>
                            (tensors h)) h, []).

(** [demo_attached] after [add_child (2, 1)]: the child 2 of membrane 1 has
    been given its own parent as a child. *)
Definition demo_cycle : heap :=
  match ggml_p9ml_membrane_add_child (Some 2%positive) (Some 1%positive) demo_attached with
  | Some (_, h, _) => h
  | None => demo_attached
  end.

(** [demo_tree] with a second namespace. *)
Definition demo_two_namespaces : heap :=
  set_namespaces (<[2%positive := mk_namespace "second"]> (namespaces demo_tree)) demo_tree.

(** One membrane that stores the config block 1 itself. *)
Definition demo_stored : heap :=
  {| membranes := {[ 1%positive := mk_membrane "root" 0 NULL NULL [] [] (Some 1%positive) ]};
     namespaces := ∅; configs := {[ 1%positive := demo_config ]};
     tensors := ∅; seed := 12345; malloc_plan := [] |}.

(** * Tensor data behind pointers

    The store above keeps the floats of a tensor inside the tensor record,
    which describes tensors that own their data. In ggml a tensor struct
    holds a pointer, [tensor->data], and a view is a second struct whose
    pointer leads into the buffer of another tensor. The store of this
    module keeps the tensor structs and the [float] buffers apart, and the
    data-free QAT pass is embedded on it once more, with the noise loop
    reading and writing through the data pointer. *)
Module Buffers.

(** A data pointer is a buffer and an offset into it, counted in [float]s;
    [None] is the null pointer. *)
Record ggml_tensor := {
  type : ggml_type;
  nelements : Z;
  data : option (addr * nat)
}.

Definition ggml_nelements (t : ggml_tensor) : Z := nelements t.

Record heap := {
  membranes : gmap addr ggml_p9ml_membrane;
  namespaces : gmap addr ggml_p9ml_namespace;
  configs : gmap addr ggml_p9ml_qat_config;
  tensors : gmap addr ggml_tensor;
  buffers : gmap addr (list spec_float);
  seed : Z;
  malloc_plan : list bool
}.

Definition set_membranes (v : gmap addr ggml_p9ml_membrane) (h : heap) : heap :=
  {| membranes := v; namespaces := namespaces h; configs := configs h;
     tensors := tensors h; buffers := buffers h; seed := seed h;
     malloc_plan := malloc_plan h |}.
Definition set_configs (v : gmap addr ggml_p9ml_qat_config) (h : heap) : heap :=
  {| membranes := membranes h; namespaces := namespaces h; configs := v;
     tensors := tensors h; buffers := buffers h; seed := seed h;
     malloc_plan := malloc_plan h |}.
Definition set_buffers (v : gmap addr (list spec_float)) (h : heap) : heap :=
  {| membranes := membranes h; namespaces := namespaces h; configs := configs h;
     tensors := tensors h; buffers := v; seed := seed h;
     malloc_plan := malloc_plan h |}.
Definition set_seed (v : Z) (h : heap) : heap :=
  {| membranes := membranes h; namespaces := namespaces h; configs := configs h;
     tensors := tensors h; buffers := buffers h; seed := v;
     malloc_plan := malloc_plan h |}.
Definition set_malloc_plan (v : list bool) (h : heap) : heap :=
  {| membranes := membranes h; namespaces := namespaces h; configs := configs h;
     tensors := tensors h; buffers := buffers h; seed := seed h;
     malloc_plan := v |}.

(** The monad of C computations over this store, as above. *)
Definition M (A : Type) : Type := heap → option (A * heap * list addr).

Definition ret {A} (a : A) : M A := λ h, Some (a, h, []).

Definition bind {A B} (m : M A) (f : A → M B) : M B :=
  λ h, match m h with
       | None => None
       | Some (a, h1, t1) =>
           match f a h1 with
           | None => None
           | Some (b, h2, t2) => Some (b, h2, t1 ++ t2)
           end
       end.

Definition undefined {A} : M A := λ _, None.
Definition modify (f : heap → heap) : M unit := λ h, Some (tt, f h, []).
Definition visit (a : addr) : M unit := λ h, Some (tt, h, [a]).

Declare Scope buffers_scope.
Notation "'let*' x ':=' m 'in' k" := (bind m (λ x, k))
  (at level 10, x name, m at level 100, k at level 200) : buffers_scope.
Notation "m ';;' k" := (bind m (λ _, k))
  (at level 100, k at level 200, right associativity) : buffers_scope.
Local Open Scope buffers_scope.

Definition load_membrane (a : addr) : M ggml_p9ml_membrane :=
  λ h, match membranes h !! a with Some m => Some (m, h, []) | None => None end.
Definition load_config (a : addr) : M ggml_p9ml_qat_config :=
  λ h, match configs h !! a with Some m => Some (m, h, []) | None => None end.
Definition load_tensor (a : addr) : M ggml_tensor :=
  λ h, match tensors h !! a with Some m => Some (m, h, []) | None => None end.

Definition update_membrane (a : addr) (f : ggml_p9ml_membrane → ggml_p9ml_membrane) : M unit :=
  let* m := load_membrane a in
  modify (λ h, set_membranes (<[a := f m]> (membranes h)) h).

Definition array_get (arr : option (list ptr)) (i : Z) : M ptr :=
  match arr with
  | Some l => if (i <? 0)%Z then undefined
              else match l !! Z.to_nat i with Some p => ret p | None => undefined end
  | None => undefined
  end.

Fixpoint for_from (i : Z) (n : nat) (body : Z → M unit) : M unit :=
  match n with
  | O => ret tt
  | S n' => body i;; for_from (i + 1) n' body
  end.

Definition for_loop (n : Z) (body : Z → M unit) : M unit := for_from 0 (Z.to_nat n) body.

Definition malloc : M bool :=
  λ h, match malloc_plan h with
       | [] => Some (true, h, [])
       | b :: plan => Some (b, set_malloc_plan plan h, [])
       end.

Definition ggml_p9ml_generate_noise (scale : spec_float) : M spec_float :=
  λ h, let s := next_seed (seed h) in
       Some (noise_of_seed s scale, set_seed s h, []).

(** [data[j]] read and written, for [data] the pointer [(b, off)] and [k]
    the index [off + j]: an access outside the buffer, or to a buffer that is
    not allocated, is undefined. *)
Definition load_float (b : addr) (k : nat) : M spec_float :=
  λ h, match buffers h !! b with
       | Some blk => match blk !! k with Some x => Some (x, h, []) | None => None end
       | None => None
       end.

Definition store_float (b : addr) (k : nat) (v : spec_float) : M unit :=
  λ h, match buffers h !! b with
       | Some blk =>
           if (k <? length blk)%nat
           then Some (tt, set_buffers (<[b := <[k := v]> blk]> (buffers h)) h, [])
           else None
       | None => None
       end.

(** [for (j = 0; j < n; j++) data[j] += ggml_p9ml_generate_noise(config->noise_scale)],
    started at the element [k] of buffer [b]. *)
Fixpoint add_noise (n : nat) (b : addr) (k : nat) (c : addr) {struct n} : M unit :=
  match n with
  | O => ret tt
  | S n' =>
      let* cfg := load_config c in
      let* nz := ggml_p9ml_generate_noise (noise_scale cfg) in
      let* x := load_float b k in
      store_float b k (f32_add x nz);;
      add_noise n' b (S k) c
  end.

(** [tensor->type != GGML_TYPE_F32 && tensor->type != GGML_TYPE_F16] *)
Definition not_quantizable (t : ggml_tensor) : bool :=
  negb (ggml_type_eqb (type t) GGML_TYPE_F32) && negb (ggml_type_eqb (type t) GGML_TYPE_F16).

(** The body of the loop over the objects of membrane [m]; [n_elements] is
    a [size_t]. *)
Definition qat_object (m : addr) (c : addr) (i : Z) : M unit :=
  let* Mb := load_membrane m in
  let* t := array_get (objects Mb) i in
  match t with
  | None => ret tt
  | Some ta =>
      let* T := load_tensor ta in
      if not_quantizable T then ret tt
      else
        match data T with
        | None => ret tt
        | Some (b, off) =>
            let n_elements := size_t (ggml_nelements T) in
            add_noise (Z.to_nat n_elements) b off c
        end
  end.

Definition qat_store_config (m : addr) (c : addr) : M bool :=
  let* Mb := load_membrane m in
  match qat_config Mb with
  | Some _ => ret true
  | None =>
      let* ok := malloc in
      if negb ok then ret false
      else
        let* q := (λ h, Some (fresh (dom (configs h)), h, [])) in
        update_membrane m (set_qat_config (Some q));;
        let* cfg := load_config c in
        modify (λ h, set_configs (<[q := cfg]> (configs h)) h);;
        ret true
  end.

Fixpoint ggml_p9ml_apply_data_free_qat (fuel : nat) (membrane config : ptr) : M Z :=
  match fuel with
  | O => undefined
  | S fuel' =>
      match membrane, config with
      | Some m, Some c =>
          visit m;;
          let* stored := qat_store_config m c in
          if negb stored then ret (-1)%Z
          else
            let* Mb := load_membrane m in
            for_loop (num_objects Mb) (qat_object m c);;
            let* Mb := load_membrane m in
            for_loop (num_children Mb) (λ i,
              let* Mb := load_membrane m in
              let* ch := array_get (children Mb) i in
              ggml_p9ml_apply_data_free_qat fuel' ch config;; ret tt);;
            ret 0%Z
      | _, _ => ret (-1)%Z
      end
  end.

(** The noise loop on tensor [T] stays inside the buffer its data pointer
    leads into, and the element count is one that [size_t] holds. *)
Definition tensor_ok (h : heap) (T : ggml_tensor) : bool :=
  not_quantizable T ||
  match data T with
  | None => true
  | Some (b, off) =>
      (0 <=? nelements T)%Z && (nelements T <? 2 ^ 64)%Z &&
      (off + Z.to_nat (nelements T) <=? length (default [] (buffers h !! b)))%nat
  end.

(** The object array is in bounds and its non-null entries point at
    allocated tensors that satisfy [tensor_ok]. *)
Definition objects_ok (h : heap) (m : ggml_p9ml_membrane) : bool :=
  match read_ptrs (objects m) (num_objects m) with
  | None => false
  | Some ts =>
      forallb (λ t, match t with
                    | Some ta => match tensors h !! ta with
                                 | Some T => tensor_ok h T
                                 | None => false
                                 end
                    | None => true
                    end) ts
  end.

(** The object entry [p] points at an F32 or F16 tensor whose data pointer
    leads into buffer [b]: the object loop writes to [b] when it meets [p]. *)
Definition writes_into (h : heap) (b : addr) (p : ptr) : bool :=
  match p with
  | Some s =>
      match tensors h !! s with
      | Some T =>
          negb (not_quantizable T) &&
          match data T with
          | Some (b', _) => bool_decide (b' = b)
          | None => false
          end
      | None => false
      end
  | None => false
  end.

End Buffers.

(** What a tensor sees through its data pointer: the floats of the buffer
    from the offset on. *)
Definition seen (rh : Buffers.heap) (T : Buffers.ggml_tensor) : ggml_tensor :=
  {| type := Buffers.type T; nelements := Buffers.nelements T;
     data := match Buffers.data T with
             | Some (b, off) => Some (drop off (default [] (Buffers.buffers rh !! b)))
             | None => None
             end |}.

(** The store in which every tensor holds a copy of what it sees. On a
    store without views it is the store of the first model. *)
Definition by_value (rh : Buffers.heap) : heap :=
  {| membranes := Buffers.membranes rh; namespaces := Buffers.namespaces rh;
     configs := Buffers.configs rh; tensors := seen rh <$> Buffers.tensors rh;
     seed := Buffers.seed rh; malloc_plan := Buffers.malloc_plan rh |}.

(** The tree under [a] is well formed on the store with buffers: the
    membranes reached are allocated and at most [d] levels deep, their child
    and object arrays are in bounds, and on each tensor they hold the noise
    loop stays inside the buffer. *)
Definition buffers_tree_ok (d : nat) (rh : Buffers.heap) (a : addr) : bool :=
  tree_ok (λ _, Buffers.objects_ok rh) d (by_value rh) a.

(** The object entries that a traversal of the tree under [a] reads, in the
    order it reads them. *)
Definition held (d : nat) (rh : Buffers.heap) (a : addr) : list ptr :=
  flat_map (objects_of (by_value rh)) (preorder d (by_value rh) a).

(** Tensor [ta] shares buffer [b] with no other tensor that the traversal
    writes through: every entry read is [ta] itself, or is not an F32 or F16
    tensor with its data in [b]. *)
Definition unshared (d : nat) (rh : Buffers.heap) (a ta b : addr) : bool :=
  forallb (λ p, bool_decide (p = Some ta) || negb (Buffers.writes_into rh b p)) (held d rh a).

(** No entry read by the traversal is an F32 or F16 tensor with its data in
    buffer [b]. *)
Definition unwritten (d : nat) (rh : Buffers.heap) (a b : addr) : bool :=
  forallb (λ p, negb (Buffers.writes_into rh b p)) (held d rh a).

(** A root holding the F32 tensor 1, whose two elements are the last two
    floats of buffer 1. Tensor 2 is a view of tensor 1, with the same data
    pointer and element count, and no membrane holds it; buffer 2 belongs to
    no tensor. *)
Definition demo_view : Buffers.heap :=
  {| Buffers.membranes :=
       {[ 1%positive := mk_membrane "root" 0 NULL NULL [] [Some 1%positive] NULL ]};
     Buffers.namespaces := ∅;
     Buffers.configs := {[ 1%positive := demo_config ]};
     Buffers.tensors :=
       <[1%positive := {| Buffers.type := GGML_TYPE_F32; Buffers.nelements := 2;
                          Buffers.data := Some (1%positive, 1%nat) |}]>
       (<[2%positive := {| Buffers.type := GGML_TYPE_F32; Buffers.nelements := 2;
                           Buffers.data := Some (1%positive, 1%nat) |}]> ∅);
     Buffers.buffers :=
       <[1%positive := [f32_two; f32_one; f32_one]]> (<[2%positive := [f32_two]]> ∅);
     Buffers.seed := 12345; Buffers.malloc_plan := [] |}.

(** The same store with the view held by the root as well. *)
Definition demo_view_held : Buffers.heap :=
  Buffers.set_membranes
    {[ 1%positive := mk_membrane "root" 0 NULL NULL []
                       [Some 1%positive; Some 2%positive] NULL ]} demo_view.

(** ** The two stores side by side

    A run of the pass on the store with buffers, started at [rh0], is
    followed next to a run of the first model started at [by_value rh0]:
    [rh] and [h] are the two stores at the same point of the two runs. They
    have the same membranes, namespaces, configs, seed and [malloc] plan;
    the tensor structs, the links of the membranes and the lengths of the
    buffers of [rh] are those of [rh0], and the shapes of the tensors of [h]
    those of [by_value rh0]; a tensor of [G] holds in [h] what it sees in
    [rh]; a buffer of [U] is in [rh] as it was in [rh0]. *)
Record agrees (rh0 : Buffers.heap) (G U : addr → Prop) (rh : Buffers.heap) (h : heap) :
    Prop := {
  ag_membranes : membranes h = Buffers.membranes rh;
  ag_namespaces : namespaces h = Buffers.namespaces rh;
  ag_configs : configs h = Buffers.configs rh;
  ag_seed : seed h = Buffers.seed rh;
  ag_plan : malloc_plan h = Buffers.malloc_plan rh;
  ag_tensors : Buffers.tensors rh = Buffers.tensors rh0;
  ag_links : ∀ m, links <$> Buffers.membranes rh !! m = links <$> Buffers.membranes rh0 !! m;
  ag_lengths : ∀ b, length <$> Buffers.buffers rh !! b = length <$> Buffers.buffers rh0 !! b;
  ag_shapes : ∀ t, shape <$> tensors h !! t = shape <$> tensors (by_value rh0) !! t;
  ag_seen : ∀ t, G t → tensors h !! t = tensors (by_value rh) !! t;
  ag_kept : ∀ b, U b → Buffers.buffers rh !! b = Buffers.buffers rh0 !! b
}.

(** Whenever the computation [m'] of the first model returns, the
    computation [m] on the store with buffers returns the same value and
    trace, and [R] holds again. *)
Definition simulates (R : Buffers.heap → heap → Prop) {A} (m : Buffers.M A) (m' : M A) :
    Prop :=
  ∀ rh h x h' t, R rh h → m' h = Some (x, h', t) →
    ∃ rh', m rh = Some (x, rh', t) ∧ R rh' h'.

(** The membranes of [Ms] have their children in [Ms]. *)
Definition closed_under_children (rh0 : Buffers.heap) (Ms : addr → Prop) : Prop :=
  ∀ m Mb cs i ch, Ms m → Buffers.membranes rh0 !! m = Some Mb → children Mb = Some cs →
    (0 ≤ i < num_children Mb)%Z → cs !! Z.to_nat i = Some (Some ch) → Ms ch.

(** Every F32 or F16 tensor with data that a membrane of [Ms] holds has an
    element count that [size_t] holds, has its data in a buffer outside [U],
    and shares that buffer with no other tensor of [G]. *)
Definition entries_ok (rh0 : Buffers.heap) (Ms G U : addr → Prop) : Prop :=
  ∀ m Mb os i s T b off, Ms m → Buffers.membranes rh0 !! m = Some Mb →
    objects Mb = Some os → (0 ≤ i < num_objects Mb)%Z → os !! Z.to_nat i = Some (Some s) →
    Buffers.tensors rh0 !! s = Some T → Buffers.not_quantizable T = false →
    Buffers.data T = Some (b, off) →
    (0 ≤ Buffers.nelements T < 2 ^ 64)%Z ∧ ¬ U b ∧
    ∀ t Tt bt offt, G t → t ≠ s → Buffers.tensors rh0 !! t = Some Tt →
      Buffers.data Tt = Some (bt, offt) → bt ≠ b.

(** * Reasoning about computations *)

Lemma bind_Some {A B} (m : M A) (f : A → M B) h b h2 t :
  bind m f h = Some (b, h2, t) ↔
  ∃ a h1 t1 t2, m h = Some (a, h1, t1) ∧ f a h1 = Some (b, h2, t2) ∧ t = t1 ++ t2.
Proof.
  unfold bind. split.
  - destruct (m h) as [[[a h1] t1]|]; [|done].
    destruct (f a h1) as [[[b' h2'] t2]|] eqn:Hf; [|done].
    intros [= -> -> <-]. by exists a, h1, t1, t2.
  - intros (a & h1 & t1 & t2 & -> & -> & ->). done.
Qed.

Lemma bind_run {A B} (m : M A) (f : A → M B) h a h1 t1 :
  m h = Some (a, h1, t1) →
  bind m f h = match f a h1 with
               | Some (b, h2, t2) => Some (b, h2, t1 ++ t2)
               | None => None
               end.
Proof. unfold bind. by intros ->. Qed.

Lemma load_membrane_run h a m :
  membranes h !! a = Some m → load_membrane a h = Some (m, h, []).
Proof. unfold load_membrane. by intros ->. Qed.

Lemma load_membrane_Some h a m h' t :
  load_membrane a h = Some (m, h', t) → membranes h !! a = Some m ∧ h' = h ∧ t = [].
Proof. unfold load_membrane. destruct (membranes h !! a); naive_solver. Qed.

Lemma load_tensor_Some h a m h' t :
  load_tensor a h = Some (m, h', t) → tensors h !! a = Some m ∧ h' = h ∧ t = [].
Proof. unfold load_tensor. destruct (tensors h !! a); naive_solver. Qed.

Lemma load_config_Some h a m h' t :
  load_config a h = Some (m, h', t) → configs h !! a = Some m ∧ h' = h ∧ t = [].
Proof. unfold load_config. destruct (configs h !! a); naive_solver. Qed.

Lemma load_namespace_Some h a m h' t :
  load_namespace a h = Some (m, h', t) → namespaces h !! a = Some m ∧ h' = h ∧ t = [].
Proof. unfold load_namespace. destruct (namespaces h !! a); naive_solver. Qed.

Lemma update_membrane_run h a m f :
  membranes h !! a = Some m →
  update_membrane a f h = Some (tt, set_membranes (<[a := f m]> (membranes h)) h, []).
Proof. intros Hm. unfold update_membrane. by rewrite (bind_run _ _ _ _ _ _ (load_membrane_run _ _ _ Hm)). Qed.

Lemma update_membrane_Some h a f u h' t :
  update_membrane a f h = Some (u, h', t) →
  ∃ m, membranes h !! a = Some m ∧ h' = set_membranes (<[a := f m]> (membranes h)) h ∧ t = [].
Proof.
  unfold update_membrane. intros (m & h1 & t1 & t2 & Hl & Hm & ->)%bind_Some.
  apply load_membrane_Some in Hl as (Hl & -> & ->). unfold modify in Hm.
  injection Hm as <- <- <-. eauto.
Qed.

Lemma update_tensor_Some h a f u h' t :
  update_tensor a f h = Some (u, h', t) →
  ∃ m, tensors h !! a = Some m ∧ h' = set_tensors (<[a := f m]> (tensors h)) h ∧ t = [].
Proof.
  unfold update_tensor. intros (m & h1 & t1 & t2 & Hl & Hm & ->)%bind_Some.
  apply load_tensor_Some in Hl as (Hl & -> & ->). unfold modify in Hm.
  injection Hm as <- <- <-. eauto.
Qed.

Lemma array_get_Some arr i p h h' t :
  array_get arr i h = Some (p, h', t) →
  ∃ l, arr = Some l ∧ (0 ≤ i)%Z ∧ l !! Z.to_nat i = Some p ∧ h' = h ∧ t = [].
Proof.
  unfold array_get. destruct arr as [l|]; [|done].
  destruct (Z.ltb_spec i 0); [done|].
  destruct (l !! Z.to_nat i) eqn:E; [|done].
  unfold ret. intros [= -> -> <-]. eauto 10.
Qed.

Lemma array_get_run l i p h :
  (0 ≤ i)%Z → l !! Z.to_nat i = Some p → array_get (Some l) i h = Some (p, h, []).
Proof.
  intros Hi Hl. unfold array_get. destruct (Z.ltb_spec i 0); [lia|]. by rewrite Hl.
Qed.

(** Loops: an invariant indexed by the loop counter and the trace so far. *)
Lemma for_from_total (I : Z → heap → list addr → Prop) body n : ∀ i h t0,
  I i h t0 →
  (∀ j hj tj, (i ≤ j < i + Z.of_nat n)%Z → I j hj tj →
     ∃ h' t, body j hj = Some (tt, h', t) ∧ I (j + 1)%Z h' (tj ++ t)) →
  ∃ h' t, for_from i n body h = Some (tt, h', t) ∧ I (i + Z.of_nat n)%Z h' (t0 ++ t).
Proof.
  induction n as [|n IH]; intros i h t0 HI Hbody; simpl.
  - exists h, []. rewrite Z.add_0_r, app_nil_r. done.
  - destruct (Hbody i h t0) as (h1 & t1 & Hb & HI1); [lia|done|].
    destruct (IH (i + 1)%Z h1 (t0 ++ t1) HI1) as (h2 & t2 & Hf & HI2).
    { intros j hj tj Hj. apply Hbody. lia. }
    exists h2, (t1 ++ t2). rewrite (bind_run _ _ _ _ _ _ Hb), Hf. split; [done|].
    replace (i + Z.of_nat (S n))%Z with (i + 1 + Z.of_nat n)%Z by lia.
    by rewrite app_assoc.
Qed.

Lemma for_loop_total (I : Z → heap → list addr → Prop) body n h :
  I 0%Z h [] →
  (∀ j hj tj, (0 ≤ j < n)%Z → I j hj tj →
     ∃ h' t, body j hj = Some (tt, h', t) ∧ I (j + 1)%Z h' (tj ++ t)) →
  ∃ h' t, for_loop n body h = Some (tt, h', t) ∧ I (Z.max 0 n) h' t.
Proof.
  intros HI Hbody. unfold for_loop.
  destruct (for_from_total I body (Z.to_nat n) 0%Z h [] HI) as (h' & t & Hf & HI').
  { intros j hj tj Hj. apply Hbody. lia. }
  exists h', t. split; [done|]. simpl in HI'.
  by replace (Z.max 0 n) with (0 + Z.of_nat (Z.to_nat n))%Z by lia.
Qed.

Lemma for_loop_skip n h : for_loop n (λ _, ret tt) h = Some (tt, h, []).
Proof.
  unfold for_loop. generalize 0%Z. induction (Z.to_nat n) as [|k IH]; intros i; simpl; [done|].
  unfold bind at 1. unfold ret at 1. by rewrite IH.
Qed.

(** A relation between the store before and the store after that every step
    of a computation maintains. *)
Section Respects.
Context (R : heap → heap → Prop) `{!PreOrder R}.

Lemma respects_ret {A} (a : A) : respects R (ret a).
Proof. intros h a' h' t [= <- <- <-]. reflexivity. Qed.

Lemma respects_undefined {A} : respects R (@undefined A).
Proof. intros h a' h' t [=]. Qed.

Lemma respects_visit a : respects R (visit a).
Proof. intros h a' h' t [= <- <-]. reflexivity. Qed.

Lemma respects_bind {A B} (m : M A) (f : A → M B) :
  respects R m → (∀ a, respects R (f a)) → respects R (bind m f).
Proof.
  intros Hm Hf h b h2 t (a & h1 & t1 & t2 & H1 & H2 & ->)%bind_Some.
  etrans; [by eapply Hm|by eapply Hf].
Qed.

Lemma respects_load_membrane a : respects R (load_membrane a).
Proof. intros h m h' t (_ & -> & _)%load_membrane_Some. reflexivity. Qed.

Lemma respects_load_tensor a : respects R (load_tensor a).
Proof. intros h m h' t (_ & -> & _)%load_tensor_Some. reflexivity. Qed.

Lemma respects_load_config a : respects R (load_config a).
Proof. intros h m h' t (_ & -> & _)%load_config_Some. reflexivity. Qed.

Lemma respects_array_get arr i : respects R (array_get arr i).
Proof. intros h m h' t (? & _ & _ & _ & -> & _)%array_get_Some. reflexivity. Qed.

Lemma respects_for_from body n : ∀ i,
  (∀ j, respects R (body j)) → respects R (for_from i n body).
Proof.
  induction n as [|n IH]; intros i Hb; simpl.
  - apply respects_ret.
  - apply respects_bind; [apply Hb|]. intros _. by apply IH.
Qed.

Lemma respects_for_loop body n :
  (∀ j, respects R (body j)) → respects R (for_loop n body).
Proof. apply respects_for_from. Qed.
End Respects.

(** * Names at construction *)

Lemma strncpy_length src n : length (strncpy src n) = n.
Proof.
  revert src. induction n as [|n IH]; intros src; [done|].
  destruct src as [|c rest]; simpl.
  - by rewrite repeat_length.
  - destruct (Ascii.eqb c zero); simpl; [by rewrite repeat_length|by rewrite IH].
Qed.

Lemma c_string_zeros n l : c_string (repeat zero (S n) ++ l) = [].
Proof. done. Qed.

Lemma c_string_strncpy src n :
  c_string (strncpy src n ++ [zero]) = take n (c_string src).
Proof.
  revert src. induction n as [|n IH]; intros src.
  - simpl. by rewrite take_0.
  - destruct src as [|c rest]; [done|]. simpl.
    destruct (Ascii.eqb c zero) eqn:E.
    + done.
    + simpl. rewrite E. by rewrite IH.
Qed.

Lemma c_string_length buf : (length (c_string buf) ≤ length buf)%nat.
Proof.
  induction buf as [|c rest IH]; simpl; [lia|].
  destruct (Ascii.eqb c zero); simpl; lia.
Qed.

Lemma init_name_eq given dflt :
  init_name given dflt =
  strncpy (match given with Some s => s | None => list_ascii_of_string dflt end) 63 ++ [zero].
Proof.
  unfold init_name. change (Z.to_nat (P9ML_MEMBRANE_NAME_MAX - 1)) with 63%nat.
  set (src := match given with Some s => s | None => _ end).
  rewrite <- (strncpy_length src 63) at 1.
  rewrite insert_app_r_alt by done. by rewrite Nat.sub_diag.
Qed.

Lemma init_name_stored given dflt :
  (given = None → take 63 (c_string (list_ascii_of_string dflt)) = list_ascii_of_string dflt) →
  stored_name given dflt (init_name given dflt).
Proof.
  intros Hd. rewrite init_name_eq.
  set (src := match given with Some s => s | None => _ end).
  assert (Hc : c_string (strncpy src 63 ++ [zero]) = take 63 (c_string src))
    by apply c_string_strncpy.
  repeat split.
  - rewrite length_app, strncpy_length. done.
  - rewrite lookup_app_r; rewrite strncpy_length; done.
  - rewrite Hc, length_take. lia.
  - rewrite Hc. subst src. destruct given; [done|]. by apply Hd.
Qed.

Lemma calloc_array_run n h :
  ∃ cs plan,
    calloc_array n h = Some (cs, set_malloc_plan plan h, []) ∧
    (malloc_plan h = [] → plan = [] ∧ cs = Some (replicate (Z.to_nat n) NULL)).
Proof.
  unfold calloc_array, malloc, bind, ret. destruct h as [ms nss cfs ts sd plan]; simpl.
  destruct plan as [|[] plan]; simpl; do 2 eexists; (split; [reflexivity|]); naive_solver.
Qed.

Lemma init_arrays_run h a m :
  membranes h !! a = Some m →
  ∃ cs os rs plan,
    ggml_p9ml_membrane_init_arrays a h =
      Some (tt, set_malloc_plan plan
                  (set_membranes (<[a := set_rules rs (set_objects os (set_children cs m))]>
                                    (membranes h)) h), []) ∧
    (malloc_plan h = [] →
       plan = [] ∧
       cs = Some (replicate (Z.to_nat (max_children m)) NULL) ∧
       os = Some (replicate (Z.to_nat (max_objects m)) NULL) ∧
       rs = Some (replicate (Z.to_nat (max_rules m)) NULL)).
Proof.
  intros Hm. unfold ggml_p9ml_membrane_init_arrays.
  rewrite (bind_run _ _ _ _ _ _ (load_membrane_run _ _ _ Hm)).
  destruct (calloc_array_run (max_children m) h) as (cs & p1 & E1 & H1).
  rewrite (bind_run _ _ _ _ _ _ E1).
  set (h1 := set_malloc_plan p1 h).
  assert (Hm1 : membranes h1 !! a = Some m) by done.
  rewrite (bind_run _ _ _ _ _ _ (update_membrane_run _ _ _ _ Hm1)).
  set (h2 := set_membranes _ h1).
  assert (Hm2 : membranes h2 !! a = Some (set_children cs m)) by apply lookup_insert_eq.
  rewrite (bind_run _ _ _ _ _ _ (load_membrane_run _ _ _ Hm2)).
  destruct (calloc_array_run (max_objects (set_children cs m)) h2) as (os & p2 & E2 & H2).
  rewrite (bind_run _ _ _ _ _ _ E2).
  set (h3 := set_malloc_plan p2 h2).
  assert (Hm3 : membranes h3 !! a = Some (set_children cs m)) by done.
  rewrite (bind_run _ _ _ _ _ _ (update_membrane_run _ _ _ _ Hm3)).
  set (h4 := set_membranes _ h3).
  assert (Hm4 : membranes h4 !! a = Some (set_objects os (set_children cs m)))
    by apply lookup_insert_eq.
  rewrite (bind_run _ _ _ _ _ _ (load_membrane_run _ _ _ Hm4)).
  destruct (calloc_array_run (max_rules (set_objects os (set_children cs m))) h4)
    as (rs & p3 & E3 & H3).
  rewrite (bind_run _ _ _ _ _ _ E3).
  set (h5 := set_malloc_plan p3 h4).
  assert (Hm5 : membranes h5 !! a = Some (set_objects os (set_children cs m))) by done.
  rewrite (update_membrane_run _ _ _ _ Hm5).
  exists cs, os, rs, p3. split.
  - subst h5 h4 h3 h2 h1. destruct h. unfold set_membranes, set_malloc_plan. simpl.
    by rewrite !insert_insert_eq.
  - intros Hp. destruct (H1 Hp) as [-> ->].
    destruct H2 as [-> ->]; [by subst h2 h1|].
    destruct H3 as [-> ->]; [by subst h4 h3 h2 h1|]. done.
Qed.

Lemma malloc_run h :
  malloc h = Some (hd true (malloc_plan h), set_malloc_plan (tl (malloc_plan h)) h, []).
Proof. unfold malloc. destruct h as [? ? ? ? ? [|b plan]]; done. Qed.

Lemma fresh_membrane h : membranes h !! fresh (dom (membranes h)) = None.
Proof. apply not_elem_of_dom, is_fresh. Qed.

Lemma fresh_config h : configs h !! fresh (dom (configs h)) = None.
Proof. apply not_elem_of_dom, is_fresh. Qed.

Lemma membrane_new_run given lvl cx h :
  if hd true (malloc_plan h) then
    ∃ cs os rs plan,
      ggml_p9ml_membrane_new given lvl cx h =
        Some (Some (fresh (dom (membranes h))),
              set_malloc_plan plan
                (set_membranes (<[fresh (dom (membranes h)) := new_membrane given lvl cx cs os rs]>
                                  (membranes h)) h), []) ∧
      (malloc_plan h = [] →
         plan = [] ∧
         cs = Some (replicate (Z.to_nat P9ML_DEFAULT_MAX_CHILDREN) NULL) ∧
         os = Some (replicate (Z.to_nat P9ML_DEFAULT_MAX_OBJECTS) NULL) ∧
         rs = Some (replicate (Z.to_nat P9ML_DEFAULT_MAX_RULES) NULL))
  else
    ggml_p9ml_membrane_new given lvl cx h =
      Some (NULL, set_malloc_plan (tl (malloc_plan h)) h, []).
Proof.
  unfold ggml_p9ml_membrane_new. rewrite (bind_run _ _ _ _ _ _ (malloc_run h)).
  destruct (hd true (malloc_plan h)) eqn:Hd; simpl; [|done].
  set (h0 := set_malloc_plan (tl (malloc_plan h)) h).
  set (a := fresh (dom (membranes h))).
  unfold bind at 1. change (fresh (dom (membranes h0))) with a.
  unfold bind at 1, modify at 1.
  set (m0 := Build_ggml_p9ml_membrane _ _ _ _ _ _ _ _ _ _ _ _ _ _ _).
  set (h1 := set_membranes _ h0).
  assert (Hm1 : membranes h1 !! a = Some m0) by apply lookup_insert_eq.
  destruct (init_arrays_run h1 a m0 Hm1) as (cs & os & rs & plan & E & Hp).
  rewrite (bind_run _ _ _ _ _ _ E). unfold ret. simpl.
  exists cs, os, rs, plan. split.
  - do 2 f_equal. f_equal. subst h1 h0. destruct h. unfold set_malloc_plan, set_membranes; simpl.
    by rewrite insert_insert_eq.
  - intros Hnil. apply Hp. subst h1 h0. simpl. by rewrite Hnil.
Qed.

Lemma namespace_new_run given backend h :
  ggml_p9ml_namespace_new given backend h =
    if hd true (malloc_plan h) then
      Some (Some (fresh (dom (namespaces h))),
            set_namespaces (<[fresh (dom (namespaces h)) :=
              {| ns_name := init_name given "default";
                 ns_root := NULL; ns_backend := backend;
                 ns_noise_scale := f32_0_1; ns_target_bits := 8; ns_mixed_precision := false;
                 total_params := 0; quantized_params := 0; compression_ratio := f32_one |}]>
              (namespaces h)) (set_malloc_plan (tl (malloc_plan h)) h), [])
    else Some (NULL, set_malloc_plan (tl (malloc_plan h)) h, []).
Proof.
  unfold ggml_p9ml_namespace_new. rewrite (bind_run _ _ _ _ _ _ (malloc_run h)).
  destruct (hd true (malloc_plan h)); done.
Qed.

(** C10. Both constructors store the default name ("unnamed" for a membrane,
    "default" for a namespace) when the name pointer is null, and otherwise
    the first 63 characters of the given C string; the 64-character field
    always ends with the terminator. A constructor returns NULL only when
    its first [malloc] fails, and is never undefined. *)
Theorem constructors_store_bounded_name (given : option (list ascii)) (lvl : Z)
    (cx backend : ptr) (h : heap) :
  match ggml_p9ml_membrane_new given lvl cx h with
  | Some (Some a, h', _) =>
      ∃ m, membranes h' !! a = Some m ∧ stored_name given "unnamed" (name m)
  | Some (None, _, _) => hd true (malloc_plan h) = false
  | None => False
  end ∧
  match ggml_p9ml_namespace_new given backend h with
  | Some (Some a, h', _) =>
      ∃ n, namespaces h' !! a = Some n ∧ stored_name given "default" (ns_name n)
  | Some (None, _, _) => hd true (malloc_plan h) = false
  | None => False
  end.
Proof.
  split.
  - pose proof (membrane_new_run given lvl cx h) as H.
    destruct (hd true (malloc_plan h)).
    + destruct H as (cs & os & rs & plan & -> & _).
      eexists. split; [apply lookup_insert_eq|]. simpl.
      apply init_name_stored. done.
    + by rewrite H.
  - rewrite namespace_new_run. destruct (hd true (malloc_plan h)); [|done].
    eexists. split; [apply lookup_insert_eq|]. simpl.
    apply init_name_stored. done.
Qed.

(** * Attaching children and objects *)

Lemma array_set_run l i v h :
  (0 ≤ i < Z.of_nat (length l))%Z →
  array_set (Some l) i v h = Some (Some (<[Z.to_nat i := v]> l), h, []).
Proof.
  intros Hi. unfold array_set. destruct (Z.ltb_spec i 0); [lia|].
  destruct (Nat.ltb_spec (Z.to_nat i) (length l)); [done|lia].
Qed.

Lemma array_set_Some arr i v r h h' t :
  array_set arr i v h = Some (r, h', t) →
  ∃ l, arr = Some l ∧ (0 ≤ i < Z.of_nat (length l))%Z ∧
       r = Some (<[Z.to_nat i := v]> l) ∧ h' = h ∧ t = [].
Proof.
  unfold array_set. destruct arr as [l|]; [|done].
  destruct (Z.ltb_spec i 0); [done|].
  destruct (Nat.ltb_spec (Z.to_nat i) (length l)); [|done].
  unfold ret. intros [= <- <- <-]. exists l. repeat split; auto; lia.
Qed.

Ltac step_with E := erewrite (bind_run _ _ _ _ _ _ E).
Ltac step_load H := erewrite (bind_run _ _ _ _ _ _ (load_membrane_run _ _ _ H)).
Ltac step_update H := erewrite (bind_run _ _ _ _ _ _ (update_membrane_run _ _ _ _ H)).


Lemma add_child_run h p c P C cs :
  membranes h !! p = Some P → membranes h !! c = Some C →
  children P = Some cs →
  (0 ≤ num_children P < max_children P)%Z →
  (num_children P < Z.of_nat (length cs))%Z →
  ∃ h', ggml_p9ml_membrane_add_child (Some p) (Some c) h = Some (0%Z, h', []) ∧
        child_attached h h' p c P cs.
Proof.
  intros HP HC Hcs Hn Hl. unfold ggml_p9ml_membrane_add_child.
  step_load HP. destruct (Z.geb_spec (num_children P) (max_children P)); [lia|].
  rewrite Hcs. step_with (array_set_run cs (num_children P) (Some c) h ltac:(lia)).
  step_update HP. set (P1 := set_children _ P). set (h1 := set_membranes _ h).
  assert (HP1 : membranes h1 !! p = Some P1) by apply lookup_insert_eq.
  destruct (decide (p = c)) as [<-|Hne].
  - step_update HP1. set (h2 := set_membranes _ h1).
    assert (HP2 : membranes h2 !! p = Some (set_parent (Some p) P1)) by apply lookup_insert_eq.
    step_load HP2. step_update HP2. set (h3 := set_membranes _ h2).
    assert (HP3 : membranes h3 !! p = Some (set_ns (ns P) (set_parent (Some p) P1)))
      by apply lookup_insert_eq.
    step_load HP3. step_update HP3. set (h4 := set_membranes _ h3).
    eexists. split; [reflexivity|]. split.
    + eexists. split; [apply lookup_insert_eq|]. done.
    + eexists. split; [apply lookup_insert_eq|]. repeat split; done.
    + intros b Hb _. subst h4 h3 h2 h1. simpl. by rewrite !lookup_insert_ne.
    + done.
  - assert (HC1 : membranes h1 !! c = Some C).
    { subst h1. simpl. by rewrite lookup_insert_ne. }
    step_update HC1. set (h2 := set_membranes _ h1).
    assert (HP2 : membranes h2 !! p = Some P1).
    { subst h2. simpl. by rewrite lookup_insert_ne. }
    assert (HC2 : membranes h2 !! c = Some (set_parent (Some p) C)) by apply lookup_insert_eq.
    step_load HP2. step_update HC2. set (h3 := set_membranes _ h2).
    assert (HP3 : membranes h3 !! p = Some P1).
    { subst h3. simpl. by rewrite lookup_insert_ne. }
    step_load HP3. step_update HP3. set (h4 := set_membranes _ h3).
    eexists. split; [reflexivity|]. split.
    + eexists. split.
      * subst h4 h3. simpl. rewrite lookup_insert_ne by done. apply lookup_insert_eq.
      * done.
    + eexists. split; [apply lookup_insert_eq|]. repeat split; done.
    + intros b Hb Hb'. subst h4 h3 h2 h1. simpl. by rewrite !lookup_insert_ne.
    + done.
Qed.

(** Every run of [add_child] on non-null arguments either refuses and leaves
    the store as it was, or attaches the child. *)
Lemma add_child_Some h p c r h' t :
  ggml_p9ml_membrane_add_child (Some p) (Some c) h = Some (r, h', t) →
  ∃ P, membranes h !! p = Some P ∧ t = [] ∧
    ((r = (-1)%Z ∧ h' = h ∧ (max_children P ≤ num_children P)%Z) ∨
     (r = 0%Z ∧ (num_children P < max_children P)%Z ∧
      ∃ cs, children P = Some cs ∧ child_attached h h' p c P cs)).
Proof.
  unfold ggml_p9ml_membrane_add_child.
  intros (P & h0 & t1 & t2 & (HP & -> & ->)%load_membrane_Some & Hrest & ->)%bind_Some.
  exists P. split; [done|].
  destruct (Z.geb_spec (num_children P) (max_children P)) as [Hge|Hlt].
  { injection Hrest as <- <- <-. split; [done|]. left. done. }
  pose proof Hrest as Hrest'.
  apply bind_Some in Hrest as (arr & h1 & t1 & t3 & Harr & Hrest & ->).
  apply array_set_Some in Harr as (cs & Hcs & Hi & -> & -> & ->).
  apply bind_Some in Hrest as (u & h1 & t1 & t4 & Hu & Hrest & ->).
  apply update_membrane_Some in Hu as (P0 & HP0 & -> & ->).
  apply bind_Some in Hrest as (u1 & h2 & t1 & t5 & Hu & _).
  apply update_membrane_Some in Hu as (C1 & HC1 & -> & ->).
  assert (∃ C, membranes h !! c = Some C) as [C HC].
  { simpl in HC1. destruct (decide (p = c)) as [<-|]; [eauto|].
    rewrite lookup_insert_ne in HC1; eauto. }
  destruct (add_child_run h p c P C cs HP HC Hcs) as (h'' & Hrun & Hatt); [lia..|].
  unfold ggml_p9ml_membrane_add_child in Hrun. rewrite (bind_run _ _ _ _ _ _ (load_membrane_run _ _ _ HP)) in Hrun.
  destruct (Z.geb_spec (num_children P) (max_children P)); [lia|].
  rewrite Hrest' in Hrun. simpl in Hrun. injection Hrun as -> -> ->.
  split; [done|]. right. eauto 10.
Qed.

Lemma add_child_full h p c P :
  membranes h !! p = Some P → (max_children P ≤ num_children P)%Z →
  ggml_p9ml_membrane_add_child (Some p) (Some c) h = Some ((-1)%Z, h, []).
Proof.
  intros HP Hfull. unfold ggml_p9ml_membrane_add_child. step_load HP.
  destruct (Z.geb_spec (num_children P) (max_children P)); [done|lia].
Qed.

Lemma add_object_full h m t Mb :
  membranes h !! m = Some Mb → (max_objects Mb ≤ num_objects Mb)%Z →
  ggml_p9ml_membrane_add_object (Some m) (Some t) h = Some ((-1)%Z, h, []).
Proof.
  intros HM Hfull. unfold ggml_p9ml_membrane_add_object. step_load HM.
  destruct (Z.geb_spec (num_objects Mb) (max_objects Mb)); [done|lia].
Qed.

Lemma add_object_run h m t Mb os :
  membranes h !! m = Some Mb → objects Mb = Some os →
  (0 ≤ num_objects Mb < max_objects Mb)%Z →
  (num_objects Mb < Z.of_nat (length os))%Z →
  ggml_p9ml_membrane_add_object (Some m) (Some t) h =
    Some (0%Z,
          set_membranes
            (<[m := set_num_objects (num_objects Mb + 1)
                      (set_objects (Some (<[Z.to_nat (num_objects Mb) := Some t]> os)) Mb)]>
               (membranes h)) h, []).
Proof.
  intros HM Hos Hn Hl. unfold ggml_p9ml_membrane_add_object. step_load HM.
  destruct (Z.geb_spec (num_objects Mb) (max_objects Mb)); [lia|].
  rewrite Hos. step_with (array_set_run os (num_objects Mb) (Some t) h ltac:(lia)).
  step_update HM. set (M1 := set_objects _ Mb). set (h1 := set_membranes _ h).
  assert (HM1 : membranes h1 !! m = Some M1) by apply lookup_insert_eq.
  step_load HM1. step_update HM1. simpl.
  do 2 f_equal. f_equal. subst h1. destruct h. unfold set_membranes. simpl.
  by rewrite insert_insert_eq.
Qed.

Lemma membrane_new_ok given lvl cx h :
  malloc_plan h = [] →
  ∃ a h' m, ggml_p9ml_membrane_new given lvl cx h = Some (Some a, h', []) ∧
            membranes h !! a = None ∧ membranes h' !! a = Some m ∧
            membrane_ok m ∧ num_children m = 0%Z ∧ num_objects m = 0%Z ∧
            malloc_plan h' = [].
Proof.
  intros Hp. pose proof (membrane_new_run given lvl cx h) as H. rewrite Hp in H. cbn [hd] in H.
  destruct H as (cs & os & rs & plan & E & Hall). destruct (Hall eq_refl) as (-> & -> & -> & ->).
  do 3 eexists. split; [exact E|]. split; [apply fresh_membrane|].
  split; [apply lookup_insert_eq|]. split; [|done].
  split; [|split]; [| |done]; eexists; (split; [reflexivity|]); by rewrite length_replicate.
Qed.

Lemma child_attached_ok h h' p c P cs :
  membrane_ok P → children P = Some cs → (num_children P < max_children P)%Z →
  child_attached h h' p c P cs →
  ∃ P', membranes h' !! p = Some P' ∧ membrane_ok P'.
Proof.
  intros ((cs0 & Hcs0 & Hlen) & Hos & Hnc & Hno) Hcs Hlt [_ (P' & HP' & E1 & E2 & E3 & E4 & E5 & E6 & _) _ _].
  exists P'. split; [done|]. rewrite Hcs in Hcs0. injection Hcs0 as <-.
  split; [|split; [|split]]; rewrite ?E2, ?E3, ?E4, ?E5, ?E6; try lia; try done.
  eexists. split; [exact E1|]. by rewrite length_insert.
Qed.

(** C4. A successful [add_child (parent, child)] sets the child's parent to
    [parent] and its namespace to the namespace the parent has at that
    moment. When the parent is later attached under a membrane of another
    namespace by a second [add_child], the parent takes that namespace and
    the child keeps the one it was given. *)
Theorem add_child_snapshots_namespace (h h1 : heap) (p c : addr) (P : ggml_p9ml_membrane) :
  membranes h !! p = Some P →
  ggml_p9ml_membrane_add_child (Some p) (Some c) h = Some (0%Z, h1, []) →
  (∃ C1, membranes h1 !! c = Some C1 ∧ parent C1 = Some p ∧ ns C1 = ns P) ∧
  (∀ g h2, c ≠ p →
     ggml_p9ml_membrane_add_child (Some g) (Some p) h1 = Some (0%Z, h2, []) →
     ∃ G P2 C2,
       membranes h1 !! g = Some G ∧
       membranes h2 !! p = Some P2 ∧ parent P2 = Some g ∧ ns P2 = ns G ∧
       membranes h2 !! c = Some C2 ∧ parent C2 = Some p ∧ ns C2 = ns P).
Proof.
  intros HP Hrun.
  apply add_child_Some in Hrun as (P0 & HP0 & _ & [(Hr & _)|(_ & _ & cs & Hcs & Hatt)]); [done|].
  rewrite HP in HP0. injection HP0 as <-.
  destruct Hatt as [(C1 & HC1 & Hpar & Hns) _ _ _].
  split; [eauto|].
  intros g h2 Hne Hrun2.
  apply add_child_Some in Hrun2 as (G & HG & _ & [(Hr & _)|(_ & _ & gs & Hgs & Hatt2)]); [done|].
  destruct Hatt2 as [(P2 & HP2 & Hpar2 & Hns2) (G' & HG' & _ & _ & _ & _ & _ & _ & Hgne) Hothers _].
  exists G, P2. destruct (decide (c = g)) as [->|Hcg].
  - exists G'. rewrite HC1 in HG. injection HG as <-.
    destruct (Hgne Hne) as [E1 E2]. repeat split; try done; congruence.
  - exists C1. rewrite (Hothers c) by done. eauto 10.
Qed.

(** C5. On a membrane that satisfies the construction invariant, [add_child]
    refuses exactly when the child count equals [max_children] and
    [add_object] exactly when the object count equals [max_objects]; a
    refusal returns the store as it was, and an acceptance adds one to the
    count and leaves both capacities as they were. A new membrane has
    capacities 16 and 256 and is empty. *)
Theorem capacity_is_enforced (h : heap) (p c t : addr) (P : ggml_p9ml_membrane) :
  membranes h !! p = Some P → is_Some (membranes h !! c) → membrane_ok P →
  (∃ r h', ggml_p9ml_membrane_add_child (Some p) (Some c) h = Some (r, h', []) ∧
     (r = (-1)%Z ↔ num_children P = max_children P) ∧
     (r = (-1)%Z → h' = h) ∧
     (r ≠ (-1)%Z → r = 0%Z ∧ ∃ P', membranes h' !! p = Some P' ∧
        num_children P' = (num_children P + 1)%Z ∧
        max_children P' = max_children P ∧ max_objects P' = max_objects P)) ∧
  (∃ r h', ggml_p9ml_membrane_add_object (Some p) (Some t) h = Some (r, h', []) ∧
     (r = (-1)%Z ↔ num_objects P = max_objects P) ∧
     (r = (-1)%Z → h' = h) ∧
     (r ≠ (-1)%Z → r = 0%Z ∧ ∃ P', membranes h' !! p = Some P' ∧
        num_objects P' = (num_objects P + 1)%Z ∧
        max_children P' = max_children P ∧ max_objects P' = max_objects P)) ∧
  (∀ given lvl cx a h1 tr,
     ggml_p9ml_membrane_new given lvl cx h = Some (Some a, h1, tr) →
     ∃ m, membranes h1 !! a = Some m ∧
          max_children m = 16%Z ∧ max_objects m = 256%Z ∧
          num_children m = 0%Z ∧ num_objects m = 0%Z).
Proof.
  intros HP [C HC] ((cs & Hcs & Hlc) & (os & Hos & Hlo) & Hnc & Hno).
  split; [|split].
  - destruct (decide (num_children P = max_children P)) as [Heq|Hne].
    + exists (-1)%Z, h. split; [apply (add_child_full _ _ _ P); [done|lia]|]. done.
    + destruct (add_child_run h p c P C cs HP HC Hcs) as (h' & Hrun & Hatt); [lia..|].
      exists 0%Z, h'. split; [done|]. split; [done|]. split; [done|]. intros _. split; [done|].
      destruct Hatt as [_ (P' & HP' & _ & E1 & E2 & _ & _ & E3 & _) _ _]. eauto 10.
  - destruct (decide (num_objects P = max_objects P)) as [Heq|Hne].
    + exists (-1)%Z, h. split; [apply (add_object_full _ _ _ P); [done|lia]|]. done.
    + eexists 0%Z, _. split; [apply (add_object_run h p t P os); [done|done|lia..]|].
      split; [done|]. split; [done|]. intros _. split; [done|].
      eexists. split; [apply lookup_insert_eq|]. done.
  - intros given lvl cx a h1 tr Hnew.
    pose proof (membrane_new_run given lvl cx h) as H.
    destruct (hd true (malloc_plan h)).
    + destruct H as (cs' & os' & rs' & plan & E & _). rewrite E in Hnew.
      injection Hnew as <- <- <-. eexists. split; [apply lookup_insert_eq|]. done.
    + rewrite H in Hnew. done.
Qed.

(** * Traversals *)

Lemma read_ptrs_lookup arr n cs j :
  read_ptrs arr n = Some cs → (0 ≤ j < n)%Z →
  ∃ l c, arr = Some l ∧ l !! Z.to_nat j = Some c ∧ cs !! Z.to_nat j = Some c.
Proof.
  unfold read_ptrs. intros H Hj. destruct (Z.leb_spec n 0); [lia|].
  destruct arr as [l|]; [|done].
  destruct (Nat.leb_spec (Z.to_nat n) (length l)); [|done]. injection H as <-.
  destruct (lookup_lt_is_Some_2 l (Z.to_nat j)) as [c Hc]; [lia|].
  exists l, c. split; [done|]. split; [done|]. rewrite lookup_take_lt by lia. done.
Qed.

Lemma read_ptrs_length arr n cs :
  read_ptrs arr n = Some cs → length cs = Z.to_nat n.
Proof.
  unfold read_ptrs. intros H. destruct (Z.leb_spec n 0).
  - injection H as <-. simpl. lia.
  - destruct arr as [l|]; [|done].
    destruct (Nat.leb_spec (Z.to_nat n) (length l)); [|done]. injection H as <-.
    rewrite length_take. lia.
Qed.

Lemma take_succ_lookup {A} (l : list A) (j : Z) x :
  (0 ≤ j)%Z → l !! Z.to_nat j = Some x →
  take (Z.to_nat (j + 1)) l = take (Z.to_nat j) l ++ [x].
Proof.
  intros Hj Hx. replace (Z.to_nat (j + 1)) with (S (Z.to_nat j)) by lia.
  by apply take_S_r.
Qed.

Lemma tree_ok_unfold chk d h a :
  tree_ok chk d h a = true →
  ∃ d' m cs, d = S d' ∧ membranes h !! a = Some m ∧ chk h m = true ∧
    read_ptrs (children m) (num_children m) = Some cs ∧
    ∀ c, Some c ∈ cs → tree_ok chk d' h c = true.
Proof.
  destruct d as [|d']; [done|]. simpl.
  destruct (membranes h !! a) as [m|]; [|done].
  intros [Hchk H]%andb_true_iff.
  destruct (read_ptrs (children m) (num_children m)) as [cs|] eqn:Hcs; [|done].
  exists d', m, cs. repeat split; try done.
  intros c Hc. rewrite forallb_forall in H. apply (H (Some c)). by apply list_elem_of_In.
Qed.

Lemma tree_ok_mono chk h : ∀ d d' a,
  tree_ok chk d h a = true → (d ≤ d')%nat → tree_ok chk d' h a = true.
Proof.
  induction d as [|d IH]; intros d' a H Hle; [done|].
  destruct d' as [|d']; [lia|]. simpl in *.
  destruct (membranes h !! a) as [m|]; [|done].
  apply andb_true_iff in H as [-> H]. simpl.
  destruct (read_ptrs (children m) (num_children m)) as [cs|]; [|done].
  rewrite forallb_forall in *. intros [c|] Hc; [|done].
  apply IH; [|lia]. by apply (H (Some c)).
Qed.

(** C9. On a well-formed tree and with fuel beyond its depth, [evolve]
    returns 0 and hands back the very store it was given, so no field of any
    membrane, namespace, config or tensor has changed; the trace shows that
    it entered every membrane of the tree, in preorder. *)
Theorem evolve_is_pure_traversal (d fuel : nat) (h : heap) (a : addr) :
  tree_ok links_only d h a = true → (d < fuel)%nat →
  ggml_p9ml_membrane_evolve fuel (Some a) h = Some (0%Z, h, preorder d h a).
Proof.
  revert fuel a. induction d as [|d IH]; intros fuel a Hok Hfuel; [done|].
  destruct fuel as [|fuel]; [lia|].
  apply tree_ok_unfold in Hok as (d' & m & cs & [= <-] & Hm & _ & Hcs & Hkids).
  simpl. rewrite Hm, Hcs. unfold bind at 1, visit at 1.
  step_load Hm.
  destruct (for_loop_total
    (λ j hj tj, hj = h ∧
       tj = flat_map (λ c, match c with Some c' => preorder d h c' | None => [] end)
              (take (Z.to_nat j) cs))
    (λ i, let* Mb := load_membrane a in
          let* ch := array_get (children Mb) i in
          ggml_p9ml_membrane_evolve fuel ch;; ret tt)
    (num_children m) h) as (h' & t & Hloop & -> & Ht).
  { done. }
  { intros j hj tj Hj [-> ->].
    destruct (read_ptrs_lookup _ _ _ j Hcs Hj) as (l & c & Hl & Hlc & Hcc).
    step_load Hm. rewrite Hl. step_with (array_get_run l j c h ltac:(lia) Hlc).
    assert (Hev : ggml_p9ml_membrane_evolve fuel c h =
                  Some (match c with Some _ => 0%Z | None => (-1)%Z end, h,
                        match c with Some c' => preorder d h c' | None => [] end)).
    { destruct c as [c'|].
      - apply IH; [|lia]. apply Hkids. by eapply list_elem_of_lookup_2.
      - destruct fuel; [lia|done]. }
    step_with Hev. unfold ret. eexists _, _. split; [reflexivity|]. split; [done|].
    rewrite (take_succ_lookup cs j c) by (done || lia).
    rewrite flat_map_app. simpl. by rewrite !app_nil_r. }
  step_with Hloop. unfold ret. simpl. rewrite app_nil_r.
  assert (Z.to_nat (Z.max 0 (num_children m)) = Z.to_nat (num_children m)) as Hmax by lia.
  rewrite <- (read_ptrs_length _ _ _ Hcs) in Hmax.
  rewrite Hmax, take_ge in Ht by lia. by rewrite Ht.
Qed.

(** ** Stores with the same links *)

Lemma forallb_eq {A} (f g : A → bool) l :
  (∀ x, x ∈ l → f x = g x) → forallb f l = forallb g l.
Proof.
  induction l as [|x l IH]; intros H; [done|]. simpl.
  rewrite (H x) by apply list_elem_of_here. rewrite IH; [done|].
  intros y Hy. apply H. by apply list_elem_of_further.
Qed.

Lemma flat_map_eq {A B} (f g : A → list B) l :
  (∀ x, x ∈ l → f x = g x) → flat_map f l = flat_map g l.
Proof.
  induction l as [|x l IH]; intros H; [done|]. simpl.
  rewrite (H x) by apply list_elem_of_here. rewrite IH; [done|].
  intros y Hy. apply H. by apply list_elem_of_further.
Qed.

Lemma same_links_lookup h h' a m :
  same_links h h' → membranes h !! a = Some m →
  ∃ m', membranes h' !! a = Some m' ∧ links m' = links m.
Proof.
  intros Hl Hm. specialize (Hl a). rewrite Hm in Hl.
  destruct (membranes h' !! a) as [m'|]; [|done]. simpl in Hl. apply (inj Some) in Hl. by exists m'.
Qed.

Lemma same_links_sym h h' : same_links h h' → same_links h' h.
Proof. intros H a. by rewrite H. Qed.

Lemma tree_ok_same_links chk h h' :
  same_links h h' →
  (∀ m m', links m' = links m → chk h' m' = chk h m) →
  ∀ d a, tree_ok chk d h' a = tree_ok chk d h a.
Proof.
  intros Hl Hchk. induction d as [|d IH]; intros a; [done|]. simpl.
  specialize (Hl a).
  destruct (membranes h !! a) as [m|], (membranes h' !! a) as [m'|]; try done.
  simpl in Hl. apply (inj Some) in Hl. rewrite (Hchk m m' Hl). unfold links in Hl.
  injection Hl as -> -> _ _. f_equal.
  destruct (read_ptrs (children m) (num_children m)); [|done].
  apply forallb_eq. intros [c|] _; [apply IH|done].
Qed.

Lemma preorder_same_links h h' :
  same_links h h' → ∀ d a, preorder d h' a = preorder d h a.
Proof.
  intros Hl. induction d as [|d IH]; intros a; [done|]. simpl. f_equal.
  specialize (Hl a).
  destruct (membranes h !! a) as [m|], (membranes h' !! a) as [m'|]; try done.
  simpl in Hl. apply (inj Some) in Hl. unfold links in Hl. injection Hl as -> -> _ _.
  destruct (read_ptrs (children m) (num_children m)); [|done].
  apply flat_map_eq. intros [c|] _; [apply IH|done].
Qed.

Lemma reachable_same_links h h' a b :
  same_links h h' → reachable h a b → reachable h' a b.
Proof.
  intros Hl. induction 1 as [a|a m cs i c b Hm Hcs Hi Hc _ IH]; [constructor|].
  destruct (same_links_lookup _ _ _ _ Hl Hm) as (m' & Hm' & E).
  unfold links in E. injection E as E1 E2 _ _.
  eapply reachable_child; [exact Hm'|by rewrite E1|by rewrite E2|exact Hc|exact IH].
Qed.

Lemma reachable_preorder chk h a b :
  reachable h a b → ∀ d, tree_ok chk d h a = true → b ∈ preorder d h a.
Proof.
  induction 1 as [a|a m cs0 i c b Hm Hcs0 Hi Hc _ IH]; intros d Hok;
    apply tree_ok_unfold in Hok as (d' & m' & cs & -> & Hm' & _ & Hcs & Hkids); simpl.
  - apply list_elem_of_here.
  - apply list_elem_of_further. rewrite Hm' in Hm. injection Hm as ->. rewrite Hm', Hcs.
    destruct (read_ptrs_lookup _ _ _ i Hcs Hi) as (l & c' & Hl & Hlc & Hcc).
    assert (l = cs0) as -> by congruence. assert (c' = Some c) as -> by congruence.
    apply list_elem_of_In, in_flat_map. exists (Some c). split.
    + apply list_elem_of_In. by eapply list_elem_of_lookup_2.
    + apply list_elem_of_In, IH, Hkids. by eapply list_elem_of_lookup_2.
Qed.

(** ** Namespace propagation *)

Lemma ns_frame_refl n h : ns_frame n h h.
Proof. split; [|done]. intros b. destruct (membranes h !! b); auto. Qed.

Lemma ns_frame_trans n h1 h2 h3 : ns_frame n h1 h2 → ns_frame n h2 h3 → ns_frame n h1 h3.
Proof.
  intros [Ha (?&?&?&?&?)] [Hb (?&?&?&?&?)]. split; [|repeat split; congruence].
  intros b. pose proof (Ha b) as Hab. pose proof (Hb b) as Hbb.
  destruct (membranes h1 !! b), (membranes h2 !! b), (membranes h3 !! b); try done.
  destruct Hab as [E1 O1], Hbb as [E2 O2]. split; [congruence|].
  destruct O1 as [O1|O1], O2 as [O2|O2]; rewrite ?O2, ?O1; auto.
Qed.

Lemma ns_frame_links n h h' : ns_frame n h h' → same_links h h'.
Proof.
  intros [H _] b. specialize (H b).
  destruct (membranes h !! b) as [m|], (membranes h' !! b) as [m'|]; try done.
  destruct H as [E _]. simpl. f_equal.
  change (links (set_ns NULL m') = links (set_ns NULL m)). by rewrite E.
Qed.

Lemma ns_frame_has_ns n h h' b : ns_frame n h h' → has_ns h b n → has_ns h' b n.
Proof.
  intros [H _] (B & HB & Hns). specialize (H b). rewrite HB in H.
  destruct (membranes h' !! b) as [B'|] eqn:HB'; [|destruct H]. exists B'. split; [done|].
  destruct H as [_ [E|E]]; congruence.
Qed.

Lemma ns_frame_update n h a m :
  membranes h !! a = Some m →
  ns_frame n h (set_membranes (<[a := set_ns (Some n) m]> (membranes h)) h).
Proof.
  intros Hm. split; [|done]. intros b. simpl. destruct (decide (a = b)) as [<-|Hne].
  - rewrite Hm, lookup_insert_eq. auto.
  - rewrite lookup_insert_ne by done. destruct (membranes h !! b); auto.
Qed.

Lemma propagate_spec n : ∀ d fuel h a,
  tree_ok links_only d h a = true → (d < fuel)%nat →
  ∃ h', ggml_p9ml_propagate_namespace fuel (Some a) (Some n) h = Some (tt, h', []) ∧
        ns_frame n h h' ∧ ∀ b, b ∈ preorder d h a → has_ns h' b n.
Proof.
  induction d as [|d IH]; intros fuel a h0 Hok Hfuel; [done|].
  destruct fuel as [|fuel]; [lia|].
  pose proof Hok as Hok0.
  apply tree_ok_unfold in Hok as (d' & m & cs & [= <-] & Hm & _ & Hcs & Hkids).
  rename a into h, h0 into a. simpl. rewrite Hm, Hcs.
  step_update Hm. set (h1 := set_membranes _ h).
  assert (Hf1 : ns_frame n h h1) by by apply ns_frame_update.
  assert (Hm1 : membranes h1 !! a = Some (set_ns (Some n) m)) by apply lookup_insert_eq.
  step_load Hm1. cbn [num_children set_ns].
  destruct (for_loop_total
    (λ j hj tj, ns_frame n h1 hj ∧ tj = [] ∧
       ∀ b, b ∈ flat_map (λ c, match c with Some c' => preorder d h c' | None => [] end)
                  (take (Z.to_nat j) cs) → has_ns hj b n)
    (λ i, let* Mb := load_membrane a in
          let* c := array_get (children Mb) i in
          match c with
          | Some _ => ggml_p9ml_propagate_namespace fuel c (Some n)
          | None => ret tt
          end)
    (num_children m) h1) as (h' & t & Hloop & Hf & -> & Hall).
  { split; [apply ns_frame_refl|]. split; [done|]. intros b Hb. simpl in Hb. by apply elem_of_nil in Hb. }
  { intros j hj tj Hj (Hfj & -> & Hj_all).
    destruct (read_ptrs_lookup _ _ _ j Hcs Hj) as (l & c & Hl & Hlc & Hcc).
    assert (Hlj : same_links h hj).
    { intros b. rewrite (ns_frame_links _ _ _ Hfj b). apply (ns_frame_links _ _ _ Hf1). }
    destruct (same_links_lookup _ _ _ _ Hlj Hm) as (mj & Hmj & E).
    unfold links in E. injection E as E1 E2 _ _.
    step_load Hmj. rewrite E1, Hl. step_with (array_get_run l j c hj ltac:(lia) Hlc).
    rewrite (take_succ_lookup cs j c) by (done || lia).
    destruct c as [c'|].
    - destruct (IH fuel hj c') as (h2 & Hrun & Hf2 & Hsub); [|lia|].
      { rewrite (tree_ok_same_links links_only h hj) by done.
        apply Hkids. by eapply list_elem_of_lookup_2. }
      exists h2, []. rewrite Hrun. split; [done|]. split; [by eapply ns_frame_trans|]. split; [done|].
      intros b Hb. rewrite flat_map_app in Hb. apply elem_of_app in Hb as [Hb|Hb].
      + eapply ns_frame_has_ns; [exact Hf2|]. by apply Hj_all.
      + simpl in Hb. rewrite app_nil_r in Hb. apply Hsub.
        by rewrite (preorder_same_links h hj).
    - exists hj, []. split; [done|]. split; [done|]. split; [done|].
      intros b Hb. rewrite flat_map_app in Hb. simpl in Hb. rewrite app_nil_r in Hb.
      by apply Hj_all. }
  exists h'. rewrite Hloop. split; [done|]. split; [by eapply ns_frame_trans|].
  intros b [->|Hb]%elem_of_cons.
  - eapply ns_frame_has_ns; [exact Hf|]. eexists. split; [exact Hm1|done].
  - apply Hall.
    assert (Z.to_nat (Z.max 0 (num_children m)) = length cs) as ->
      by (rewrite (read_ptrs_length _ _ _ Hcs); lia).
    by rewrite take_ge by lia.
Qed.

Lemma update_namespace_run h a n f :
  namespaces h !! a = Some n →
  update_namespace a f h = Some (tt, set_namespaces (<[a := f n]> (namespaces h)) h, []).
Proof.
  intros Hn. unfold update_namespace, load_namespace, bind, modify. by rewrite Hn.
Qed.

(** C3. On a well-formed tree and with fuel beyond its depth, [set_root]
    returns 0, records the root in the namespace and leaves every membrane
    reachable from the root, the root included, referring to the namespace,
    whatever namespace it referred to before. With a null root it returns -1
    and the store, hence the namespace, is as it was. *)
Theorem set_root_propagates_namespace (d fuel : nat) (h : heap) (n r : addr)
    (N : ggml_p9ml_namespace) :
  namespaces h !! n = Some N → tree_ok links_only d h r = true → (d < fuel)%nat →
  (∃ h', ggml_p9ml_namespace_set_root fuel (Some n) (Some r) h = Some (0%Z, h', []) ∧
     (∃ N', namespaces h' !! n = Some N' ∧ ns_root N' = Some r) ∧
     ∀ b, reachable h' r b → has_ns h' b n) ∧
  (∀ nsp, ggml_p9ml_namespace_set_root fuel nsp NULL h = Some ((-1)%Z, h, [])).
Proof.
  intros HN Hok Hfuel. split; [|by intros [?|]].
  unfold ggml_p9ml_namespace_set_root.
  step_with (update_namespace_run h n N (set_ns_root (Some r)) HN).
  set (h0 := set_namespaces _ h).
  assert (Hl0 : same_links h h0) by done.
  destruct (propagate_spec n d fuel h0 r) as (h' & Hrun & Hf & Hall); [|done|].
  { by rewrite (tree_ok_same_links links_only h h0). }
  step_with Hrun. exists h'. split; [done|]. split.
  - destruct Hf as (_ & -> & _). eexists. split; [apply lookup_insert_eq|done].
  - intros b Hb. apply Hall.
    apply (reachable_preorder links_only);
      [|by rewrite (tree_ok_same_links links_only h h0)].
    eapply reachable_same_links; [|exact Hb]. apply same_links_sym, (ns_frame_links n), Hf.
Qed.

(** ** The frame of the data-free QAT pass *)

Lemma qat_frame_refl c cfg h : qat_frame c cfg h h.
Proof.
  intros _. split; [|split; [done|split; [|done]]].
  - intros b. destruct (membranes h !! b); auto.
  - intros t. destruct (tensors h !! t); auto.
Qed.

Lemma qat_frame_trans c cfg h1 h2 h3 :
  qat_frame c cfg h1 h2 → qat_frame c cfg h2 h3 → qat_frame c cfg h1 h3.
Proof.
  intros H12 H23 Hc. destruct (H12 Hc) as (Hm12 & Hs12 & Ht12 & Hn12 & Hp12).
  assert (Hc2 : configs h2 !! c = Some cfg) by by eapply lookup_weaken.
  destruct (H23 Hc2) as (Hm23 & Hs23 & Ht23 & Hn23 & Hp23).
  split; [|split; [by etrans|split; [|split; [congruence|auto]]]].
  - intros b. pose proof (Hm12 b) as Ha. pose proof (Hm23 b) as Hb.
    destruct (membranes h1 !! b) as [m1|], (membranes h2 !! b) as [m2|],
      (membranes h3 !! b) as [m3|]; try done.
    destruct Ha as [E1 O1], Hb as [E2 O2]. split; [congruence|].
    destruct O2 as [O2|(N2 & q & Q2 & F2 & C2)].
    + rewrite O2. destruct O1 as [O1|(N1 & q & Q1 & F1 & C1)]; [by left|].
      right. split; [done|]. exists q. split; [done|]. split; [done|].
      by eapply lookup_weaken.
    + destruct O1 as [O1|(N1 & q' & Q1 & _)]; [|congruence].
      right. split; [congruence|]. exists q. split; [done|]. split; [|done].
      destruct (configs h1 !! q) eqn:E; [|done].
      eapply lookup_weaken in E; [|exact Hs12]. congruence.
  - intros t. pose proof (Ht12 t) as Ha. pose proof (Ht23 t) as Hb.
    destruct (tensors h1 !! t) as [T1|], (tensors h2 !! t) as [T2|],
      (tensors h3 !! t) as [T3|]; try done.
    destruct Ha as [E1 O1], Hb as [E2 O2]. split; [congruence|].
    intros Hq. rewrite <- (O1 Hq). apply O2. by rewrite (O1 Hq).
Qed.

#[local] Instance qat_frame_preorder c cfg : PreOrder (qat_frame c cfg).
Proof. split; [intros h; apply qat_frame_refl|intros h1 h2 h3; apply qat_frame_trans]. Qed.

Lemma qat_frame_links c cfg h h' :
  configs h !! c = Some cfg → qat_frame c cfg h h' → same_links h h'.
Proof.
  intros Hc H b. destruct (H Hc) as (Hm & _). specialize (Hm b).
  destruct (membranes h !! b) as [m|], (membranes h' !! b) as [m'|]; try done.
  destruct Hm as [E _]. simpl. f_equal.
  change (links (set_qat_config NULL m') = links (set_qat_config NULL m)). by rewrite E.
Qed.

Lemma qat_frame_shapes c cfg h h' :
  configs h !! c = Some cfg → qat_frame c cfg h h' → same_shapes h h'.
Proof.
  intros Hc H t. destruct (H Hc) as (_ & _ & Ht & _). specialize (Ht t).
  destruct (tensors h !! t) as [T|], (tensors h' !! t) as [T'|]; try done.
  destruct Ht as [E _]. simpl. by rewrite E.
Qed.

Lemma qat_frame_config c cfg h h' :
  configs h !! c = Some cfg → qat_frame c cfg h h' → configs h' !! c = Some cfg.
Proof. intros Hc H. destruct (H Hc) as (_ & Hs & _). by eapply lookup_weaken. Qed.

Lemma qat_frame_has_config c cfg h h' b :
  configs h !! c = Some cfg → qat_frame c cfg h h' → has_config h b → has_config h' b.
Proof.
  intros Hc H (B & q & HB & Hq). destruct (H Hc) as (Hm & _). specialize (Hm b).
  rewrite HB in Hm. destruct (membranes h' !! b) as [B'|] eqn:HB'; [|destruct Hm].
  destruct Hm as [_ [E|(E & _)]]; [|congruence]. exists B', q. split; [done|congruence].
Qed.

Lemma tensor_ok_shape T T' : shape T' = shape T → tensor_ok T' = tensor_ok T.
Proof.
  unfold shape, tensor_ok, not_quantizable, ggml_nelements. intros [= E1 E2 E3].
  rewrite E1, E2. destruct (data T), (data T'); simpl in E3; try done. by injection E3 as ->.
Qed.

Lemma objects_ok_same h h' m m' :
  same_shapes h h' → links m' = links m → objects_ok h' m' = objects_ok h m.
Proof.
  intros Hs [= _ _ E1 E2]. unfold objects_ok. rewrite E1, E2.
  destruct (read_ptrs (objects m) (num_objects m)); [|done].
  apply forallb_eq. intros [t|] _; [|done]. specialize (Hs t).
  destruct (tensors h !! t) as [T|], (tensors h' !! t) as [T'|]; try done.
  simpl in Hs. apply (inj Some) in Hs. by apply tensor_ok_shape.
Qed.

Lemma noises_length n s scale : length (noises n s scale) = n.
Proof. revert s. induction n as [|n IH]; intros s; simpl; [done|by rewrite IH]. Qed.

Lemma perturbed_length n d s scale : length (perturbed n d s scale) = length d.
Proof.
  unfold perturbed. rewrite length_app, length_zip_with, length_take, length_drop, noises_length.
  lia.
Qed.

Lemma add_noise_run scale : ∀ n d h,
  (n ≤ length d)%nat →
  add_noise n d scale h =
    Some (perturbed n d (seed h) scale, set_seed (seed_after n (seed h)) h, []).
Proof.
  induction n as [|n IH]; intros d h Hn.
  - unfold perturbed. simpl. rewrite ?take_0, ?drop_0. simpl. unfold ret. by destruct h.
  - destruct d as [|x d]; [simpl in Hn; lia|]. simpl.
    unfold bind at 1, ggml_p9ml_generate_noise at 1.
    rewrite (bind_run _ _ _ _ _ _ (IH d _ ltac:(simpl in Hn; simpl; lia))).
    unfold ret. simpl. unfold perturbed. simpl. by destruct h.
Qed.

Lemma add_noise_Some scale : ∀ n d h d' h' t,
  add_noise n d scale h = Some (d', h', t) → (n ≤ length d)%nat.
Proof.
  induction n as [|n IH]; intros d h d' h' t H; [lia|].
  destruct d as [|x d]; [done|]. simpl in H.
  apply bind_Some in H as (nz & h1 & t1 & t2 & _ & H & _).
  apply bind_Some in H as (r & h2 & t3 & t4 & H & _). apply IH in H. simpl. lia.
Qed.

Lemma qat_object_run h m c i Mb os t :
  membranes h !! m = Some Mb → objects Mb = Some os → (0 ≤ i)%Z →
  os !! Z.to_nat i = Some t →
  qat_object m c i h =
    match t with
    | None => Some (tt, h, [])
    | Some ta =>
        match tensors h !! ta with
        | None => None
        | Some T =>
            if not_quantizable T then Some (tt, h, [])
            else match data T with
                 | None => Some (tt, h, [])
                 | Some d =>
                     match configs h !! c with
                     | None => None
                     | Some cfg =>
                         if (Z.to_nat (ggml_nelements T) <=? length d)%nat
                         then Some (tt, noised h ta T d (noise_scale cfg), [])
                         else None
                     end
                 end
        end
    end.
Proof.
  intros Hm Hos Hi Ht. unfold qat_object. step_load Hm. rewrite Hos.
  step_with (array_get_run os i t h Hi Ht). destruct t as [ta|]; [|done].
  unfold bind at 1, load_tensor at 1. destruct (tensors h !! ta) as [T|] eqn:HT; [|done].
  destruct (not_quantizable T); [done|]. destruct (data T) as [d|]; [|done].
  unfold bind at 1, load_config at 1. destruct (configs h !! c) as [cfg|]; [|done].
  destruct (Nat.leb_spec (Z.to_nat (ggml_nelements T)) (length d)) as [Hle|Hgt].
  - rewrite (bind_run _ _ _ _ _ _ (add_noise_run _ _ _ h Hle)).
    unfold update_tensor, bind, load_tensor, modify. simpl. rewrite HT. done.
  - unfold bind at 1. destruct (add_noise _ d _ h) as [[[d' h'] t']|] eqn:E; [|done].
    apply add_noise_Some in E. lia.
Qed.

Lemma qat_store_config_run h m c Mb cfg :
  membranes h !! m = Some Mb → configs h !! c = Some cfg →
  qat_store_config m c h =
    Some (match qat_config Mb with
          | Some _ => (true, h, [])
          | None =>
              if hd true (malloc_plan h) then (true, config_stored h m Mb cfg, [])
              else (false, set_malloc_plan (tl (malloc_plan h)) h, [])
          end).
Proof.
  intros Hm Hc. unfold qat_store_config. step_load Hm.
  destruct (qat_config Mb); [done|].
  step_with (malloc_run h). destruct (hd true (malloc_plan h)); [|done]. simpl.
  set (h0 := set_malloc_plan _ h). unfold bind at 1.
  assert (Hm0 : membranes h0 !! m = Some Mb) by done.
  step_update Hm0. set (h1 := set_membranes _ h0).
  assert (Hc1 : configs h1 !! c = Some cfg) by done.
  unfold bind at 1, load_config at 1. rewrite Hc1. done.
Qed.

Lemma qat_store_config_membrane h m c r h' t :
  qat_store_config m c h = Some (r, h', t) → is_Some (membranes h !! m).
Proof.
  unfold qat_store_config. intros (Mb & ? & ? & ? & (Hm & _)%load_membrane_Some & _)%bind_Some.
  eauto.
Qed.

Lemma qat_store_config_frame c cfg m : respects (qat_frame c cfg) (qat_store_config m c).
Proof.
  intros h r h' t Hrun Hc.
  destruct (qat_store_config_membrane _ _ _ _ _ _ Hrun) as [Mb Hm].
  rewrite (qat_store_config_run h m c Mb cfg Hm Hc) in Hrun.
  destruct (qat_config Mb) as [q0|] eqn:Hq; [|destruct (hd true (malloc_plan h)) eqn:Hd];
    injection Hrun as <- <- <-.
  - exact (qat_frame_refl c cfg h Hc).
  - split; [|split; [|split; [|split]]]; simpl.
    + intros b. destruct (decide (m = b)) as [<-|Hne].
      * rewrite Hm, lookup_insert_eq. split; [done|]. right. split; [done|].
        eexists. split; [done|]. split; [apply fresh_config|apply lookup_insert_eq].
      * rewrite lookup_insert_ne by done. destruct (membranes h !! b); auto.
    + apply insert_subseteq, fresh_config.
    + intros t. destruct (tensors h !! t); auto.
    + done.
    + by intros ->.
  - split; [|split; [|split; [|split]]]; simpl; try done.
    + intros b. destruct (membranes h !! b); auto.
    + intros t. destruct (tensors h !! t); auto.
    + by intros ->.
Qed.

Lemma qat_object_frame c cfg m i : respects (qat_frame c cfg) (qat_object m c i).
Proof.
  intros h r h' t Hrun Hc. pose proof Hrun as Hrun'. unfold qat_object in Hrun'.
  apply bind_Some in Hrun' as (Mb & ? & ? & ? & (Hm & -> & _)%load_membrane_Some & Hrest & _).
  apply bind_Some in Hrest as (p & ? & ? & ? & (os & Hos & Hi & Hp & _)%array_get_Some & _).
  rewrite (qat_object_run h m c i Mb os p Hm Hos Hi Hp) in Hrun.
  destruct p as [ta|]; [|injection Hrun as <- <- <-; exact (qat_frame_refl c cfg h Hc)].
  destruct (tensors h !! ta) as [T|] eqn:HT; [|done].
  destruct (not_quantizable T) eqn:Hnq; [injection Hrun as <- <- <-; exact (qat_frame_refl c cfg h Hc)|].
  destruct (data T) as [d|] eqn:Hd; [|injection Hrun as <- <- <-; exact (qat_frame_refl c cfg h Hc)].
  rewrite Hc in Hrun. destruct (_ <=? _)%nat; [|done]. injection Hrun as <- <- <-.
  split; [|split; [|split; [|split]]]; simpl; try done.
  - intros b. destruct (membranes h !! b); auto.
  - intros t. destruct (decide (ta = t)) as [<-|Hne].
    + rewrite HT, lookup_insert_eq. split; [|by rewrite Hnq].
      unfold shape. simpl. rewrite Hd. simpl. by rewrite perturbed_length.
    + rewrite lookup_insert_ne by done. destruct (tensors h !! t); auto.
Qed.

Lemma apply_data_free_qat_frame c cfg : ∀ fuel mp,
  respects (qat_frame c cfg) (ggml_p9ml_apply_data_free_qat fuel mp (Some c)).
Proof.
  induction fuel as [|fuel IH]; intros mp; [apply respects_undefined|]. simpl.
  destruct mp as [m|]; [|apply respects_ret; apply _].
  apply respects_bind; [apply _|apply respects_visit; apply _|]. intros _.
  apply respects_bind; [apply _|apply qat_store_config_frame|]. intros stored.
  destruct stored; simpl; [|apply respects_ret; apply _].
  apply respects_bind; [apply _|apply respects_load_membrane; apply _|]. intros Mb.
  apply respects_bind; [apply _| |].
  { apply respects_for_loop; [apply _|]. intros j. apply qat_object_frame. }
  intros _. apply respects_bind; [apply _|apply respects_load_membrane; apply _|]. intros Mb'.
  apply respects_bind; [apply _| |intros _; apply respects_ret; apply _].
  apply respects_for_loop; [apply _|]. intros j.
  apply respects_bind; [apply _|apply respects_load_membrane; apply _|]. intros Mj.
  apply respects_bind; [apply _|apply respects_array_get; apply _|]. intros ch.
  apply respects_bind; [apply _|apply IH|intros _; apply respects_ret; apply _].
Qed.

(** ** The data-free QAT pass on a well-formed tree *)

Lemma objects_ok_lookup h m j :
  objects_ok h m = true → (0 ≤ j < num_objects m)%Z →
  ∃ os t, objects m = Some os ∧ os !! Z.to_nat j = Some t ∧
    match t with
    | Some ta => ∃ T, tensors h !! ta = Some T ∧ tensor_ok T = true
    | None => True
    end.
Proof.
  unfold objects_ok. destruct (read_ptrs _ _) as [ts|] eqn:Hts; [|done]. intros Hall Hj.
  destruct (read_ptrs_lookup _ _ _ j Hts Hj) as (os & t & Hos & Ht & Htj).
  exists os, t. split; [done|]. split; [done|].
  rewrite forallb_forall in Hall. specialize (Hall t).
  destruct t as [ta|]; [|done].
  assert (Hin : In (Some ta) ts) by (apply list_elem_of_In; by eapply list_elem_of_lookup_2).
  destruct (tensors h !! ta) as [T|]; [eexists; split; [done|by apply Hall]|].
  by specialize (Hall Hin).
Qed.

Lemma qat_object_total h m c cfg Mb j :
  membranes h !! m = Some Mb → objects_ok h Mb = true → (0 ≤ j < num_objects Mb)%Z →
  configs h !! c = Some cfg →
  ∃ h', qat_object m c j h = Some (tt, h', []).
Proof.
  intros Hm Hok Hj Hc.
  destruct (objects_ok_lookup _ _ _ Hok Hj) as (os & t & Hos & Ht & HT).
  rewrite (qat_object_run h m c j Mb os t Hm Hos ltac:(lia) Ht).
  destruct t as [ta|]; [|eauto]. destruct HT as (T & -> & Hok').
  unfold tensor_ok in Hok'. destruct (not_quantizable T); [eauto|]. simpl in Hok'.
  destruct (data T); [|eauto]. rewrite Hc, Hok'. eauto.
Qed.

Lemma apply_data_free_qat_spec c cfg : ∀ d fuel h a,
  tree_ok objects_ok d h a = true → configs h !! c = Some cfg → (d < fuel)%nat →
  ∃ r h' t,
    ggml_p9ml_apply_data_free_qat fuel (Some a) (Some c) h = Some (r, h', t) ∧
    (∀ A, membranes h !! a = Some A →
       (r = (-1)%Z ↔ qat_config A = NULL ∧ hd true (malloc_plan h) = false)) ∧
    (r = 0%Z ∨ r = (-1)%Z) ∧
    (malloc_plan h = [] → t = preorder d h a ∧ ∀ b, b ∈ t → has_config h' b).
Proof.
  induction d as [|d IH]; intros fuel h a Hok Hc Hfuel; [done|].
  destruct fuel as [|fuel]; [lia|].
  apply tree_ok_unfold in Hok as (d' & m & cs & [= <-] & Hm & Hobj & Hcs & Hkids).
  simpl. rewrite Hm, Hcs. unfold bind at 1, visit at 1.
  pose proof (qat_store_config_run h a c m cfg Hm Hc) as Hst.
  assert ((∃ h1, qat_store_config a c h = Some (true, h1, []) ∧ has_config h1 a ∧
                 ¬ (qat_config m = NULL ∧ hd true (malloc_plan h) = false)) ∨
          (qat_store_config a c h = Some (false, set_malloc_plan (tl (malloc_plan h)) h, []) ∧
           qat_config m = NULL ∧ hd true (malloc_plan h) = false)) as [(h1 & Hst1 & Hhas & Hnot)|(Hst1 & Hq & Hd)].
  { destruct (qat_config m) as [q0|] eqn:Hq; [|destruct (hd true (malloc_plan h)) eqn:Hd].
    - left. exists h. split; [done|]. split; [by exists m, q0|]. by intros [? _].
    - left. eexists. split; [done|]. split; [|by intros [_ ?]].
      eexists _, _. split; [apply lookup_insert_eq|done].
    - by right. }
  2:{ step_with Hst1. simpl. unfold ret. eexists _, _, _. split; [done|]. split; [|split; [by right|]].
      - intros A HA. injection HA as <-. done.
      - intros Hp. by rewrite Hp in Hd. }
  clear Hst. step_with Hst1. simpl.
  pose proof (qat_store_config_frame c cfg a _ _ _ _ Hst1) as F1.
  assert (Hc1 : configs h1 !! c = Some cfg) by by eapply qat_frame_config.
  assert (Hinv : ∀ hj, qat_frame c cfg h1 hj →
            configs hj !! c = Some cfg ∧ same_links h hj ∧ same_shapes h hj ∧
            ∃ Mj, membranes hj !! a = Some Mj ∧ links Mj = links m).
  { intros hj Fj. assert (F : qat_frame c cfg h hj) by by etrans.
    split; [by eapply qat_frame_config|].
    assert (Hl : same_links h hj) by by eapply qat_frame_links.
    split; [done|]. split; [by eapply qat_frame_shapes|]. by eapply same_links_lookup. }
  destruct (Hinv h1 (qat_frame_refl _ _ _)) as (_ & _ & _ & M1 & HM1 & E1).
  step_load HM1.
  destruct (for_loop_total (λ j hj tj, qat_frame c cfg h1 hj ∧ tj = [])
              (qat_object a c) (num_objects M1) h1) as (h2 & t2 & Hloop2 & F2 & ->).
  { split; [apply qat_frame_refl|done]. }
  { intros j hj tj Hj [Fj ->].
    destruct (Hinv hj Fj) as (Hcj & Hlj & Hsj & Mj & HMj & Ej).
    destruct (qat_object_total hj a c cfg Mj j HMj) as (h' & Hrun); [| |done|].
    - by rewrite (objects_ok_same h hj m Mj).
    - unfold links in Ej, E1. injection Ej as _ _ _ ->. injection E1 as _ _ _ <-. done.
    - exists h', []. split; [done|]. split; [|done].
      etrans; [exact Fj|]. by eapply qat_object_frame. }
  step_with Hloop2.
  destruct (Hinv h2 F2) as (Hc2 & Hl2 & Hs2 & M2 & HM2 & E2).
  step_load HM2.
  assert (num_children M2 = num_children m) as -> by (unfold links in E2; by injection E2).
  destruct (for_loop_total
    (λ j hj tj, qat_frame c cfg h1 hj ∧
       (malloc_plan h = [] →
        tj = flat_map (λ c, match c with Some c' => preorder d h c' | None => [] end)
               (take (Z.to_nat j) cs) ∧
        ∀ b, b ∈ tj → has_config hj b))
    (λ i, let* Mb := load_membrane a in
          let* ch := array_get (children Mb) i in
          ggml_p9ml_apply_data_free_qat fuel ch (Some c);; ret tt)
    (num_children m) h2) as (h3 & t3 & Hloop3 & F3 & Htr).
  { split; [done|]. intros _. split; [done|]. by intros b Hb%elem_of_nil. }
  { intros j hj tj Hj [Fj Htj].
    destruct (Hinv hj Fj) as (Hcj & Hlj & Hsj & Mj & HMj & Ej).
    destruct (read_ptrs_lookup _ _ _ j Hcs Hj) as (l & ch & Hl & Hlc & Hcc).
    step_load HMj. assert (children Mj = Some l) as ->
      by (unfold links in Ej; injection Ej as -> _ _ _; done).
    step_with (array_get_run l j ch hj ltac:(lia) Hlc).
    rewrite (take_succ_lookup cs j ch) by (done || lia). rewrite flat_map_app. simpl.
    destruct ch as [c'|].
    - destruct (IH fuel hj c') as (r & h' & t & Hrun & _ & _ & Ht); [|done|lia|].
      { rewrite (tree_ok_same_links objects_ok h hj); [|done|].
        - apply Hkids. by eapply list_elem_of_lookup_2.
        - intros. by apply objects_ok_same. }
      step_with Hrun. unfold ret. exists h', (t ++ []). split; [done|].
      assert (Fj' : qat_frame c cfg hj h') by by eapply apply_data_free_qat_frame.
      split; [by etrans|]. intros Hp. destruct (Htj Hp) as [-> Hvis].
      destruct Ht as [-> Hvis'].
      { assert (Fh : qat_frame c cfg h hj) by by etrans.
        destruct (Fh Hc) as (_ & _ & _ & _ & Hplan). by apply Hplan. }
      rewrite (preorder_same_links h hj) by done. rewrite !app_nil_r. split; [done|].
      intros b [Hb|Hb]%elem_of_app.
      + eapply qat_frame_has_config; [exact Hcj|exact Fj'|]. by apply Hvis.
      + apply Hvis'. by rewrite (preorder_same_links h hj).
    - assert (Hnull : ggml_p9ml_apply_data_free_qat fuel NULL (Some c) hj = Some ((-1)%Z, hj, []))
        by (destruct fuel; [lia|done]).
      step_with Hnull. unfold ret. exists hj, []. split; [done|]. split; [done|].
      intros Hp. destruct (Htj Hp) as [-> Hvis]. rewrite !app_nil_r. done. }
  step_with Hloop3. unfold ret. simpl. eexists _, _, _. split; [done|]. split; [|split; [by left|]].
  - intros A HA. injection HA as <-. split; [done|]. intros ?. by destruct Hnot.
  - intros Hp. destruct (Htr Hp) as [-> Hvis].
    assert (Z.to_nat (Z.max 0 (num_children m)) = length cs) as Hlen
      by (rewrite (read_ptrs_length _ _ _ Hcs); lia).
    rewrite Hlen, take_ge, app_nil_r in * by lia. split; [done|].
    intros b [->|Hb]%elem_of_cons; [|by apply Hvis].
    eapply qat_frame_has_config; [exact Hc1|exact F3|done].
Qed.




(** C8 as amended. On a well-formed tree and with fuel beyond its depth the
    pass returns 0 or -1, and -1 exactly when the root has no stored config
    and the [malloc] of its copy fails; with a null membrane or a null
    config it returns -1 and the store is as it was. *)
Theorem apply_data_free_qat_fails_iff (d fuel : nat) (h : heap) (a c : addr)
    (A : ggml_p9ml_membrane) (cfg : ggml_p9ml_qat_config) :
  tree_ok objects_ok d h a = true → membranes h !! a = Some A →
  configs h !! c = Some cfg → (d < fuel)%nat →
  (∃ r h' t,
     ggml_p9ml_apply_data_free_qat fuel (Some a) (Some c) h = Some (r, h', t) ∧
     (r = 0%Z ∨ r = (-1)%Z) ∧
     (r = (-1)%Z ↔ qat_config A = NULL ∧ hd true (malloc_plan h) = false)) ∧
  (∀ mp, ggml_p9ml_apply_data_free_qat fuel mp NULL h = Some ((-1)%Z, h, [])) ∧
  (∀ cp, ggml_p9ml_apply_data_free_qat fuel NULL cp h = Some ((-1)%Z, h, [])).
Proof.
  intros Hok HA Hc Hfuel. split; [|split].
  - destruct (apply_data_free_qat_spec c cfg d fuel h a Hok Hc Hfuel)
      as (r & h' & t & Hrun & Hr & Hr' & _).
    exists r, h', t. split; [done|]. split; [done|]. by apply Hr.
  - intros mp. destruct fuel; [lia|]. by destruct mp.
  - intros cp. destruct fuel; [lia|]. done.
Qed.

(** * binary32 arithmetic

    [SpecFloat] computes with shifts and sticky bits; the lemmas below show
    that its rounding is the closed formula [round_spec], that rounding is
    monotone in the value rounded, and from there that the noise drawn by
    [ggml_p9ml_generate_noise] lies within the scale. *)

Local Open Scope Z_scope.

Lemma digits2_pos_size p : digits2_pos p = Pos.size p.
Proof. induction p; simpl; congruence. Qed.

Lemma digits2_bounds p : 2 ^ (Zpos (digits2_pos p) - 1) <= Zpos p < 2 ^ Zpos (digits2_pos p).
Proof.
  rewrite digits2_pos_size. split.
  - pose proof (Pos.size_le p) as H.
    assert (Zpos (2 ^ Pos.size p) <= Zpos p~0)%Z by (apply Pos2Z.pos_le_pos; exact H).
    rewrite Pos2Z.inj_pow in H0.
    replace (Zpos (Pos.size p)) with (Zpos (Pos.size p) - 1 + 1) in H0 by lia.
    rewrite Z.pow_add_r in H0 by lia. change (Zpos p~0) with (2 * Zpos p) in H0. lia.
  - pose proof (Pos.size_gt p) as H.
    assert (Zpos p < Zpos (2 ^ Pos.size p))%Z by (apply Pos2Z.pos_lt_pos; exact H).
    by rewrite Pos2Z.inj_pow in H0.
Qed.

Lemma digits_unique (m d : Z) : 0 < d -> 2 ^ (d - 1) <= m < 2 ^ d -> Zdigits2 m = d.
Proof.
  intros Hd [Hlo Hhi]. destruct m as [|p|p]; try (pose proof (Z.pow_pos_nonneg 2 (d-1)); lia).
  simpl. pose proof (digits2_bounds p) as [Hl Hh].
  set (d' := Zpos (digits2_pos p)) in *.
  destruct (Z.lt_trichotomy d' d) as [H|[H|H]]; [|done|].
  - assert (2 ^ d' <= 2 ^ (d - 1)) by (apply Z.pow_le_mono_r; lia). lia.
  - assert (2 ^ d <= 2 ^ (d' - 1)) by (apply Z.pow_le_mono_r; lia). lia.
Qed.

Lemma shr_1_spec m r s : 0 <= m ->
  shr_1 (Build_shr_record m r s) = Build_shr_record (m / 2) (Z.odd m) (r || s).
Proof.
  intros Hm. destruct m as [|p|p]; [done| |lia].
  destruct p as [p|p|]; simpl; f_equal.
  - change (Zpos p~1) with (2 * Zpos p + 1). apply Z.div_unique with 1; lia.
  - change (Zpos p~0) with (2 * Zpos p). apply Z.div_unique with 0; lia.
Qed.

Lemma iter_pos_nat {A} (f : A -> A) p x : SpecFloat.iter_pos f p x = Nat.iter (Pos.to_nat p) f x.
Proof.
  revert x. induction p as [p IH|p IH|]; intros x.
  - change (SpecFloat.iter_pos f p~1 x) with (SpecFloat.iter_pos f p (SpecFloat.iter_pos f p (f x))).
    rewrite !IH, Pos2Nat.inj_xI, Nat.iter_succ_r.
    replace (2 * Pos.to_nat p)%nat with (Pos.to_nat p + Pos.to_nat p)%nat by lia.
    by rewrite Nat.iter_add.
  - change (SpecFloat.iter_pos f p~0 x) with (SpecFloat.iter_pos f p (SpecFloat.iter_pos f p x)).
    rewrite !IH, Pos2Nat.inj_xO.
    replace (2 * Pos.to_nat p)%nat with (Pos.to_nat p + Pos.to_nat p)%nat by lia.
    by rewrite Nat.iter_add.
  - done.
Qed.

(** After [k] steps from [(m, false, false)]. *)
Lemma shr_iter m k : 0 <= m ->
  Nat.iter k shr_1 (Build_shr_record m false false) =
  Build_shr_record (m / 2 ^ Z.of_nat k)
    (2 ^ Z.of_nat k <=? 2 * (m mod 2 ^ Z.of_nat k))
    (negb (m mod 2 ^ Z.of_nat k =? 0) && negb (2 * (m mod 2 ^ Z.of_nat k) =? 2 ^ Z.of_nat k)).
Proof.
  intros Hm. induction k as [|k IH].
  - simpl. rewrite Z.div_1_r, Z.mod_1_r. done.
  - rewrite Nat.iter_succ, IH. clear IH.
    set (K := Z.of_nat k). assert (0 <= K) by lia.
    replace (Z.of_nat (S k)) with (K + 1) by lia.
    assert (HP : 0 < 2 ^ K) by (apply Z.pow_pos_nonneg; lia).
    rewrite shr_1_spec by (apply Z.div_pos; lia).
    rewrite Z.pow_add_r, Z.pow_1_r by lia.
    rewrite Z.div_div by lia.
    rewrite (Z.rem_mul_r m (2 ^ K) 2) by lia.
    pose proof (Z.mod_pos_bound m (2 ^ K) HP) as Hr.
    set (r := m mod 2 ^ K) in *. set (q := m / 2 ^ K).
    rewrite Zodd_mod. pose proof (Z.mod_pos_bound q 2 ltac:(lia)) as Hb.
    set (b := q mod 2) in *.
    f_equal.
    + assert (b = 0 \/ b = 1) as [->| ->] by lia; simpl.
      * destruct (Z.leb_spec (2 ^ K * 2) (2 * (r + 2 ^ K * 0))); [lia|done].
      * destruct (Z.leb_spec (2 ^ K * 2) (2 * (r + 2 ^ K * 1))); [done|lia].
    + destruct (Z.leb_spec (2 ^ K) (2 * r)), (Z.eqb_spec r 0), (Z.eqb_spec (2 * r) (2 ^ K)),
        (Z.eqb_spec (r + 2 ^ K * b) 0), (Z.eqb_spec (2 * (r + 2 ^ K * b)) (2 ^ K * 2));
        simpl; try done; try lia; assert (b = 0 \/ b = 1) as [?|?] by lia; subst b; try lia.
Qed.

Lemma rne_cases m n : 0 <= n ->
  exists q r, m = 2 ^ n * q + r /\ 0 <= r < 2 ^ n /\ q = m / 2 ^ n /\
    rne m n = (if 2 * r <? 2 ^ n then q
               else if 2 ^ n <? 2 * r then q + 1
               else if Z.even q then q else q + 1).
Proof.
  intros Hn. assert (HP : 0 < 2 ^ n) by (apply Z.pow_pos_nonneg; lia).
  exists (m / 2 ^ n), (m mod 2 ^ n). split; [apply Z.div_mod; lia|].
  split; [apply Z.mod_pos_bound; lia|]. done.
Qed.

Lemma rne_range m n : 0 <= n -> m / 2 ^ n <= rne m n <= m / 2 ^ n + 1.
Proof.
  intros Hn. destruct (rne_cases m n Hn) as (q & r & _ & _ & <- & ->).
  destruct (_ <? _); [lia|]. destruct (_ <? _); [lia|]. destruct (Z.even q); lia.
Qed.

Lemma rne_mono m1 m2 n : 0 <= n -> m1 <= m2 -> rne m1 n <= rne m2 n.
Proof.
  intros Hn Hle. assert (HP : 0 < 2 ^ n) by (apply Z.pow_pos_nonneg; lia).
  destruct (rne_cases m1 n Hn) as (q1 & r1 & E1 & Hr1 & Hq1 & ->).
  destruct (rne_cases m2 n Hn) as (q2 & r2 & E2 & Hr2 & Hq2 & ->).
  assert (q1 <= q2) by (subst q1 q2; apply Z.div_le_mono; lia).
  set (P := 2 ^ n) in *.
  destruct (Z.eq_dec q1 q2) as [->|Hne].
  - assert (r1 <= r2) by lia.
    destruct (Z.ltb_spec (2 * r1) P), (Z.ltb_spec (2 * r2) P), (Z.ltb_spec P (2 * r1)),
      (Z.ltb_spec P (2 * r2)), (Z.even q2); lia.
  - assert (q1 + 1 <= q2) by lia.
    destruct (Z.ltb_spec (2 * r1) P), (Z.ltb_spec (2 * r2) P), (Z.ltb_spec P (2 * r1)),
      (Z.ltb_spec P (2 * r2)), (Z.even q2), (Z.even q1); lia.
Qed.

Lemma rne_exact q n : 0 <= n -> rne (q * 2 ^ n) n = q.
Proof.
  intros Hn. assert (HP : 0 < 2 ^ n) by (apply Z.pow_pos_nonneg; lia).
  unfold rne. rewrite Z.div_mul, Z.mod_mul by lia.
  destruct (Z.ltb_spec (2 * 0) (2 ^ n)); [done|lia].
Qed.

Lemma rne_0 m : rne m 0 = m.
Proof. rewrite <- (rne_exact m 0) at 2 by lia. by rewrite Z.pow_0_r, Z.mul_1_r. Qed.

Lemma rne_double m n : 0 <= n -> rne (2 * m) (n + 1) = rne m n.
Proof.
  intros Hn. assert (HP : 0 < 2 ^ n) by (apply Z.pow_pos_nonneg; lia).
  unfold rne. rewrite Z.pow_add_r, Z.pow_1_r by lia.
  replace (2 ^ n * 2) with (2 * 2 ^ n) by lia.
  rewrite Z.div_mul_cancel_l by lia. rewrite Z.mul_mod_distr_l by lia.
  set (r := m mod 2 ^ n). set (q := m / 2 ^ n).
  destruct (Z.ltb_spec (2 * (2 * r)) (2 * 2 ^ n)), (Z.ltb_spec (2 * r) (2 ^ n)); try lia.
  destruct (Z.ltb_spec (2 * 2 ^ n) (2 * (2 * r))), (Z.ltb_spec (2 ^ n) (2 * r)); try lia; done.
Qed.

Lemma shr_rne m e n : 0 <= m -> 0 < n ->
  let mrs := fst (shr (Build_shr_record m false false) e n) in
  snd (shr (Build_shr_record m false false) e n) = e + n /\
  round_nearest_even (shr_m mrs) (loc_of_shr_record mrs) = rne m n.
Proof.
  intros Hm Hn. destruct n as [|p|p]; [lia| |lia]. simpl. split; [done|].
  rewrite iter_pos_nat, shr_iter by done. rewrite positive_nat_Z.
  assert (HP : 0 < 2 ^ Zpos p) by (apply Z.pow_pos_nonneg; lia).
  unfold rne. pose proof (Z.mod_pos_bound m (2 ^ Zpos p) HP).
  set (r := m mod 2 ^ Zpos p) in *. set (q := m / 2 ^ Zpos p). set (P := 2 ^ Zpos p) in *.
  simpl.
  destruct (Z.leb_spec P (2 * r)), (Z.eqb_spec r 0), (Z.eqb_spec (2 * r) P),
    (Z.ltb_spec (2 * r) P), (Z.ltb_spec P (2 * r)); simpl; try done; lia.
Qed.

Lemma fexp_32 x : fexp 24 128 x = fexp32 x.
Proof. reflexivity. Qed.

Lemma Zdigits2_pos m : 0 < m -> 0 < Zdigits2 m /\ 2 ^ (Zdigits2 m - 1) <= m < 2 ^ Zdigits2 m.
Proof.
  destruct m as [|p|p]; try lia. intros _. simpl. split; [lia|apply digits2_bounds].
Qed.

Lemma Zdigits2_le m d : 0 <= d -> 0 <= m < 2 ^ d -> Zdigits2 m <= d.
Proof.
  intros Hd [Hm Hlt]. destruct (Z.eq_dec m 0) as [->|Hne]; [simpl; lia|].
  destruct (Zdigits2_pos m ltac:(lia)) as [Hpos [Hlo _]].
  destruct (Z.le_gt_cases (Zdigits2 m) d) as [|Hgt]; [done|].
  assert (2 ^ d <= 2 ^ (Zdigits2 m - 1)) by (apply Z.pow_le_mono_r; lia). lia.
Qed.

Lemma sig_at_bounds m e : 0 < m ->
  let t := fexp32 (Zdigits2 m + e) in
  0 <= sig_at m e t <= 2 ^ 24 /\
  (t <= e -> sig_at m e t < 2 ^ 24) /\
  (-149 < t -> 2 ^ 23 <= sig_at m e t).
Proof.
  intros Hm t. destruct (Zdigits2_pos m Hm) as [Hd [Hlo Hhi]].
  set (d := Zdigits2 m) in *. unfold sig_at.
  assert (Ht : d + e - 24 <= t /\ -149 <= t) by (unfold t, fexp32; lia).
  destruct (Z.leb_spec t e) as [Hle|Hgt].
  - assert (H1 : m * 2 ^ (e - t) < 2 ^ d * 2 ^ (e - t)).
    { apply Z.mul_lt_mono_pos_r; [apply Z.pow_pos_nonneg; lia|lia]. }
    rewrite <- Z.pow_add_r in H1 by lia.
    assert (2 ^ (d + (e - t)) <= 2 ^ 24) by (apply Z.pow_le_mono_r; lia).
    assert (0 < 2 ^ (e - t)) by (apply Z.pow_pos_nonneg; lia).
    split; [nia|]. split; [lia|]. intros Hn.
    assert (t = d + e - 24) by (unfold t, fexp32 in *; lia).
    assert (2 ^ (d - 1) * 2 ^ (e - t) <= m * 2 ^ (e - t)) by (apply Z.mul_le_mono_nonneg_r; lia).
    rewrite <- Z.pow_add_r in H3 by lia.
    replace (d - 1 + (e - t)) with 23 in H3 by lia. lia.
  - set (n := t - e). assert (0 < n) by lia.
    split; [|split; [lia|]].
    + split.
      * pose proof (rne_range m n ltac:(lia)) as [Hr _].
        assert (0 <= m / 2 ^ n) by (apply Z.div_pos; [lia|apply Z.pow_pos_nonneg; lia]). lia.
      * destruct (Z.le_gt_cases n d) as [Hnd|Hnd].
        -- etrans; [apply (rne_mono m (2 ^ d) n); lia|].
           replace (2 ^ d) with (2 ^ (d - n) * 2 ^ n) by (rewrite <- Z.pow_add_r by lia; f_equal; lia).
           rewrite rne_exact by lia. apply Z.pow_le_mono_r; lia.
        -- pose proof (rne_range m n ltac:(lia)) as [_ Hr].
           assert (m / 2 ^ n = 0).
           { apply Z.div_small. split; [lia|].
             assert (2 ^ d <= 2 ^ n) by (apply Z.pow_le_mono_r; lia). lia. }
           assert (1 <= 2 ^ 24) by (apply (Z.pow_le_mono_r 2 0 24); lia). lia.
    + intros Hn. assert (Et : t = d + e - 24) by (unfold t, fexp32 in *; lia).
      assert (n <= d - 1) by lia.
      etrans; [|apply (rne_mono (2 ^ (d - 1)) m n); lia].
      replace (2 ^ (d - 1)) with (2 ^ (d - 1 - n) * 2 ^ n)
        by (rewrite <- Z.pow_add_r by lia; f_equal; lia).
      rewrite rne_exact by lia. apply Z.pow_le_mono_r; lia.
Qed.

Lemma shr_fexp_second q t : -149 <= t -> 0 <= q <= 2 ^ 24 ->
  shr_fexp 24 128 q t loc_Exact =
    if q =? 2 ^ 24 then (Build_shr_record (2 ^ 23) false false, t + 1)
    else (Build_shr_record q false false, t).
Proof.
  intros Ht Hq. unfold shr_fexp. rewrite fexp_32. simpl shr_record_of_loc.
  destruct (Z.eqb_spec q (2 ^ 24)) as [->|Hne].
  - change (Zdigits2 (2 ^ 24)) with 25. unfold fexp32.
    replace (Z.max (25 + t - 24) (-149) - t) with 1 by lia. simpl. f_equal.
  - assert (Zdigits2 q <= 24) by (apply Zdigits2_le; lia).
    unfold fexp32. destruct (Z.max (Zdigits2 q + t - 24) (-149) - t) eqn:E; try done. lia.
Qed.

Lemma binary_round_aux_spec sx m e : 0 < m -> e <= fexp32 (Zdigits2 m + e) ->
  binary_round_aux 24 128 sx m e loc_Exact = round_spec sx m e.
Proof.
  intros Hm Hn. unfold binary_round_aux, round_spec.
  pose proof (sig_at_bounds m e Hm) as (Hb & _).
  set (t := fexp32 (Zdigits2 m + e)) in *.
  assert (Ht : -149 <= t) by (unfold t, fexp32; lia).
  assert (Hfirst : shr_fexp 24 128 m e loc_Exact =
            (fst (shr_fexp 24 128 m e loc_Exact), t) /\
          round_nearest_even (shr_m (fst (shr_fexp 24 128 m e loc_Exact)))
            (loc_of_shr_record (fst (shr_fexp 24 128 m e loc_Exact))) = sig_at m e t).
  { unfold shr_fexp. rewrite fexp_32. fold t. simpl shr_record_of_loc. unfold sig_at.
    destruct (Z.eq_dec t e) as [E|E].
    - rewrite E, Z.sub_diag. simpl. destruct (Z.leb_spec e e); [|lia].
      split; [done|lia].
    - destruct (shr_rne m e (t - e) ltac:(lia) ltac:(lia)) as [H1 H2].
      destruct (Z.leb_spec t e); [lia|]. split; [|exact H2].
      rewrite (surjective_pairing (shr _ _ _)) at 1. f_equal. rewrite H1. lia. }
  destruct Hfirst as [H1 H2]. rewrite H1. cbv beta iota. rewrite H2.
  rewrite shr_fexp_second by done.
  destruct (Z.eqb_spec (sig_at m e t) 0) as [E0|E0].
  { rewrite E0. simpl. done. }
  destruct (Z.eqb_spec (sig_at m e t) (2 ^ 24)) as [E1|E1].
  { simpl. done. }
  simpl. destruct (sig_at m e t) eqn:E; [done| |lia]. done.
Qed.

Lemma Zdigits2_shift m k : 0 < m -> 0 <= k -> Zdigits2 (m * 2 ^ k) = Zdigits2 m + k.
Proof.
  intros Hm Hk. destruct (Zdigits2_pos m Hm) as [Hd [Hlo Hhi]].
  assert (0 < 2 ^ k) by (apply Z.pow_pos_nonneg; lia).
  apply digits_unique; [lia|].
  replace (Zdigits2 m + k - 1) with (Zdigits2 m - 1 + k) by lia.
  rewrite !Z.pow_add_r by lia. nia.
Qed.

Lemma Zdigits2_mono m1 m2 : 0 < m1 <= m2 -> Zdigits2 m1 <= Zdigits2 m2.
Proof.
  intros [H1 H2]. destruct (Zdigits2_pos m1 H1) as [Hd1 [Hlo1 _]].
  destruct (Zdigits2_pos m2 ltac:(lia)) as [Hd2 [_ Hhi2]].
  destruct (Z.le_gt_cases (Zdigits2 m1) (Zdigits2 m2)) as [|Hgt]; [done|].
  assert (2 ^ Zdigits2 m2 <= 2 ^ (Zdigits2 m1 - 1)) by (apply Z.pow_le_mono_r; lia). lia.
Qed.

Lemma rne_shift m n k : 0 <= n -> 0 <= k -> rne (m * 2 ^ k) (n + k) = rne m n.
Proof.
  intros Hn Hk. revert m n Hn. pattern k. apply natlike_ind; [|clear k Hk|done].
  - intros m n Hn. by rewrite Z.pow_0_r, Z.mul_1_r, Z.add_0_r.
  - intros k Hk IH m n Hn. rewrite Z.pow_succ_r by done.
    replace (m * (2 * 2 ^ k)) with ((2 * m) * 2 ^ k) by lia.
    replace (n + Z.succ k) with (n + 1 + k) by lia.
    rewrite IH by lia. by apply rne_double.
Qed.

Lemma sig_at_shift m e t k : 0 <= k ->
  sig_at (m * 2 ^ k) (e - k) t = sig_at m e t.
Proof.
  intros Hk. unfold sig_at.
  destruct (Z.leb_spec t (e - k)), (Z.leb_spec t e); try lia.
  - rewrite <- Z.mul_assoc, <- Z.pow_add_r by lia. do 2 f_equal. lia.
  - replace (m * 2 ^ k) with (m * 2 ^ (e - t) * 2 ^ (t - (e - k))).
    + apply rne_exact. lia.
    + rewrite <- Z.mul_assoc, <- Z.pow_add_r by lia. do 2 f_equal. lia.
  - replace (t - (e - k)) with (t - e + k) by lia. apply rne_shift; lia.
Qed.

Lemma round_spec_shift sx m e k : 0 < m -> 0 <= k ->
  round_spec sx (m * 2 ^ k) (e - k) = round_spec sx m e.
Proof.
  intros Hm Hk. unfold round_spec. rewrite Zdigits2_shift by done.
  replace (Zdigits2 m + k + (e - k)) with (Zdigits2 m + e) by lia.
  by rewrite sig_at_shift.
Qed.

Lemma shl_align_spec mx ex ex' : ex' <= ex ->
  Zpos (fst (shl_align mx ex ex')) = Zpos mx * 2 ^ (ex - ex') /\
  snd (shl_align mx ex ex') = ex'.
Proof.
  intros Hle. unfold shl_align. destruct (ex' - ex) as [|p|p] eqn:E; [|lia|].
  - simpl. assert (ex = ex') as -> by lia. rewrite Z.sub_diag. simpl. lia.
  - simpl. split; [|done]. replace (ex - ex') with (Zpos p) by lia.
    change (Pos.iter xO mx p) with (shift_pos p mx). rewrite shift_pos_correct.
    rewrite Zpower_pos_nat, Zpower_nat_Z, positive_nat_Z. lia.
Qed.

Lemma binary_round_spec sx mx ex :
  binary_round 24 128 sx mx ex = round_spec sx (Zpos mx) ex.
Proof.
  unfold binary_round. rewrite fexp_32.
  change (Zpos (digits2_pos mx)) with (Zdigits2 (Zpos mx)).
  set (t := fexp32 (Zdigits2 (Zpos mx) + ex)).
  destruct (Z.le_gt_cases t ex) as [Hle|Hgt].
  - destruct (shl_align_spec mx ex t Hle) as [H1 H2].
    rewrite (surjective_pairing (shl_align mx ex t)), H2.
    assert (Hd : Zdigits2 (Zpos (shl_align mx ex t).1) + t = Zdigits2 (Zpos mx) + ex).
    { rewrite H1, Zdigits2_shift by lia. lia. }
    rewrite binary_round_aux_spec; [|done|rewrite Hd; fold t; lia].
    rewrite H1. rewrite <- (round_spec_shift sx (Zpos mx) ex (ex - t)) by lia.
    f_equal. lia.
  - unfold shl_align. destruct (t - ex) as [|p|p] eqn:E; try lia.
    apply binary_round_aux_spec; [done|]. fold t. lia.
Qed.

Lemma bounded_facts m e : bounded 24 128 m e = true ->
  -149 <= e <= 104 /\ Zpos m < 2 ^ 24 /\ (-149 < e -> 2 ^ 23 <= Zpos m) /\
  fexp32 (Zdigits2 (Zpos m) + e) = e.
Proof.
  unfold bounded, canonical_mantissa. rewrite fexp_32.
  intros [Hc He]%andb_true_iff. apply Z.eqb_eq in Hc. apply Z.leb_le in He.
  change (Zpos (digits2_pos m)) with (Zdigits2 (Zpos m)) in Hc.
  destruct (Zdigits2_pos (Zpos m) ltac:(lia)) as [Hd [Hlo Hhi]].
  set (d := Zdigits2 (Zpos m)) in *. unfold fexp32 in Hc |- *.
  split; [change (128 - 24) with 104 in He; lia|]. split; [|split; [|lia]].
  - assert (2 ^ d <= 2 ^ 24) by (apply Z.pow_le_mono_r; lia). lia.
  - intros Hn. assert (d = 24) as Hd24 by lia. rewrite Hd24 in Hlo. exact Hlo.
Qed.

Lemma bounded_intro m e : 0 < m -> fexp32 (Zdigits2 m + e) = e -> e <= 104 ->
  bounded 24 128 (Z.to_pos m) e = true.
Proof.
  intros Hm Hc He. unfold bounded, canonical_mantissa. rewrite fexp_32.
  change (Zpos (digits2_pos (Z.to_pos m))) with (Zdigits2 (Zpos (Z.to_pos m))).
  rewrite Z2Pos.id by done. apply andb_true_iff. split; [by apply Z.eqb_eq|].
  apply Z.leb_le. change (128 - 24) with 104. lia.
Qed.

Lemma round_spec_valid sx m e : 0 < m ->
  valid32 (round_spec sx m e) = true /\ ord (round_spec sx m e) = sgn sx (rnd_ord m e).
Proof.
  intros Hm. unfold round_spec, rnd_ord.
  pose proof (sig_at_bounds m e Hm) as (Hb & _ & Hnorm).
  set (t := fexp32 (Zdigits2 m + e)) in *. set (q := sig_at m e t) in *.
  assert (Ht : -149 <= t) by (unfold t, fexp32; lia).
  assert (H23 : 2 ^ 23 = 8388608) by done. assert (H24 : 2 ^ 24 = 16777216) by done.
  destruct (Z.eqb_spec q 0) as [E0|E0].
  { split; [done|]. assert (t = -149) as -> by lia. rewrite E0. simpl. by destruct sx. }
  destruct (Z.eqb_spec q (2 ^ 24)) as [E1|E1].
  { destruct (Z.leb_spec (t + 1) 104).
    - split.
      + unfold valid32. simpl. rewrite andb_true_r.
        apply (bounded_intro (2 ^ 23) (t + 1)); [done| |done].
        change (Zdigits2 (2 ^ 23)) with 24. unfold fexp32. lia.
      + simpl. rewrite E1. f_equal. lia.
    - split; [done|]. simpl. f_equal. lia. }
  destruct (Z.leb_spec t 104).
  - split.
    + unfold valid32. simpl. rewrite andb_true_r. apply bounded_intro; [lia| |done].
      unfold fexp32. destruct (Z.eq_dec t (-149)) as [->|Hn].
      * assert (Zdigits2 q <= 24) by (apply Zdigits2_le; lia). lia.
      * assert (Zdigits2 q = 24) as -> by (apply digits_unique; [lia|]; simpl; lia). lia.
    + simpl. rewrite Z2Pos.id by lia. f_equal. lia.
  - split; [done|]. simpl. f_equal. lia.
Qed.

Lemma round_spec_canonical sx m e : bounded 24 128 m e = true ->
  round_spec sx (Zpos m) e = S754_finite sx m e.
Proof.
  intros (He & Hm & _ & Hc)%bounded_facts. unfold round_spec. rewrite Hc.
  unfold sig_at. destruct (Z.leb_spec e e); [|lia]. rewrite Z.sub_diag, Z.mul_1_r.
  destruct (Z.eqb_spec (Zpos m) 0); [lia|]. destruct (Z.eqb_spec (Zpos m) (2 ^ 24)); [lia|].
  destruct (Z.leb_spec e 104); [|lia]. done.
Qed.

Lemma rnd_ord_canonical m e : bounded 24 128 m e = true ->
  rnd_ord (Zpos m) e = Zpos m + (e + 149) * 2 ^ 23.
Proof.
  intros Hb. pose proof (round_spec_valid false (Zpos m) e ltac:(lia)) as [_ H].
  rewrite round_spec_canonical in H by done. simpl in H. symmetry. exact H.
Qed.

Lemma rnd_ord_shift m e k : 0 < m -> 0 <= k -> rnd_ord (m * 2 ^ k) (e - k) = rnd_ord m e.
Proof.
  intros Hm Hk. unfold rnd_ord. rewrite Zdigits2_shift by done.
  replace (Zdigits2 m + k + (e - k)) with (Zdigits2 m + e) by lia.
  by rewrite sig_at_shift.
Qed.

Lemma rnd_ord_nonneg m e : 0 < m -> 0 <= rnd_ord m e.
Proof.
  intros Hm. unfold rnd_ord. pose proof (sig_at_bounds m e Hm) as (Hb & _).
  set (t := fexp32 (Zdigits2 m + e)) in *.
  assert (Ht : -149 <= t) by (unfold t, fexp32; lia). lia.
Qed.

Lemma rnd_ord_mono_same m1 m2 e : 0 < m1 <= m2 -> rnd_ord m1 e <= rnd_ord m2 e.
Proof.
  intros [H1 H2]. unfold rnd_ord.
  pose proof (sig_at_bounds m1 e H1) as (Hb1 & _ & _).
  pose proof (sig_at_bounds m2 e ltac:(lia)) as (Hb2 & _ & Hn2).
  pose proof (Zdigits2_mono m1 m2 ltac:(lia)) as Hd.
  set (t1 := fexp32 (Zdigits2 m1 + e)) in *. set (t2 := fexp32 (Zdigits2 m2 + e)) in *.
  assert (Ht : -149 <= t1 <= t2) by (unfold t1, t2, fexp32; lia).
  apply Z.min_le_compat_r.
  destruct (Z.eq_dec t1 t2) as [E|E].
  - rewrite <- E. apply Z.add_le_mono_r. unfold sig_at.
    destruct (Z.leb_spec t1 e).
    + apply Z.mul_le_mono_nonneg_r; [apply Z.pow_nonneg|]; lia.
    + apply rne_mono; lia.
  - specialize (Hn2 ltac:(lia)). assert (H23 : 2 ^ 24 = 2 * 2 ^ 23) by done. nia.
Qed.

(** Monotonicity in the value [m * 2^e]. *)
Lemma rnd_ord_mono m1 e1 m2 e2 K : 0 < m1 -> 0 < m2 -> 0 <= e1 + K -> 0 <= e2 + K ->
  m1 * 2 ^ (e1 + K) <= m2 * 2 ^ (e2 + K) -> rnd_ord m1 e1 <= rnd_ord m2 e2.
Proof.
  intros H1 H2 HK1 HK2 Hle.
  rewrite <- (rnd_ord_shift m1 e1 (e1 + K)), <- (rnd_ord_shift m2 e2 (e2 + K)) by lia.
  replace (e1 - (e1 + K)) with (- K) by lia. replace (e2 - (e2 + K)) with (- K) by lia.
  apply rnd_ord_mono_same. split; [|done].
  apply Z.mul_pos_pos; [done|apply Z.pow_pos_nonneg; lia].
Qed.

Lemma pos_ord_lt m1 e1 m2 e2 :
  bounded 24 128 m1 e1 = true -> bounded 24 128 m2 e2 = true -> e1 < e2 ->
  Zpos m1 + (e1 + 149) * 2 ^ 23 < Zpos m2 + (e2 + 149) * 2 ^ 23.
Proof.
  intros (He1 & Hm1 & _ & _)%bounded_facts (He2 & _ & Hn2 & _)%bounded_facts Hlt.
  specialize (Hn2 ltac:(lia)). assert (H24 : 2 ^ 24 = 2 * 2 ^ 23) by done. nia.
Qed.

Lemma pos_val_lt m1 e1 m2 e2 :
  bounded 24 128 m1 e1 = true -> bounded 24 128 m2 e2 = true -> e1 < e2 ->
  Zpos m1 * 2 ^ (e1 + 149) < Zpos m2 * 2 ^ (e2 + 149).
Proof.
  intros (He1 & Hm1 & _ & _)%bounded_facts (He2 & _ & Hn2 & _)%bounded_facts Hlt.
  specialize (Hn2 ltac:(lia)).
  assert (0 < 2 ^ (e1 + 149)) by (apply Z.pow_pos_nonneg; lia).
  assert (Zpos m1 * 2 ^ (e1 + 149) < 2 ^ 24 * 2 ^ (e1 + 149)) by (apply Z.mul_lt_mono_pos_r; lia).
  assert (2 ^ 23 * 2 ^ (e2 + 149) <= Zpos m2 * 2 ^ (e2 + 149))
    by (apply Z.mul_le_mono_nonneg_r; lia).
  rewrite <- Z.pow_add_r in * by lia.
  assert (2 ^ (24 + (e1 + 149)) <= 2 ^ (23 + (e2 + 149))) by (apply Z.pow_le_mono_r; lia).
  lia.
Qed.

Lemma pos_ord_pos m e : bounded 24 128 m e = true -> 0 < Zpos m + (e + 149) * 2 ^ 23 < 255 * 2 ^ 23.
Proof.
  intros (He & Hm & _ & _)%bounded_facts. assert (H24 : 2 ^ 24 = 2 * 2 ^ 23) by done. nia.
Qed.

Lemma valid32_finite s m e : valid32 (S754_finite s m e) = true -> bounded 24 128 m e = true.
Proof. unfold valid32. simpl. by rewrite andb_true_r. Qed.

Lemma SFleb_ord x y : valid32 x = true -> valid32 y = true ->
  SFleb x y = (ord x <=? ord y).
Proof.
  intros Hx Hy.
  destruct x as [sx|sx| |sx mx ex], y as [sy|sy| |sy my ey]; try done;
    try (apply valid32_finite in Hx; pose proof (pos_ord_pos _ _ Hx));
    try (apply valid32_finite in Hy; pose proof (pos_ord_pos _ _ Hy));
    unfold SFleb; simpl;
    try (destruct sx; simpl; symmetry; first [apply Z.leb_le; lia|apply Z.leb_gt; lia]);
    try (destruct sy; simpl; symmetry; first [apply Z.leb_le; lia|apply Z.leb_gt; lia]);
    try (destruct sx, sy; simpl; symmetry; first [apply Z.leb_le; lia|apply Z.leb_gt; lia]).
  change (Pos.compare_cont Eq mx my) with (Pos.compare mx my).
  destruct sx, sy; simpl; destruct (Z.compare_spec ex ey) as [->|Hlt|Hgt];
    try (symmetry; first [apply Z.leb_le; lia|apply Z.leb_gt; lia]);
    try (pose proof (pos_ord_lt _ _ _ _ Hx Hy ltac:(lia)));
    try (pose proof (pos_ord_lt _ _ _ _ Hy Hx ltac:(lia)));
    try (symmetry; first [apply Z.leb_le; lia|apply Z.leb_gt; lia]);
    destruct (Pos.compare_spec mx my); simpl;
    symmetry; first [apply Z.leb_le; lia|apply Z.leb_gt; lia].
Qed.

Lemma val_le_ord x y :
  valid32 x = true -> valid32 y = true -> is_finite x = true -> is_finite y = true ->
  val x <= val y <-> ord x <= ord y.
Proof.
  intros Hx Hy Fx Fy.
  destruct x as [sx|sx| |sx mx ex], y as [sy|sy| |sy my ey]; try done;
    try (apply valid32_finite in Hx; pose proof (pos_ord_pos _ _ Hx);
         assert (0 < Zpos mx * 2 ^ (ex + 149))
           by (apply Z.mul_pos_pos; [lia|apply Z.pow_pos_nonneg;
               apply bounded_facts in Hx; lia]));
    try (apply valid32_finite in Hy; pose proof (pos_ord_pos _ _ Hy);
         assert (0 < Zpos my * 2 ^ (ey + 149))
           by (apply Z.mul_pos_pos; [lia|apply Z.pow_pos_nonneg;
               apply bounded_facts in Hy; lia]));
    simpl; try (destruct sx; simpl; lia); try (destruct sy; simpl; lia).
  destruct (Z.lt_trichotomy ex ey) as [Hlt|[->|Hgt]].
  - pose proof (pos_ord_lt _ _ _ _ Hx Hy Hlt). pose proof (pos_val_lt _ _ _ _ Hx Hy Hlt).
    destruct sx, sy; simpl; lia.
  - apply bounded_facts in Hy as (He & _).
    assert (0 < 2 ^ (ey + 149)) by (apply Z.pow_pos_nonneg; lia).
    destruct sx, sy; simpl; nia.
  - pose proof (pos_ord_lt _ _ _ _ Hy Hx ltac:(lia)).
    pose proof (pos_val_lt _ _ _ _ Hy Hx ltac:(lia)).
    destruct sx, sy; simpl; lia.
Qed.

Lemma Rk_mono K V1 V2 : V1 <= V2 -> Rk K V1 <= Rk K V2.
Proof.
  intros Hle. unfold Rk.
  destruct (Z.eqb_spec V1 0), (Z.eqb_spec V2 0), (Z.ltb_spec 0 V1), (Z.ltb_spec 0 V2);
    try lia.
  - apply rnd_ord_nonneg; lia.
  - pose proof (rnd_ord_nonneg (- V1) (- K)); lia.
  - apply rnd_ord_mono_same; lia.
  - pose proof (rnd_ord_nonneg (- V1) (- K)). pose proof (rnd_ord_nonneg V2 (- K)). lia.
  - pose proof (rnd_ord_mono_same (- V2) (- V1) (- K)). lia.
Qed.

Lemma Rk_shift K j V : 0 <= j -> Rk (K + j) (V * 2 ^ j) = Rk K V.
Proof.
  intros Hj. unfold Rk. assert (0 < 2 ^ j) by (apply Z.pow_pos_nonneg; lia).
  destruct (Z.eqb_spec V 0), (Z.eqb_spec (V * 2 ^ j) 0), (Z.ltb_spec 0 V),
    (Z.ltb_spec 0 (V * 2 ^ j)); try nia.
  - replace (- (K + j)) with (- K - j) by lia. apply rnd_ord_shift; lia.
  - replace (- (K + j)) with (- K - j) by lia.
    replace (- (V * 2 ^ j)) with (- V * 2 ^ j) by lia. f_equal. apply rnd_ord_shift; lia.
Qed.

Lemma Rk_opp K V : Rk K (- V) = - Rk K V.
Proof.
  unfold Rk. destruct (Z.eqb_spec V 0), (Z.eqb_spec (- V) 0), (Z.ltb_spec 0 V),
    (Z.ltb_spec 0 (- V)); try lia. by rewrite Z.opp_involutive.
Qed.

Lemma Rk_sgn K s m e : 0 < m -> 0 <= e + K ->
  Rk K (sgn s (m * 2 ^ (e + K))) = sgn s (rnd_ord m e).
Proof.
  intros Hm He. assert (0 < m * 2 ^ (e + K))
    by (apply Z.mul_pos_pos; [done|apply Z.pow_pos_nonneg; lia]).
  assert (E : rnd_ord (m * 2 ^ (e + K)) (- K) = rnd_ord m e).
  { replace (- K) with (e - (e + K)) by lia. apply rnd_ord_shift; lia. }
  destruct s; simpl.
  - rewrite Rk_opp. f_equal. unfold Rk.
    destruct (Z.eqb_spec (m * 2 ^ (e + K)) 0), (Z.ltb_spec 0 (m * 2 ^ (e + K))); lia.
  - unfold Rk.
    destruct (Z.eqb_spec (m * 2 ^ (e + K)) 0), (Z.ltb_spec 0 (m * 2 ^ (e + K))); lia.
Qed.

Lemma ord_val x : valid32 x = true -> is_finite x = true -> ord x = Rk 149 (val x).
Proof.
  intros Hx Fx. destruct x as [s|s| |s m e]; try done. apply valid32_finite in Hx.
  simpl. rewrite Rk_sgn; [|lia|apply bounded_facts in Hx; lia].
  by rewrite rnd_ord_canonical.
Qed.

Lemma binary_normalize_spec V e sz : -149 <= e ->
  valid32 (binary_normalize 24 128 V e sz) = true /\
  ord (binary_normalize 24 128 V e sz) = Rk 149 (V * 2 ^ (e + 149)).
Proof.
  intros He. destruct V as [|p|p]; simpl binary_normalize.
  - done.
  - rewrite binary_round_spec. destruct (round_spec_valid false (Zpos p) e) as [Hv Ho]; [lia|].
    split; [done|]. rewrite Ho. symmetry.
    change (Zpos p * 2 ^ (e + 149)) with (sgn false (Zpos p * 2 ^ (e + 149))).
    apply (Rk_sgn 149 false); lia.
  - rewrite binary_round_spec. destruct (round_spec_valid true (Zpos p) e) as [Hv Ho]; [lia|].
    split; [done|]. rewrite Ho. symmetry.
    replace (Zneg p * 2 ^ (e + 149)) with (sgn true (Zpos p * 2 ^ (e + 149)))
      by (unfold sgn; lia).
    apply (Rk_sgn 149 true); lia.
Qed.

Lemma aligned_val s m e ez : -149 <= ez -> ez <= e ->
  cond_Zopp s (Zpos (fst (shl_align m e ez))) * 2 ^ (ez + 149) = val (S754_finite s m e).
Proof.
  intros Hz Hle. destruct (shl_align_spec m e ez Hle) as [-> _]. unfold val, sgn, cond_Zopp.
  replace (e + 149) with (e - ez + (ez + 149)) by lia.
  rewrite (Z.pow_add_r 2 (e - ez) (ez + 149)) by lia.
  destruct s; ring.
Qed.

Lemma SFadd_spec x y :
  valid32 x = true -> valid32 y = true -> is_finite x = true -> is_finite y = true ->
  valid32 (SFadd 24 128 x y) = true /\ ord (SFadd 24 128 x y) = Rk 149 (val x + val y).
Proof.
  intros Hx Hy Fx Fy.
  destruct x as [sx|sx| |sx mx ex], y as [sy|sy| |sy my ey]; try done.
  - by destruct sx, sy.
  - split; [done|]. by apply (ord_val (S754_finite sy my ey)).
  - split; [done|]. rewrite Z.add_0_r. by apply (ord_val (S754_finite sx mx ex)).
  - pose proof (valid32_finite _ _ _ Hx) as (Hex & _)%bounded_facts.
    pose proof (valid32_finite _ _ _ Hy) as (Hey & _)%bounded_facts.
    unfold SFadd. set (ez := Z.min ex ey).
    destruct (binary_normalize_spec
      (cond_Zopp sx (Zpos (fst (shl_align mx ex ez))) +
       cond_Zopp sy (Zpos (fst (shl_align my ey ez)))) ez false) as [Hv Ho]; [lia|].
    split; [exact Hv|]. rewrite Ho. f_equal.
    rewrite Z.mul_add_distr_r, !aligned_val by lia. done.
Qed.

Lemma SFsub_spec x y :
  valid32 x = true -> valid32 y = true -> is_finite x = true -> is_finite y = true ->
  valid32 (SFsub 24 128 x y) = true /\ ord (SFsub 24 128 x y) = Rk 149 (val x - val y).
Proof.
  intros Hx Hy Fx Fy.
  destruct x as [sx|sx| |sx mx ex], y as [sy|sy| |sy my ey]; try done.
  - by destruct sx, sy.
  - change (SFsub 24 128 (S754_zero sx) (S754_finite sy my ey))
      with (S754_finite (negb sy) my ey).
    split; [done|]. rewrite (ord_val (S754_finite (negb sy) my ey)) by done.
    f_equal. simpl. destruct sy; simpl; lia.
  - split; [done|]. rewrite Z.sub_0_r. by apply (ord_val (S754_finite sx mx ex)).
  - pose proof (valid32_finite _ _ _ Hx) as (Hex & _)%bounded_facts.
    pose proof (valid32_finite _ _ _ Hy) as (Hey & _)%bounded_facts.
    unfold SFsub. set (ez := Z.min ex ey).
    destruct (binary_normalize_spec
      (cond_Zopp sx (Zpos (fst (shl_align mx ex ez))) -
       cond_Zopp sy (Zpos (fst (shl_align my ey ez)))) ez false) as [Hv Ho]; [lia|].
    split; [exact Hv|]. rewrite Ho. f_equal.
    rewrite Z.mul_sub_distr_r, !aligned_val by lia. done.
Qed.

Lemma Zdigits2_ge m k : 0 <= k -> 2 ^ k <= m -> k + 1 <= Zdigits2 m.
Proof.
  intros Hk Hm. assert (0 < 2 ^ k) by (apply Z.pow_pos_nonneg; lia).
  destruct (Zdigits2_pos m ltac:(lia)) as [Hd [_ Hhi]].
  destruct (Z.le_gt_cases (k + 1) (Zdigits2 m)) as [|Hgt]; [done|].
  assert (2 ^ Zdigits2 m <= 2 ^ k) by (apply Z.pow_le_mono_r; lia). lia.
Qed.

Lemma sgn_mul s1 s2 a b : sgn s1 a * sgn s2 b = sgn (xorb s1 s2) (a * b).
Proof. destruct s1, s2; simpl; ring. Qed.

Lemma SFmul_spec x y :
  valid32 x = true -> valid32 y = true -> is_finite x = true -> is_finite y = true ->
  valid32 (SFmul 24 128 x y) = true /\ ord (SFmul 24 128 x y) = Rk 298 (val x * val y).
Proof.
  intros Hx Hy Fx Fy.
  destruct x as [sx|sx| |sx mx ex], y as [sy|sy| |sy my ey]; try done.
  - simpl. by rewrite Z.mul_0_r.
  - pose proof (valid32_finite _ _ _ Hx) as (Hex & Hmx & _ & Hcx)%bounded_facts.
    pose proof (valid32_finite _ _ _ Hy) as (Hey & Hmy & _ & Hcy)%bounded_facts.
    destruct (Zdigits2_pos (Zpos mx) ltac:(lia)) as [Hdx [Hlx _]].
    destruct (Zdigits2_pos (Zpos my) ltac:(lia)) as [Hdy [Hly _]].
    assert (HD : Zdigits2 (Zpos mx) + Zdigits2 (Zpos my) - 1 <= Zdigits2 (Zpos mx * Zpos my)).
    { replace (Zdigits2 (Zpos mx) + Zdigits2 (Zpos my) - 1)
        with ((Zdigits2 (Zpos mx) - 1) + (Zdigits2 (Zpos my) - 1) + 1) by lia.
      apply Zdigits2_ge; [lia|]. rewrite Z.pow_add_r by lia.
      apply Z.mul_le_mono_nonneg; try lia; apply Z.pow_nonneg; lia. }
    unfold SFmul. change (Zpos (mx * my)) with (Zpos mx * Zpos my).
    rewrite binary_round_aux_spec; [|lia|unfold fexp32 in *; lia].
    destruct (round_spec_valid (xorb sx sy) (Zpos mx * Zpos my) (ex + ey)) as [Hv Ho]; [lia|].
    split; [exact Hv|]. rewrite Ho. simpl val. rewrite sgn_mul.
    replace (Zpos mx * 2 ^ (ex + 149) * (Zpos my * 2 ^ (ey + 149)))
      with (Zpos mx * Zpos my * 2 ^ (ex + ey + 298)).
    + symmetry. apply Rk_sgn; lia.
    + replace (ex + ey + 298) with ((ex + 149) + (ey + 149)) by lia.
      rewrite Z.pow_add_r by lia. ring.
Qed.

Lemma finite_of_ord x : valid32 x = true ->
  - (255 * 2 ^ 23) < ord x < 255 * 2 ^ 23 -> is_finite x = true.
Proof. destruct x as [s|s| |s m e]; try done. destruct s; simpl; lia. Qed.

Lemma val_half : val f32_half = 2 ^ 148.
Proof. done. Qed.
Lemma val_one : val f32_one = 2 ^ 149.
Proof. done. Qed.
Lemma val_two : val f32_two = 2 ^ 150.
Proof. done. Qed.
Lemma val_2p31 : val f32_2p31 = 2 ^ 180.
Proof. done. Qed.

Lemma f32_of_Z_spec k : 0 <= k < 2 ^ 31 ->
  valid32 (f32_of_Z k) = true /\ is_finite (f32_of_Z k) = true /\
  0 <= val (f32_of_Z k) <= 2 ^ 180 /\ (1 <= k -> 2 ^ 149 <= val (f32_of_Z k)).
Proof.
  intros Hk. destruct (binary_normalize_spec k 0 false ltac:(lia)) as [Hv Ho].
  fold (f32_of_Z k) in *. change (0 + 149) with 149 in Ho.
  assert (H0 : 0 <= ord (f32_of_Z k)).
  { rewrite Ho. change 0 with (Rk 149 0) at 1. apply Rk_mono. lia. }
  assert (H1 : ord (f32_of_Z k) <= ord f32_2p31).
  { rewrite Ho, (ord_val f32_2p31), val_2p31 by done. apply Rk_mono.
    change (2 ^ 180) with (2 ^ 31 * 2 ^ 149). lia. }
  assert (Hf : is_finite (f32_of_Z k) = true).
  { apply finite_of_ord; [done|]. change (ord f32_2p31) with 1325400064 in H1.
    change (255 * 2 ^ 23) with 2139095040. lia. }
  split; [done|]. split; [done|]. split; [split|].
  - change 0 with (val (S754_zero false)). by apply val_le_ord.
  - rewrite <- val_2p31. by apply val_le_ord.
  - intros Hk1. rewrite <- val_one. apply val_le_ord; try done.
    rewrite Ho, (ord_val f32_one), val_one by done. apply Rk_mono. lia.
Qed.

Lemma normal_of_val x : valid32 x = true -> is_finite x = true -> 2 ^ 149 <= val x ->
  exists m e, x = S754_finite false m e /\ bounded 24 128 m e = true /\ -24 < e.
Proof.
  intros Hx Fx Hv. destruct x as [s|s| |s m e]; try done.
  apply valid32_finite in Hx. pose proof Hx as (He & Hm & _)%bounded_facts.
  assert (0 < 2 ^ (e + 149)) by (apply Z.pow_pos_nonneg; lia).
  destruct s; simpl in Hv; [lia|]. exists m, e. split; [done|]. split; [done|].
  destruct (Z.le_gt_cases e (-24)) as [Hle|]; [|lia].
  assert (2 ^ (e + 149) <= 2 ^ 125) by (apply Z.pow_le_mono_r; lia).
  assert (Zpos m * 2 ^ (e + 149) < 2 ^ 24 * 2 ^ 125) by nia.
  change (2 ^ 24 * 2 ^ 125) with (2 ^ 149) in *. lia.
Qed.

Lemma SFdiv_2p31 m e : bounded 24 128 m e = true -> -24 < e ->
  SFdiv 24 128 (S754_finite false m e) f32_2p31 = S754_finite false m (e - 31) /\
  bounded 24 128 m (e - 31) = true.
Proof.
  intros Hb He. pose proof Hb as (He' & Hm & Hn & Hc)%bounded_facts.
  specialize (Hn ltac:(lia)).
  assert (Hd : Zdigits2 (Zpos m) = 24) by (apply digits_unique; [lia|]; simpl; lia).
  assert (Hb' : bounded 24 128 m (e - 31) = true).
  { apply (bounded_intro (Zpos m)); [lia| |lia]. rewrite Hd. unfold fexp32. lia. }
  split; [|done].
  unfold SFdiv, f32_2p31, SFdiv_core_binary. rewrite Hd. rewrite fexp_32.
  change (Zdigits2 8388608) with 24.
  replace (Z.min (fexp32 (24 + e - (24 + 8))) (e - 8)) with (e - 32) by (unfold fexp32; lia).
  replace (e - 8 - (e - 32)) with 24 by lia.
  rewrite Z.shiftl_mul_pow2 by lia.
  assert (Hdiv : Z.div_eucl (Zpos m * 2 ^ 24) 8388608 = (2 * Zpos m, 0)).
  { assert (E : forall a b, Z.div_eucl a b = (a / b, a mod b)).
    { intros a b. unfold Z.div, Z.modulo. by destruct (Z.div_eucl a b). }
    rewrite E. replace (Zpos m * 2 ^ 24) with (2 * Zpos m * 8388608) by lia.
    by rewrite Z.div_mul, Z.mod_mul. }
  rewrite Hdiv. simpl new_location. cbv beta iota.
  change (new_location_even 8388608 0) with loc_Exact.
  rewrite binary_round_aux_spec; [|lia|].
  - replace (2 * Zpos m) with (Zpos m * 2 ^ 1) by lia.
    replace (e - 32) with (e - 31 - 1) by lia.
    rewrite round_spec_shift by lia. by apply round_spec_canonical.
  - replace (2 * Zpos m) with (Zpos m * 2 ^ 1) by lia.
    rewrite Zdigits2_shift, Hd by lia. unfold fexp32. lia.
Qed.

Lemma finite32_iff x : finite32 x = true <-> valid32 x = true /\ is_finite x = true.
Proof. unfold finite32. apply andb_true_iff. Qed.

Lemma nonneg_finite_spec s : nonneg_finite s = true ->
  valid32 s = true /\ is_finite s = true /\ 0 <= val s.
Proof.
  destruct s as [b|b| |[] m e]; try done. intros Hb. simpl in Hb. split; [|split; [done|]].
  - unfold valid32. simpl. by rewrite Hb.
  - simpl. apply bounded_facts in Hb as (He & _).
    apply Z.mul_nonneg_nonneg; [lia|apply Z.pow_nonneg; lia].
Qed.

Lemma between_finite x lo hi :
  valid32 x = true -> valid32 lo = true -> valid32 hi = true ->
  is_finite lo = true -> is_finite hi = true ->
  ord lo <= ord x <= ord hi ->
  is_finite x = true /\ val lo <= val x <= val hi.
Proof.
  intros Hx Hlo Hhi Flo Fhi [H1 H2].
  assert (Fx : is_finite x = true).
  { apply finite_of_ord; [done|].
    assert (- (255 * 2 ^ 23) < ord lo).
    { destruct lo as [s|s| |s m e]; try done.
      pose proof (pos_ord_pos m e (valid32_finite _ _ _ Hlo)). destruct s; simpl; lia. }
    assert (ord hi < 255 * 2 ^ 23).
    { destruct hi as [s|s| |s m e]; try done.
      pose proof (pos_ord_pos m e (valid32_finite _ _ _ Hhi)). destruct s; simpl; lia. }
    lia. }
  split; [done|]. split; by apply val_le_ord.
Qed.

Lemma normalized_spec seed :
  let normalized := f32_div (f32_of_Z (Z.land seed 0x7FFFFFFF)) (f32_of_Z 0x7FFFFFFF) in
  valid32 normalized = true /\ is_finite normalized = true /\ 0 <= val normalized <= 2 ^ 149.
Proof.
  change (f32_of_Z 0x7FFFFFFF) with f32_2p31.
  set (k := Z.land seed 0x7FFFFFFF).
  assert (Hk : 0 <= k < 2 ^ 31).
  { unfold k. change 0x7FFFFFFF with (Z.ones 31). rewrite Z.land_ones by lia.
    apply Z.mod_pos_bound. done. }
  destruct (f32_of_Z_spec k Hk) as (Hv & Hf & [Hlo Hhi] & Hone).
  destruct (Z.eq_dec k 0) as [->|Hne]; [done|].
  destruct (normal_of_val _ Hv Hf (Hone ltac:(lia))) as (m & e & E & Hb & He).
  simpl. rewrite E in *. destruct (SFdiv_2p31 m e Hb He) as [Hdiv Hb'].
  unfold f32_div. rewrite Hdiv. split; [|split; [done|]].
  - unfold valid32. simpl. by rewrite Hb'.
  - simpl in *. apply bounded_facts in Hb as (Hbe & _).
    assert (0 < 2 ^ (e - 31 + 149)) by (apply Z.pow_pos_nonneg; lia).
    replace (e + 149) with ((e - 31 + 149) + 31) in Hhi by lia.
    rewrite Z.pow_add_r in Hhi by lia.
    change (2 ^ 180) with (2 ^ 149 * 2 ^ 31) in Hhi. nia.
Qed.

(** [(normalized - 0.5f) * 2.0f] lies in [-1, 1]. *)
Lemma unit_noise_spec seed :
  let normalized := f32_div (f32_of_Z (Z.land seed 0x7FFFFFFF)) (f32_of_Z 0x7FFFFFFF) in
  let u := f32_mul (f32_sub normalized f32_half) f32_two in
  valid32 u = true /\ is_finite u = true /\ - 2 ^ 149 <= val u <= 2 ^ 149.
Proof.
  intros normalized u. destruct (normalized_spec seed) as (Hv & Hf & Hval).
  fold normalized in Hv, Hf, Hval.
  destruct (SFsub_spec normalized f32_half Hv eq_refl Hf eq_refl) as [Hv1 Ho1].
  fold (f32_sub normalized f32_half) in Hv1, Ho1. set (y := f32_sub normalized f32_half) in *.
  rewrite val_half in Ho1.
  destruct (between_finite y (S754_finite true 8388608 (-24)) f32_half) as [Hf1 Hval1];
    try done.
  { rewrite Ho1, (ord_val (S754_finite true 8388608 (-24))), (ord_val f32_half) by done.
    split; apply Rk_mono; [change (val (S754_finite true 8388608 (-24))) with (- 2 ^ 148)|
                           rewrite val_half]; lia. }
  change (val (S754_finite true 8388608 (-24))) with (- 2 ^ 148) in Hval1.
  rewrite val_half in Hval1.
  destruct (SFmul_spec y f32_two Hv1 eq_refl Hf1 eq_refl) as [Hv2 Ho2].
  fold (f32_mul y f32_two) in Hv2, Ho2. fold u in Hv2, Ho2. rewrite val_two in Ho2.
  destruct (between_finite u (S754_finite true 8388608 (-23)) f32_one) as [Hf2 Hval2];
    try done.
  { rewrite Ho2, (ord_val (S754_finite true 8388608 (-23))), (ord_val f32_one) by done.
    change (val (S754_finite true 8388608 (-23))) with (- 2 ^ 149). rewrite val_one.
    rewrite <- (Rk_shift 149 149 (- 2 ^ 149)), <- (Rk_shift 149 149 (2 ^ 149)) by lia.
    change (149 + 149) with 298. change (2 ^ 150) with (2 * 2 ^ 149).
    split; apply Rk_mono; nia. }
Qed.

Lemma noise_range seed s : nonneg_finite s = true ->
  valid32 (noise_of_seed seed s) = true /\ is_finite (noise_of_seed seed s) = true /\
  - val s <= val (noise_of_seed seed s) <= val s.
Proof.
  intros (Hvs & Hfs & Hs)%nonneg_finite_spec. unfold noise_of_seed.
  destruct (unit_noise_spec seed) as (Hv & Hf & Hval). cbv zeta in Hv, Hf, Hval.
  set (u := f32_mul _ f32_two) in *.
  destruct (SFmul_spec u s Hv Hvs Hf Hfs) as [Hv3 Ho3].
  fold (f32_mul u s) in Hv3, Ho3. set (nz := f32_mul u s) in *.
  assert (Hopp : valid32 (SFopp s) = true /\ is_finite (SFopp s) = true /\
                 val (SFopp s) = - val s).
  { destruct s as [b|b| |b m e]; try done. simpl. split; [done|]. split; [done|].
    destruct b; simpl; lia. }
  destruct Hopp as (Hvo & Hfo & Hvalo).
  destruct (between_finite nz (SFopp s) s) as [Hf3 Hval3]; try done.
  { rewrite Ho3, (ord_val (SFopp s)), (ord_val s), Hvalo by done.
    rewrite <- (Rk_shift 149 149 (- val s)), <- (Rk_shift 149 149 (val s)) by lia.
    change (149 + 149) with 298. split; apply Rk_mono; nia. }
  rewrite Hvalo in Hval3. done.
Qed.

(** Adding a perturbation within the scale keeps the sum between the
    binary32 values of [x - s] and [x + s]. *)
Lemma add_within x nz s :
  finite32 x = true -> finite32 nz = true -> finite32 s = true ->
  - val s <= val nz <= val s ->
  SFleb (f32_sub x s) (f32_add x nz) = true /\ SFleb (f32_add x nz) (f32_add x s) = true.
Proof.
  intros [Hx Fx]%finite32_iff [Hn Fn]%finite32_iff [Hs Fs]%finite32_iff Hval.
  destruct (SFadd_spec x nz Hx Hn Fx Fn) as [Hv1 Ho1].
  destruct (SFadd_spec x s Hx Hs Fx Fs) as [Hv2 Ho2].
  destruct (SFsub_spec x s Hx Hs Fx Fs) as [Hv3 Ho3].
  unfold f32_sub, f32_add. rewrite !SFleb_ord by done. rewrite Ho1, Ho2, Ho3.
  split; apply Z.leb_le, Rk_mono; lia.
Qed.

Lemma noise_of_zero_scale seed s : nonneg_finite s = true -> val s = 0 ->
  is_zero (noise_of_seed seed s) = true.
Proof.
  intros Hs H0. unfold noise_of_seed.
  destruct (unit_noise_spec seed) as (Hv & Hf & _). cbv zeta in Hv, Hf.
  set (u := f32_mul _ f32_two) in *.
  destruct s as [b|b| |[] m e]; try done.
  - destruct u; done.
  - simpl in H0. apply bounded_facts in Hs as (He & _).
    assert (0 < 2 ^ (e + 149)) by (apply Z.pow_pos_nonneg; lia). nia.
Qed.

Lemma add_zero_same x z : is_zero z = true -> same_value x (f32_add x z).
Proof.
  destruct z as [b| | |]; try done. intros _.
  destruct x as [s|s| |s m e]; try (by left). right. by destruct s, b.
Qed.

Local Close Scope Z_scope.

(** * The noise added by the data-free QAT pass *)

Lemma occurrences_in_app ta l1 l2 :
  occurrences_in ta (l1 ++ l2) = (occurrences_in ta l1 + occurrences_in ta l2)%nat.
Proof. induction l1 as [|p l1 IH]; simpl; [done|]. rewrite IH. lia. Qed.

Lemma occurrences_in_one ta p :
  occurrences_in ta [p] = if decide (p = Some ta) then 1%nat else 0%nat.
Proof. simpl. lia. Qed.

Lemma objects_of_same_links h h' :
  same_links h h' → ∀ b, objects_of h' b = objects_of h b.
Proof.
  intros Hl b. unfold objects_of. specialize (Hl b).
  destruct (membranes h !! b) as [m|], (membranes h' !! b) as [m'|]; try done.
  simpl in Hl. apply (inj Some) in Hl. unfold links in Hl. by injection Hl as _ _ -> ->.
Qed.

Lemma occurrences_same_links h h' :
  same_links h h' → ∀ d a ta, occurrences d h' a ta = occurrences d h a ta.
Proof.
  intros Hl d a ta. unfold occurrences. rewrite (preorder_same_links h h') by done.
  f_equal. apply flat_map_eq. intros b _. by apply objects_of_same_links.
Qed.

Lemma occurrences_unfold d h a ta m cs ts :
  membranes h !! a = Some m →
  read_ptrs (children m) (num_children m) = Some cs →
  read_ptrs (objects m) (num_objects m) = Some ts →
  occurrences (S d) h a ta =
    (occurrences_in ta ts +
     occurrences_in ta
       (flat_map (objects_of h)
          (flat_map (λ c, match c with Some c' => preorder d h c' | None => [] end) cs)))%nat.
Proof.
  intros Hm Hcs Hts. unfold occurrences. cbn [preorder]. rewrite Hm, Hcs. cbn [flat_map].
  rewrite occurrences_in_app. unfold objects_of at 1. by rewrite Hm, Hts.
Qed.

Lemma noised_by_tensors ta T scale dd k h h' :
  tensors h' !! ta = tensors h !! ta → noised_by ta T scale dd k h → noised_by ta T scale dd k h'.
Proof. intros E (T' & dd' & HT & ?). exists T', dd'. by rewrite E. Qed.

(** One turn of the object loop: the tensor [ta] is perturbed once when the
    entry read points at it and it is F32 or F16, and is left alone
    otherwise. *)
Lemma qat_object_count c cfg ta T dd k h m Mb os i p h' :
  membranes h !! m = Some Mb → objects Mb = Some os → (0 ≤ i)%Z →
  os !! Z.to_nat i = Some p → configs h !! c = Some cfg →
  qat_object m c i h = Some (tt, h', []) →
  noised_by ta T (noise_scale cfg) dd k h →
  ∃ k', noised_by ta T (noise_scale cfg) dd (k + k') h' ∧
    (k' ≤ occurrences_in ta [p])%nat ∧
    (not_quantizable T = false → k' = occurrences_in ta [p]).
Proof.
  intros Hm Hos Hi Hp Hc Hrun Hk. rewrite occurrences_in_one.
  rewrite (qat_object_run h m c i Mb os p Hm Hos Hi Hp) in Hrun.
  destruct (decide (p = Some ta)) as [->|Hne].
  - destruct Hk as (T' & dd' & HT' & Hty & Hn & Hd & Hnt). rewrite HT' in Hrun.
    assert (Hnq : not_quantizable T' = not_quantizable T)
      by (unfold not_quantizable; by rewrite Hty).
    destruct (not_quantizable T') eqn:Hq.
    + injection Hrun as <-. exists 0%nat. rewrite Nat.add_0_r.
      split; [by exists T', dd'|]. split; [lia|]. intros E. by rewrite E in Hnq.
    + rewrite Hd, Hc in Hrun. destruct (_ <=? _)%nat; [|done]. injection Hrun as <-.
      exists 1%nat. split; [|done]. eexists _, _. split; [apply lookup_insert_eq|].
      split; [done|]. split; [done|]. split; [done|]. rewrite Nat.add_1_r.
      assert (ggml_nelements T' = ggml_nelements T) as -> by (unfold ggml_nelements; by rewrite Hn).
      by constructor.
  - exists 0%nat. rewrite Nat.add_0_r. split; [|split; [lia|done]].
    eapply noised_by_tensors; [|exact Hk].
    destruct p as [ta'|]; [|by injection Hrun as <-].
    destruct (tensors h !! ta') as [T1|]; [|done].
    destruct (not_quantizable T1); [by injection Hrun as <-|].
    destruct (data T1); [|by injection Hrun as <-].
    rewrite Hc in Hrun. destruct (_ <=? _)%nat; [|done]. injection Hrun as <-.
    simpl. apply lookup_insert_ne. congruence.
Qed.

(** The pass perturbs tensor [ta] at most once per entry that points at it,
    and exactly once per entry when every [malloc] succeeds and the tensor
    is F32 or F16. *)
Lemma apply_data_free_qat_count c cfg ta T dd : ∀ d fuel h a k0,
  tree_ok objects_ok d h a = true → configs h !! c = Some cfg → (d < fuel)%nat →
  noised_by ta T (noise_scale cfg) dd k0 h →
  ∃ r h' t k,
    ggml_p9ml_apply_data_free_qat fuel (Some a) (Some c) h = Some (r, h', t) ∧
    noised_by ta T (noise_scale cfg) dd (k0 + k) h' ∧
    (k ≤ occurrences d h a ta)%nat ∧
    (malloc_plan h = [] → not_quantizable T = false → k = occurrences d h a ta).
Proof.
  induction d as [|d IH]; intros fuel h a k0 Hok Hc Hfuel Hk0; [done|].
  destruct fuel as [|fuel]; [lia|].
  apply tree_ok_unfold in Hok as (d' & m & cs & [= <-] & Hm & Hobj & Hcs & Hkids).
  assert (∃ ts, read_ptrs (objects m) (num_objects m) = Some ts) as [ts Hts].
  { unfold objects_ok in Hobj. destruct (read_ptrs _ _); [eauto|done]. }
  rewrite (occurrences_unfold d h a ta m cs ts Hm Hcs Hts).
  set (kids := flat_map (λ c, match c with Some c' => preorder d h c' | None => [] end)).
  simpl. unfold bind at 1, visit at 1.
  pose proof (qat_store_config_run h a c m cfg Hm Hc) as Hst.
  assert ((∃ h1, qat_store_config a c h = Some (true, h1, []) ∧ tensors h1 = tensors h) ∨
          (qat_store_config a c h = Some (false, set_malloc_plan (tl (malloc_plan h)) h, []) ∧
           hd true (malloc_plan h) = false)) as [(h1 & Hst1 & Hten)|(Hst1 & Hd)].
  { destruct (qat_config m) as [q0|]; [|destruct (hd true (malloc_plan h)) eqn:Hd].
    - left. by exists h.
    - left. by eexists.
    - by right. }
  2:{ step_with Hst1. simpl. unfold ret. eexists _, _, _, 0%nat. split; [done|].
      rewrite Nat.add_0_r. split; [by eapply noised_by_tensors; [|exact Hk0]|].
      split; [lia|]. intros Hp. by rewrite Hp in Hd. }
  clear Hst. step_with Hst1. simpl.
  pose proof (qat_store_config_frame c cfg a _ _ _ _ Hst1) as F1.
  assert (Hinv : ∀ hj, qat_frame c cfg h1 hj →
            configs hj !! c = Some cfg ∧ same_links h hj ∧ same_shapes h hj ∧
            (malloc_plan h = [] → malloc_plan hj = []) ∧
            ∃ Mj, membranes hj !! a = Some Mj ∧ links Mj = links m).
  { intros hj Fj. assert (F : qat_frame c cfg h hj) by by etrans.
    split; [by eapply qat_frame_config|].
    assert (Hl : same_links h hj) by by eapply qat_frame_links.
    split; [done|]. split; [by eapply qat_frame_shapes|].
    split; [by destruct (F Hc) as (_ & _ & _ & _ & Hplan)|]. by eapply same_links_lookup. }
  destruct (Hinv h1 (qat_frame_refl _ _ _)) as (_ & _ & _ & _ & M1 & HM1 & E1).
  step_load HM1.
  assert (num_objects M1 = num_objects m) as -> by (unfold links in E1; by injection E1).
  destruct (for_loop_total
    (λ j hj tj, qat_frame c cfg h1 hj ∧ tj = [] ∧
       ∃ k, noised_by ta T (noise_scale cfg) dd (k0 + k) hj ∧
            (k ≤ occurrences_in ta (take (Z.to_nat j) ts))%nat ∧
            (not_quantizable T = false → k = occurrences_in ta (take (Z.to_nat j) ts)))
    (qat_object a c) (num_objects m) h1) as (h2 & t2 & Hloop2 & F2 & -> & k2 & Hk2 & Hle2 & Hex2).
  { split; [apply qat_frame_refl|]. split; [done|]. exists 0%nat. rewrite Nat.add_0_r.
    split; [eapply noised_by_tensors; [by rewrite Hten|exact Hk0]|]. split; [simpl; lia|done]. }
  { intros j hj tj Hj (Fj & -> & k & Hk & Hle & Hex).
    destruct (Hinv hj Fj) as (Hcj & Hlj & Hsj & _ & Mj & HMj & Ej).
    destruct (qat_object_total hj a c cfg Mj j HMj) as (h' & Hrun); [| |done|].
    { by rewrite (objects_ok_same h hj m Mj). }
    { unfold links in Ej. injection Ej as _ _ _ ->. done. }
    destruct (read_ptrs_lookup _ _ _ j Hts Hj) as (os & p & Hos & Hp & Htp).
    assert (Hos' : objects Mj = Some os) by (unfold links in Ej; injection Ej as _ _ -> _; done).
    destruct (qat_object_count c cfg ta T dd (k0 + k) hj a Mj os j p h'
                HMj Hos' ltac:(lia) Hp Hcj Hrun Hk) as (k' & Hk' & Hle' & Hex').
    exists h', []. split; [done|]. split; [|split; [done|]].
    { etrans; [exact Fj|]. by eapply qat_object_frame. }
    exists (k + k')%nat. rewrite Nat.add_assoc. split; [done|].
    rewrite (take_succ_lookup ts j p) by (done || lia). rewrite occurrences_in_app.
    split; [lia|]. intros Hq. rewrite (Hex Hq), (Hex' Hq). done. }
  assert (take (Z.to_nat (Z.max 0 (num_objects m))) ts = ts) as Htake.
  { apply take_ge. rewrite (read_ptrs_length _ _ _ Hts). lia. }
  rewrite Htake in Hle2, Hex2.
  step_with Hloop2.
  destruct (Hinv h2 F2) as (Hc2 & Hl2 & Hs2 & _ & M2 & HM2 & E2).
  step_load HM2.
  assert (num_children M2 = num_children m) as -> by (unfold links in E2; by injection E2).
  destruct (for_loop_total
    (λ j hj tj, qat_frame c cfg h1 hj ∧
       ∃ k, noised_by ta T (noise_scale cfg) dd (k0 + k2 + k) hj ∧
            (k ≤ occurrences_in ta (flat_map (objects_of h) (kids (take (Z.to_nat j) cs))))%nat ∧
            (malloc_plan h = [] → not_quantizable T = false →
             k = occurrences_in ta (flat_map (objects_of h) (kids (take (Z.to_nat j) cs)))))
    (λ i, let* Mb := load_membrane a in
          let* ch := array_get (children Mb) i in
          ggml_p9ml_apply_data_free_qat fuel ch (Some c);; ret tt)
    (num_children m) h2) as (h3 & t3 & Hloop3 & F3 & k3 & Hk3 & Hle3 & Hex3).
  { split; [done|]. exists 0%nat. rewrite Nat.add_0_r. split; [done|]. split; [simpl; lia|done]. }
  { intros j hj tj Hj (Fj & k & Hk & Hle & Hex).
    destruct (Hinv hj Fj) as (Hcj & Hlj & Hsj & Hpj & Mj & HMj & Ej).
    destruct (read_ptrs_lookup _ _ _ j Hcs Hj) as (l & ch & Hl & Hlc & Hcc).
    step_load HMj. assert (children Mj = Some l) as ->
      by (unfold links in Ej; injection Ej as -> _ _ _; done).
    step_with (array_get_run l j ch hj ltac:(lia) Hlc).
    rewrite (take_succ_lookup cs j ch) by (done || lia). unfold kids.
    rewrite flat_map_app, flat_map_app, occurrences_in_app. fold kids. simpl.
    destruct ch as [c'|].
    - destruct (IH fuel hj c' (k0 + k2 + k)%nat) as (r & h' & t & k' & Hrun & Hk' & Hle' & Hex');
        [|done|lia|done|].
      { rewrite (tree_ok_same_links objects_ok h hj); [|done|].
        - apply Hkids. by eapply list_elem_of_lookup_2.
        - intros. by apply objects_ok_same. }
      step_with Hrun. unfold ret. exists h', (t ++ []). split; [done|].
      assert (Fj' : qat_frame c cfg hj h') by by eapply apply_data_free_qat_frame.
      split; [by etrans|]. exists (k + k')%nat. rewrite Nat.add_assoc. split; [done|].
      rewrite (occurrences_same_links h hj) in Hle', Hex' by done.
      unfold occurrences in Hle', Hex'. rewrite !app_nil_r.
      split; [lia|]. intros Hp Hq. rewrite (Hex Hp Hq), (Hex' (Hpj Hp) Hq). done.
    - assert (Hnull : ggml_p9ml_apply_data_free_qat fuel NULL (Some c) hj = Some ((-1)%Z, hj, []))
        by (destruct fuel; [lia|done]).
      step_with Hnull. unfold ret. exists hj, []. split; [done|]. split; [done|].
      exists k. split; [done|]. simpl. rewrite Nat.add_0_r. done. }
  assert (take (Z.to_nat (Z.max 0 (num_children m))) cs = cs) as Htake3.
  { apply take_ge. rewrite (read_ptrs_length _ _ _ Hcs). lia. }
  rewrite Htake3 in Hle3, Hex3.
  step_with Hloop3. unfold ret. simpl. eexists _, _, _, (k2 + k3)%nat. split; [done|].
  rewrite Nat.add_assoc. split; [done|]. split; [lia|].
  intros Hp Hq. rewrite (Hex2 Hq), (Hex3 Hp Hq). done.
Qed.

(** ** The size of the perturbation *)

Lemma perturbed_cons n x d s scale :
  perturbed (S n) (x :: d) s scale =
    f32_add x (noise_of_seed (next_seed s) scale) :: perturbed n d (next_seed s) scale.
Proof. done. Qed.

Lemma Forall2_same {A} (P : A → A → Prop) l : (∀ x, P x x) → Forall2 P l l.
Proof. intros H. induction l; by constructor. Qed.

(** A relation that holds between an element and itself, and between an
    element and its sum with any noise value, holds elementwise between a
    data array and the array after the noise loop. *)
Lemma perturbed_Forall2 (P : spec_float → spec_float → Prop) scale :
  (∀ x, P x x) → (∀ x sd, P x (f32_add x (noise_of_seed sd scale))) →
  ∀ n d s, Forall2 P d (perturbed n d s scale).
Proof.
  intros Hrefl Hadd. induction n as [|n IH]; intros d s.
  - unfold perturbed. rewrite take_0, drop_0. simpl. by apply Forall2_same.
  - destruct d as [|x d]; [constructor|]. rewrite perturbed_cons. constructor; [apply Hadd|apply IH].
Qed.

Lemma nonneg_finite_finite32 s : nonneg_finite s = true → finite32 s = true.
Proof. intros (Hv & Hf & _)%nonneg_finite_spec. by apply finite32_iff. Qed.

Lemma within_scale_same s x : nonneg_finite s = true → within_scale s x x.
Proof.
  intros (Hvs & Hfs & H0)%nonneg_finite_spec [Hx Fx]%finite32_iff.
  destruct (SFadd_spec x s Hx Hvs Fx Hfs) as [Hv1 Ho1].
  destruct (SFsub_spec x s Hx Hvs Fx Hfs) as [Hv2 Ho2].
  unfold f32_leb, f32_sub, f32_add. rewrite !SFleb_ord by done.
  rewrite Ho1, Ho2, (ord_val x) by done. split; apply Z.leb_le, Rk_mono; lia.
Qed.

Lemma within_scale_add s x sd :
  nonneg_finite s = true → within_scale s x (f32_add x (noise_of_seed sd s)).
Proof.
  intros Hs Hx. destruct (noise_range sd s Hs) as (Hv & Hf & Hval).
  apply add_within; [done|by apply finite32_iff|by apply nonneg_finite_finite32|done].
Qed.

Lemma same_value_trans x y z : same_value x y → same_value y z → same_value x z.
Proof.
  intros [->|[Hx Hy]] [->|[Hy' Hz]]; try (by left); right; try done. 
Qed.

Lemma is_zero_nonneg_finite s : is_zero s = true → nonneg_finite s = true ∧ val s = 0%Z.
Proof. by destruct s. Qed.

Lemma noised_times_same_value n s dd k dd' :
  is_zero s = true → noised_times n s dd k dd' → Forall2 same_value dd dd'.
Proof.
  intros [Hs H0]%is_zero_nonneg_finite. induction 1 as [|k d' sd _ IH].
  - apply Forall2_same. by left.
  - eapply Forall2_trans; [apply same_value_trans|exact IH|].
    apply perturbed_Forall2; [by left|]. intros x sd'.
    apply add_zero_same. by apply noise_of_zero_scale.
Qed.

Lemma noised_times_within n s dd k dd' :
  nonneg_finite s = true → (k ≤ 1)%nat → noised_times n s dd k dd' →
  Forall2 (within_scale s) dd dd'.
Proof.
  intros Hs Hk H. destruct H as [|k d' sd H].
  - apply Forall2_same. intros x. by apply within_scale_same.
  - destruct H; [|lia]. apply perturbed_Forall2.
    + intros x. by apply within_scale_same.
    + intros x sd'. by apply within_scale_add.
Qed.

(** The noise bound in the first model, where every tensor holds its own
    data. The pass is run on a well-formed tree with fuel beyond its depth
    and a config whose noise scale [s] is finite and not negative; [ta] is
    an F32 tensor of the store with data [dd]. Every value that the
    generator draws is a finite binary32 number between [-s] and [s]. The
    pass returns, and the data of [ta] is then [dd] after [k] runs of the
    noise loop, each of which adds one drawn value to each of the first
    [nelements] elements: [k] is at most the number of entries of the
    visited object arrays that point at [ta], and is that number when every
    [malloc] succeeds. When at most one entry points at [ta], each element is
    between the binary32 values of [old - s] and [old + s]; when [s] is
    zero, each element has the value it had. *)
Lemma noise_stays_within_scale (d fuel : nat) (h : heap) (a c ta : addr)
    (cfg : ggml_p9ml_qat_config) (T : ggml_tensor) (dd : list spec_float) :
  tree_ok objects_ok d h a = true → configs h !! c = Some cfg → (d < fuel)%nat →
  nonneg_finite (noise_scale cfg) = true →
  tensors h !! ta = Some T → type T = GGML_TYPE_F32 → data T = Some dd →
  (∀ sd, finite32 (noise_of_seed sd (noise_scale cfg)) = true ∧
         (- val (noise_scale cfg) ≤ val (noise_of_seed sd (noise_scale cfg))
          ≤ val (noise_scale cfg))%Z) ∧
  ∃ r h' t T' dd' k,
    ggml_p9ml_apply_data_free_qat fuel (Some a) (Some c) h = Some (r, h', t) ∧
    tensors h' !! ta = Some T' ∧ data T' = Some dd' ∧
    noised_times (Z.to_nat (ggml_nelements T)) (noise_scale cfg) dd k dd' ∧
    (k ≤ occurrences d h a ta)%nat ∧
    (malloc_plan h = [] → k = occurrences d h a ta) ∧
    ((occurrences d h a ta ≤ 1)%nat → Forall2 (within_scale (noise_scale cfg)) dd dd') ∧
    (is_zero (noise_scale cfg) = true → Forall2 same_value dd dd').
Proof.
  intros Hok Hc Hfuel Hs HT Hty Hd. split.
  { intros sd. destruct (noise_range sd _ Hs) as (Hv & Hf & Hval).
    split; [by apply finite32_iff|done]. }
  destruct (apply_data_free_qat_count c cfg ta T dd d fuel h a 0 Hok Hc Hfuel)
    as (r & h' & t & k & Hrun & (T' & dd' & HT' & _ & _ & Hd' & Hnt) & Hle & Hex).
  { exists T, dd. split; [done|]. split; [done|]. split; [done|]. split; [done|]. constructor. }
  exists r, h', t, T', dd', k. simpl in Hnt.
  split; [done|]. split; [done|]. split; [done|]. split; [done|]. split; [done|].
  split; [|split].
  - intros Hp. apply Hex; [done|]. unfold not_quantizable. by rewrite Hty.
  - intros H1. eapply noised_times_within; [done| |exact Hnt]. lia.
  - intros Hz. by eapply noised_times_same_value.
Qed.

(** * The passes on concrete stores *)

(** C1. On the tree [demo_tree], whose membranes in preorder are 1, 2, 3,
    [evolve] and the data-free QAT pass enter all three, while the tiled
    pass and the mixed-precision pass run on the root alone and return 0:
    the tensors, all held by child 2, are never looked at. *)
Theorem tiled_and_mixed_passes_stop_at_root :
  preorder 2 demo_tree 1 = [1; 2; 3]%positive ∧
  ggml_p9ml_forward_tiled_qat (Some 1%positive) (Some 1%positive) NULL demo_tree =
    Some (0%Z, demo_tree, [1%positive]) ∧
  ggml_p9ml_mixed_precision_quantize (Some 1%positive) f32_one demo_tree =
    Some (0%Z, demo_tree, [1%positive]) ∧
  ggml_p9ml_membrane_evolve 3 (Some 1%positive) demo_tree =
    Some (0%Z, demo_tree, [1; 2; 3]%positive) ∧
  (∃ h', ggml_p9ml_apply_data_free_qat 3 (Some 1%positive) (Some 1%positive) demo_tree =
           Some (0%Z, h', [1; 2; 3]%positive)).
Proof.
  split; [by vm_compute|]. split; [by vm_compute|]. split; [by vm_compute|].
  split; [by vm_compute|]. eexists. vm_compute. reflexivity.
Qed.

Lemma for_from_pure body n : ∀ i h u h' t,
  (∀ j h u h' t, body j h = Some (u, h', t) → h' = h ∧ t = []) →
  for_from i n body h = Some (u, h', t) → h' = h ∧ t = [].
Proof.
  induction n as [|n IH]; intros i h u h' t Hb; simpl.
  - by intros [= <- <-].
  - intros (? & h2 & t2 & t3 & Hbody & Hrest & ->)%bind_Some.
    apply Hb in Hbody as [-> ->]. by apply IH in Hrest as [-> ->].
Qed.

(** The tiled pass and the mixed-precision pass never enter a membrane other
    than the one they are given, and never change the store. *)
Lemma forward_tiled_qat_one_node m c ref h r h' t :
  ggml_p9ml_forward_tiled_qat (Some m) (Some c) ref h = Some (r, h', t) →
  r = 0%Z ∧ h' = h ∧ t = [m].
Proof.
  unfold ggml_p9ml_forward_tiled_qat.
  intros (? & ? & ? & ? & [= <- <- <-] & H & ->)%bind_Some.
  apply bind_Some in H as (cfg & ? & ? & ? & (_ & -> & ->)%load_config_Some & H & ->).
  apply bind_Some in H as (Mb & ? & ? & ? & (_ & -> & ->)%load_membrane_Some & H & ->).
  apply bind_Some in H as (? & h1 & t1 & ? & Hloop & [= <- <- <-] & ->).
  assert (h1 = h ∧ t1 = []) as [-> ->]; [|done].
  eapply for_from_pure; [|exact Hloop]. clear. intros j h u h' t Hbody.
  apply bind_Some in Hbody as (? & ? & ? & ? & (_ & -> & ->)%load_membrane_Some & H & ->).
  apply bind_Some in H as (p & ? & ? & ? & (? & _ & _ & _ & -> & ->)%array_get_Some & H & ->).
  destruct p as [ta|]; [|by injection H as <- <-].
  apply bind_Some in H as (T & ? & ? & ? & (_ & -> & ->)%load_tensor_Some & H & ->).
  destruct (size_t (tile_size cfg) =? 0)%Z; [done|].
  rewrite for_loop_skip in H. by injection H as <- <-.
Qed.

(** C8, the claim as stated fails: with a membrane and a config both
    present, the pass returns -1 when [malloc] returns NULL. *)
Lemma apply_data_free_qat_fails_on_present_arguments :
  is_Some (membranes demo_oom !! 1%positive) ∧
  is_Some (configs demo_oom !! 1%positive) ∧
  ggml_p9ml_apply_data_free_qat 2 (Some 1%positive) (Some 1%positive) demo_oom =
    Some ((-1)%Z, set_malloc_plan [] demo_oom, [1%positive]).
Proof.
  split; [by eexists|]. split; [by eexists|]. by vm_compute.
Qed.


(** C6, the claim as stated fails: a membrane to which the same F32 tensor
    was added twice has it perturbed twice by one pass. With every element
    1.0 and the noise scale 0.1f the second element ends near 0.8823, below
    the binary32 value of [1.0 - 0.1]. *)
Lemma noise_bound_fails_for_a_tensor_added_twice :
  tree_ok objects_ok 1 demo_twice 1 = true ∧
  configs demo_twice !! 1%positive = Some demo_config ∧
  noise_scale demo_config = f32_0_1 ∧
  occurrences 1 demo_twice 1 1 = 2%nat ∧
  ∃ h', ggml_p9ml_apply_data_free_qat 2 (Some 1%positive) (Some 1%positive) demo_twice =
          Some (0%Z, h', [1%positive]) ∧
        tensors h' !! 1%positive =
          Some {| type := GGML_TYPE_F32; nelements := 2;
                  data := Some [S754_finite false 8942448 (-23);
                                S754_finite false 14802816 (-24)] |} ∧
        f32_leb (f32_sub f32_one f32_0_1) (S754_finite false 14802816 (-24)) = false ∧
        ¬ Forall2 (within_scale f32_0_1) [f32_one; f32_one]
            [S754_finite false 8942448 (-23); S754_finite false 14802816 (-24)].
Proof.
  split; [by vm_compute|]. split; [by vm_compute|]. split; [done|]. split; [by vm_compute|].
  eexists. split; [vm_compute; reflexivity|]. split; [by vm_compute|]. split; [by vm_compute|].
  intros H. inversion H as [|? ? ? ? _ H2]; subst. inversion H2 as [|? ? ? ? H3 _]; subst.
  destruct (H3 eq_refl) as [Hlo _]. vm_compute in Hlo. discriminate.
Qed.

Lemma mixed_precision_quantize_one_node m q h r h' t :
  ggml_p9ml_mixed_precision_quantize (Some m) q h = Some (r, h', t) →
  r = 0%Z ∧ h' = h ∧ t = [m].
Proof.
  unfold ggml_p9ml_mixed_precision_quantize.
  intros (? & ? & ? & ? & [= <- <- <-] & H & ->)%bind_Some.
  apply bind_Some in H as (Mb & ? & ? & ? & (_ & -> & ->)%load_membrane_Some & H & ->).
  apply bind_Some in H as (? & h1 & t1 & ? & Hloop & [= <- <- <-] & ->).
  assert (h1 = h ∧ t1 = []) as [-> ->]; [|done].
  eapply for_from_pure; [|exact Hloop]. clear. intros j h u h' t Hbody.
  apply bind_Some in Hbody as (? & ? & ? & ? & (_ & -> & ->)%load_membrane_Some & H & ->).
  apply bind_Some in H as (p & ? & ? & ? & (? & _ & _ & _ & -> & ->)%array_get_Some & H & ->).
  destruct p as [ta|]; [|by injection H as <- <-].
  apply bind_Some in H as (T & ? & ? & ? & (_ & -> & ->)%load_tensor_Some & H & ->).
  destruct (_ >? _)%Z; by injection H as <- <-.
Qed.

(** ** The theorems at concrete stores *)


Lemma set_root_propagates_namespace_demo :
  namespaces demo_tree !! 1%positive = Some (mk_namespace "workspace") ∧
  tree_ok links_only 2 demo_tree 1 = true ∧
  ∃ h', ggml_p9ml_namespace_set_root 3 (Some 1%positive) (Some 1%positive) demo_tree =
          Some (0%Z, h', []) ∧ has_ns h' 1 1.
Proof.
  assert (H1 : namespaces demo_tree !! 1%positive = Some (mk_namespace "workspace"))
    by (vm_compute; reflexivity).
  assert (H2 : tree_ok links_only 2 demo_tree 1 = true) by (vm_compute; reflexivity).
  split; [exact H1|]. split; [exact H2|].
  destruct (set_root_propagates_namespace 2 3 demo_tree 1 1 _ H1 H2 (le_n 3))
    as [(h' & Hrun & _ & Hall) _].
  exists h'. split; [exact Hrun|]. apply Hall. constructor.
Defined.

Lemma add_child_snapshots_namespace_demo :
  ggml_p9ml_membrane_add_child (Some 1%positive) (Some 2%positive) demo_loose =
    Some (0%Z, demo_attached, []) ∧
  ggml_p9ml_membrane_add_child (Some 3%positive) (Some 1%positive) demo_attached =
    Some (0%Z, demo_regrafted, []) ∧
  (∃ C1, membranes demo_attached !! 2%positive = Some C1 ∧
         parent C1 = Some 1%positive ∧ ns C1 = NULL) ∧
  (∃ P2 C2, membranes demo_regrafted !! 1%positive = Some P2 ∧ ns P2 = Some 1%positive ∧
            membranes demo_regrafted !! 2%positive = Some C2 ∧ ns C2 = NULL).
Proof.
  assert (H0 : membranes demo_loose !! 1%positive =
               Some (mk_membrane "parent" 0 NULL NULL [] [] NULL)) by (vm_compute; reflexivity).
  assert (H1 : ggml_p9ml_membrane_add_child (Some 1%positive) (Some 2%positive) demo_loose =
               Some (0%Z, demo_attached, [])) by (vm_compute; reflexivity).
  assert (H2 : ggml_p9ml_membrane_add_child (Some 3%positive) (Some 1%positive) demo_attached =
               Some (0%Z, demo_regrafted, [])) by (vm_compute; reflexivity).
  split; [exact H1|]. split; [exact H2|].
  destruct (add_child_snapshots_namespace demo_loose demo_attached 1 2 _ H0 H1) as [Hsnap Hlater].
  split; [exact Hsnap|].
  destruct (Hlater 3%positive demo_regrafted ltac:(discriminate) H2)
    as (G & P2 & C2 & HG & HP2 & _ & HnsP & HC2 & _ & HnsC).
  exists P2, C2. split; [exact HP2|]. split; [|split; [exact HC2|exact HnsC]].
  rewrite HnsP. vm_compute in HG. injection HG as <-. reflexivity.
Defined.

Lemma capacity_is_enforced_demo :
  membranes demo_loose !! 1%positive = Some (mk_membrane "parent" 0 NULL NULL [] [] NULL) ∧
  membrane_ok (mk_membrane "parent" 0 NULL NULL [] [] NULL) ∧
  ∃ r h', ggml_p9ml_membrane_add_child (Some 1%positive) (Some 2%positive) demo_loose =
            Some (r, h', []) ∧
          (r = (-1)%Z ↔ 0%Z = 16%Z).
Proof.
  assert (H0 : membranes demo_loose !! 1%positive =
               Some (mk_membrane "parent" 0 NULL NULL [] [] NULL)) by (vm_compute; reflexivity).
  assert (H1 : membrane_ok (mk_membrane "parent" 0 NULL NULL [] [] NULL)).
  { split; [|split; [|split]].
    - eexists. split; [reflexivity|]. vm_compute. reflexivity.
    - eexists. split; [reflexivity|]. vm_compute. reflexivity.
    - vm_compute. split; discriminate.
    - vm_compute. split; discriminate. }
  split; [exact H0|]. split; [exact H1|].
  destruct (capacity_is_enforced demo_loose 1 2 1 _ H0) as [(r & h' & Hrun & Hiff & _) _].
  - eexists. vm_compute. reflexivity.
  - exact H1.
  - exists r, h'. split; [exact Hrun|exact Hiff].
Defined.


Lemma apply_data_free_qat_fails_iff_demo :
  tree_ok objects_ok 1 demo_oom 1 = true ∧
  membranes demo_oom !! 1%positive = Some (mk_membrane "root" 0 NULL NULL [] [] NULL) ∧
  configs demo_oom !! 1%positive = Some demo_config ∧
  ∃ h' t, ggml_p9ml_apply_data_free_qat 2 (Some 1%positive) (Some 1%positive) demo_oom =
            Some ((-1)%Z, h', t).
Proof.
  assert (H1 : tree_ok objects_ok 1 demo_oom 1 = true) by (vm_compute; reflexivity).
  assert (H2 : membranes demo_oom !! 1%positive =
               Some (mk_membrane "root" 0 NULL NULL [] [] NULL)) by (vm_compute; reflexivity).
  assert (H3 : configs demo_oom !! 1%positive = Some demo_config) by (vm_compute; reflexivity).
  split; [exact H1|]. split; [exact H2|]. split; [exact H3|].
  destruct (apply_data_free_qat_fails_iff 1 2 demo_oom 1 1 _ demo_config H1 H2 H3 (le_n 2))
    as [(r & h' & t & Hrun & _ & Hiff) _].
  exists h', t. rewrite Hrun. destruct Hiff as [_ Hback].
  rewrite Hback; [reflexivity|]. split; reflexivity.
Defined.

Lemma evolve_is_pure_traversal_demo :
  tree_ok links_only 2 demo_tree 1 = true ∧
  ggml_p9ml_membrane_evolve 3 (Some 1%positive) demo_tree =
    Some (0%Z, demo_tree, [1; 2; 3]%positive).
Proof.
  assert (H1 : tree_ok links_only 2 demo_tree 1 = true) by (vm_compute; reflexivity).
  split; [exact H1|].
  exact (evolve_is_pure_traversal 2 3 demo_tree 1 H1 (le_n 3)).
Defined.

(** * Further properties of the constructors *)

(** X1. With every [malloc] succeeding, [ggml_p9ml_membrane_new] returns the
    address of a block that was not allocated, holding a membrane of the
    given level and context that is detached (no parent, no namespace, no
    config) and empty, with capacities 16, 256 and 64 and three arrays of
    null pointers of these lengths. Every other membrane, and every
    namespace, config and tensor, is as it was. *)
Theorem membrane_new_is_fresh_and_detached (given : option (list ascii)) (lvl : Z) (cx : ptr)
    (h : heap) :
  malloc_plan h = [] →
  ∃ a h',
    ggml_p9ml_membrane_new given lvl cx h = Some (Some a, h', []) ∧
    membranes h !! a = None ∧
    membranes h' =
      <[a := new_membrane given lvl cx (Some (replicate 16 NULL)) (Some (replicate 256 NULL))
               (Some (replicate 64 NULL))]> (membranes h) ∧
    namespaces h' = namespaces h ∧ configs h' = configs h ∧ tensors h' = tensors h ∧
    seed h' = seed h ∧ malloc_plan h' = [].
Proof.
  intros Hp. pose proof (membrane_new_run given lvl cx h) as H. rewrite Hp in H. cbn [hd] in H.
  destruct H as (cs & os & rs & plan & E & Hall). destruct (Hall eq_refl) as (-> & -> & -> & ->).
  do 2 eexists. split; [exact E|]. split; [apply fresh_membrane|]. done.
Qed.

Lemma calloc_array_plan n h :
  calloc_array n h =
    Some (if hd true (malloc_plan h) then Some (replicate (Z.to_nat n) NULL) else None,
          set_malloc_plan (tl (malloc_plan h)) h, []).
Proof.
  unfold calloc_array. rewrite (bind_run _ _ _ _ _ _ (malloc_run h)).
  by destruct (hd true (malloc_plan h)).
Qed.

(** What the three array allocations leave, read off the plan. *)
Lemma init_arrays_plan h a m :
  membranes h !! a = Some m →
  ggml_p9ml_membrane_init_arrays a h =
    Some (tt,
          set_malloc_plan (tl (tl (tl (malloc_plan h))))
            (set_membranes
               (<[a := set_rules
                         (if hd true (tl (tl (malloc_plan h)))
                          then Some (replicate (Z.to_nat (max_rules m)) NULL) else None)
                         (set_objects
                            (if hd true (tl (malloc_plan h))
                             then Some (replicate (Z.to_nat (max_objects m)) NULL) else None)
                            (set_children
                               (if hd true (malloc_plan h)
                                then Some (replicate (Z.to_nat (max_children m)) NULL) else None)
                               m))]> (membranes h)) h), []).
Proof.
  intros Hm. unfold ggml_p9ml_membrane_init_arrays.
  step_load Hm. step_with (calloc_array_plan (max_children m) h).
  set (cs := if hd true (malloc_plan h) then _ else _).
  set (h1 := set_malloc_plan _ h).
  assert (Hm1 : membranes h1 !! a = Some m) by done.
  step_update Hm1. set (h2 := set_membranes _ h1).
  assert (Hm2 : membranes h2 !! a = Some (set_children cs m)) by apply lookup_insert_eq.
  step_load Hm2. step_with (calloc_array_plan (max_objects (set_children cs m)) h2).
  set (os := if hd true (malloc_plan h2) then _ else _).
  set (h3 := set_malloc_plan _ h2).
  assert (Hm3 : membranes h3 !! a = Some (set_children cs m)) by done.
  step_update Hm3. set (h4 := set_membranes _ h3).
  assert (Hm4 : membranes h4 !! a = Some (set_objects os (set_children cs m)))
    by apply lookup_insert_eq.
  step_load Hm4. step_with (calloc_array_plan (max_rules (set_objects os (set_children cs m))) h4).
  set (rs := if hd true (malloc_plan h4) then _ else _).
  set (h5 := set_malloc_plan _ h4).
  assert (Hm5 : membranes h5 !! a = Some (set_objects os (set_children cs m))) by done.
  rewrite (update_membrane_run _ _ _ _ Hm5).
  subst h5 h4 h3 h2 h1 rs os cs. destruct h. unfold set_membranes, set_malloc_plan. simpl.
  by rewrite !insert_insert_eq.
Qed.

(** X2. [ggml_p9ml_membrane_new] does not look at what the [malloc] of an array
    returned. When the membrane itself is allocated and the [malloc] of the
    children array fails, the constructor still returns the membrane, with
    a null children array and room for 16 children, and [add_child] on it
    writes through the null array, which is undefined; the same holds of
    the objects array and [add_object]. *)
Theorem membrane_new_ignores_failed_array_allocation (given : option (list ascii)) (lvl : Z)
    (cx : ptr) (h : heap) (b2 b3 : bool) (rest : list bool) :
  malloc_plan h = true :: b2 :: b3 :: rest →
  ∃ a h' m,
    ggml_p9ml_membrane_new given lvl cx h = Some (Some a, h', []) ∧
    membranes h' !! a = Some m ∧
    num_children m = 0%Z ∧ max_children m = 16%Z ∧
    num_objects m = 0%Z ∧ max_objects m = 256%Z ∧
    (b2 = false → children m = None ∧
       ∀ c, ggml_p9ml_membrane_add_child (Some a) (Some c) h' = None) ∧
    (b3 = false → objects m = None ∧
       ∀ t, ggml_p9ml_membrane_add_object (Some a) (Some t) h' = None).
Proof.
  intros Hp. unfold ggml_p9ml_membrane_new. rewrite (bind_run _ _ _ _ _ _ (malloc_run h)).
  rewrite Hp. cbn [hd tl negb].
  set (h0 := set_malloc_plan _ h). set (a := fresh (dom (membranes h))).
  unfold bind at 1. change (fresh (dom (membranes h0))) with a.
  unfold bind at 1, modify at 1.
  set (m0 := Build_ggml_p9ml_membrane _ _ _ _ _ _ _ _ _ _ _ _ _ _ _).
  set (h1 := set_membranes _ h0).
  assert (Hm1 : membranes h1 !! a = Some m0) by apply lookup_insert_eq.
  step_with (init_arrays_plan h1 a m0 Hm1). cbn [malloc_plan h1 h0 set_membranes set_malloc_plan hd tl].
  unfold ret. set (m := set_rules _ _). set (h' := set_malloc_plan _ _).
  assert (Hm : membranes h' !! a = Some m) by apply lookup_insert_eq.
  exists a, h', m. split; [done|]. split; [done|]. do 4 (split; [done|]). split.
  - intros ->. split; [done|]. intros c. unfold ggml_p9ml_membrane_add_child. by step_load Hm.
  - intros ->. split; [done|]. intros t. unfold ggml_p9ml_membrane_add_object. by step_load Hm.
Qed.

(** * Filling a membrane *)

Lemma read_ptrs_take l n :
  (0 ≤ n ≤ Z.of_nat (length l))%Z → read_ptrs (Some l) n = Some (take (Z.to_nat n) l).
Proof.
  intros Hn. unfold read_ptrs. destruct (Z.leb_spec n 0).
  - by replace (Z.to_nat n) with 0%nat by lia.
  - destruct (Nat.leb_spec (Z.to_nat n) (length l)); [done|lia].
Qed.

Lemma take_insert_snoc {A} (l : list A) (n : Z) x :
  (0 ≤ n < Z.of_nat (length l))%Z →
  take (Z.to_nat (n + 1)) (<[Z.to_nat n := x]> l) = take (Z.to_nat n) l ++ [x].
Proof.
  intros Hn. rewrite (take_succ_lookup _ n x); [|lia|].
  - by rewrite take_insert_ge by lia.
  - apply list_lookup_insert_eq. lia.
Qed.

Lemma results_cons (n room : nat) :
  (0%Z :: (replicate (n `min` room) 0%Z ++ replicate (n - room) (-1)%Z)) =
  replicate (S n `min` S room) 0%Z ++ replicate (S n - S room) (-1)%Z.
Proof. done. Qed.

Lemma results_full (n : nat) :
  ((-1)%Z :: (replicate (n `min` 0) 0%Z ++ replicate (n - 0) (-1)%Z)) =
  replicate (S n `min` 0) 0%Z ++ replicate (S n - 0) (-1)%Z.
Proof. rewrite !Nat.min_0_r, !Nat.sub_0_r. done. Qed.

(** X3. A run of [add_object] calls on one membrane: the calls succeed while
    there is room and return -1 from then on; the accepted tensors are
    appended to the object list in call order, whether they are allocated
    or not, and nothing but this membrane's object array and count
    changes. *)
Theorem add_objects_fills_to_capacity (ts : list addr) : ∀ (h : heap) (m : addr)
    (Mb : ggml_p9ml_membrane),
  membranes h !! m = Some Mb → membrane_ok Mb →
  let room := Z.to_nat (max_objects Mb - num_objects Mb) in
  ∃ h' Mb',
    add_objects m ts h =
      Some (replicate (length ts `min` room) 0%Z ++ replicate (length ts - room) (-1)%Z,
            h', []) ∧
    membranes h' = <[m := Mb']> (membranes h) ∧
    set_membranes (membranes h) h' = h ∧
    objects_of h' m = objects_of h m ++ (Some <$> take room ts) ∧
    num_objects Mb' = (num_objects Mb + Z.of_nat (length ts `min` room))%Z ∧
    set_num_objects 0 (set_objects None Mb') = set_num_objects 0 (set_objects None Mb).
Proof.
  induction ts as [|t ts IH]; intros h m Mb Hm Hok room; subst room.
  - exists h, Mb. simpl. unfold ret. split; [done|]. split; [by rewrite insert_id|].
    split; [by destruct h|]. rewrite take_nil, app_nil_r. split; [done|]. split; [lia|done].
  - pose proof Hok as (Hcs & (os & Hos & Hlen) & Hnc & Hno). cbn [add_objects length].
    destruct (decide (num_objects Mb = max_objects Mb)) as [Hfull|Hroom].
    + step_with (add_object_full h m t Mb Hm ltac:(lia)).
      destruct (IH h m Mb Hm Hok) as (h' & Mb' & Hrun & Hmem & Hrest & Hobj & Hnum & Hsame).
      step_with Hrun. unfold ret. exists h', Mb'. cbn [app].
      replace (Z.to_nat (max_objects Mb - num_objects Mb)) with 0%nat in * by lia.
      rewrite results_full. split; [done|]. split; [done|]. split; [done|].
      rewrite take_0 in *. split; [done|]. split; [|done]. rewrite Nat.min_0_r in *. lia.
    + step_with (add_object_run h m t Mb os Hm Hos ltac:(lia) ltac:(lia)).
      set (Mb1 := set_num_objects _ _). set (h1 := set_membranes _ h).
      assert (Hm1 : membranes h1 !! m = Some Mb1) by apply lookup_insert_eq.
      assert (Hok1 : membrane_ok Mb1).
      { split; [done|]. split; [|split; [done|simpl; lia]].
        eexists. split; [done|]. by rewrite length_insert. }
      destruct (IH h1 m Mb1 Hm1 Hok1) as (h' & Mb' & Hrun & Hmem & Hrest & Hobj & Hnum & Hsame).
      step_with Hrun. unfold ret. exists h', Mb'. cbn [app].
      replace (Z.to_nat (max_objects Mb - num_objects Mb))
        with (S (Z.to_nat (max_objects Mb1 - num_objects Mb1))) by (simpl; lia).
      rewrite <- results_cons. split; [done|].
      split; [|split; [|split; [|split]]].
      * rewrite Hmem. subst h1. simpl. by rewrite insert_insert_eq.
      * clear -Hrest. subst h1. destruct h, h'. unfold set_membranes in *. simpl in *. congruence.
      * rewrite Hobj. cbn [take fmap list_fmap]. rewrite (cons_middle (Some t)), (assoc_L (++)).
        f_equal. unfold objects_of. rewrite Hm, Hm1, Hos. simpl objects. simpl num_objects.
        rewrite !read_ptrs_take by (rewrite ?length_insert; lia). simpl.
        by apply take_insert_snoc; lia.
      * rewrite Hnum. simpl. lia.
      * rewrite Hsame. done.
Qed.

Lemma child_attached_allocated h h' p c P cs b :
  child_attached h h' p c P cs → is_Some (membranes h !! b) → is_Some (membranes h' !! b).
Proof.
  intros [(C' & HC' & _) (P' & HP' & _) Hothers _] Hb.
  destruct (decide (b = p)) as [->|Hp]; [by rewrite HP'|].
  destruct (decide (b = c)) as [->|Hc]; [by rewrite HC'|].
  by rewrite Hothers.
Qed.

Lemma child_attached_rest h h' p c P cs :
  child_attached h h' p c P cs → set_membranes (membranes h) h' = h.
Proof.
  intros [_ _ _ (E1 & E2 & E3 & E4 & E5)]. destruct h, h'. unfold set_membranes. simpl in *.
  congruence.
Qed.

(** X4. A run of [add_child] calls on one parent: the calls succeed while there
    is room and return -1 from then on; the accepted children are appended
    to the parent's child list in call order and each of them ends with the
    parent as its [parent]. Membranes that are neither the parent nor an
    accepted child are as they were, and so is everything that is not a
    membrane. *)
Theorem add_children_fills_to_capacity (cs : list addr) : ∀ (h : heap) (p : addr)
    (P : ggml_p9ml_membrane),
  membranes h !! p = Some P → membrane_ok P →
  Forall (λ c, is_Some (membranes h !! c)) cs →
  let room := Z.to_nat (max_children P - num_children P) in
  ∃ h' P' old,
    add_children p cs h =
      Some (replicate (length cs `min` room) 0%Z ++ replicate (length cs - room) (-1)%Z,
            h', []) ∧
    membranes h' !! p = Some P' ∧ membrane_ok P' ∧
    read_ptrs (children P) (num_children P) = Some old ∧
    read_ptrs (children P') (num_children P') = Some (old ++ (Some <$> take room cs)) ∧
    (∀ c, c ∈ take room cs → ∃ C', membranes h' !! c = Some C' ∧ parent C' = Some p) ∧
    (p ∉ take room cs → parent P' = parent P ∧ ns P' = ns P) ∧
    (∀ b, b ≠ p → b ∉ take room cs → membranes h' !! b = membranes h !! b) ∧
    set_membranes (membranes h) h' = h.
Proof.
  induction cs as [|c cs IH]; intros h p P HP Hok Hall room; subst room.
  - pose proof Hok as ((arr & Harr & Hlen) & _ & Hnc & _).
    exists h, P, (take (Z.to_nat (num_children P)) arr). simpl. unfold ret.
    split; [done|]. split; [done|]. split; [done|]. rewrite Harr, take_nil, app_nil_r.
    rewrite read_ptrs_take by lia. split; [done|]. split; [done|].
    split; [intros c Hc; by apply elem_of_nil in Hc|]. split; [done|]. split; [done|]. by destruct h.
  - pose proof Hok as ((arr & Harr & Hlen) & Hobj & Hnc & Hno). cbn [add_children length].
    inversion_clear Hall as [|? ? [C HC] Hall']. rename Hall' into Hall.
    destruct (decide (num_children P = max_children P)) as [Hfull|Hroom].
    + step_with (add_child_full h p c P HP ltac:(lia)).
      destruct (IH h p P HP Hok Hall)
        as (h' & P' & old & Hrun & HP' & Hok' & Hold & Hnew & Hpar & Hself & Hoth & Hrest).
      step_with Hrun. unfold ret. exists h', P', old. cbn [app].
      replace (Z.to_nat (max_children P - num_children P)) with 0%nat in * by lia.
      rewrite results_full. rewrite take_0 in *. done.
    + destruct (add_child_run h p c P C arr HP HC Harr ltac:(lia) ltac:(lia))
        as (h1 & Hrun1 & Hatt).
      step_with Hrun1.
      destruct (child_attached_ok h h1 p c P arr Hok Harr ltac:(lia) Hatt) as (P1 & HP1 & Hok1).
      assert (Hall1 : Forall (λ c, is_Some (membranes h1 !! c)) cs).
      { eapply Forall_impl; [|exact Hall]. intros b. by eapply child_attached_allocated. }
      destruct (IH h1 p P1 HP1 Hok1 Hall1)
        as (h' & P' & old1 & Hrun & HP' & Hok' & Hold & Hnew & Hpar & Hself & Hoth & Hrest).
      pose proof Hatt as [(C' & HC' & HparC & _) (P1' & HP1' & E1 & E2 & E3 & _ & _ & _ & Hkeep)
                          Hothers _].
      rewrite HP1 in HP1'. injection HP1' as <-.
      step_with Hrun. unfold ret.
      exists h', P', (take (Z.to_nat (num_children P)) arr). cbn [app].
      replace (Z.to_nat (max_children P - num_children P))
        with (S (Z.to_nat (max_children P1 - num_children P1))) by lia.
      rewrite <- results_cons. split; [done|]. split; [done|]. split; [done|].
      rewrite Harr, read_ptrs_take by lia. split; [done|].
      assert (Hold1 : old1 = take (Z.to_nat (num_children P)) arr ++ [Some c]).
      { rewrite E1, E2, read_ptrs_take in Hold by (rewrite length_insert; lia).
        injection Hold as <-. apply take_insert_snoc. lia. }
      split; [|split; [|split; [|split]]].
      * rewrite Hnew, Hold1. cbn [take fmap list_fmap]. by rewrite <- (assoc_L (++)).
      * cbn [take]. intros b [->|Hb]%elem_of_cons.
        -- destruct (decide (c ∈ take (Z.to_nat (max_children P1 - num_children P1)) cs))
             as [Hin|Hnin]; [by apply Hpar|].
           destruct (decide (c = p)) as [->|Hne].
           ++ exists P'. split; [done|]. rewrite HC' in HP1. injection HP1 as ->.
              by rewrite (proj1 (Hself Hnin)).
           ++ exists C'. by rewrite Hoth.
        -- by apply Hpar.
      * cbn [take]. intros Hnin. apply not_elem_of_cons in Hnin as [Hne Hnin].
        destruct (Hself Hnin) as [-> ->]. destruct (Hkeep Hne) as [-> ->]. done.
      * cbn [take]. intros b Hb Hnin. apply not_elem_of_cons in Hnin as [Hne Hnin].
        rewrite Hoth by done. by apply Hothers.
      * apply child_attached_rest in Hatt. clear -Hrest Hatt.
        destruct h, h1, h'. unfold set_membranes in *. simpl in *. congruence.
Qed.

(** * Cycles *)

(** What an accepted [add_child] does to the links of the tree: the parent
    gets the child at the end of its child list, and every other membrane,
    the child included, keeps its own child and object lists. *)
Lemma add_child_accepted h p c h' t :
  ggml_p9ml_membrane_add_child (Some p) (Some c) h = Some (0%Z, h', t) →
  ∃ P arr P',
    membranes h !! p = Some P ∧ children P = Some arr ∧
    (0 ≤ num_children P < Z.of_nat (length arr))%Z ∧
    membranes h' !! p = Some P' ∧
    children P' = Some (<[Z.to_nat (num_children P) := Some c]> arr) ∧
    num_children P' = (num_children P + 1)%Z ∧
    ∀ b B, b ≠ p → membranes h !! b = Some B →
      ∃ B', membranes h' !! b = Some B' ∧ links B' = links B.
Proof.
  unfold ggml_p9ml_membrane_add_child.
  intros (P & ? & ? & ? & (HP & -> & ->)%load_membrane_Some & Hrest & ->)%bind_Some.
  destruct (num_children P >=? max_children P)%Z; [done|].
  apply bind_Some in Hrest as (arr' & ? & ? & ? & Harr & Hrest & ->).
  apply array_set_Some in Harr as (arr & Harr & Hi & -> & -> & ->).
  apply bind_Some in Hrest as (? & h1 & ? & ? & Hu & Hrest & ->).
  apply update_membrane_Some in Hu as (P0 & HP0 & -> & ->).
  rewrite HP in HP0. injection HP0 as <-.
  apply bind_Some in Hrest as (? & h2 & ? & ? & Hu & Hrest & ->).
  apply update_membrane_Some in Hu as (C1 & HC1 & -> & ->).
  apply bind_Some in Hrest as (P2 & ? & ? & ? & (HP2 & -> & ->)%load_membrane_Some & Hrest & ->).
  apply bind_Some in Hrest as (? & h3 & ? & ? & Hu & Hrest & ->).
  apply update_membrane_Some in Hu as (C2 & HC2 & -> & ->).
  apply bind_Some in Hrest as (P3 & ? & ? & ? & (HP3 & -> & ->)%load_membrane_Some & Hrest & ->).
  apply bind_Some in Hrest as (? & h4 & ? & ? & Hu & Hrest & ->).
  apply update_membrane_Some in Hu as (P4 & HP4 & -> & ->).
  injection Hrest as <-. simpl in *.
  rewrite HP3 in HP4. injection HP4 as <-.
  exists P, arr, (set_num_children (num_children P3 + 1) P3).
  split; [done|]. split; [done|]. split; [done|]. split; [apply lookup_insert_eq|].
  assert (HP3' : children P3 = Some (<[Z.to_nat (num_children P) := Some c]> arr) ∧
                 num_children P3 = num_children P).
  { destruct (decide (p = c)) as [<-|Hne].
    - rewrite lookup_insert_eq in HP3. injection HP3 as <-.
      rewrite lookup_insert_eq in HC2. injection HC2 as <-.
      rewrite lookup_insert_eq in HC1. injection HC1 as <-. done.
    - rewrite !(lookup_insert_ne _ c p) in HP3 by done.
      rewrite lookup_insert_eq in HP3. injection HP3 as <-. done. }
  destruct HP3' as [E1 E2]. split; [done|]. split; [simpl; lia|].
  intros b B Hb HB. rewrite lookup_insert_ne by done.
  destruct (decide (b = c)) as [->|Hbc].
  - rewrite lookup_insert_eq. eexists. split; [done|].
    rewrite lookup_insert_eq in HC2. injection HC2 as <-.
    rewrite lookup_insert_ne, HB in HC1 by done. injection HC1 as <-. done.
  - rewrite !lookup_insert_ne by done. eauto.
Qed.

Lemma for_from_keeps body n : ∀ i h u h' t,
  (∀ j h u h' t, body j h = Some (u, h', t) → h' = h) →
  for_from i n body h = Some (u, h', t) → h' = h.
Proof.
  induction n as [|n IH]; intros i h u h' t Hb; simpl.
  - by intros [= <- <-].
  - intros (? & h2 & t2 & t3 & Hbody & Hrest & ->)%bind_Some.
    apply Hb in Hbody as ->. by apply IH in Hrest.
Qed.

(** A loop whose turns leave the store alone is undefined as soon as one
    turn is. *)
Lemma for_from_fail body n : ∀ start h i,
  (∀ j h u h' t, body j h = Some (u, h', t) → h' = h) →
  (start ≤ i < start + Z.of_nat n)%Z → body i h = None →
  for_from start n body h = None.
Proof.
  induction n as [|n IH]; intros start h i Hb Hi Hfail; [lia|]. simpl. unfold bind at 1.
  destruct (body start h) as [[[u h1] t1]|] eqn:Hs; [|done].
  apply Hb in Hs as Hh. subst h1.
  destruct (decide (i = start)) as [->|Hne]; [congruence|].
  rewrite (IH (start + 1)%Z h i); [done|done|lia|done].
Qed.

Lemma evolve_keeps_store : ∀ fuel mp h r h' t,
  ggml_p9ml_membrane_evolve fuel mp h = Some (r, h', t) → h' = h.
Proof.
  induction fuel as [|fuel IH]; intros mp h r h' t; [done|]. simpl.
  destruct mp as [m|]; [|by intros [= <- <-]].
  intros (? & ? & ? & ? & [= <- <-] & Hr & ->)%bind_Some.
  apply bind_Some in Hr as (Mb & ? & ? & ? & (_ & -> & ->)%load_membrane_Some & Hr & ->).
  apply bind_Some in Hr as (? & h1 & t1 & ? & Hloop & [= <- <-] & ->).
  eapply for_from_keeps; [|exact Hloop]. clear -IH. intros j h u h' t Hbody.
  apply bind_Some in Hbody as (? & ? & ? & ? & (_ & -> & ->)%load_membrane_Some & Hr & ->).
  apply bind_Some in Hr as (p & ? & ? & ? & (? & _ & _ & _ & -> & ->)%array_get_Some & Hr & ->).
  apply bind_Some in Hr as (? & ? & ? & ? & Hr & [= <- <-] & ->). by apply IH in Hr.
Qed.

(** On a store in which membrane [a] is its own descendant, [evolve] started
    at any membrane from which [a] is reachable returns within no fuel. *)
Lemma evolve_diverges_on_cycle h a m cs i c :
  membranes h !! a = Some m → children m = Some cs →
  (0 ≤ i < num_children m)%Z → cs !! Z.to_nat i = Some (Some c) → reachable h c a →
  ∀ fuel x, reachable h x a → ggml_p9ml_membrane_evolve fuel (Some x) h = None.
Proof.
  intros Hm Hcs Hi Hc Hback. induction fuel as [|fuel IH]; intros x Hx; [done|].
  assert (∃ mx csx ix y, membranes h !! x = Some mx ∧ children mx = Some csx ∧
            (0 ≤ ix < num_children mx)%Z ∧ csx !! Z.to_nat ix = Some (Some y) ∧
            reachable h y a) as (mx & csx & ix & y & Hmx & Hcsx & Hix & Hy & Hya).
  { inversion Hx; subst; eauto 10. }
  simpl. unfold bind at 1, visit at 1. step_load Hmx. unfold bind at 1.
  unfold for_loop. rewrite (for_from_fail _ _ 0%Z h ix); [done| |lia|].
  - intros j hj u h' t Hbody.
    apply bind_Some in Hbody as (? & ? & ? & ? & (_ & -> & ->)%load_membrane_Some & Hr & ->).
    apply bind_Some in Hr as (p & ? & ? & ? & (? & _ & _ & _ & -> & ->)%array_get_Some & Hr & ->).
    apply bind_Some in Hr as (? & ? & ? & ? & Hr & [= <- <-] & ->).
    by apply evolve_keeps_store in Hr.
  - step_load Hmx. rewrite Hcsx. step_with (array_get_run csx ix (Some y) h ltac:(lia) Hy).
    unfold bind. by rewrite (IH y Hya).
Qed.

Lemma reachable_grows h h' a b :
  (∀ x X csx, membranes h !! x = Some X → children X = Some csx →
     ∃ X' csx', membranes h' !! x = Some X' ∧ children X' = Some csx' ∧
       (num_children X ≤ num_children X')%Z ∧
       ∀ i, (0 ≤ i < num_children X)%Z → csx' !! Z.to_nat i = csx !! Z.to_nat i) →
  reachable h a b → reachable h' a b.
Proof.
  intros Hgrow. induction 1 as [a|a m cs i c b Hm Hcs Hi Hc _ IH]; [constructor|].
  destruct (Hgrow a m cs Hm Hcs) as (m' & cs' & Hm' & Hcs' & Hn & Hsame).
  eapply reachable_child; [exact Hm'|exact Hcs'| |by rewrite Hsame|exact IH]. lia.
Qed.

(** X5. [add_child] does not look for cycles. When the parent is the child
    itself or one of its descendants, the call is accepted all the same, and
    from then on [evolve] on the parent does not terminate: it is undefined
    within every fuel. *)
Theorem add_child_of_an_ancestor_makes_evolve_diverge (h h' : heap) (p c : addr)
    (t : list addr) :
  reachable h c p →
  ggml_p9ml_membrane_add_child (Some p) (Some c) h = Some (0%Z, h', t) →
  (∃ C', membranes h' !! c = Some C' ∧ parent C' = Some p) ∧
  reachable h' p c ∧ reachable h' c p ∧
  ∀ fuel, ggml_p9ml_membrane_evolve fuel (Some p) h' = None.
Proof.
  intros Hback Hrun.
  pose proof (add_child_accepted _ _ _ _ _ Hrun)
    as (P & arr & P' & HP & Harr & Hi & HP' & Harr' & Hnum' & Hothers).
  assert (Hlook : <[Z.to_nat (num_children P) := Some c]> arr !! Z.to_nat (num_children P)
                  = Some (Some c)) by (apply list_lookup_insert_eq; lia).
  assert (Hback' : reachable h' c p).
  { eapply reachable_grows; [|exact Hback]. intros x X csx HX Hcsx.
    destruct (decide (x = p)) as [->|Hne].
    - rewrite HP in HX. injection HX as <-. rewrite Harr in Hcsx. injection Hcsx as <-.
      exists P', (<[Z.to_nat (num_children P) := Some c]> arr).
      split; [done|]. split; [done|]. split; [lia|]. intros i Hi'.
      apply list_lookup_insert_ne. lia.
    - destruct (Hothers x X Hne HX) as (X' & HX' & E). unfold links in E.
      injection E as E1 E2 _ _. exists X', csx. rewrite E1, E2. done. }
  assert (Hstep : reachable h' p c).
  { eapply reachable_child; [exact HP'|exact Harr'| |exact Hlook|constructor]. lia. }
  split; [|split; [done|split; [done|]]].
  - apply add_child_Some in Hrun as (P0 & HP0 & _ & [(Hr & _)|(_ & _ & cs & Hcs & Hatt)]); [done|].
    destruct Hatt as [(C' & HC' & Hpar & _) _ _ _]. eauto.
  - intros fuel. eapply (evolve_diverges_on_cycle h' p P' _ (num_children P) c);
      [exact HP'|exact Harr'|lia|exact Hlook|exact Hback'|constructor].
Qed.

(** * More on namespaces *)

Lemma set_root_run n N : ∀ d fuel h r,
  namespaces h !! n = Some N → tree_ok links_only d h r = true → (d < fuel)%nat →
  ∃ h',
    ggml_p9ml_namespace_set_root fuel (Some n) (Some r) h = Some (0%Z, h', []) ∧
    namespaces h' = <[n := set_ns_root (Some r) N]> (namespaces h) ∧
    ns_frame n (set_namespaces (<[n := set_ns_root (Some r) N]> (namespaces h)) h) h' ∧
    same_links h h' ∧
    ∀ b, b ∈ preorder d h r → has_ns h' b n.
Proof.
  intros d fuel h r HN Hok Hfuel. unfold ggml_p9ml_namespace_set_root.
  step_with (update_namespace_run h n N (set_ns_root (Some r)) HN).
  set (h0 := set_namespaces _ h).
  assert (Hl0 : same_links h h0) by done.
  destruct (propagate_spec n d fuel h0 r) as (h' & Hrun & Hf & Hall); [|done|].
  { by rewrite (tree_ok_same_links links_only h h0). }
  step_with Hrun. exists h'. split; [done|]. split; [by destruct Hf as (_ & -> & _)|].
  split; [done|]. split; [|by rewrite <- (preorder_same_links h h0)].
  intros b. rewrite (ns_frame_links _ _ _ Hf b). apply Hl0.
Qed.

Lemma set_ns_same m n : ns m = n → set_ns n m = m.
Proof. intros <-. by destruct m. Qed.

Lemma set_membranes_same h a m :
  membranes h !! a = Some m → set_membranes (<[a := m]> (membranes h)) h = h.
Proof. intros Hm. rewrite insert_id by done. by destruct h. Qed.

(** Propagation over a tree whose membranes all refer to the namespace
    already hands back the store it was given. *)
Lemma propagate_fixed n : ∀ d fuel h a,
  tree_ok links_only d h a = true → (d < fuel)%nat →
  (∀ b, b ∈ preorder d h a → has_ns h b n) →
  ggml_p9ml_propagate_namespace fuel (Some a) (Some n) h = Some (tt, h, []).
Proof.
  induction d as [|d IH]; intros fuel h a Hok Hfuel Hall; [done|].
  destruct fuel as [|fuel]; [lia|].
  apply tree_ok_unfold in Hok as (d' & m & cs & [= <-] & Hm & _ & Hcs & Hkids).
  assert (Hns : ns m = Some n).
  { destruct (Hall a) as (B & HB & E); [simpl; apply list_elem_of_here|]. congruence. }
  simpl in Hall. rewrite Hm, Hcs in Hall. simpl.
  step_update Hm. rewrite (set_ns_same m (Some n) Hns), (set_membranes_same h a m Hm).
  step_load Hm.
  destruct (for_loop_total (λ j hj tj, hj = h ∧ tj = [])
    (λ i, let* Mb := load_membrane a in
          let* c := array_get (children Mb) i in
          match c with
          | Some _ => ggml_p9ml_propagate_namespace fuel c (Some n)
          | None => ret tt
          end)
    (num_children m) h) as (h' & t & Hloop & -> & ->); [done| |by rewrite Hloop].
  intros j hj tj Hj [-> ->].
  destruct (read_ptrs_lookup _ _ _ j Hcs Hj) as (l & c & Hl & Hlc & Hcc).
  step_load Hm. rewrite Hl. step_with (array_get_run l j c h ltac:(lia) Hlc).
  destruct c as [c'|]; [|by exists h, []].
  assert (Hrun : ggml_p9ml_propagate_namespace fuel (Some c') (Some n) h = Some (tt, h, [])).
  { apply IH; [|lia|].
    - apply Hkids. by eapply list_elem_of_lookup_2.
    - intros b Hb. apply Hall, list_elem_of_further, list_elem_of_In, in_flat_map.
      exists (Some c'). split; [|by apply list_elem_of_In].
      apply list_elem_of_In. by eapply list_elem_of_lookup_2. }
  exists h, []. by rewrite Hrun.
Qed.

(** X6. [set_root] is idempotent: a second call with the same namespace and
    root returns 0 and hands back the store the first call left. *)
Theorem set_root_is_idempotent (d fuel : nat) (h : heap) (n r : addr)
    (N : ggml_p9ml_namespace) :
  namespaces h !! n = Some N → tree_ok links_only d h r = true → (d < fuel)%nat →
  ∃ h1,
    ggml_p9ml_namespace_set_root fuel (Some n) (Some r) h = Some (0%Z, h1, []) ∧
    ggml_p9ml_namespace_set_root fuel (Some n) (Some r) h1 = Some (0%Z, h1, []).
Proof.
  intros HN Hok Hfuel.
  destruct (set_root_run n N d fuel h r HN Hok Hfuel) as (h1 & Hrun & Hns & _ & Hl & Hall).
  exists h1. split; [done|]. unfold ggml_p9ml_namespace_set_root.
  assert (HN1 : namespaces h1 !! n = Some (set_ns_root (Some r) N))
    by (rewrite Hns; apply lookup_insert_eq).
  step_with (update_namespace_run h1 n _ (set_ns_root (Some r)) HN1).
  assert (Hsame : set_namespaces (<[n := set_ns_root (Some r) (set_ns_root (Some r) N)]>
                                    (namespaces h1)) h1 = h1).
  { change (set_ns_root (Some r) (set_ns_root (Some r) N)) with (set_ns_root (Some r) N).
    rewrite insert_id by done. by destruct h1. }
  rewrite Hsame.
  assert (Hfix : ggml_p9ml_propagate_namespace fuel (Some r) (Some n) h1 = Some (tt, h1, [])).
  { apply (propagate_fixed n d); [|done|].
    - by rewrite (tree_ok_same_links links_only h h1).
    - intros b Hb. apply Hall. by rewrite <- (preorder_same_links h h1). }
  by step_with Hfix.
Qed.

(** X7. [set_root] never detaches anything. After the root of a namespace is
    replaced by another tree, the namespace records the new root, and the
    membranes of the old tree still refer to the namespace. *)
Theorem set_root_leaves_the_old_tree_attached (d1 d2 fuel : nat) (h : heap) (n r1 r2 : addr)
    (N : ggml_p9ml_namespace) :
  namespaces h !! n = Some N →
  tree_ok links_only d1 h r1 = true → tree_ok links_only d2 h r2 = true →
  (d1 < fuel)%nat → (d2 < fuel)%nat →
  ∃ h1 h2 N2,
    ggml_p9ml_namespace_set_root fuel (Some n) (Some r1) h = Some (0%Z, h1, []) ∧
    ggml_p9ml_namespace_set_root fuel (Some n) (Some r2) h1 = Some (0%Z, h2, []) ∧
    namespaces h2 !! n = Some N2 ∧ ns_root N2 = Some r2 ∧
    (∀ b, b ∈ preorder d1 h r1 → has_ns h2 b n) ∧
    (∀ b, b ∈ preorder d2 h r2 → has_ns h2 b n).
Proof.
  intros HN Hok1 Hok2 Hf1 Hf2.
  destruct (set_root_run n N d1 fuel h r1 HN Hok1 Hf1) as (h1 & Hrun1 & Hns1 & _ & Hl1 & Hall1).
  assert (HN1 : namespaces h1 !! n = Some (set_ns_root (Some r1) N))
    by (rewrite Hns1; apply lookup_insert_eq).
  destruct (set_root_run n _ d2 fuel h1 r2 HN1) as (h2 & Hrun2 & Hns2 & Hfr & Hl2 & Hall2);
    [by rewrite (tree_ok_same_links links_only h h1)|done|].
  exists h1, h2, (set_ns_root (Some r2) (set_ns_root (Some r1) N)).
  split; [done|]. split; [done|]. split; [rewrite Hns2; apply lookup_insert_eq|].
  split; [done|]. split.
  - intros b Hb. eapply ns_frame_has_ns; [exact Hfr|]. by apply Hall1.
  - intros b Hb. apply Hall2. by rewrite (preorder_same_links h h1).
Qed.

(** X8. One tree made the root of two namespaces in turn: both namespaces name
    it as their root, and every membrane of the tree refers to the second
    namespace, none to the first. *)
Theorem set_root_of_a_second_namespace_takes_the_tree (d fuel : nat) (h : heap)
    (n1 n2 r : addr) (N1 N2 : ggml_p9ml_namespace) :
  n1 ≠ n2 → namespaces h !! n1 = Some N1 → namespaces h !! n2 = Some N2 →
  tree_ok links_only d h r = true → (d < fuel)%nat →
  ∃ h1 h2,
    ggml_p9ml_namespace_set_root fuel (Some n1) (Some r) h = Some (0%Z, h1, []) ∧
    ggml_p9ml_namespace_set_root fuel (Some n2) (Some r) h1 = Some (0%Z, h2, []) ∧
    (ns_root <$> namespaces h2 !! n1) = Some (Some r) ∧
    (ns_root <$> namespaces h2 !! n2) = Some (Some r) ∧
    ∀ b, b ∈ preorder d h r → has_ns h2 b n2 ∧ ¬ has_ns h2 b n1.
Proof.
  intros Hne HN1 HN2 Hok Hfuel.
  destruct (set_root_run n1 N1 d fuel h r HN1 Hok Hfuel) as (h1 & Hrun1 & Hns1 & _ & Hl1 & _).
  assert (HN2' : namespaces h1 !! n2 = Some N2) by (rewrite Hns1, lookup_insert_ne; done).
  destruct (set_root_run n2 N2 d fuel h1 r HN2') as (h2 & Hrun2 & Hns2 & _ & _ & Hall2);
    [by rewrite (tree_ok_same_links links_only h h1)|done|].
  exists h1, h2. split; [done|]. split; [done|]. split; [|split].
  - by rewrite Hns2, lookup_insert_ne, Hns1, lookup_insert_eq.
  - by rewrite Hns2, lookup_insert_eq.
  - intros b Hb. rewrite <- (preorder_same_links h h1) in Hb by done.
    pose proof (Hall2 b Hb) as (B & HB & E). split; [by exists B|].
    intros (B' & HB' & E'). congruence.
Qed.

(** * More on the data-free QAT pass *)

(** X9. The data-free QAT pass keeps the shape of everything. On a well-formed
    tree it returns, and then the same membranes are allocated, each with
    every field but [qat_config] as it was, so the tree is the same tree;
    the same tensors are allocated, each with its type, element count and
    data length; the namespaces are as they were and no config that was
    allocated has changed or gone. *)
Theorem apply_data_free_qat_keeps_the_structure (d fuel : nat) (h : heap) (a c : addr)
    (cfg : ggml_p9ml_qat_config) :
  tree_ok objects_ok d h a = true → configs h !! c = Some cfg → (d < fuel)%nat →
  ∃ r h' t,
    ggml_p9ml_apply_data_free_qat fuel (Some a) (Some c) h = Some (r, h', t) ∧
    (∀ b, match membranes h !! b, membranes h' !! b with
          | Some m, Some m' => set_qat_config NULL m' = set_qat_config NULL m
          | None, None => True
          | _, _ => False
          end) ∧
    (∀ ta, match tensors h !! ta, tensors h' !! ta with
           | Some T, Some T' =>
               type T' = type T ∧ nelements T' = nelements T ∧
               length <$> data T' = length <$> data T
           | None, None => True
           | _, _ => False
           end) ∧
    namespaces h' = namespaces h ∧
    configs h ⊆ configs h' ∧
    preorder d h' a = preorder d h a.
Proof.
  intros Hok Hc Hfuel.
  destruct (apply_data_free_qat_spec c cfg d fuel h a Hok Hc Hfuel)
    as (r & h' & t & Hrun & _).
  pose proof (apply_data_free_qat_frame c cfg _ _ _ _ _ _ Hrun) as F.
  destruct (F Hc) as (Hm & Hcf & Ht & Hn & _).
  exists r, h', t. split; [done|]. split; [|split; [|split; [done|split; [done|]]]].
  - intros b. specialize (Hm b).
    destruct (membranes h !! b), (membranes h' !! b); try done. by destruct Hm.
  - intros ta. specialize (Ht ta).
    destruct (tensors h !! ta) as [T|], (tensors h' !! ta) as [T'|]; try done.
    destruct Ht as [E _]. unfold shape in E. by injection E.
  - apply preorder_same_links. by eapply qat_frame_links.
Qed.

(** * The tiled pass and the mixed-precision pass *)

Lemma objects_allocated_lookup h m j :
  membranes h !! j = Some m → objects_allocated h m = true →
  ∃ ts, read_ptrs (objects m) (num_objects m) = Some ts ∧ objects_of h j = ts ∧
    ∀ i, (0 ≤ i < num_objects m)%Z →
      ∃ os t, objects m = Some os ∧ os !! Z.to_nat i = Some t ∧ ts !! Z.to_nat i = Some t ∧
        match t with Some ta => is_Some (tensors h !! ta) | None => True end.
Proof.
  intros Hm. unfold objects_allocated, objects_of. rewrite Hm.
  destruct (read_ptrs _ _) as [ts|] eqn:Hts; [|done]. intros Hall.
  exists ts. split; [done|]. split; [done|]. intros i Hi.
  destruct (read_ptrs_lookup _ _ _ i Hts Hi) as (os & t & Hos & Ht & Hti).
  exists os, t. split; [done|]. split; [done|]. split; [done|].
  rewrite forallb_forall in Hall. specialize (Hall t).
  destruct t as [ta|]; [|done].
  eapply bool_decide_eq_true_1, Hall, list_elem_of_In. by eapply list_elem_of_lookup_2.
Qed.

Lemma tiled_body_keeps tile m j h u h' t :
  (let* Mb := load_membrane m in
   let* t := array_get (objects Mb) j in
   match t with
   | None => ret tt
   | Some ta =>
       let* T := load_tensor ta in
       if (size_t tile =? 0)%Z then undefined
       else for_loop (size_t (size_t (ggml_nelements T) + size_t tile - 1) / size_t tile)%Z
              (λ _, ret tt)
   end) h = Some (u, h', t) → h' = h.
Proof.
  intros Hbody.
  apply bind_Some in Hbody as (? & ? & ? & ? & (_ & -> & ->)%load_membrane_Some & Hr & ->).
  apply bind_Some in Hr as (p & ? & ? & ? & (? & _ & _ & _ & -> & ->)%array_get_Some & Hr & ->).
  destruct p as [ta|]; [|by injection Hr as <- <-].
  apply bind_Some in Hr as (T & ? & ? & ? & (_ & -> & ->)%load_tensor_Some & Hr & ->).
  destruct (size_t tile =? 0)%Z; [done|].
  rewrite for_loop_skip in Hr. by injection Hr as <- <-.
Qed.

(** X11. [ggml_p9ml_forward_tiled_qat] on a membrane whose object array is in
    bounds and points at allocated tensors. With a null membrane or a null
    config it returns -1. Otherwise it divides by the tile size once for
    each non-null object: when the tile size is zero and some object is not
    null the division by zero makes the call undefined; in every other case
    it returns 0, whatever the reference tensor, and the store is as it
    was. *)
Theorem forward_tiled_qat_divides_by_the_tile_size (h : heap) (m c : addr) (ref : ptr)
    (Mb : ggml_p9ml_membrane) (cfg : ggml_p9ml_qat_config) :
  membranes h !! m = Some Mb → configs h !! c = Some cfg → objects_allocated h Mb = true →
  (size_t (tile_size cfg) ≠ 0%Z ∨ Forall (λ t, t = NULL) (objects_of h m) →
     ggml_p9ml_forward_tiled_qat (Some m) (Some c) ref h = Some (0%Z, h, [m])) ∧
  (size_t (tile_size cfg) = 0%Z → Exists (λ t, t ≠ NULL) (objects_of h m) →
     ggml_p9ml_forward_tiled_qat (Some m) (Some c) ref h = None) ∧
  ggml_p9ml_forward_tiled_qat NULL (Some c) ref h = Some ((-1)%Z, h, []) ∧
  ggml_p9ml_forward_tiled_qat (Some m) NULL ref h = Some ((-1)%Z, h, []).
Proof.
  intros Hm Hc Hal.
  destruct (objects_allocated_lookup h Mb m Hm Hal) as (ts & Hts & Hof & Hlook).
  split; [|split; [|done]].
  - intros Hcase. unfold ggml_p9ml_forward_tiled_qat. unfold bind at 1, visit at 1.
    unfold bind at 1, load_config at 1. rewrite Hc. step_load Hm.
    destruct (for_loop_total (λ j hj tj, hj = h ∧ tj = [])
      (λ i, let* Mb := load_membrane m in
            let* t := array_get (objects Mb) i in
            match t with
            | None => ret tt
            | Some ta =>
                let* T := load_tensor ta in
                if (size_t (tile_size cfg) =? 0)%Z then undefined
                else for_loop (size_t (size_t (ggml_nelements T) + size_t (tile_size cfg) - 1)
                               / size_t (tile_size cfg))%Z (λ _, ret tt)
            end)
      (num_objects Mb) h) as (h' & t & Hloop & -> & ->); [done| |by step_with Hloop].
    intros j hj tj Hj [-> ->].
    destruct (Hlook j Hj) as (os & p & Hos & Hp & Htp & Hall).
    step_load Hm. rewrite Hos. step_with (array_get_run os j p h ltac:(lia) Hp).
    destruct p as [ta|]; [|by exists h, []]. destruct Hall as [T HT].
    unfold bind at 1, load_tensor at 1. rewrite HT.
    destruct (Z.eqb_spec (size_t (tile_size cfg)) 0) as [Hz|Hnz].
    + destruct Hcase as [|Hnull]; [done|]. rewrite Hof in Hnull.
      rewrite Forall_lookup in Hnull. by specialize (Hnull _ _ Htp).
    + rewrite for_loop_skip. by exists h, [].
  - intros Hz Hex. rewrite Hof in Hex. apply Exists_exists in Hex as (p & Hin & Hp).
    apply list_elem_of_In, list_elem_of_lookup in Hin as [i Hi].
    assert (Hlt : (i < length ts)%nat) by (by eapply lookup_lt_Some).
    rewrite (read_ptrs_length _ _ _ Hts) in Hlt.
    destruct (Hlook (Z.of_nat i) ltac:(lia)) as (os & p' & Hos & Hp' & Htp & Hall).
    rewrite Nat2Z.id in *. assert (p' = p) as -> by congruence.
    destruct p as [ta|]; [|done]. destruct Hall as [T HT].
    unfold ggml_p9ml_forward_tiled_qat. unfold bind at 1, visit at 1.
    unfold bind at 1, load_config at 1. rewrite Hc. step_load Hm. unfold bind at 1.
    unfold for_loop. rewrite (for_from_fail _ _ 0%Z h (Z.of_nat i)); [done| |lia|].
    + intros j hj u h' t. apply tiled_body_keeps.
    + step_load Hm. rewrite Hos. rewrite <- (Nat2Z.id i) in Hp'.
      step_with (array_get_run os (Z.of_nat i) (Some ta) h ltac:(lia) Hp').
      unfold bind at 1, load_tensor at 1. rewrite HT, Hz. done.
Qed.

(** X12. [ggml_p9ml_mixed_precision_quantize] selects nothing: on a membrane
    whose object array is in bounds and points at allocated tensors it
    returns 0 for every quality threshold and the store is as it was; with a
    null membrane it returns -1. *)
Theorem mixed_precision_quantize_changes_nothing (h : heap) (m : addr) (q : spec_float)
    (Mb : ggml_p9ml_membrane) :
  membranes h !! m = Some Mb → objects_allocated h Mb = true →
  ggml_p9ml_mixed_precision_quantize (Some m) q h = Some (0%Z, h, [m]) ∧
  ggml_p9ml_mixed_precision_quantize NULL q h = Some ((-1)%Z, h, []).
Proof.
  intros Hm Hal. split; [|done].
  destruct (objects_allocated_lookup h Mb m Hm Hal) as (ts & Hts & Hof & Hlook).
  unfold ggml_p9ml_mixed_precision_quantize. unfold bind at 1, visit at 1. step_load Hm.
  destruct (for_loop_total (λ j hj tj, hj = h ∧ tj = [])
    (λ i, let* Mb := load_membrane m in
          let* t := array_get (objects Mb) i in
          match t with
          | None => ret tt
          | Some ta =>
              let* T := load_tensor ta in
              if (size_t (ggml_nelements T) >? 1000000)%Z then ret tt else ret tt
          end)
    (num_objects Mb) h) as (h' & t & Hloop & -> & ->); [done| |by step_with Hloop].
  intros j hj tj Hj [-> ->].
  destruct (Hlook j Hj) as (os & p & Hos & Hp & Htp & Hall).
  step_load Hm. rewrite Hos. step_with (array_get_run os j p h ltac:(lia) Hp).
  destruct p as [ta|]; [|by exists h, []]. destruct Hall as [T HT].
  unfold bind at 1, load_tensor at 1. rewrite HT.
  destruct (_ >? _)%Z; by exists h, [].
Qed.

(** * Release *)

Lemma without_nil h : without [] [] h h.
Proof. split; [|split]; [intros b|intros q|done]; by destruct (decide _) as [?%elem_of_nil|]. Qed.

Lemma decide_app_None {A} (b : addr) (L1 L2 : list addr) (x : option A) :
  (if decide (b ∈ L2) then None else if decide (b ∈ L1) then None else x) =
  if decide (b ∈ L1 ++ L2) then None else x.
Proof.
  destruct (decide (b ∈ L1 ++ L2)) as [Hin|Hnin].
  - apply elem_of_app in Hin as [Hin|Hin].
    + rewrite (decide_True _ _ Hin). by destruct (decide (b ∈ L2)).
    + by rewrite (decide_True _ _ Hin).
  - rewrite !decide_False; [done| |]; intros Hin; apply Hnin, elem_of_app; auto.
Qed.

Lemma without_trans L1 Q1 L2 Q2 h h1 h2 :
  without L1 Q1 h h1 → without L2 Q2 h1 h2 → without (L1 ++ L2) (Q1 ++ Q2) h h2.
Proof.
  intros (M1 & C1 & Ea & Eb & Ec & Ed) (M2 & C2 & Fa & Fb & Fc & Fd).
  split; [|split; [|repeat split; congruence]].
  - intros b. rewrite M2, M1. apply decide_app_None.
  - intros q. rewrite C2, C1. apply decide_app_None.
Qed.

Lemma preorder_child d h a m cs c b :
  membranes h !! a = Some m → read_ptrs (children m) (num_children m) = Some cs →
  Some c ∈ cs → b ∈ preorder d h c → b ∈ preorder (S d) h a.
Proof.
  intros Hm Hcs Hc Hb. simpl. rewrite Hm, Hcs. apply list_elem_of_further.
  apply list_elem_of_In, in_flat_map. exists (Some c). split; by apply list_elem_of_In.
Qed.

(** The preorder and the well-formedness of a tree depend on the membranes
    of the tree only. *)
Lemma preorder_agree h h' : ∀ d a,
  (∀ b, b ∈ preorder d h a → membranes h' !! b = membranes h !! b) →
  preorder d h' a = preorder d h a.
Proof.
  induction d as [|d IH]; intros a Hag; [done|].
  assert (Ha : membranes h' !! a = membranes h !! a) by (apply Hag; simpl; apply list_elem_of_here).
  simpl. rewrite Ha. f_equal. destruct (membranes h !! a) as [m|] eqn:Hm; [|done].
  destruct (read_ptrs (children m) (num_children m)) as [cs|] eqn:Hcs; [|done].
  apply flat_map_eq. intros [c|] Hc; [|done]. apply IH. intros b Hb.
  apply Hag. by eapply preorder_child.
Qed.

Lemma tree_ok_agree chk h h' : ∀ d a,
  (∀ b, b ∈ preorder d h a → membranes h' !! b = membranes h !! b) →
  (∀ b m, b ∈ preorder d h a → membranes h !! b = Some m → chk h' m = chk h m) →
  tree_ok chk d h' a = tree_ok chk d h a.
Proof.
  induction d as [|d IH]; intros a Hag Hchk; [done|].
  assert (Ha : membranes h' !! a = membranes h !! a) by (apply Hag; simpl; apply list_elem_of_here).
  simpl. rewrite Ha. destruct (membranes h !! a) as [m|] eqn:Hm; [|done].
  rewrite (Hchk a m) by (done || simpl; apply list_elem_of_here). f_equal.
  destruct (read_ptrs (children m) (num_children m)) as [cs|] eqn:Hcs; [|done].
  apply forallb_eq. intros [c|] Hc; [|done]. apply IH.
  - intros b Hb. apply Hag. by eapply preorder_child.
  - intros b mb Hb. apply Hchk. by eapply preorder_child.
Qed.

Lemma owned_tree_agree d h h' a :
  owned_tree d h a →
  (∀ b, b ∈ preorder d h a → membranes h' !! b = membranes h !! b) →
  (∀ q, q ∈ owned_configs d h a → configs h' !! q = configs h !! q) →
  owned_tree d h' a ∧ preorder d h' a = preorder d h a ∧
  owned_configs d h' a = owned_configs d h a.
Proof.
  intros (Hok & Hnd & Hndq) Hag Hcf.
  assert (Hp : preorder d h' a = preorder d h a) by by apply preorder_agree.
  assert (Ho : owned_configs d h' a = owned_configs d h a).
  { unfold owned_configs. rewrite Hp. apply list_omap_ext, Forall2_same_length_lookup_2; [done|].
    intros i x y Hx Hy. assert (x = y) as <- by congruence.
    rewrite Hag; [done|]. by eapply list_elem_of_lookup_2. }
  split; [|done]. split; [|by rewrite Hp, Ho].
  rewrite (tree_ok_agree config_ok h h'); [done|done|].
  intros b m Hb Hm. unfold config_ok. destruct (qat_config m) as [q|] eqn:Hq; [|done].
  rewrite Hcf; [done|]. apply list_elem_of_omap. exists b. split; [done|]. by rewrite Hm.
Qed.

Lemma free_config_run h q cfg :
  configs h !! q = Some cfg →
  free_config q h = Some (tt, set_configs (delete q (configs h)) h, []).
Proof. intros Hq. unfold free_config, bind, load_config, modify. by rewrite Hq. Qed.

Lemma free_membrane_run h a m :
  membranes h !! a = Some m →
  free_membrane a h = Some (tt, set_membranes (delete a (membranes h)) h, []).
Proof. intros Hm. unfold free_membrane, bind, load_membrane, modify. by rewrite Hm. Qed.

Lemma free_arrays_run h a m :
  membranes h !! a = Some m → ggml_p9ml_membrane_free_arrays a h = Some (tt, h, []).
Proof. intros Hm. unfold ggml_p9ml_membrane_free_arrays, bind, load_membrane, ret. by rewrite Hm. Qed.

Lemma without_config h q : without [] [q] h (set_configs (delete q (configs h)) h).
Proof.
  split; [|split; [|done]].
  - intros b. by destruct (decide _) as [?%elem_of_nil|].
  - intros q'. simpl. destruct (decide (q' ∈ [q])) as [->%list_elem_of_singleton|Hn].
    + apply lookup_delete_eq.
    + apply lookup_delete_ne. intros ->. apply Hn, list_elem_of_here.
Qed.

Lemma without_membrane h a : without [a] [] h (set_membranes (delete a (membranes h)) h).
Proof.
  split; [|split; [|done]].
  - intros b. simpl. destruct (decide (b ∈ [a])) as [->%list_elem_of_singleton|Hn].
    + apply lookup_delete_eq.
    + apply lookup_delete_ne. intros ->. apply Hn, list_elem_of_here.
  - intros q. by destruct (decide _) as [?%elem_of_nil|].
Qed.

Lemma without_perm L Q L' Q' h h' :
  (∀ b, b ∈ L ↔ b ∈ L') → (∀ q, q ∈ Q ↔ q ∈ Q') → without L Q h h' → without L' Q' h h'.
Proof.
  intros HL HQ (M & C & Hrest). split; [|split; [|done]].
  - intros b. rewrite M. destruct (decide (b ∈ L)) as [Hin|Hn], (decide (b ∈ L')) as [Hin'|Hn'];
      try done; exfalso; [apply Hn', HL, Hin|apply Hn, HL, Hin'].
  - intros q. rewrite C. destruct (decide (q ∈ Q)) as [Hin|Hn], (decide (q ∈ Q')) as [Hin'|Hn'];
      try done; exfalso; [apply Hn', HQ, Hin|apply Hn, HQ, Hin'].
Qed.

(** [ggml_p9ml_membrane_free] on a tree that owns its blocks releases the
    membranes of the tree and their stored configs, and nothing else. *)
Lemma membrane_free_spec : ∀ d fuel h a,
  owned_tree d h a → (d < fuel)%nat →
  ∃ h', ggml_p9ml_membrane_free fuel (Some a) h = Some (tt, h', []) ∧
        without (preorder d h a) (owned_configs d h a) h h'.
Proof.
  induction d as [|d IH]; intros fuel h a (Hok & Hnd & Hndq) Hfuel; [done|].
  destruct fuel as [|fuel]; [lia|].
  apply tree_ok_unfold in Hok as (d' & m & cs & [= <-] & Hm & Hcfg & Hcs & Hkids).
  set (pre := λ c : ptr, match c with Some c' => preorder d h c' | None => [] end).
  set (f := λ b : addr, membranes h !! b ≫= qat_config).
  assert (Hpre : preorder (S d) h a = a :: flat_map pre cs) by (simpl; by rewrite Hm, Hcs).
  assert (Hown : owned_configs (S d) h a =
                 option_list (qat_config m) ++ omap f (flat_map pre cs)).
  { unfold owned_configs. rewrite Hpre. cbn [omap list_omap]. rewrite Hm. simpl.
    by destruct (qat_config m). }
  rewrite Hpre in Hnd |- *. rewrite Hown in Hndq |- *.
  apply list.NoDup_cons in Hnd as [Ha Hndk]. apply list.NoDup_app in Hndq as (_ & Hdisj & Hndqk).
  cbn [ggml_p9ml_membrane_free]. step_load Hm.
  destruct (for_loop_total
    (λ j hj tj, without (flat_map pre (take (Z.to_nat j) cs))
                        (omap f (flat_map pre (take (Z.to_nat j) cs))) h hj ∧ tj = [])
    (λ i, let* Mb := load_membrane a in
          let* ch := array_get (children Mb) i in
          match ch with
          | Some _ => ggml_p9ml_membrane_free fuel ch
          | None => ret tt
          end)
    (num_children m) h) as (h3 & t3 & Hloop & Hw3 & ->).
  { split; [apply without_nil|done]. }
  { intros j hj tj Hj [Hw ->].
    destruct (read_ptrs_lookup _ _ _ j Hcs Hj) as (l & ch & Hl & Hlc & Hcc).
    pose proof (take_drop_middle cs _ ch Hcc) as Hsplit.
    set (A := flat_map pre (take (Z.to_nat j) cs)) in *.
    assert (Hk : flat_map pre cs = A ++ pre ch ++ flat_map pre (drop (S (Z.to_nat j)) cs)).
    { rewrite <- Hsplit at 1. by rewrite flat_map_app. }
    assert (Hmj : membranes hj !! a = Some m).
    { destruct Hw as (M & _). rewrite M, decide_False; [done|].
      intros Hin. apply Ha. rewrite Hk. apply elem_of_app. by left. }
    step_load Hmj. rewrite Hl. step_with (array_get_run l j ch hj ltac:(lia) Hlc).
    rewrite (take_succ_lookup cs j ch) by (done || lia). rewrite flat_map_app. fold A.
    cbn [flat_map]. rewrite app_nil_r, omap_app.
    destruct ch as [c'|].
    - rewrite Hk in Hndk, Hndqk. rewrite !omap_app in Hndqk.
      apply list.NoDup_app in Hndk as (_ & HdA & HndP). apply list.NoDup_app in HndP as (HndP & _ & _).
      apply list.NoDup_app in Hndqk as (_ & HdqA & HndqP).
      apply list.NoDup_app in HndqP as (HndqP & _ & _).
      assert (Hot : owned_tree d h c').
      { split; [|done]. apply Hkids. by eapply list_elem_of_lookup_2. }
      destruct (owned_tree_agree d h hj c' Hot) as (Hotj & Hpj & Hoj).
      { intros b Hb. destruct Hw as (M & _). rewrite M, decide_False; [done|].
        intros Hin. apply (HdA b Hin), elem_of_app. by left. }
      { intros q Hq. destruct Hw as (_ & C & _). rewrite C, decide_False; [done|].
        intros Hin. apply (HdqA q Hin), elem_of_app. by left. }
      destruct (IH fuel hj c' Hotj ltac:(lia)) as (h' & Hrun & Hw').
      rewrite Hpj, Hoj in Hw'. exists h', []. rewrite Hrun. split; [done|]. split; [|done].
      by eapply without_trans.
    - exists hj, []. split; [done|]. split; [|done]. simpl. by rewrite !app_nil_r. }
  assert (take (Z.to_nat (Z.max 0 (num_children m))) cs = cs) as Htake.
  { apply take_ge. rewrite (read_ptrs_length _ _ _ Hcs). lia. }
  rewrite Htake in Hw3. step_with Hloop.
  assert (Hm3 : membranes h3 !! a = Some m).
  { destruct Hw3 as (M & _). by rewrite M, decide_False. }
  step_load Hm3.
  assert (∃ h4, match qat_config m with
                | Some _ => ggml_p9ml_qat_config_free (qat_config m)
                | None => ret tt
                end h3 = Some (tt, h4, []) ∧
                without [] (option_list (qat_config m)) h3 h4) as (h4 & Hrun4 & Hw4).
  { destruct (qat_config m) as [q|] eqn:Hq; [|exists h3; split; [done|apply without_nil]].
    unfold config_ok in Hcfg. rewrite Hq in Hcfg. apply bool_decide_eq_true_1 in Hcfg as [cf Hcf].
    assert (Hq3 : configs h3 !! q = Some cf).
    { destruct Hw3 as (_ & C & _). rewrite C, decide_False; [done|].
      apply Hdisj. simpl. apply list_elem_of_here. }
    eexists. split; [apply (free_config_run h3 q cf Hq3)|]. apply without_config. }
  step_with Hrun4.
  assert (Hm4 : membranes h4 !! a = Some m).
  { destruct Hw4 as (M & _). by rewrite M, decide_False by apply not_elem_of_nil. }
  step_with (free_arrays_run h4 a m Hm4).
  rewrite (free_membrane_run h4 a m Hm4). eexists. split; [done|].
  pose proof (without_trans _ _ _ _ _ _ _ (without_trans _ _ _ _ _ _ _ Hw3 Hw4)
                (without_membrane h4 a)) as Hw.
  eapply without_perm; [| |exact Hw].
  - intros b. rewrite app_nil_r, elem_of_app, elem_of_cons, elem_of_cons, elem_of_nil. tauto.
  - intros q. rewrite app_nil_r, !elem_of_app. tauto.
Qed.

Lemma owned_tree_root d h a :
  owned_tree d h a → ∃ d', d = S d' ∧ a ∈ preorder d h a ∧ is_Some (membranes h !! a).
Proof.
  intros (Hok & _). apply tree_ok_unfold in Hok as (d' & m & cs & -> & Hm & _).
  exists d'. split; [done|]. split; [simpl; apply list_elem_of_here|by rewrite Hm].
Qed.

Lemma membrane_free_unallocated fuel a h :
  membranes h !! a = None → ggml_p9ml_membrane_free fuel (Some a) h = None.
Proof.
  intros Ha. destruct fuel; [done|]. simpl. unfold bind at 1, load_membrane at 1. by rewrite Ha.
Qed.

(** X13. [ggml_p9ml_membrane_free] releases a tree and nothing else. On a tree
    that owns its blocks it returns, and then exactly the membranes of the
    tree and the configs stored at them are no longer allocated: every other
    membrane and config, every tensor held by the tree and every namespace,
    the one the tree belonged to included, is as it was. With a null
    pointer it does nothing. *)
Theorem membrane_free_releases_the_tree_only (d fuel : nat) (h : heap) (a : addr) :
  owned_tree d h a → (d < fuel)%nat →
  (∃ h', ggml_p9ml_membrane_free fuel (Some a) h = Some (tt, h', []) ∧
     without (preorder d h a) (owned_configs d h a) h h') ∧
  ggml_p9ml_membrane_free fuel NULL h = Some (tt, h, []).
Proof.
  intros Hot Hfuel. split; [by apply membrane_free_spec|]. destruct fuel; [lia|done].
Qed.

(** X14. Releasing twice is undefined: after [ggml_p9ml_membrane_free] has
    released a tree, a second call on its root, or on any membrane of the
    tree, is undefined, and so is any traversal that starts there. *)
Theorem membrane_free_twice_is_undefined (d fuel : nat) (h : heap) (a : addr) :
  owned_tree d h a → (d < fuel)%nat →
  ∃ h', ggml_p9ml_membrane_free fuel (Some a) h = Some (tt, h', []) ∧
    ∀ b fuel', b ∈ preorder d h a →
      ggml_p9ml_membrane_free fuel' (Some b) h' = None ∧
      ggml_p9ml_membrane_evolve fuel' (Some b) h' = None.
Proof.
  intros Hot Hfuel. destruct (membrane_free_spec d fuel h a Hot Hfuel) as (h' & Hrun & Hw).
  exists h'. split; [done|]. intros b fuel' Hb.
  assert (Hnone : membranes h' !! b = None) by (destruct Hw as (M & _); by rewrite M, decide_True).
  split; [by apply membrane_free_unallocated|].
  destruct fuel'; [done|]. simpl. unfold bind at 1, visit at 1.
  unfold bind at 1, load_membrane at 1. by rewrite Hnone.
Qed.

#[local] Instance shrinks_preorder : PreOrder shrinks.
Proof.
  split; [intros h; split; reflexivity|].
  intros h1 h2 h3 [M12 C12] [M23 C23]. split; by etrans.
Qed.

Lemma free_config_shrinks q : respects shrinks (free_config q).
Proof.
  intros h u h' t Hrun. unfold free_config in Hrun.
  apply bind_Some in Hrun as (? & ? & ? & ? & (_ & -> & ->)%load_config_Some & Hr & ->).
  unfold modify in Hr. injection Hr as <- <- <-. split; [reflexivity|apply delete_subseteq].
Qed.

Lemma free_membrane_shrinks a : respects shrinks (free_membrane a).
Proof.
  intros h u h' t Hrun. unfold free_membrane in Hrun.
  apply bind_Some in Hrun as (? & ? & ? & ? & (_ & -> & ->)%load_membrane_Some & Hr & ->).
  unfold modify in Hr. injection Hr as <- <- <-. split; [apply delete_subseteq|reflexivity].
Qed.

(** [ggml_p9ml_membrane_free] allocates no membrane and changes none. *)
Lemma membrane_free_shrinks : ∀ fuel mp, respects shrinks (ggml_p9ml_membrane_free fuel mp).
Proof.
  induction fuel as [|fuel IH]; intros mp; [apply respects_undefined|]. simpl.
  destruct mp as [m|]; [|apply respects_ret; apply _].
  apply respects_bind; [apply _|apply respects_load_membrane; apply _|]. intros Mb.
  apply respects_bind; [apply _| |].
  { apply respects_for_loop; [apply _|]. intros j.
    apply respects_bind; [apply _|apply respects_load_membrane; apply _|]. intros Mj.
    apply respects_bind; [apply _|apply respects_array_get; apply _|]. intros ch.
    destruct ch; [apply IH|apply respects_ret; apply _]. }
  intros _. apply respects_bind; [apply _|apply respects_load_membrane; apply _|]. intros Mb'.
  apply respects_bind; [apply _| |].
  { destruct (qat_config Mb'); [apply free_config_shrinks|apply respects_ret; apply _]. }
  intros _. apply respects_bind; [apply _| |intros _; apply free_membrane_shrinks].
  unfold ggml_p9ml_membrane_free_arrays.
  apply respects_bind; [apply _|apply respects_load_membrane; apply _|].
  intros _. apply respects_ret; apply _.
Qed.

(** A loop is undefined when one of its turns is undefined on every store
    that satisfies an invariant of the turns. *)
Lemma for_from_fail_inv (I : heap → Prop) body n : ∀ start h i,
  (∀ j h u h' t, I h → body j h = Some (u, h', t) → I h') →
  (∀ h, I h → body i h = None) → I h →
  (start ≤ i < start + Z.of_nat n)%Z →
  for_from start n body h = None.
Proof.
  induction n as [|n IH]; intros start h i Hb Hfail HI Hi; [lia|]. simpl. unfold bind at 1.
  destruct (body start h) as [[[u h1] t1]|] eqn:Hs; [|done].
  destruct (decide (i = start)) as [->|Hne]; [by rewrite Hfail in Hs|].
  rewrite (IH (start + 1)%Z h1 i); [done|done|done| |lia]. by eapply Hb.
Qed.

(** X15. [ggml_p9ml_membrane_free] does not detach the membrane from its parent.
    After a child has been released on its own, the parent still lists it,
    and both a traversal of the parent and the release of the parent are
    undefined. *)
Theorem membrane_free_of_a_child_leaves_the_parent_dangling (d fuel : nat) (h : heap)
    (p c : addr) (P : ggml_p9ml_membrane) (cs : list ptr) (i : Z) :
  membranes h !! p = Some P → children P = Some cs →
  (0 ≤ i < num_children P)%Z → cs !! Z.to_nat i = Some (Some c) →
  owned_tree d h c → p ∉ preorder d h c → (d < fuel)%nat →
  ∃ h',
    ggml_p9ml_membrane_free fuel (Some c) h = Some (tt, h', []) ∧
    membranes h' !! p = Some P ∧ membranes h' !! c = None ∧
    ∀ fuel', ggml_p9ml_membrane_evolve fuel' (Some p) h' = None ∧
             ggml_p9ml_membrane_free fuel' (Some p) h' = None.
Proof.
  intros HP Hcs Hi Hc Hot Hp Hfuel.
  destruct (membrane_free_spec d fuel h c Hot Hfuel) as (h' & Hrun & Hw).
  destruct (owned_tree_root d h c Hot) as (d' & -> & Hin & _).
  assert (HP' : membranes h' !! p = Some P) by (destruct Hw as (M & _); by rewrite M, decide_False).
  assert (HC' : membranes h' !! c = None) by (destruct Hw as (M & _); by rewrite M, decide_True).
  exists h'. split; [done|]. split; [done|]. split; [done|]. intros fuel'.
  destruct fuel' as [|f]; [done|]. split.
  - simpl. unfold bind at 1, visit at 1. step_load HP'. unfold bind at 1.
    unfold for_loop. rewrite (for_from_fail _ _ 0%Z h' i); [done| |lia|].
    + intros j hj u h'' t Hbody.
      apply bind_Some in Hbody as (? & ? & ? & ? & (_ & -> & ->)%load_membrane_Some & Hr & ->).
      apply bind_Some in Hr as (q & ? & ? & ? & (? & _ & _ & _ & -> & ->)%array_get_Some & Hr & ->).
      apply bind_Some in Hr as (? & ? & ? & ? & Hr & [= <- <-] & ->).
      by apply evolve_keeps_store in Hr.
    + step_load HP'. rewrite Hcs. step_with (array_get_run cs i (Some c) h' ltac:(lia) Hc).
      unfold bind at 1. destruct f; [done|]. simpl. unfold bind at 1, visit at 1.
      unfold bind at 1, load_membrane at 1. by rewrite HC'.
  - simpl. step_load HP'. unfold bind at 1. unfold for_loop.
    rewrite (for_from_fail_inv (λ hj, membranes hj ⊆ membranes h') _ _ 0%Z h' i);
      [done| | |done|lia].
    + intros j hj u h'' t HI Hbody.
      assert (Hsh : shrinks hj h'').
      { apply bind_Some in Hbody as (? & ? & ? & ? & (_ & -> & ->)%load_membrane_Some & Hr & ->).
        apply bind_Some in Hr
          as (q & ? & ? & ? & (? & _ & _ & _ & -> & ->)%array_get_Some & Hr & ->).
        destruct q; [by eapply membrane_free_shrinks|]. injection Hr as <- <-. reflexivity. }
      destruct Hsh as [Hsh _]. by etrans.
    + intros hj HI. unfold bind at 1, load_membrane at 1.
      destruct (membranes hj !! p) as [Pj|] eqn:HPj; [|done].
      assert (Pj = P) as -> by (eapply lookup_weaken in HPj; [|exact HI]; congruence).
      rewrite Hcs. step_with (array_get_run cs i (Some c) hj ltac:(lia) Hc).
      rewrite membrane_free_unallocated; [done|].
      destruct (membranes hj !! c) eqn:E; [|done].
      eapply lookup_weaken in E; [|exact HI]. congruence.
Qed.

(** ** Copies of the config and release *)

#[local] Instance keeps_configs_owned_preorder c : PreOrder (keeps_configs_owned c).
Proof.
  split; [intros h Hh; exact Hh|]. intros h1 h2 h3 H12 H23 H1. apply H23, H12, H1.
Qed.

Lemma keeps_configs_owned_same c h h' :
  membranes h' = membranes h → configs h' = configs h → keeps_configs_owned c h h'.
Proof. intros Em Ec. unfold keeps_configs_owned, configs_owned. by rewrite Em, Ec. Qed.

Lemma qat_object_same_blocks m c i h u h' t :
  qat_object m c i h = Some (u, h', t) →
  membranes h' = membranes h ∧ configs h' = configs h.
Proof.
  intros Hrun. pose proof Hrun as Hrun'. unfold qat_object in Hrun'.
  apply bind_Some in Hrun' as (Mb & ? & ? & ? & (Hm & -> & _)%load_membrane_Some & Hrest & _).
  apply bind_Some in Hrest as (p & ? & ? & ? & (os & Hos & Hi & Hp & _)%array_get_Some & _).
  rewrite (qat_object_run h m c i Mb os p Hm Hos Hi Hp) in Hrun.
  destruct p as [ta|]; [|by injection Hrun as <- <-].
  destruct (tensors h !! ta) as [T|]; [|done].
  destruct (not_quantizable T); [by injection Hrun as <- <-|].
  destruct (data T); [|by injection Hrun as <- <-].
  destruct (configs h !! c); [|done]. destruct (_ <=? _)%nat; [|done]. by injection Hrun as <- <-.
Qed.

Lemma qat_store_config_owned c m : respects (keeps_configs_owned c) (qat_store_config m c).
Proof.
  intros h r h' t Hrun Hown. pose proof Hown as ([cfg Hc] & Hst & Hinj).
  destruct (qat_store_config_membrane _ _ _ _ _ _ Hrun) as [Mb Hm].
  rewrite (qat_store_config_run h m c Mb cfg Hm Hc) in Hrun.
  destruct (qat_config Mb) as [q0|] eqn:Hq; [|destruct (hd true (malloc_plan h)) eqn:Hd];
    injection Hrun as <- <- <-; [done| |done].
  set (q := fresh (dom (configs h))).
  assert (Hfresh : configs h !! q = None) by apply fresh_config.
  assert (Hqc : q ≠ c) by (intros E; rewrite E in Hfresh; congruence).
  split; [|split]; simpl.
  - rewrite lookup_insert_ne by done. by rewrite Hc.
  - intros b B q' HB HqB. destruct (decide (m = b)) as [<-|Hne].
    + rewrite lookup_insert_eq in HB. injection HB as <-. simpl in HqB. injection HqB as <-.
      split; [by rewrite lookup_insert_eq|done].
    + rewrite lookup_insert_ne in HB by done. destruct (Hst b B q' HB HqB) as [Hal Hne'].
      split; [|done]. apply lookup_insert_is_Some. destruct (decide (q = q')); auto.
  - intros b1 b2 B1 B2 q' HB1 Hq1 HB2 Hq2.
    destruct (decide (m = b1)) as [<-|Hne1], (decide (m = b2)) as [<-|Hne2]; [done| | |].
    + rewrite lookup_insert_eq in HB1. injection HB1 as <-. simpl in Hq1. injection Hq1 as <-.
      rewrite lookup_insert_ne in HB2 by done.
      destruct (Hst b2 B2 q HB2 Hq2) as [[x Hal] _]. rewrite Hfresh in Hal. done.
    + rewrite lookup_insert_eq in HB2. injection HB2 as <-. simpl in Hq2. injection Hq2 as <-.
      rewrite lookup_insert_ne in HB1 by done.
      destruct (Hst b1 B1 q HB1 Hq1) as [[x Hal] _]. rewrite Hfresh in Hal. done.
    + rewrite lookup_insert_ne in HB1, HB2 by done. eauto.
Qed.

(** The pass keeps the stored configs owned: the copy it stores at a
    membrane is a block of its own. *)
Lemma apply_data_free_qat_owned c : ∀ fuel mp,
  respects (keeps_configs_owned c) (ggml_p9ml_apply_data_free_qat fuel mp (Some c)).
Proof.
  induction fuel as [|fuel IH]; intros mp; [apply respects_undefined|]. simpl.
  destruct mp as [m|]; [|apply respects_ret; apply _].
  apply respects_bind; [apply _|apply respects_visit; apply _|]. intros _.
  apply respects_bind; [apply _|apply qat_store_config_owned|]. intros stored.
  destruct stored; simpl; [|apply respects_ret; apply _].
  apply respects_bind; [apply _|apply respects_load_membrane; apply _|]. intros Mb.
  apply respects_bind; [apply _| |].
  { apply respects_for_loop; [apply _|]. intros j h u h' t Hrun.
    apply qat_object_same_blocks in Hrun as [Em Ec]. by apply keeps_configs_owned_same. }
  intros _. apply respects_bind; [apply _|apply respects_load_membrane; apply _|]. intros Mb'.
  apply respects_bind; [apply _| |intros _; apply respects_ret; apply _].
  apply respects_for_loop; [apply _|]. intros j.
  apply respects_bind; [apply _|apply respects_load_membrane; apply _|]. intros Mj.
  apply respects_bind; [apply _|apply respects_array_get; apply _|]. intros ch.
  apply respects_bind; [apply _|apply IH|intros _; apply respects_ret; apply _].
Qed.

Lemma NoDup_omap {A B} (f : A → option B) (l : list A) :
  NoDup l →
  (∀ x y z, x ∈ l → y ∈ l → f x = Some z → f y = Some z → x = y) →
  NoDup (omap f l).
Proof.
  induction l as [|x l IH]; intros Hnd Hinj; [constructor|].
  apply list.NoDup_cons in Hnd as [Hx Hnd]. cbn [omap list_omap].
  assert (Hl : NoDup (omap f l)).
  { apply IH; [done|]. intros a b z Ha Hb. apply Hinj; by apply list_elem_of_further. }
  destruct (f x) as [z|] eqn:Hfx; [|done]. apply list.NoDup_cons. split; [|done].
  intros (y & Hy & Hfy)%list_elem_of_omap. apply Hx.
  by rewrite (Hinj x y z (list_elem_of_here _ _) (list_elem_of_further _ _ _ Hy) Hfx Hfy).
Qed.

Lemma tree_ok_chk chk chk' h : ∀ d a,
  tree_ok chk d h a = true →
  (∀ b m, b ∈ preorder d h a → membranes h !! b = Some m → chk' h m = true) →
  tree_ok chk' d h a = true.
Proof.
  induction d as [|d IH]; intros a Hok Hchk; [done|].
  pose proof Hok as (d' & m & cs & [= <-] & Hm & _ & Hcs & Hkids)%tree_ok_unfold.
  simpl. rewrite Hm, Hcs. rewrite (Hchk a m) by (done || simpl; apply list_elem_of_here).
  simpl. apply forallb_forall. intros [c|] Hc%list_elem_of_In; [|done].
  apply IH; [by apply Hkids|]. intros b mb Hb. apply Hchk. by eapply preorder_child.
Qed.

Lemma qat_config_free_run h c cfg :
  configs h !! c = Some cfg →
  ggml_p9ml_qat_config_free (Some c) h = Some (tt, set_configs (delete c (configs h)) h, []).
Proof. apply free_config_run. Qed.

(** X16. The pass stores a copy of the config at each membrane, and that makes
    the release safe in the order the callers use: after the pass on a tree
    that no membrane is met twice in, the caller may free its own config
    and then the tree. All three calls return; afterwards no membrane of
    the tree, none of the copies and not the caller's config is allocated,
    while every config that was allocated before and was stored at no
    membrane is still there, and so are the namespaces. *)
Theorem config_copies_make_the_release_safe (d fuel : nat) (h : heap) (a c : addr)
    (cfg : ggml_p9ml_qat_config) :
  tree_ok objects_ok d h a = true → NoDup (preorder d h a) →
  configs h !! c = Some cfg → configs_owned c h →
  malloc_plan h = [] → (d < fuel)%nat →
  ∃ h1 h2 h3,
    ggml_p9ml_apply_data_free_qat fuel (Some a) (Some c) h = Some (0%Z, h1, preorder d h a) ∧
    ggml_p9ml_qat_config_free (Some c) h1 = Some (tt, h2, []) ∧
    ggml_p9ml_membrane_free fuel (Some a) h2 = Some (tt, h3, []) ∧
    (∀ b, b ∈ preorder d h a → has_config h1 b ∧ membranes h3 !! b = None) ∧
    (∀ q, q ∈ owned_configs d h1 a → configs h3 !! q = None) ∧
    configs h3 !! c = None ∧
    (∀ q cfq, configs h !! q = Some cfq → q ≠ c →
       (∀ b B, membranes h !! b = Some B → qat_config B ≠ Some q) →
       configs h3 !! q = Some cfq) ∧
    namespaces h3 = namespaces h ∧ tensors h3 = tensors h1.
Proof.
  intros Hok Hnd Hc Hown Hplan Hfuel.
  destruct (apply_data_free_qat_spec c cfg d fuel h a Hok Hc Hfuel)
    as (r & h1 & t & Hrun & Hr & Hr' & Ht).
  destruct (Ht Hplan) as [-> Hvis].
  assert (r = 0%Z) as ->.
  { destruct Hr' as [?| ->]; [done|].
    pose proof Hok as (d' & A & cs & _ & HA & _)%tree_ok_unfold.
    destruct (proj1 (Hr A HA) eq_refl) as [_ Hd]. by rewrite Hplan in Hd. }
  pose proof (apply_data_free_qat_frame c cfg _ _ _ _ _ _ Hrun) as F.
  pose proof (apply_data_free_qat_owned c _ _ _ _ _ _ Hrun Hown) as Hown1.
  destruct (F Hc) as (Hfm & Hsub & Hft & Hfn & _).
  assert (Hl : same_links h h1) by by eapply qat_frame_links.
  assert (Hs : same_shapes h h1) by by eapply qat_frame_shapes.
  assert (Hp1 : preorder d h1 a = preorder d h a) by by apply preorder_same_links.
  assert (Hok1 : tree_ok objects_ok d h1 a = true).
  { rewrite (tree_ok_same_links objects_ok h h1); [done|done|]. intros. by apply objects_ok_same. }
  destruct Hown1 as (Hc1 & Hst1 & Hinj1).
  assert (Hot1 : owned_tree d h1 a).
  { split; [|split].
    - apply (tree_ok_chk objects_ok); [done|]. intros b m Hb Hm. unfold config_ok.
      destruct (qat_config m) as [q|] eqn:Hq; [|done].
      apply bool_decide_eq_true_2. by destruct (Hst1 b m q Hm Hq).
    - by rewrite Hp1.
    - apply NoDup_omap; [by rewrite Hp1|]. intros x y z _ _ Hx Hy.
      destruct (membranes h1 !! x) as [X|] eqn:HX; [|done].
      destruct (membranes h1 !! y) as [Y|] eqn:HY; [|done]. simpl in Hx, Hy. eauto. }
  assert (Hcn : c ∉ owned_configs d h1 a).
  { intros (b & _ & Hb)%list_elem_of_omap.
    destruct (membranes h1 !! b) as [B|] eqn:HB; [|done]. simpl in Hb.
    by destruct (Hst1 b B c HB Hb). }
  assert (Hc1' : configs h1 !! c = Some cfg) by by eapply lookup_weaken.
  set (h2 := set_configs (delete c (configs h1)) h1).
  destruct (owned_tree_agree d h1 h2 a Hot1) as (Hot2 & Hp2 & Ho2); [done| |].
  { intros q Hq. simpl. apply lookup_delete_ne. by intros ->. }
  destruct (membrane_free_spec d fuel h2 a Hot2 Hfuel) as (h3 & Hrun3 & Hw).
  rewrite Hp2, Ho2, Hp1 in Hw. destruct Hw as (M & C & En & Et & _).
  exists h1, h2, h3. split; [done|]. split; [by apply (qat_config_free_run h1 c cfg)|]. split; [done|].
  split; [|split; [|split; [|split; [|split]]]].
  - intros b Hb. split; [by apply Hvis|]. by rewrite M, decide_True.
  - intros q Hq. by rewrite C, decide_True.
  - rewrite C, decide_False by done. apply lookup_delete_eq.
  - intros q cfq Hq Hne Hfree. rewrite C, decide_False.
    + simpl. rewrite lookup_delete_ne by done. by eapply lookup_weaken.
    + intros (b & _ & Hb)%list_elem_of_omap.
      destruct (membranes h1 !! b) as [B1|] eqn:HB1; [|done]. simpl in Hb.
      specialize (Hfm b). rewrite HB1 in Hfm.
      destruct (membranes h !! b) as [B|] eqn:HB; [|done].
      destruct Hfm as [_ [E|(_ & q' & Hq' & Hnew & _)]].
      * apply (Hfree b B HB). congruence.
      * assert (q' = q) as -> by congruence. congruence.
  - by rewrite En.
  - done.
Qed.

Lemma membrane_free_children_shrinks fuel m n :
  respects shrinks
    (for_loop n (λ i,
       let* Mb := load_membrane m in
       let* ch := array_get (children Mb) i in
       match ch with
       | Some _ => ggml_p9ml_membrane_free fuel ch
       | None => ret tt
       end)).
Proof.
  apply respects_for_loop; [apply _|]. intros j.
  apply respects_bind; [apply _|apply respects_load_membrane; apply _|]. intros Mj.
  apply respects_bind; [apply _|apply respects_array_get; apply _|]. intros ch.
  destruct ch; [apply membrane_free_shrinks|apply respects_ret; apply _].
Qed.

(** X17. [ggml_p9ml_membrane_free] frees the config stored at the membrane. When
    that block has been freed already, as happens when a membrane stores
    the caller's own pointer and the caller frees it, the release of the
    membrane is undefined. *)
Theorem membrane_free_after_its_config_is_undefined (h : heap) (a q : addr)
    (A : ggml_p9ml_membrane) (cfg : ggml_p9ml_qat_config) :
  membranes h !! a = Some A → qat_config A = Some q → configs h !! q = Some cfg →
  ∃ h1,
    ggml_p9ml_qat_config_free (Some q) h = Some (tt, h1, []) ∧
    ggml_p9ml_qat_config_free (Some q) h1 = None ∧
    ∀ fuel, ggml_p9ml_membrane_free fuel (Some a) h1 = None.
Proof.
  intros HA Hq Hc. eexists. split; [by apply (qat_config_free_run h q cfg)|].
  set (h1 := set_configs _ h).
  assert (Hq1 : configs h1 !! q = None) by apply lookup_delete_eq.
  split; [unfold ggml_p9ml_qat_config_free, free_config, bind, load_config; by rewrite Hq1|].
  intros [|fuel]; [done|]. simpl.
  assert (HA1 : membranes h1 !! a = Some A) by done. step_load HA1. unfold bind at 1.
  destruct (for_loop _ _ h1) as [[[u h2] t2]|] eqn:Hloop; [|done].
  apply membrane_free_children_shrinks in Hloop as [Hm2 Hc2].
  unfold bind at 1, load_membrane at 1.
  destruct (membranes h2 !! a) as [A2|] eqn:HA2; [|done].
  assert (A2 = A) as -> by (eapply lookup_weaken in HA2; [|exact Hm2]; congruence).
  rewrite Hq. unfold bind at 1, ggml_p9ml_qat_config_free, free_config.
  unfold bind at 1, load_config at 1.
  destruct (configs h2 !! q) eqn:E; [|done].
  eapply lookup_weaken in E; [|exact Hc2]. congruence.
Qed.

Lemma tree_ok_rel chk h h' :
  same_links h h' →
  (∀ b m m', membranes h !! b = Some m → membranes h' !! b = Some m' → chk h' m' = chk h m) →
  ∀ d a, tree_ok chk d h' a = tree_ok chk d h a.
Proof.
  intros Hl Hchk. induction d as [|d IH]; intros a; [done|]. simpl.
  pose proof (Hl a) as Hla. pose proof (Hchk a) as Hca.
  destruct (membranes h !! a) as [m|], (membranes h' !! a) as [m'|]; try done.
  simpl in Hla. apply (inj Some) in Hla. rewrite (Hca m m') by done. unfold links in Hla.
  injection Hla as -> -> _ _. f_equal.
  destruct (read_ptrs (children m) (num_children m)); [|done].
  apply forallb_eq. intros [c|] _; [apply IH|done].
Qed.

(** Propagating a namespace leaves a tree owning its blocks. *)
Lemma owned_tree_ns_frame n h h' d a :
  ns_frame n h h' → owned_tree d h a →
  owned_tree d h' a ∧ preorder d h' a = preorder d h a ∧
  owned_configs d h' a = owned_configs d h a.
Proof.
  intros Hf (Hok & Hnd & Hndq). pose proof (ns_frame_links _ _ _ Hf) as Hl.
  destruct Hf as (Hm & _ & Hc & _).
  assert (Hq : ∀ b, membranes h' !! b ≫= qat_config = membranes h !! b ≫= qat_config).
  { intros b. specialize (Hm b).
    destruct (membranes h !! b) as [m|], (membranes h' !! b) as [m'|]; try done.
    destruct Hm as [E _]. simpl.
    change (qat_config (set_ns NULL m') = qat_config (set_ns NULL m)). by rewrite E. }
  assert (Hp : preorder d h' a = preorder d h a) by by apply preorder_same_links.
  assert (Ho : owned_configs d h' a = owned_configs d h a).
  { unfold owned_configs. rewrite Hp. apply list_omap_ext, Forall2_same_length_lookup_2; [done|].
    intros i x y Hx Hy. assert (x = y) as <- by congruence. apply Hq. }
  split; [|done]. split; [|by rewrite Hp, Ho].
  rewrite (tree_ok_rel config_ok h h'); [done|done|].
  intros b m m' HB HB'. pose proof (Hq b) as E. rewrite HB, HB' in E. simpl in E.
  unfold config_ok. by rewrite E, Hc.
Qed.

Lemma namespace_free_run h n N :
  namespaces h !! n = Some N →
  ggml_p9ml_namespace_free (Some n) h =
    Some (tt, set_namespaces (delete n (namespaces h)) h, []).
Proof.
  intros HN. unfold ggml_p9ml_namespace_free, free_namespace, bind, load_namespace, modify.
  by rewrite HN.
Qed.

(** X18. The clean-up order of the callers. A tree that owns its blocks is made
    the root of a namespace, then released, then the namespace is released:
    all three calls return. Between the two releases the namespace still
    names the released root as its root, so the pointer dangles; at the end
    neither the tree nor the namespace is allocated, and the tensors the
    tree held are untouched. [ggml_p9ml_namespace_free] on a null pointer
    does nothing. *)
Theorem release_of_a_rooted_tree_then_of_its_namespace (d fuel : nat) (h : heap) (n r : addr)
    (N : ggml_p9ml_namespace) :
  namespaces h !! n = Some N → owned_tree d h r → (d < fuel)%nat →
  ∃ h1 h2 h3,
    ggml_p9ml_namespace_set_root fuel (Some n) (Some r) h = Some (0%Z, h1, []) ∧
    ggml_p9ml_membrane_free fuel (Some r) h1 = Some (tt, h2, []) ∧
    (ns_root <$> namespaces h2 !! n) = Some (Some r) ∧ membranes h2 !! r = None ∧
    ggml_p9ml_namespace_free (Some n) h2 = Some (tt, h3, []) ∧
    ggml_p9ml_namespace_free NULL h2 = Some (tt, h2, []) ∧
    namespaces h3 = delete n (namespaces h) ∧
    (∀ b, b ∈ preorder d h r → membranes h3 !! b = None) ∧
    (∀ q, q ∈ owned_configs d h r → configs h3 !! q = None) ∧
    tensors h3 = tensors h.
Proof.
  intros HN Hot Hfuel. pose proof Hot as (Hok & _).
  assert (Hok' : tree_ok links_only d h r = true) by by apply (tree_ok_chk config_ok).
  destruct (set_root_run n N d fuel h r HN Hok' Hfuel) as (h1 & Hrun1 & Hns1 & Hfr & Hl & _).
  set (h0 := set_namespaces _ h) in Hfr.
  destruct (owned_tree_agree d h h0 r Hot) as (Hot0 & Hp0 & Ho0); [done|done|].
  destruct (owned_tree_ns_frame n h0 h1 d r Hfr Hot0) as (Hot1 & Hp1 & Ho1).
  destruct (membrane_free_spec d fuel h1 r Hot1 Hfuel) as (h2 & Hrun2 & Hw).
  rewrite Hp1, Ho1, Hp0, Ho0 in Hw. destruct Hw as (M & C & En & Et & _).
  destruct (owned_tree_root d h r Hot) as (d' & -> & Hin & _).
  assert (HN2 : namespaces h2 !! n = Some (set_ns_root (Some r) N))
    by (rewrite En, Hns1; apply lookup_insert_eq).
  exists h1, h2, (set_namespaces (delete n (namespaces h2)) h2).
  split; [done|]. split; [done|]. split; [by rewrite HN2|].
  split; [by rewrite M, decide_True|]. split; [by apply (namespace_free_run h2 n _ HN2)|].
  split; [done|]. simpl. split; [by rewrite En, Hns1, delete_insert_eq|].
  split; [|split].
  - intros b Hb. by rewrite M, decide_True.
  - intros q Hq. by rewrite C, decide_True.
  - rewrite Et. by destruct Hfr as (_ & _ & _ & -> & _).
Qed.


(** * Synthetic data *)

Lemma load_tensor_run h a T :
  tensors h !! a = Some T → load_tensor a h = Some (T, h, []).
Proof. unfold load_tensor. by intros ->. Qed.

Lemma update_tensor_run h a T f :
  tensors h !! a = Some T →
  update_tensor a f h = Some (tt, set_tensors (<[a := f T]> (tensors h)) h, []).
Proof.
  intros HT. unfold update_tensor.
  by rewrite (bind_run _ _ _ _ _ _ (load_tensor_run _ _ _ HT)).
Qed.

Lemma fill_noise_run scale : ∀ n d h,
  (n ≤ length d)%nat →
  fill_noise n d scale h =
    Some (noises n (seed h) scale ++ drop n d, set_seed (seed_after n (seed h)) h, []).
Proof.
  induction n as [|n IH]; intros d h Hn.
  - simpl. rewrite drop_0. unfold ret. by destruct h.
  - destruct d as [|x d]; [simpl in Hn; lia|]. simpl.
    unfold bind at 1, ggml_p9ml_generate_noise at 1.
    rewrite (bind_run _ _ _ _ _ _ (IH d _ ltac:(simpl in Hn; simpl; lia))).
    unfold ret. simpl. by destruct h.
Qed.

Lemma noises_within n : ∀ sd s, nonneg_finite s = true →
  Forall (λ x, finite32 x = true ∧ (- val s ≤ val x ≤ val s)%Z) (noises n sd s).
Proof.
  induction n as [|n IH]; intros sd s Hs; [constructor|]. simpl. constructor; [|by apply IH].
  destruct (noise_range (next_seed sd) s Hs) as (Hv & Hf & Hval).
  split; [by apply finite32_iff|done].
Qed.


(** X19. [ggml_p9ml_generate_synthetic_data] rejects a null context, a null
    shape and a number of dimensions outside 1 to 4: it returns NULL, asks
    ggml for no tensor and draws no noise. A shape array with fewer entries
    than dimensions is read past its end, which is undefined. *)
Theorem generate_synthetic_data_checks_its_arguments
    (new_tensor : ptr → ggml_type → list Z → M ptr) (ctx : ptr) (shape : option (list Z))
    (n_dims : Z) (s : spec_float) (h : heap) :
  (ctx = NULL ∨ shape = None ∨ (n_dims ≤ 0)%Z ∨ (4 < n_dims)%Z →
     ggml_p9ml_generate_synthetic_data new_tensor ctx shape n_dims s h = Some (NULL, h, [])) ∧
  (∀ cx sh, ctx = Some cx → shape = Some sh → (1 ≤ n_dims ≤ 4)%Z →
     (Z.of_nat (length sh) < n_dims)%Z →
     ggml_p9ml_generate_synthetic_data new_tensor ctx shape n_dims s h = None).
Proof.
  split.
  - intros Hbad. unfold ggml_p9ml_generate_synthetic_data.
    destruct ctx as [cx|]; [|done]. destruct shape as [sh|]; [|done].
    destruct Hbad as [?|[?|[Hle|Hgt]]]; [done|done| |].
    + by destruct (Z.leb_spec n_dims 0); [|lia].
    + destruct (Z.leb_spec n_dims 0); [done|].
      destruct (Z.eqb_spec n_dims 1); [lia|]. destruct (Z.eqb_spec n_dims 2); [lia|].
      destruct (Z.eqb_spec n_dims 3); [lia|]. destruct (Z.eqb_spec n_dims 4); [lia|]. done.
  - intros cx sh -> -> Hn Hlen. unfold ggml_p9ml_generate_synthetic_data.
    destruct (Z.leb_spec n_dims 0); [lia|].
    assert (n_dims = 1 ∨ n_dims = 2 ∨ n_dims = 3 ∨ n_dims = 4)%Z
      as [-> | [-> | [-> | ->]]] by lia; cbn [Z.eqb Pos.eqb];
      do 4 (try (destruct sh as [|? sh]; [reflexivity|])); simpl in Hlen; lia.
Qed.


Lemma bind_assoc {A B C} (m : M A) (f : A → M B) (k : B → M C) h :
  bind (bind m f) k h = bind m (λ x, bind (f x) k) h.
Proof.
  unfold bind. destruct (m h) as [[[a h1] t1]|]; [|done].
  destruct (f a h1) as [[[b h2] t2]|]; [|done].
  destruct (k b h2) as [[[c h3] t3]|]; [|done]. by rewrite (assoc_L (++)).
Qed.

Lemma bind_ret_l {A B} (a : A) (f : A → M B) h : bind (ret a) f h = f a h.
Proof. unfold bind, ret. by destruct (f a h) as [[[b h2] t2]|]. Qed.

(** X20. What [ggml_p9ml_generate_synthetic_data] does with the tensor that ggml
    returns for the first [n_dims] entries of the shape. A null tensor is
    passed on as NULL. A tensor without data is returned as it is. A tensor
    with data has its first [nelements] elements overwritten by the next
    values of the noise generator, whatever they held, so that with a finite
    scale [s] that is not negative each of them is a finite number between
    [-s] and [s]; the other tensors are as ggml left them. *)
Theorem generate_synthetic_data_fills_within_the_scale
    (new_tensor : ptr → ggml_type → list Z → M ptr) (cx : addr) (sh : list Z)
    (n_dims : Z) (s : spec_float) (h h1 : heap) (r : ptr) (t1 : list addr) :
  (1 ≤ n_dims ≤ 4)%Z → (n_dims ≤ Z.of_nat (length sh))%Z →
  new_tensor (Some cx) GGML_TYPE_F32 (take (Z.to_nat n_dims) sh) h = Some (r, h1, t1) →
  match r with
  | None =>
      ggml_p9ml_generate_synthetic_data new_tensor (Some cx) (Some sh) n_dims s h =
        Some (NULL, h1, t1)
  | Some ta =>
      ∀ T, tensors h1 !! ta = Some T →
        match data T with
        | None =>
            ggml_p9ml_generate_synthetic_data new_tensor (Some cx) (Some sh) n_dims s h =
              Some (Some ta, h1, t1)
        | Some d =>
            let n := Z.to_nat (size_t (ggml_nelements T)) in
            (n ≤ length d)%nat →
            ggml_p9ml_generate_synthetic_data new_tensor (Some cx) (Some sh) n_dims s h =
              Some (Some ta,
                    set_tensors
                      (<[ta := set_data (Some (noises n (seed h1) s ++ drop n d)) T]>
                         (tensors h1))
                      (set_seed (seed_after n (seed h1)) h1), t1) ∧
            (nonneg_finite s = true →
             Forall (λ x, finite32 x = true ∧ (- val s ≤ val x ≤ val s)%Z)
                    (noises n (seed h1) s))
        end
  end.
Proof.
  intros Hn Hlen Hnew.
  assert (Hcall :
    ggml_p9ml_generate_synthetic_data new_tensor (Some cx) (Some sh) n_dims s h =
    (let* tensor := new_tensor (Some cx) GGML_TYPE_F32 (take (Z.to_nat n_dims) sh) in
     match tensor with
     | None => ret NULL
     | Some ta =>
         let* T := load_tensor ta in
         match data T with
         | None => ret tensor
         | Some d =>
             let* d' := fill_noise (Z.to_nat (size_t (ggml_nelements T))) d s in
             update_tensor ta (set_data (Some d'));;
             ret tensor
         end
     end) h).
  { unfold ggml_p9ml_generate_synthetic_data. destruct (Z.leb_spec n_dims 0); [lia|].
    assert (n_dims = 1 ∨ n_dims = 2 ∨ n_dims = 3 ∨ n_dims = 4)%Z
      as [-> | [-> | [-> | ->]]] by lia; cbn [Z.eqb Pos.eqb].
    - destruct sh as [|s0 sh]; [simpl in Hlen; lia|].
      rewrite bind_assoc, (bind_ret_l s0). reflexivity.
    - destruct sh as [|s0 [|s1 sh]]; [simpl in Hlen; lia..|].
      rewrite bind_assoc, (bind_ret_l s0). cbn beta.
      rewrite bind_assoc, (bind_ret_l s1). reflexivity.
    - destruct sh as [|s0 [|s1 [|s2 sh]]]; [simpl in Hlen; lia..|].
      rewrite bind_assoc, (bind_ret_l s0). cbn beta. rewrite bind_assoc, (bind_ret_l s1).
      cbn beta. rewrite bind_assoc, (bind_ret_l s2). reflexivity.
    - destruct sh as [|s0 [|s1 [|s2 [|s3 sh]]]]; [simpl in Hlen; lia..|].
      rewrite bind_assoc, (bind_ret_l s0). cbn beta. rewrite bind_assoc, (bind_ret_l s1).
      cbn beta. rewrite bind_assoc, (bind_ret_l s2). cbn beta.
      rewrite bind_assoc, (bind_ret_l s3). reflexivity. }
  rewrite Hcall. clear Hcall. step_with Hnew.
  destruct r as [ta|]; [|cbv beta iota delta [ret]; by rewrite app_nil_r].
  intros T HT. rewrite (bind_run _ _ _ _ _ _ (load_tensor_run _ _ _ HT)).
  destruct (data T) as [d|] eqn:Hd; [|cbv beta iota delta [ret]; by rewrite app_nil_r].
  intros n Hle. split; [|by apply noises_within].
  fold n. rewrite (bind_run _ _ _ _ _ _ (fill_noise_run s n d h1 Hle)).
  set (d' := noises n (seed h1) s ++ drop n d). set (h1' := set_seed _ h1).
  assert (HT' : tensors h1' !! ta = Some T) by exact HT.
  rewrite (bind_run _ _ _ _ _ _ (update_tensor_run _ _ _ (set_data (Some d')) HT')).
  cbv beta iota delta [ret]. cbn [app]. by rewrite app_nil_r.
Qed.

(** * The further properties at concrete stores *)

Lemma membrane_new_is_fresh_and_detached_demo :
  malloc_plan demo_loose = [] ∧
  ∃ a h', ggml_p9ml_membrane_new None 2 NULL demo_loose = Some (Some a, h', []) ∧
          membranes demo_loose !! a = None ∧
          (level <$> membranes h' !! a) = Some 2%Z.
Proof.
  split; [reflexivity|].
  destruct (membrane_new_is_fresh_and_detached None 2 NULL demo_loose eq_refl)
    as (a & h' & Hrun & Hfresh & Hm & _).
  exists a, h'. split; [exact Hrun|]. split; [exact Hfresh|].
  rewrite Hm, lookup_insert_eq. reflexivity.
Defined.

Lemma membrane_new_ignores_failed_array_allocation_demo :
  malloc_plan (initial_heap [true; false; false]) = [true; false; false] ∧
  ∃ a h', ggml_p9ml_membrane_new None 0 NULL (initial_heap [true; false; false]) =
            Some (Some a, h', []) ∧
          ggml_p9ml_membrane_add_child (Some a) (Some a) h' = None ∧
          ggml_p9ml_membrane_add_object (Some a) (Some 1%positive) h' = None.
Proof.
  split; [reflexivity|].
  destruct (membrane_new_ignores_failed_array_allocation None 0 NULL
              (initial_heap [true; false; false]) false false [] eq_refl)
    as (a & h' & m & Hrun & _ & _ & _ & _ & _ & Hc & Ho).
  exists a, h'. split; [exact Hrun|]. split.
  - apply (proj2 (Hc eq_refl)).
  - apply (proj2 (Ho eq_refl)).
Defined.

Lemma add_objects_fills_to_capacity_demo :
  membranes demo_loose !! 1%positive = Some (mk_membrane "parent" 0 NULL NULL [] [] NULL) ∧
  ∃ h', add_objects 1 [7; 8]%positive demo_loose = Some ([0; 0]%Z, h', []) ∧
        objects_of h' 1 = [Some 7; Some 8]%positive.
Proof.
  assert (H0 : membranes demo_loose !! 1%positive =
               Some (mk_membrane "parent" 0 NULL NULL [] [] NULL)) by (vm_compute; reflexivity).
  assert (Hok : membrane_ok (mk_membrane "parent" 0 NULL NULL [] [] NULL)).
  { split; [|split; [|split]].
    - eexists. split; [reflexivity|]. vm_compute. reflexivity.
    - eexists. split; [reflexivity|]. vm_compute. reflexivity.
    - vm_compute. split; discriminate.
    - vm_compute. split; discriminate. }
  split; [exact H0|].
  destruct (add_objects_fills_to_capacity [7; 8]%positive demo_loose 1 _ H0 Hok)
    as (h' & Mb' & Hrun & _ & _ & Hobj & _).
  exists h'. split; [exact Hrun|]. rewrite Hobj. vm_compute. reflexivity.
Defined.

Lemma add_children_fills_to_capacity_demo :
  membranes demo_loose !! 1%positive = Some (mk_membrane "parent" 0 NULL NULL [] [] NULL) ∧
  ∃ h' P', add_children 1 [2; 3]%positive demo_loose = Some ([0; 0]%Z, h', []) ∧
           membranes h' !! 1%positive = Some P' ∧
           read_ptrs (children P') (num_children P') = Some [Some 2; Some 3]%positive.
Proof.
  assert (H0 : membranes demo_loose !! 1%positive =
               Some (mk_membrane "parent" 0 NULL NULL [] [] NULL)) by (vm_compute; reflexivity).
  assert (Hok : membrane_ok (mk_membrane "parent" 0 NULL NULL [] [] NULL)).
  { split; [|split; [|split]].
    - eexists. split; [reflexivity|]. vm_compute. reflexivity.
    - eexists. split; [reflexivity|]. vm_compute. reflexivity.
    - vm_compute. split; discriminate.
    - vm_compute. split; discriminate. }
  split; [exact H0|].
  destruct (add_children_fills_to_capacity [2; 3]%positive demo_loose 1 _ H0 Hok)
    as (h' & P' & old & Hrun & HP' & _ & Hold & Hnew & _).
  { repeat constructor; eexists; vm_compute; reflexivity. }
  exists h', P'. split; [exact Hrun|]. split; [exact HP'|]. rewrite Hnew.
  vm_compute in Hold. injection Hold as <-. reflexivity.
Defined.

Lemma add_child_of_an_ancestor_makes_evolve_diverge_demo :
  reachable demo_attached 1 2 ∧
  ggml_p9ml_membrane_add_child (Some 2%positive) (Some 1%positive) demo_attached =
    Some (0%Z, demo_cycle, []) ∧
  ∀ fuel, ggml_p9ml_membrane_evolve fuel (Some 2%positive) demo_cycle = None.
Proof.
  assert (H1 : reachable demo_attached 1 2).
  { eapply (reachable_child demo_attached 1 _ _ 0 2 2);
      [vm_compute; reflexivity|reflexivity|vm_compute; split; [discriminate|reflexivity]|
       vm_compute; reflexivity|constructor]. }
  assert (H2 : ggml_p9ml_membrane_add_child (Some 2%positive) (Some 1%positive) demo_attached =
               Some (0%Z, demo_cycle, [])) by (vm_compute; reflexivity).
  split; [exact H1|]. split; [exact H2|].
  apply (add_child_of_an_ancestor_makes_evolve_diverge demo_attached demo_cycle 2 1 [] H1 H2).
Defined.

Lemma set_root_is_idempotent_demo :
  namespaces demo_tree !! 1%positive = Some (mk_namespace "workspace") ∧
  tree_ok links_only 2 demo_tree 1 = true ∧
  ∃ h1, ggml_p9ml_namespace_set_root 3 (Some 1%positive) (Some 1%positive) demo_tree =
          Some (0%Z, h1, []) ∧
        ggml_p9ml_namespace_set_root 3 (Some 1%positive) (Some 1%positive) h1 =
          Some (0%Z, h1, []).
Proof.
  assert (H1 : namespaces demo_tree !! 1%positive = Some (mk_namespace "workspace"))
    by (vm_compute; reflexivity).
  assert (H2 : tree_ok links_only 2 demo_tree 1 = true) by (vm_compute; reflexivity).
  split; [exact H1|]. split; [exact H2|].
  exact (set_root_is_idempotent 2 3 demo_tree 1 1 _ H1 H2 (le_n 3)).
Defined.

Lemma set_root_leaves_the_old_tree_attached_demo :
  namespaces demo_loose !! 1%positive = Some (mk_namespace "workspace") ∧
  tree_ok links_only 1 demo_loose 1 = true ∧ tree_ok links_only 1 demo_loose 2 = true ∧
  ∃ h1 h2, ggml_p9ml_namespace_set_root 2 (Some 1%positive) (Some 1%positive) demo_loose =
             Some (0%Z, h1, []) ∧
           ggml_p9ml_namespace_set_root 2 (Some 1%positive) (Some 2%positive) h1 =
             Some (0%Z, h2, []) ∧
           (ns_root <$> namespaces h2 !! 1%positive) = Some (Some 2%positive) ∧
           has_ns h2 1 1.
Proof.
  assert (H1 : namespaces demo_loose !! 1%positive = Some (mk_namespace "workspace"))
    by (vm_compute; reflexivity).
  assert (H2 : tree_ok links_only 1 demo_loose 1 = true) by (vm_compute; reflexivity).
  assert (H3 : tree_ok links_only 1 demo_loose 2 = true) by (vm_compute; reflexivity).
  split; [exact H1|]. split; [exact H2|]. split; [exact H3|].
  destruct (set_root_leaves_the_old_tree_attached 1 1 2 demo_loose 1 1 2 _ H1 H2 H3
              (le_n 2) (le_n 2)) as (h1 & h2 & N2 & R1 & R2 & HN2 & Hroot & Hold & _).
  exists h1, h2. split; [exact R1|]. split; [exact R2|]. split.
  - rewrite HN2. simpl. rewrite Hroot. reflexivity.
  - apply Hold. vm_compute. left.
Defined.

Lemma set_root_of_a_second_namespace_takes_the_tree_demo :
  namespaces demo_two_namespaces !! 1%positive = Some (mk_namespace "workspace") ∧
  namespaces demo_two_namespaces !! 2%positive = Some (mk_namespace "second") ∧
  tree_ok links_only 2 demo_two_namespaces 1 = true ∧
  ∃ h1 h2,
    ggml_p9ml_namespace_set_root 3 (Some 1%positive) (Some 1%positive) demo_two_namespaces =
      Some (0%Z, h1, []) ∧
    ggml_p9ml_namespace_set_root 3 (Some 2%positive) (Some 1%positive) h1 =
      Some (0%Z, h2, []) ∧
    (ns_root <$> namespaces h2 !! 1%positive) = Some (Some 1%positive) ∧
    has_ns h2 3 2 ∧ ¬ has_ns h2 3 1.
Proof.
  assert (H1 : namespaces demo_two_namespaces !! 1%positive = Some (mk_namespace "workspace"))
    by (vm_compute; reflexivity).
  assert (H2 : namespaces demo_two_namespaces !! 2%positive = Some (mk_namespace "second"))
    by (vm_compute; reflexivity).
  assert (H3 : tree_ok links_only 2 demo_two_namespaces 1 = true) by (vm_compute; reflexivity).
  split; [exact H1|]. split; [exact H2|]. split; [exact H3|].
  destruct (set_root_of_a_second_namespace_takes_the_tree 2 3 demo_two_namespaces 1 2 1 _ _
              ltac:(discriminate) H1 H2 H3 (le_n 3)) as (h1 & h2 & R1 & R2 & E1 & _ & Hall).
  exists h1, h2. split; [exact R1|]. split; [exact R2|]. split; [exact E1|].
  apply Hall. vm_compute. right. right. left.
Defined.

Lemma apply_data_free_qat_keeps_the_structure_demo :
  tree_ok objects_ok 2 demo_tree 1 = true ∧
  configs demo_tree !! 1%positive = Some demo_config ∧
  ∃ r h' t, ggml_p9ml_apply_data_free_qat 3 (Some 1%positive) (Some 1%positive) demo_tree =
              Some (r, h', t) ∧
            namespaces h' = namespaces demo_tree ∧
            preorder 2 h' 1 = [1; 2; 3]%positive.
Proof.
  assert (H1 : tree_ok objects_ok 2 demo_tree 1 = true) by (vm_compute; reflexivity).
  assert (H2 : configs demo_tree !! 1%positive = Some demo_config) by (vm_compute; reflexivity).
  split; [exact H1|]. split; [exact H2|].
  destruct (apply_data_free_qat_keeps_the_structure 2 3 demo_tree 1 1 demo_config H1 H2 (le_n 3))
    as (r & h' & t & Hrun & _ & _ & Hn & _ & Hp).
  exists r, h', t. split; [exact Hrun|]. split; [exact Hn|]. rewrite Hp. vm_compute. reflexivity.
Defined.

Lemma forward_tiled_qat_divides_by_the_tile_size_demo :
  membranes demo_tree !! 2%positive =
    Some (mk_membrane "A" 1 (Some 1%positive) NULL [] [Some 1%positive; Some 2%positive] NULL) ∧
  configs demo_tree !! 1%positive = Some demo_config ∧
  ggml_p9ml_forward_tiled_qat (Some 2%positive) (Some 1%positive) NULL demo_tree =
    Some (0%Z, demo_tree, [2%positive]).
Proof.
  assert (H1 : membranes demo_tree !! 2%positive =
               Some (mk_membrane "A" 1 (Some 1%positive) NULL []
                       [Some 1%positive; Some 2%positive] NULL)) by (vm_compute; reflexivity).
  assert (H2 : configs demo_tree !! 1%positive = Some demo_config) by (vm_compute; reflexivity).
  split; [exact H1|]. split; [exact H2|].
  destruct (forward_tiled_qat_divides_by_the_tile_size demo_tree 2 1 NULL _ _ H1 H2) as [H _].
  - vm_compute. reflexivity.
  - apply H. left. vm_compute. discriminate.
Defined.

Lemma mixed_precision_quantize_changes_nothing_demo :
  membranes demo_tree !! 2%positive =
    Some (mk_membrane "A" 1 (Some 1%positive) NULL [] [Some 1%positive; Some 2%positive] NULL) ∧
  ggml_p9ml_mixed_precision_quantize (Some 2%positive) f32_half demo_tree =
    Some (0%Z, demo_tree, [2%positive]).
Proof.
  assert (H1 : membranes demo_tree !! 2%positive =
               Some (mk_membrane "A" 1 (Some 1%positive) NULL []
                       [Some 1%positive; Some 2%positive] NULL)) by (vm_compute; reflexivity).
  split; [exact H1|].
  destruct (mixed_precision_quantize_changes_nothing demo_tree 2 f32_half _ H1) as [H _].
  - vm_compute. reflexivity.
  - exact H.
Defined.

Lemma membrane_free_releases_the_tree_only_demo :
  owned_tree 2 demo_tree 1 ∧
  ∃ h', ggml_p9ml_membrane_free 3 (Some 1%positive) demo_tree = Some (tt, h', []) ∧
        membranes h' !! 2%positive = None ∧ tensors h' = tensors demo_tree.
Proof.
  assert (H1 : owned_tree 2 demo_tree 1).
  { split; [vm_compute; reflexivity|].
    split; apply (bool_decide_unpack _); vm_compute; reflexivity. }
  split; [exact H1|].
  destruct (membrane_free_releases_the_tree_only 2 3 demo_tree 1 H1 (le_n 3))
    as [(h' & Hrun & M & _ & _ & Et & _) _].
  exists h'. split; [exact Hrun|]. split; [|exact Et].
  rewrite M. vm_compute. reflexivity.
Defined.

Lemma membrane_free_twice_is_undefined_demo :
  owned_tree 2 demo_tree 1 ∧
  ∃ h', ggml_p9ml_membrane_free 3 (Some 1%positive) demo_tree = Some (tt, h', []) ∧
        ggml_p9ml_membrane_free 3 (Some 1%positive) h' = None.
Proof.
  assert (H1 : owned_tree 2 demo_tree 1).
  { split; [vm_compute; reflexivity|].
    split; apply (bool_decide_unpack _); vm_compute; reflexivity. }
  split; [exact H1|].
  destruct (membrane_free_twice_is_undefined 2 3 demo_tree 1 H1 (le_n 3)) as (h' & Hrun & Hall).
  exists h'. split; [exact Hrun|]. apply (Hall 1%positive 3%nat). vm_compute. left.
Defined.

Lemma membrane_free_of_a_child_leaves_the_parent_dangling_demo :
  owned_tree 1 demo_tree 2 ∧
  ∃ h', ggml_p9ml_membrane_free 2 (Some 2%positive) demo_tree = Some (tt, h', []) ∧
        ggml_p9ml_membrane_evolve 3 (Some 1%positive) h' = None ∧
        ggml_p9ml_membrane_free 3 (Some 1%positive) h' = None.
Proof.
  assert (H1 : owned_tree 1 demo_tree 2).
  { split; [vm_compute; reflexivity|].
    split; apply (bool_decide_unpack _); vm_compute; reflexivity. }
  split; [exact H1|].
  destruct (membrane_free_of_a_child_leaves_the_parent_dangling 1 2 demo_tree 1 2
              (mk_membrane "root" 0 NULL NULL [Some 2%positive; Some 3%positive] [] NULL)
              ([Some 2%positive; Some 3%positive] ++ replicate 14 NULL) 0)
    as (h' & Hrun & _ & _ & Hall).
  - vm_compute. reflexivity.
  - reflexivity.
  - vm_compute. split; [discriminate|reflexivity].
  - reflexivity.
  - exact H1.
  - apply (bool_decide_unpack _). vm_compute. reflexivity.
  - apply le_n.
  - exists h'. split; [exact Hrun|]. apply (Hall 3%nat).
Defined.

Lemma demo_tree_stores_no_config (b : addr) (B : ggml_p9ml_membrane) :
  membranes demo_tree !! b = Some B → qat_config B = NULL.
Proof.
  assert (Hall : map_Forall (λ _ B, qat_config B = NULL) (membranes demo_tree)).
  { apply (bool_decide_unpack _). vm_compute. reflexivity. }
  apply Hall.
Qed.

Lemma config_copies_make_the_release_safe_demo :
  ∃ h1 h2 h3,
    ggml_p9ml_apply_data_free_qat 3 (Some 1%positive) (Some 1%positive) demo_tree =
      Some (0%Z, h1, preorder 2 demo_tree 1) ∧
    ggml_p9ml_qat_config_free (Some 1%positive) h1 = Some (tt, h2, []) ∧
    ggml_p9ml_membrane_free 3 (Some 1%positive) h2 = Some (tt, h3, []) ∧
    configs h3 !! 1%positive = None ∧ configs h3 !! 2%positive = Some demo_config2.
Proof.
  destruct (config_copies_make_the_release_safe 2 3 demo_tree 1 1 demo_config)
    as (h1 & h2 & h3 & Hrun1 & Hrun2 & Hrun3 & _ & _ & Hc & Hkeep & _).
  - vm_compute. reflexivity.
  - apply (bool_decide_unpack _). vm_compute. reflexivity.
  - vm_compute. reflexivity.
  - split; [exists demo_config; vm_compute; reflexivity|].
    split.
    + intros b B q Hb Hq. rewrite (demo_tree_stores_no_config b B Hb) in Hq. discriminate Hq.
    + intros b1 b2 B1 B2 q Hb Hq. rewrite (demo_tree_stores_no_config b1 B1 Hb) in Hq.
      discriminate Hq.
  - reflexivity.
  - apply le_n.
  - exists h1, h2, h3. split; [exact Hrun1|]. split; [exact Hrun2|]. split; [exact Hrun3|].
    split; [exact Hc|]. apply Hkeep.
    + vm_compute. reflexivity.
    + discriminate.
    + intros b B Hb Hq. rewrite (demo_tree_stores_no_config b B Hb) in Hq. discriminate Hq.
Defined.

Lemma membrane_free_after_its_config_is_undefined_demo :
  ∃ h1,
    ggml_p9ml_qat_config_free (Some 1%positive) demo_stored = Some (tt, h1, []) ∧
    ggml_p9ml_membrane_free 2 (Some 1%positive) h1 = None.
Proof.
  destruct (membrane_free_after_its_config_is_undefined demo_stored 1 1
              (mk_membrane "root" 0 NULL NULL [] [] (Some 1%positive)) demo_config)
    as (h1 & Hrun & _ & Hall).
  - vm_compute. reflexivity.
  - reflexivity.
  - vm_compute. reflexivity.
  - exists h1. split; [exact Hrun|]. apply (Hall 2%nat).
Defined.

Lemma release_of_a_rooted_tree_then_of_its_namespace_demo :
  owned_tree 2 demo_tree 1 ∧
  ∃ h1 h2 h3,
    ggml_p9ml_namespace_set_root 3 (Some 1%positive) (Some 1%positive) demo_tree =
      Some (0%Z, h1, []) ∧
    ggml_p9ml_membrane_free 3 (Some 1%positive) h1 = Some (tt, h2, []) ∧
    (ns_root <$> namespaces h2 !! 1%positive) = Some (Some 1%positive) ∧
    membranes h2 !! 1%positive = None ∧
    ggml_p9ml_namespace_free (Some 1%positive) h2 = Some (tt, h3, []).
Proof.
  assert (H1 : owned_tree 2 demo_tree 1).
  { split; [vm_compute; reflexivity|].
    split; apply (bool_decide_unpack _); vm_compute; reflexivity. }
  split; [exact H1|].
  destruct (release_of_a_rooted_tree_then_of_its_namespace 2 3 demo_tree 1 1
              (mk_namespace "workspace"))
    as (h1 & h2 & h3 & Hrun1 & Hrun2 & Hd & Hr & Hrun3 & _).
  - vm_compute. reflexivity.
  - exact H1.
  - apply le_n.
  - exists h1, h2, h3. repeat (split; [assumption|]). assumption.
Defined.

Lemma generate_synthetic_data_fills_within_the_scale_demo :
  ∃ ta h',
    ggml_p9ml_generate_synthetic_data zeroed_new_tensor (Some 1%positive) (Some [3%Z]) 1
      f32_0_1 (initial_heap []) = Some (Some ta, h', []) ∧
    Forall (λ x, finite32 x = true ∧ (- val f32_0_1 ≤ val x ≤ val f32_0_1)%Z)
      (noises 3 12345 f32_0_1).
Proof.
  set (T0 := {| type := GGML_TYPE_F32; nelements := 3;
                data := Some (replicate 3 f32_zero) |}).
  set (ta := fresh (dom (tensors (initial_heap [])))).
  set (h1 := set_tensors (<[ta := T0]> (tensors (initial_heap []))) (initial_heap [])).
  pose proof (generate_synthetic_data_fills_within_the_scale zeroed_new_tensor 1 [3%Z] 1
                f32_0_1 (initial_heap []) h1 (Some ta) [] ltac:(lia) ltac:(simpl; lia)
                eq_refl T0 (lookup_insert_eq _ _ _)) as H.
  destruct (H (le_n 3)) as [Hrun Hb].
  exists ta. eexists. split; [exact Hrun|]. exact (Hb eq_refl).
Defined.

(** * Tensors that share a buffer *)

(** ** Runs on the store with buffers *)

Lemma buffers_bind_run {A B} (m : Buffers.M A) (f : A → Buffers.M B) rh a rh1 t1 :
  m rh = Some (a, rh1, t1) →
  Buffers.bind m f rh = match f a rh1 with
                        | Some (b, rh2, t2) => Some (b, rh2, t1 ++ t2)
                        | None => None
                        end.
Proof. unfold Buffers.bind. by intros ->. Qed.

Lemma buffers_add_noise_run c cfg : ∀ n b k rh blk,
  Buffers.configs rh !! c = Some cfg → Buffers.buffers rh !! b = Some blk →
  (k + n ≤ length blk)%nat →
  Buffers.add_noise n b k c rh =
    Some (tt,
          Buffers.set_seed (seed_after n (Buffers.seed rh))
            (Buffers.set_buffers
               (<[b := take k blk ++
                       perturbed n (drop k blk) (Buffers.seed rh) (noise_scale cfg)]>
                  (Buffers.buffers rh)) rh), []).
Proof.
  induction n as [|n IH]; intros b k rh blk Hc Hb Hle.
  - cbn [Buffers.add_noise seed_after]. unfold Buffers.ret, perturbed.
    rewrite take_0, drop_0. cbn [zip_with app]. rewrite take_drop, insert_id by done.
    by destruct rh.
  - cbn [Buffers.add_noise].
    assert (is_Some (blk !! k)) as [x Hx] by (apply lookup_lt_is_Some_2; lia).
    unfold Buffers.bind at 1, Buffers.load_config at 1. rewrite Hc.
    unfold Buffers.bind at 1, Buffers.ggml_p9ml_generate_noise at 1. cbv zeta.
    set (s1 := next_seed (Buffers.seed rh)). set (rh1 := Buffers.set_seed s1 rh).
    unfold Buffers.bind at 1, Buffers.load_float at 1.
    assert (Hb1 : Buffers.buffers rh1 !! b = Some blk) by exact Hb. rewrite Hb1, Hx.
    unfold Buffers.bind at 1, Buffers.store_float at 1. rewrite Hb1.
    destruct (Nat.ltb_spec k (length blk)); [|lia].
    set (blk1 := <[k := f32_add x (noise_of_seed s1 (noise_scale cfg))]> blk).
    set (rh2 := Buffers.set_buffers _ rh1).
    rewrite (IH b (S k) rh2 blk1); [| exact Hc | apply lookup_insert_eq
                                    | unfold blk1; rewrite length_insert; lia].
    cbn [app]. f_equal. f_equal. f_equal.
    unfold rh2, rh1, Buffers.set_buffers, Buffers.set_seed. cbn. f_equal.
    rewrite insert_insert_eq. f_equal.
    rewrite (drop_S blk x k Hx), perturbed_cons. fold s1.
    unfold blk1. rewrite drop_insert_lt by lia.
    rewrite (take_S_r _ _ (f32_add x (noise_of_seed s1 (noise_scale cfg)))).
    + rewrite take_insert_ge by lia. by rewrite <- (assoc_L (++)).
    + apply list_lookup_insert_eq. lia.
Qed.

(** ** The two models side by side *)

Section Simulation.
Context (rh0 : Buffers.heap) (Ms G U : addr → Prop).
Hypothesis Hclosed : closed_under_children rh0 Ms.
Hypothesis Hentries : entries_ok rh0 Ms G U.

Local Abbreviation R := (agrees rh0 G U).
Local Abbreviation sim := (simulates (agrees rh0 G U)).

Lemma agrees_start : R rh0 (by_value rh0).
Proof. by split. Qed.

Lemma sim_ret {A} (x : A) : sim (Buffers.ret x) (ret x).
Proof. intros rh h y h' t HR [= <- <- <-]. by exists rh. Qed.

Lemma sim_undefined {A} : sim (@Buffers.undefined A) undefined.
Proof. by intros rh h y h' t HR. Qed.

Lemma sim_bind {A B} (m : Buffers.M A) (m' : M A) (f : A → Buffers.M B) (f' : A → M B) :
  sim m m' → (∀ x, sim (f x) (f' x)) → sim (Buffers.bind m f) (bind m' f').
Proof.
  intros Hm Hf rh h y h' t HR (x & h1 & t1 & t2 & H1 & H2 & ->)%bind_Some.
  destruct (Hm _ _ _ _ _ HR H1) as (rh1 & E1 & HR1).
  destruct (Hf x _ _ _ _ _ HR1 H2) as (rh2 & E2 & HR2).
  exists rh2. split; [|done]. unfold Buffers.bind. by rewrite E1, E2.
Qed.

Lemma sim_visit a : sim (Buffers.visit a) (visit a).
Proof. intros rh h y h' t HR [= <- <- <-]. by exists rh. Qed.

Lemma sim_malloc : sim Buffers.malloc malloc.
Proof.
  intros rh h y h' t HR. unfold malloc, Buffers.malloc.
  pose proof (ag_plan _ _ _ _ _ HR) as Hp.
  destruct (malloc_plan h) as [|b pl] eqn:E; intros [= <- <- <-]; rewrite <- Hp.
  - by exists rh.
  - eexists. split; [done|]. destruct HR. by split.
Qed.

Lemma sim_fresh_config :
  sim (λ rh, Some (fresh (dom (Buffers.configs rh)), rh, []))
      (λ h, Some (fresh (dom (configs h)), h, [])).
Proof.
  intros rh h y h' t HR [= <- <- <-]. exists rh. by rewrite (ag_configs _ _ _ _ _ HR).
Qed.

Lemma sim_load_config c : sim (Buffers.load_config c) (load_config c).
Proof.
  intros rh h y h' t HR (Hc & -> & ->)%load_config_Some. exists rh. split; [|done].
  unfold Buffers.load_config. by rewrite <- (ag_configs _ _ _ _ _ HR), Hc.
Qed.

Lemma sim_store_config q cfg :
  sim (Buffers.modify (λ h, Buffers.set_configs (<[q := cfg]> (Buffers.configs h)) h))
      (modify (λ h, set_configs (<[q := cfg]> (configs h)) h)).
Proof.
  intros rh h y h' t HR [= <- <- <-]. eexists. split; [done|].
  destruct HR as [Hm Hn Hc Hs Hp Ht Hl Hlen Hsh Hseen Hkept]. split; try done.
  simpl. by rewrite Hc.
Qed.

Lemma sim_update_qat_config m q :
  sim (Buffers.update_membrane m (set_qat_config q)) (update_membrane m (set_qat_config q)).
Proof.
  intros rh h [] h' t HR (Mb & HMb & -> & ->)%update_membrane_Some.
  destruct HR as [Hm Hn Hc Hs Hp Ht Hl Hlen Hsh Hseen Hkept].
  exists (Buffers.set_membranes (<[m := set_qat_config q Mb]> (Buffers.membranes rh)) rh).
  rewrite Hm in HMb. split.
  { unfold Buffers.update_membrane, Buffers.bind, Buffers.load_membrane, Buffers.modify.
    by rewrite HMb. }
  split; try done.
  - simpl. by rewrite Hm.
  - intros m'. simpl. destruct (decide (m' = m)) as [->|Hne].
    + rewrite lookup_insert_eq, <- Hl, HMb. done.
    + by rewrite lookup_insert_ne.
Qed.

Lemma sim_load_membrane {A} m (k : ggml_p9ml_membrane → Buffers.M A)
    (k' : ggml_p9ml_membrane → M A) :
  (∀ Mb, links <$> Buffers.membranes rh0 !! m = Some (links Mb) → sim (k Mb) (k' Mb)) →
  sim (Buffers.bind (Buffers.load_membrane m) k) (bind (load_membrane m) k').
Proof.
  intros Hk rh h y h' t HR
    (Mb & h1 & t1 & t2 & (HMb & -> & ->)%load_membrane_Some & H2 & ->)%bind_Some.
  rewrite (ag_membranes _ _ _ _ _ HR) in HMb.
  assert (Hl : links <$> Buffers.membranes rh0 !! m = Some (links Mb)).
  { by rewrite <- (ag_links _ _ _ _ _ HR), HMb. }
  destruct (Hk Mb Hl _ _ _ _ _ HR H2) as (rh2 & E2 & HR2).
  exists rh2. split; [|done]. unfold Buffers.bind, Buffers.load_membrane. by rewrite HMb, E2.
Qed.

Lemma sim_array_get {A} arr i (k : ptr → Buffers.M A) (k' : ptr → M A) :
  (∀ l p, arr = Some l → (0 ≤ i)%Z → l !! Z.to_nat i = Some p → sim (k p) (k' p)) →
  sim (Buffers.bind (Buffers.array_get arr i) k) (bind (array_get arr i) k').
Proof.
  intros Hk rh h y h' t HR
    (p & h1 & t1 & t2 & (l & -> & Hi & Hp & -> & ->)%array_get_Some & H2 & ->)%bind_Some.
  destruct (Hk l p eq_refl Hi Hp _ _ _ _ _ HR H2) as (rh2 & E2 & HR2).
  exists rh2. split; [|done]. unfold Buffers.bind, Buffers.array_get.
  destruct (Z.ltb_spec i 0); [lia|]. rewrite Hp. unfold Buffers.ret. by rewrite E2.
Qed.

Lemma sim_for_from (body : Z → Buffers.M unit) (body' : Z → M unit) : ∀ n i,
  (∀ j, (i ≤ j < i + Z.of_nat n)%Z → sim (body j) (body' j)) →
  sim (Buffers.for_from i n body) (for_from i n body').
Proof.
  induction n as [|n IH]; intros i Hb; [apply sim_ret|].
  cbn [Buffers.for_from for_from]. apply sim_bind; [apply Hb; lia|].
  intros _. apply IH. intros j Hj. apply Hb. lia.
Qed.

Lemma sim_for_loop (body : Z → Buffers.M unit) (body' : Z → M unit) n :
  (∀ j, (0 ≤ j < n)%Z → sim (body j) (body' j)) →
  sim (Buffers.for_loop n body) (for_loop n body').
Proof. intros Hb. apply sim_for_from. intros j Hj. apply Hb. lia. Qed.

Lemma sim_qat_store_config m c :
  sim (Buffers.qat_store_config m c) (qat_store_config m c).
Proof.
  apply sim_load_membrane. intros Mb _. destruct (qat_config Mb); [apply sim_ret|].
  apply sim_bind; [apply sim_malloc|]. intros [|]; cbn [negb]; [|apply sim_ret].
  apply sim_bind; [apply sim_fresh_config|]. intros q.
  apply sim_bind; [apply sim_update_qat_config|]. intros _.
  apply sim_bind; [apply sim_load_config|]. intros cfg.
  apply sim_bind; [apply sim_store_config|]. intros _. apply sim_ret.
Qed.

Lemma agrees_tensor rh h s T :
  R rh h → tensors h !! s = Some T →
  ∃ S, Buffers.tensors rh !! s = Some S ∧ Buffers.tensors rh0 !! s = Some S ∧
    Buffers.type S = type T ∧ Buffers.nelements S = nelements T ∧
    match Buffers.data S, data T with
    | Some (b, off), Some d =>
        length d = length (drop off (default [] (Buffers.buffers rh !! b)))
    | None, None => True
    | _, _ => False
    end.
Proof.
  intros HR HT. pose proof (ag_shapes _ _ _ _ _ HR s) as Hsh. rewrite HT in Hsh.
  unfold by_value in Hsh. cbn [tensors] in Hsh. rewrite lookup_fmap in Hsh.
  destruct (Buffers.tensors rh0 !! s) as [S|] eqn:HS; [|done].
  exists S. rewrite (ag_tensors _ _ _ _ _ HR). split; [done|]. split; [done|].
  injection Hsh as Hty Hn Hd. cbn in Hty, Hn, Hd. split; [done|]. split; [done|].
  destruct (Buffers.data S) as [[b off]|], (data T) as [d|]; try done.
  injection Hd as ->. rewrite !length_drop.
  pose proof (ag_lengths _ _ _ _ _ HR b) as Hlen.
  destruct (Buffers.buffers rh !! b), (Buffers.buffers rh0 !! b); try done.
  simpl in Hlen |- *. injection Hlen as Hlen. by rewrite Hlen.
Qed.

Lemma agrees_noised rh h s T S b off blk d n scale :
  R rh h → tensors h !! s = Some T → Buffers.tensors rh0 !! s = Some S →
  Buffers.type S = type T → Buffers.nelements S = nelements T →
  data T = Some d → Buffers.data S = Some (b, off) → Buffers.buffers rh !! b = Some blk →
  (off + n ≤ length blk)%nat → length d = length (drop off blk) → ¬ U b →
  (∀ t Tt bt offt, G t → t ≠ s → Buffers.tensors rh0 !! t = Some Tt →
     Buffers.data Tt = Some (bt, offt) → bt ≠ b) →
  R (Buffers.set_seed (seed_after n (Buffers.seed rh))
       (Buffers.set_buffers
          (<[b := take off blk ++ perturbed n (drop off blk) (Buffers.seed rh) scale]>
             (Buffers.buffers rh)) rh))
    (set_tensors (<[s := set_data (Some (perturbed n d (seed h) scale)) T]> (tensors h))
       (set_seed (seed_after n (seed h)) h)).
Proof.
  intros HR HT HS0 Hty Hn HdT HdS Hb Hle Hlend HU Hpriv.
  destruct HR as [Hm Hns Hc Hs Hp Ht Hl Hlen Hsh Hseen Hkept]. split; try done.
  - simpl. by rewrite Hs.
  - intros b'. simpl. destruct (decide (b' = b)) as [->|Hne].
    + rewrite lookup_insert_eq, <- Hlen, Hb. simpl. f_equal.
      rewrite length_app, length_take, perturbed_length, length_drop. lia.
    + by rewrite lookup_insert_ne.
  - intros t. simpl. destruct (decide (t = s)) as [->|Hne].
    + rewrite lookup_insert_eq, <- Hsh, HT. simpl. unfold shape. simpl.
      by rewrite perturbed_length, HdT.
    + by rewrite lookup_insert_ne.
  - intros t Gt. unfold by_value. cbn [tensors Buffers.tensors Buffers.set_seed
      Buffers.set_buffers set_tensors]. rewrite lookup_fmap.
    destruct (decide (t = s)) as [->|Hne].
    + rewrite lookup_insert_eq, Ht, HS0. simpl. f_equal.
      pose proof (Hseen s Gt) as E. rewrite HT in E. unfold by_value in E.
      cbn [tensors] in E. rewrite lookup_fmap, Ht, HS0 in E. injection E as E.
      rewrite E in HdT. unfold seen in HdT. cbn [data] in HdT. rewrite HdS, Hb in HdT.
      injection HdT as <-. unfold set_data, seen. rewrite Hty, Hn, HdS.
      cbn [Buffers.buffers Buffers.set_seed Buffers.set_buffers].
      rewrite lookup_insert_eq. cbn [default].
      rewrite Hs. f_equal. f_equal. symmetry. apply drop_app_length'.
      rewrite length_take. lia.
    + rewrite lookup_insert_ne by done. rewrite (Hseen t Gt). unfold by_value.
      cbn [tensors]. rewrite lookup_fmap.
      destruct (Buffers.tensors rh !! t) as [Tt|] eqn:HTt; [|done]. simpl. f_equal.
      unfold seen. destruct (Buffers.data Tt) as [[bt offt]|] eqn:Hdt; [|done].
      cbn [Buffers.buffers Buffers.set_seed Buffers.set_buffers].
      rewrite lookup_insert_ne; [done|].
      intros <-. rewrite Ht in HTt. by eapply (Hpriv t Tt b offt).
  - intros b' Ub'. simpl. rewrite lookup_insert_ne; [by apply Hkept|]. by intros ->.
Qed.

Lemma links_inv Mb0 Mb :
  links Mb0 = links Mb →
  children Mb0 = children Mb ∧ num_children Mb0 = num_children Mb ∧
  objects Mb0 = objects Mb ∧ num_objects Mb0 = num_objects Mb.
Proof. unfold links. by intros [= ? ? ? ?]. Qed.

Lemma unperturbed h s T d scale :
  tensors h !! s = Some T → data T = Some d →
  set_tensors (<[s := set_data (Some (perturbed 0 d (seed h) scale)) T]> (tensors h))
    (set_seed (seed_after 0 (seed h)) h) = h.
Proof.
  intros HT Hd. unfold perturbed. rewrite take_0, drop_0. cbn [zip_with app seed_after].
  assert (set_data (Some d) T = T) as -> by (destruct T; simpl in Hd; by subst).
  rewrite insert_id by done. by destruct h.
Qed.

Lemma sim_qat_object m c i :
  Ms m → (∀ Mb0, Buffers.membranes rh0 !! m = Some Mb0 → (i < num_objects Mb0)%Z) →
  sim (Buffers.qat_object m c i) (qat_object m c i).
Proof.
  intros HMs Hi. apply sim_load_membrane. intros Mb Hl. apply sim_array_get.
  intros os [s|] Hos Hi0 Hp; [|apply sim_ret].
  intros rh h y h' t HR Hrun.
  apply bind_Some in Hrun as (T & ? & ? & ? & (HT & -> & ->)%load_tensor_Some & Hrun & ->).
  destruct (agrees_tensor rh h s T HR HT) as (S & HS & HS0 & Hty & Hn & Hd).
  unfold Buffers.bind at 1, Buffers.load_tensor at 1. rewrite HS.
  assert (Hnq : Buffers.not_quantizable S = not_quantizable T).
  { unfold Buffers.not_quantizable, not_quantizable. by rewrite Hty. }
  rewrite Hnq. destruct (not_quantizable T) eqn:Hq.
  { injection Hrun as <- <- <-. by exists rh. }
  destruct (Buffers.data S) as [[b off]|] eqn:HdS, (data T) as [d|] eqn:HdT; try done.
  2:{ injection Hrun as <- <- <-. by exists rh. }
  apply bind_Some in Hrun as (cfg & ? & ? & ? & (Hc & -> & ->)%load_config_Some & Hrun & ->).
  apply bind_Some in Hrun as (d' & h1 & t1 & t2 & Hnoise & Hupd & ->).
  pose proof (add_noise_Some _ _ _ _ _ _ _ Hnoise) as Hle.
  rewrite (add_noise_run _ _ _ _ Hle) in Hnoise. injection Hnoise as <- <- <-.
  apply update_tensor_Some in Hupd as (T1 & HT1 & -> & ->).
  assert (T1 = T) as -> by (cbn in HT1; congruence). clear HT1.
  destruct (Buffers.membranes rh0 !! m) as [Mb0|] eqn:HMb0; [|done].
  simpl in Hl. apply (inj Some) in Hl. apply links_inv in Hl as (_ & _ & Hobj & Hnum).
  destruct (Hentries m Mb0 os i s S b off HMs HMb0) as (Hcount & HU & Hpriv); try done.
  { by rewrite Hobj. }
  { split; [done|]. by apply Hi. }
  unfold Buffers.ggml_nelements, size_t. rewrite Z.mod_small by lia. rewrite Hn.
  unfold ggml_nelements in *. remember (Z.to_nat (nelements T)) as n eqn:En.
  destruct y. cbn [app tensors set_seed].
  assert (Hc' : Buffers.configs rh !! c = Some cfg)
    by by rewrite <- (ag_configs _ _ _ _ _ HR).
  destruct (decide (n = 0%nat)) as [->|Hn0].
  { cbn [Buffers.add_noise]. exists rh. split; [done|].
    by rewrite (unperturbed h s T d (noise_scale cfg) HT HdT). }
  destruct (Buffers.buffers rh !! b) as [blk|] eqn:Hb;
    rewrite length_drop in Hd; simpl in Hd; [|lia].
  rewrite (buffers_add_noise_run c cfg n b off rh blk Hc' Hb) by lia.
  eexists. split; [done|].
  apply (agrees_noised rh h s T S b off blk d n (noise_scale cfg)); try done; [lia|].
  by rewrite length_drop.
Qed.

Lemma sim_apply_data_free_qat : ∀ fuel mp cp,
  (∀ m, mp = Some m → Ms m) →
  sim (Buffers.ggml_p9ml_apply_data_free_qat fuel mp cp)
      (ggml_p9ml_apply_data_free_qat fuel mp cp).
Proof.
  induction fuel as [|fuel IH]; intros mp cp HMs; [apply sim_undefined|].
  cbn [Buffers.ggml_p9ml_apply_data_free_qat ggml_p9ml_apply_data_free_qat].
  destruct mp as [m|], cp as [c|]; try apply sim_ret.
  specialize (HMs m eq_refl).
  apply sim_bind; [apply sim_visit|]. intros _.
  apply sim_bind; [apply sim_qat_store_config|]. intros [|]; cbn [negb]; [|apply sim_ret].
  apply sim_load_membrane. intros Mb Hl.
  apply sim_bind.
  { apply sim_for_loop. intros j Hj. apply sim_qat_object; [done|].
    intros Mb0 HMb0. rewrite HMb0 in Hl. simpl in Hl. apply (inj Some) in Hl.
    apply links_inv in Hl as (_ & _ & _ & Hnum). lia. }
  intros _. apply sim_load_membrane. intros Mb2 Hl2.
  apply sim_bind; [|intros _; apply sim_ret].
  apply sim_for_loop. intros j Hj. apply sim_load_membrane. intros Mb3 Hl3.
  apply sim_array_get. intros cs ch Hcs Hj0 Hch.
  apply sim_bind; [|intros _; apply sim_ret].
  apply IH. intros m' ->.
  destruct (Buffers.membranes rh0 !! m) as [Mb0|] eqn:HMb0; [|done].
  simpl in Hl2, Hl3. apply (inj Some) in Hl2, Hl3.
  apply links_inv in Hl2 as (_ & Hnum2 & _). apply links_inv in Hl3 as (Hch3 & _).
  apply (Hclosed m Mb0 cs j m' HMs HMb0); [congruence|lia|done].
Qed.

End Simulation.

(** ** Well-formed trees on the store with buffers *)

Lemma tree_ok_root chk d h a :
  tree_ok chk d h a = true → a ∈ preorder d h a.
Proof.
  intros (d' & m & cs & -> & _)%tree_ok_unfold. simpl. apply list_elem_of_here.
Qed.

Lemma preorder_inv d h a m :
  m ∈ preorder (S d) h a →
  m = a ∨ ∃ A cs c, membranes h !! a = Some A ∧
    read_ptrs (children A) (num_children A) = Some cs ∧ Some c ∈ cs ∧ m ∈ preorder d h c.
Proof.
  simpl. intros [->|Hin]%elem_of_cons; [by left|]. right.
  destruct (membranes h !! a) as [A|]; [|by apply elem_of_nil in Hin].
  destruct (read_ptrs (children A) (num_children A)) as [cs|] eqn:Hcs;
    [|by apply elem_of_nil in Hin].
  apply list_elem_of_In, in_flat_map in Hin as ([c|] & Hc & Hm);
    [|by apply list_elem_of_In, elem_of_nil in Hm].
  exists A, cs, c. split; [done|]. split; [done|]. split; by apply list_elem_of_In.
Qed.

Lemma tree_ok_at chk h : ∀ d a m Mb,
  tree_ok chk d h a = true → m ∈ preorder d h a → membranes h !! m = Some Mb →
  chk h Mb = true.
Proof.
  induction d as [|d IH]; intros a m Mb Hok Hin HMb; [done|].
  pose proof Hok as (d' & A & cs & [= <-] & HA & Hchk & Hcs & Hkids)%tree_ok_unfold.
  apply preorder_inv in Hin as [->|(A' & cs' & c & HA' & Hcs' & Hc & Hin)].
  - congruence.
  - rewrite HA in HA'. injection HA' as <-. rewrite Hcs in Hcs'. injection Hcs' as <-.
    by apply (IH c m Mb (Hkids c Hc)).
Qed.

Lemma preorder_closed chk h : ∀ d a m Mb cs i ch,
  tree_ok chk d h a = true → m ∈ preorder d h a → membranes h !! m = Some Mb →
  children Mb = Some cs → (0 ≤ i < num_children Mb)%Z →
  cs !! Z.to_nat i = Some (Some ch) → ch ∈ preorder d h a.
Proof.
  induction d as [|d IH]; intros a m Mb cs i ch Hok Hin HMb Hcs Hi Hch; [done|].
  pose proof Hok as (d' & A & csA & [= <-] & HA & _ & HcsA & Hkids)%tree_ok_unfold.
  apply preorder_inv in Hin as [->|(A' & cs' & c & HA' & Hcs' & Hc & Hin)].
  - rewrite HA in HMb. injection HMb as <-.
    destruct (read_ptrs_lookup _ _ _ i HcsA Hi) as (l & p & Hl & Hp & Hpi).
    assert (l = cs) as -> by congruence. assert (p = Some ch) as -> by congruence.
    assert (Hmem : Some ch ∈ csA) by by eapply list_elem_of_lookup_2.
    eapply preorder_child; [done|done|done|]. eapply tree_ok_root. by apply Hkids.
  - rewrite HA in HA'. injection HA' as <-. rewrite HcsA in Hcs'. injection Hcs' as <-.
    eapply preorder_child; [done|done|done|].
    by apply (IH c m Mb cs i ch (Hkids c Hc)).
Qed.

Lemma held_entry d rh a m Mb os i p :
  objects_ok (by_value rh) Mb = true ∨ Buffers.objects_ok rh Mb = true →
  m ∈ preorder d (by_value rh) a → Buffers.membranes rh !! m = Some Mb →
  objects Mb = Some os → (0 ≤ i < num_objects Mb)%Z → os !! Z.to_nat i = Some p →
  p ∈ held d rh a.
Proof.
  intros Hok Hin HMb Hos Hi Hp. unfold held. apply list_elem_of_In, in_flat_map.
  exists m. split; [by apply list_elem_of_In|]. apply list_elem_of_In.
  unfold objects_of. cbn [membranes by_value]. rewrite HMb.
  assert (∃ ts, read_ptrs (objects Mb) (num_objects Mb) = Some ts) as [ts Hts].
  { destruct Hok as [Hok|Hok]; [unfold objects_ok in Hok|unfold Buffers.objects_ok in Hok];
      destruct (read_ptrs _ _) as [ts|]; by eauto. }
  rewrite Hts. simpl.
  destruct (read_ptrs_lookup _ _ _ i Hts Hi) as (l & q & Hl & Hq & Hqi).
  assert (l = os) as -> by congruence. assert (q = p) as -> by congruence.
  by eapply list_elem_of_lookup_2.
Qed.

Lemma buffers_objects_ok_lookup rh Mb os i s :
  Buffers.objects_ok rh Mb = true → objects Mb = Some os → (0 ≤ i < num_objects Mb)%Z →
  os !! Z.to_nat i = Some (Some s) →
  ∃ T, Buffers.tensors rh !! s = Some T ∧ Buffers.tensor_ok rh T = true.
Proof.
  unfold Buffers.objects_ok. destruct (read_ptrs _ _) as [ts|] eqn:Hts; [|done].
  intros Hall Hos Hi Hp.
  destruct (read_ptrs_lookup _ _ _ i Hts Hi) as (l & q & Hl & Hq & Hqi).
  assert (l = os) as -> by congruence. assert (q = Some s) as -> by congruence.
  rewrite forallb_forall in Hall. specialize (Hall (Some s)). cbn beta iota in Hall.
  destruct (Buffers.tensors rh !! s) as [T|].
  - exists T. split; [done|]. apply Hall, list_elem_of_In. by eapply list_elem_of_lookup_2.
  - discriminate Hall. apply list_elem_of_In. by eapply list_elem_of_lookup_2.
Qed.

(** A tree that is well formed on the store with buffers is well formed in
    the first model, each tensor holding what it sees. *)
Lemma buffers_objects_ok_by_value rh Mb :
  Buffers.objects_ok rh Mb = true → objects_ok (by_value rh) Mb = true.
Proof.
  unfold Buffers.objects_ok, objects_ok. destruct (read_ptrs _ _) as [ts|]; [|done].
  rewrite !forallb_forall. intros Hall [s|] Hin; [|done]. specialize (Hall (Some s) Hin).
  cbn beta iota in Hall. cbn [tensors by_value]. rewrite lookup_fmap.
  destruct (Buffers.tensors rh !! s) as [T|]; [|done]. simpl.
  unfold Buffers.tensor_ok in Hall. unfold tensor_ok, not_quantizable, seen. cbn.
  unfold Buffers.not_quantizable in Hall.
  destruct (negb (ggml_type_eqb (Buffers.type T) GGML_TYPE_F32) &&
            negb (ggml_type_eqb (Buffers.type T) GGML_TYPE_F16)); [done|].
  simpl in Hall |- *. destruct (Buffers.data T) as [[b off]|]; [|done].
  apply andb_prop in Hall as [_ Hall]. apply Nat.leb_le in Hall. apply Nat.leb_le.
  rewrite length_drop. lia.
Qed.

Lemma buffers_tree_ok_by_value d rh a :
  buffers_tree_ok d rh a = true → tree_ok objects_ok d (by_value rh) a = true.
Proof.
  unfold buffers_tree_ok. intros Hok. eapply tree_ok_chk; [exact Hok|]. intros m Mb Hin HMb.
  apply buffers_objects_ok_by_value.
  by apply (tree_ok_at (λ _, Buffers.objects_ok rh) (by_value rh) d a m Mb).
Qed.

Lemma entries_ok_intro d rh a (G U : addr → Prop) :
  buffers_tree_ok d rh a = true →
  (∀ s T b off, Some s ∈ held d rh a → Buffers.tensors rh !! s = Some T →
     Buffers.not_quantizable T = false → Buffers.data T = Some (b, off) →
     ¬ U b ∧ ∀ t Tt bt offt, G t → t ≠ s → Buffers.tensors rh !! t = Some Tt →
               Buffers.data Tt = Some (bt, offt) → bt ≠ b) →
  entries_ok rh (λ m, m ∈ preorder d (by_value rh) a) G U.
Proof.
  unfold buffers_tree_ok. intros Hok Hheld m Mb os i s T b off Hin HMb Hos Hi Hs HT Hq Hd.
  assert (Hobj : Buffers.objects_ok rh Mb = true)
    by by apply (tree_ok_at (λ _, Buffers.objects_ok rh) (by_value rh) d a m Mb).
  split.
  - destruct (buffers_objects_ok_lookup rh Mb os i s Hobj Hos Hi Hs) as (T' & HT' & Hok').
    assert (T' = T) as -> by congruence. unfold Buffers.tensor_ok in Hok'.
    rewrite Hq, Hd in Hok'. simpl in Hok'.
    apply andb_prop in Hok' as [[H0 H1]%andb_prop _]. lia.
  - apply (Hheld s T b off); [|done|done|done].
    eapply held_entry; [by right|done|done|done|done|done].
Qed.

(** ** The noise bound and the frame of the pass, with views *)

(** C6 as amended. The pass is run on the store with buffers, on a
    well-formed tree with fuel beyond its depth and a config whose noise
    scale [s] is finite and not negative. [ta] is an F32 tensor whose data
    pointer leads to the element [off] of buffer [b], and among the tensors
    that the visited membranes hold no other F32 or F16 tensor has its data
    in [b]: no view of [ta] and no tensor that [ta] is a view of is
    registered in the tree. Every value that the generator draws is a finite
    binary32 number between [-s] and [s]. The pass returns, no tensor struct
    has changed, and the data of [ta] is what it was after [k] runs of the
    noise loop, each of which adds one drawn value to each of the first
    [nelements] elements: [k] is at most the number of entries of the
    visited object arrays that point at [ta], and is that number when every
    [malloc] succeeds. When at most one entry points at [ta], each element is
    between the binary32 values of [old - s] and [old + s]; when [s] is
    zero, each element has the value it had. *)
Theorem noise_stays_within_scale_without_sharing (d fuel : nat) (rh : Buffers.heap)
    (a c ta b : addr) (off : nat) (cfg : ggml_p9ml_qat_config) (T : Buffers.ggml_tensor)
    (blk : list spec_float) :
  buffers_tree_ok d rh a = true →
  Buffers.configs rh !! c = Some cfg → (d < fuel)%nat →
  nonneg_finite (noise_scale cfg) = true →
  Buffers.tensors rh !! ta = Some T → Buffers.type T = GGML_TYPE_F32 →
  Buffers.data T = Some (b, off) → Buffers.buffers rh !! b = Some blk →
  unshared d rh a ta b = true →
  (∀ sd, finite32 (noise_of_seed sd (noise_scale cfg)) = true ∧
         (- val (noise_scale cfg) ≤ val (noise_of_seed sd (noise_scale cfg))
          ≤ val (noise_scale cfg))%Z) ∧
  ∃ r rh' t blk' k,
    Buffers.ggml_p9ml_apply_data_free_qat fuel (Some a) (Some c) rh = Some (r, rh', t) ∧
    Buffers.tensors rh' = Buffers.tensors rh ∧
    Buffers.buffers rh' !! b = Some blk' ∧ length blk' = length blk ∧
    noised_times (Z.to_nat (Buffers.nelements T)) (noise_scale cfg)
      (drop off blk) k (drop off blk') ∧
    (k ≤ occurrences d (by_value rh) a ta)%nat ∧
    (Buffers.malloc_plan rh = [] → k = occurrences d (by_value rh) a ta) ∧
    ((occurrences d (by_value rh) a ta ≤ 1)%nat →
       Forall2 (within_scale (noise_scale cfg)) (drop off blk) (drop off blk')) ∧
    (is_zero (noise_scale cfg) = true → Forall2 same_value (drop off blk) (drop off blk')).
Proof.
  intros Hok Hc Hfuel Hs HT Hty Hd Hb Hun.
  assert (HTv : tensors (by_value rh) !! ta = Some (seen rh T)).
  { cbn [tensors by_value]. by rewrite lookup_fmap, HT. }
  assert (Hdv : data (seen rh T) = Some (drop off blk)).
  { unfold seen. cbn [data]. by rewrite Hd, Hb. }
  destruct (noise_stays_within_scale d fuel (by_value rh) a c ta cfg (seen rh T) (drop off blk)
              (buffers_tree_ok_by_value d rh a Hok) Hc Hfuel Hs HTv Hty Hdv)
    as (Hrange & r & h' & t & T' & dd' & k & Hrun & HT' & Hd' & Hnt & Hle & Hex & Hin & Hzero).
  split; [exact Hrange|].
  set (G := λ t : addr, t = ta). set (U := λ _ : addr, False).
  assert (Hentries : entries_ok rh (λ m, m ∈ preorder d (by_value rh) a) G U).
  { apply entries_ok_intro; [done|]. intros s Ts bs offs Hheld HTs Hq Hds.
    split; [by intros []|]. intros t0 Tt bt offt -> Hne HTt Hdt.
    assert (Tt = T) as -> by congruence. assert (bt = b) as -> by congruence.
    unfold unshared in Hun. rewrite forallb_forall in Hun.
    specialize (Hun (Some s) (proj1 (list_elem_of_In _ _) Hheld)).
    rewrite bool_decide_eq_false_2 in Hun by congruence.
    unfold Buffers.writes_into in Hun. rewrite HTs, Hq, Hds in Hun. simpl in Hun.
    apply negb_true_iff, bool_decide_eq_false_1 in Hun. congruence. }
  assert (Hclosed : closed_under_children rh (λ m, m ∈ preorder d (by_value rh) a)).
  { intros m Mb cs i ch Hm HMb Hcs Hi Hch. by eapply (preorder_closed _ (by_value rh)). }
  destruct (sim_apply_data_free_qat rh _ G U Hclosed Hentries fuel (Some a) (Some c)
              (λ m E, eq_ind a (λ x, x ∈ preorder d (by_value rh) a)
                        (tree_ok_root _ d (by_value rh) a Hok) m
                        (f_equal (default a) E))
              rh (by_value rh) r h' t (agrees_start rh G U) Hrun)
    as (rh' & Hrun' & HR).
  pose proof (ag_tensors _ _ _ _ _ HR) as Hten.
  pose proof (ag_seen _ _ _ _ _ HR ta eq_refl) as Hseen.
  rewrite HT' in Hseen. cbn [tensors by_value] in Hseen. rewrite lookup_fmap, Hten, HT in Hseen.
  injection Hseen as ->. unfold seen in Hd'. cbn [data] in Hd'. rewrite Hd in Hd'.
  injection Hd' as <-.
  pose proof (ag_lengths _ _ _ _ _ HR b) as Hlen. rewrite Hb in Hlen.
  destruct (Buffers.buffers rh' !! b) as [blk'|] eqn:Hb'; [|done].
  injection Hlen as Hlen. simpl in *.
  exists r, rh', t, blk', k. split; [done|]. split; [done|]. split; [done|]. split; [done|].
  split; [done|]. split; [done|]. split; [exact Hex|]. split; [exact Hin|exact Hzero].
Qed.

(** X10. What the data-free QAT pass leaves exactly as it was, on the store
    with buffers: on a well-formed tree the pass returns, every tensor
    struct is as it was (type, element count and data pointer), every buffer
    has kept its length, and a buffer has kept its contents when no F32 or
    F16 tensor held by a visited membrane has its data pointer in it. *)
Theorem apply_data_free_qat_leaves_unwritten_buffers (d fuel : nat) (rh : Buffers.heap)
    (a c : addr) (cfg : ggml_p9ml_qat_config) :
  buffers_tree_ok d rh a = true →
  Buffers.configs rh !! c = Some cfg → (d < fuel)%nat →
  ∃ r rh' t,
    Buffers.ggml_p9ml_apply_data_free_qat fuel (Some a) (Some c) rh = Some (r, rh', t) ∧
    Buffers.tensors rh' = Buffers.tensors rh ∧
    (∀ b, length <$> Buffers.buffers rh' !! b = length <$> Buffers.buffers rh !! b) ∧
    ∀ b, unwritten d rh a b = true → Buffers.buffers rh' !! b = Buffers.buffers rh !! b.
Proof.
  intros Hok Hc Hfuel.
  destruct (apply_data_free_qat_spec c cfg d fuel (by_value rh) a
              (buffers_tree_ok_by_value d rh a Hok) Hc Hfuel) as (r & h' & t & Hrun & _).
  set (G := λ _ : addr, False). set (U := λ b : addr, unwritten d rh a b = true).
  assert (Hentries : entries_ok rh (λ m, m ∈ preorder d (by_value rh) a) G U).
  { apply entries_ok_intro; [done|]. intros s Ts bs offs Hheld HTs Hq Hds.
    split; [|by intros t0 Tt bt offt []]. unfold U, unwritten. rewrite forallb_forall.
    intros Hall. specialize (Hall (Some s) (proj1 (list_elem_of_In _ _) Hheld)).
    unfold Buffers.writes_into in Hall. rewrite HTs, Hq, Hds in Hall. simpl in Hall.
    by rewrite bool_decide_eq_true_2 in Hall. }
  assert (Hclosed : closed_under_children rh (λ m, m ∈ preorder d (by_value rh) a)).
  { intros m Mb cs i ch Hm HMb Hcs Hi Hch. by eapply (preorder_closed _ (by_value rh)). }
  destruct (sim_apply_data_free_qat rh _ G U Hclosed Hentries fuel (Some a) (Some c)
              (λ m E, eq_ind a (λ x, x ∈ preorder d (by_value rh) a)
                        (tree_ok_root _ d (by_value rh) a Hok) m
                        (f_equal (default a) E))
              rh (by_value rh) r h' t (agrees_start rh G U) Hrun)
    as (rh' & Hrun' & HR).
  exists r, rh', t. split; [done|]. split; [exact (ag_tensors _ _ _ _ _ HR)|].
  split; [exact (ag_lengths _ _ _ _ _ HR)|]. intros b Hb. by apply (ag_kept _ _ _ _ _ HR).
Qed.

(** ** Views at concrete stores *)

(** A view changes with the tensor it views: no object array points at
    tensor 2, and after the pass on the root it sees other floats than
    before, those that the noise loop on tensor 1 wrote. *)
Lemma a_view_changes_with_its_tensor :
  occurrences 1 (by_value demo_view) 1 2 = 0%nat ∧
  (data <$> tensors (by_value demo_view) !! 2%positive) = Some (Some [f32_one; f32_one]) ∧
  ∃ rh', Buffers.ggml_p9ml_apply_data_free_qat 2 (Some 1%positive) (Some 1%positive)
           demo_view = Some (0%Z, rh', [1%positive]) ∧
         (data <$> tensors (by_value rh') !! 2%positive) =
           Some (Some [S754_finite false 8648913 (-23); S754_finite false 16122282 (-24)]).
Proof.
  split; [by vm_compute|]. split; [by vm_compute|].
  eexists. split; [by vm_compute|]. by vm_compute.
Qed.

(** A tensor and its view, each held once by the root: the floats they share
    are perturbed twice by one pass, and with the noise scale 0.1f the last
    one ends near 0.8823, below the binary32 value of [1.0 - 0.1]. *)
Lemma noise_bound_fails_for_a_tensor_and_its_view :
  buffers_tree_ok 1 demo_view_held 1 = true ∧
  occurrences 1 (by_value demo_view_held) 1 1 = 1%nat ∧
  occurrences 1 (by_value demo_view_held) 1 2 = 1%nat ∧
  unshared 1 demo_view_held 1 1 1 = false ∧
  ∃ rh', Buffers.ggml_p9ml_apply_data_free_qat 2 (Some 1%positive) (Some 1%positive)
           demo_view_held = Some (0%Z, rh', [1%positive]) ∧
         Buffers.buffers rh' !! 1%positive =
           Some [f32_two; S754_finite false 8942448 (-23);
                 S754_finite false 14802816 (-24)] ∧
         f32_leb (f32_sub f32_one f32_0_1) (S754_finite false 14802816 (-24)) = false.
Proof.
  split; [by vm_compute|]. split; [by vm_compute|]. split; [by vm_compute|].
  split; [by vm_compute|].
  eexists. split; [by vm_compute|]. split; by vm_compute.
Qed.

Lemma noise_stays_within_scale_without_sharing_demo :
  buffers_tree_ok 1 demo_view 1 = true ∧
  unshared 1 demo_view 1 1 1 = true ∧
  ∃ r rh' t blk',
    Buffers.ggml_p9ml_apply_data_free_qat 2 (Some 1%positive) (Some 1%positive) demo_view =
      Some (r, rh', t) ∧
    Buffers.buffers rh' !! 1%positive = Some blk' ∧
    Forall2 (within_scale f32_0_1) [f32_one; f32_one] (drop 1 blk').
Proof.
  assert (H1 : buffers_tree_ok 1 demo_view 1 = true) by (vm_compute; reflexivity).
  assert (H2 : unshared 1 demo_view 1 1 1 = true) by (vm_compute; reflexivity).
  split; [exact H1|]. split; [exact H2|].
  destruct (noise_stays_within_scale_without_sharing 1 2 demo_view 1 1 1 1 1 demo_config
              {| Buffers.type := GGML_TYPE_F32; Buffers.nelements := 2;
                 Buffers.data := Some (1%positive, 1%nat) |}
              [f32_two; f32_one; f32_one] H1)
    as [_ (r & rh' & t & blk' & k & Hrun & _ & Hb & _ & _ & _ & _ & Hin & _)].
  - vm_compute. reflexivity.
  - apply le_n.
  - vm_compute. reflexivity.
  - vm_compute. reflexivity.
  - reflexivity.
  - reflexivity.
  - vm_compute. reflexivity.
  - exact H2.
  - exists r, rh', t, blk'. split; [exact Hrun|]. split; [exact Hb|].
    apply Hin. vm_compute. apply le_n.
Defined.

Lemma apply_data_free_qat_leaves_unwritten_buffers_demo :
  buffers_tree_ok 1 demo_view 1 = true ∧
  unwritten 1 demo_view 1 2 = true ∧
  ∃ r rh' t,
    Buffers.ggml_p9ml_apply_data_free_qat 2 (Some 1%positive) (Some 1%positive) demo_view =
      Some (r, rh', t) ∧
    Buffers.buffers rh' !! 2%positive = Some [f32_two].
Proof.
  assert (H1 : buffers_tree_ok 1 demo_view 1 = true) by (vm_compute; reflexivity).
  assert (H2 : unwritten 1 demo_view 1 2 = true) by (vm_compute; reflexivity).
  split; [exact H1|]. split; [exact H2|].
  destruct (apply_data_free_qat_leaves_unwritten_buffers 1 2 demo_view 1 1 demo_config H1)
    as (r & rh' & t & Hrun & _ & _ & Hkeep).
  - vm_compute. reflexivity.
  - apply le_n.
  - exists r, rh', t. split; [exact Hrun|]. rewrite (Hkeep 2%positive H2).
    vm_compute. reflexivity.
Defined.
